(* ===== verification/_CoqProject ===== *)
-Q . S2P
Prelude.v
GoStrings.v
GoNumbers.v
HkValue.v
HkLex.v
HkHeap.v
HkTree.v
HkParser.v
HkParserProps.v
HkGet.v
HkSerialize.v
HkRoundTrip.v
HkInterp.v
HkInterpAll.v
HkBuilder.v
Config.v
GoSort.v
GoPath.v
Preflight.v
BuildLock.v
Sha256.v
LiveParse.v
GoQuote.v
Fs.v
FsProps.v
FsWalk.v
Host.v
Plan.v
Util.v
Sandbox.v
Download.v
Toolchain.v
HkFile.v
Rootfs.v
RootfsProps.v
Includes.v
IsoBuild.v
IsoProps.v
Oci.v
OciProps.v
Layers.v
BuildFlow.v
Messages.v
System.v
Shipped.v
Cli.v
