(* ===== verification/Prelude.v ===== *)
(** * HackerOS-Builder: a verification development

    HackerOS-Builder is a command line program, written in Go, that builds
    immutable Debian images.  Its parts, all under src/:

    - main.go reads the options, checks user and project, and runs [build
      cloud], [build iso], [build all] or [clean];
    - internal/buildflow composes the builds: preflight checks, the lock of the
      working directory, the configuration and the project directory, then the
      root file system, the push of an OCI image, its pull, the deb-ostree.hk
      inside of it, and the ISO;
    - internal/hk is a library for the .hk configuration format (values, ordered
      maps, lexer, parser, paths, interpolation of references, serializer, a
      fluent builder); internal/config reads config/config.hk with it and
      internal/hkgen writes deb-ostree.hk with it;
    - internal/buildlock, internal/preflight, internal/liveparse,
      internal/download, internal/sandbox and internal/ociimage are the parts
      the flows call for locking, tool checks, the live-build layout, the
      deb-ostree binary, commands inside the image, and registry images;
    - internal/rootfs, internal/isobuild, internal/toolchain, internal/util and
      internal/httpclient drive external tools.

    ** Conventions

    A Go string is a list of bytes ([gostring]), a Go [int] a [Z] that wraps at
    64 bits, a [float64] a [spec_float] of 53 bits.  Code that can fail returns
    [res]: a value, an error, a panic of the runtime, or [OutOfFuel] where the
    model bounds a recursion.  Code with effects is in the monad [ST] over an
    explicit state that survives errors.  Pointers to ordered maps are addresses
    in a heap, so that the parser's stack, the configuration and the resolver
    share the maps they share in the code.  What the host decides (files,
    environment, network, whether a tool exists) is an argument or a class.

    ** Files

    - Prelude: strings, outcomes and monads, machine integers, tactics.
    - GoStrings, GoNumbers, GoSort, GoPath: what the code uses of strings,
      strconv (ParseFloat and formatting of binary64), sort and path/filepath.
      GoQuote: strconv.Quote and double quotes of the shell.  Sha256:
      crypto/sha256 and encoding/hex.
    - Fs: files, directories, inodes, symbolic links, path resolution and the
      operations of os; FsProps: their laws; FsWalk: walking a directory.
    - Host: a machine (files, environment, commands run so far) and the monad of
      the code that works on it; running a command logs it and lets the class
      [External] decide what it does.  Plan: which commands a piece of code
      runs, in which order and environment, as a specification with rules.
    - HkValue, HkHeap (value.go, errors.go, orderedmap.go, config.go), HkLex
      (lexvalue.go, path.go and the scalar part of serialize.go): the data and
      the lexer.  HkTree: trees of values, the abstraction of a heap, and the
      relation between the two.
    - HkParser (parser.go): the parser on the heap, its specification on trees
      ([spec_parse]), and the simulation between them; HkParserProps: the
      theorems.  HkGet: [Get] against [spec_get].
    - HkSerialize, HkRoundTrip (serialize.go): the serializer, its specification,
      and that parsing inverts it on printable configurations.
    - HkInterp, HkInterpAll (interpolate.go): one string against a reference
      evaluator, and the traversal of a whole configuration.
    - HkBuilder (builder.go, hkgen/debostree_config.go), HkFile (their files on
      the disk), Config (config/config.go).
    - Preflight, BuildLock, Sandbox, Download, LiveParse: the packages of those
      names.  Util: internal/util and internal/httpclient.  Toolchain:
      toolchain/toolchain.go and its copy internal/toolchain.go.
    - Rootfs (rootfs/builder.go, debostree_deps.go): the steps of the root file
      system; RootfsProps: its commands, hooks and configuration; Includes: the
      copy of includes.chroot.
    - IsoBuild (isobuild/builder.go, installer.go): the steps of the ISO and the
      files of the installer; IsoProps: its commands and its kernel.
    - Oci (ociimage/push.go, pull.go), OciProps: packing, registry, unpacking,
      and the round trip.  Layers: images of several layers against their
      overlay ([overlay]), by way of trees as maps.
    - BuildFlow (buildflow/{cloud,iso,all}.go): the flows, written against the
      class [Services], the interface of the parts they call; their stages.
      Messages: the texts of the errors (errors.go, and what config, liveparse,
      buildlock and buildflow put around them).  System: the parts put together
      as an instance of that interface, on one machine and a registry.  Shipped:
      the way of the built tree through a whole [build all].  Cli (main.go): the
      program on that system, and an example run of a whole [build all].

    ** What is proved

    - The parser refines the specification on trees on every input: same tree or
      same error, and no panic; errors carry the right line; comments mean
      nothing; insertion under dotted keys is exact; loading a file is parsing
      its content.
    - Serializing terminates, prints the specification and parses back; a string
      is read back as itself unless it is a bare text in brackets.
    - Interpolation always returns; a resolved string is the value of the
      reference evaluator, it fails only without such a value or, where a
      section name has a dot, on a reference to its own path, and the traversal
      changes nothing but strings.
    - Loading config.hk refines a specification on the resolved tree, made of
      tables of words and defaults ([matches], [problem], [outcome] of Config),
      and returns only valid configurations; the sample of README.md is refused;
      the generated deb-ostree.hk parses back.
    - The packages of a project are the words of the lines of its lists that do
      not start with a number sign.
    - The lock excludes other builds under any interleaving, is not reentrant and
      is released; the command [clean] of Cli breaks it.
    - The sandbox passes its arguments through the shell unchanged; a download is
      installed only with the published checksum, if a list of them that names
      the binary was served, and a refused one leaves the files alone.
    - Preparing the tools, building a root file system and building an ISO run
      exactly the commands of their plans, whatever the commands do and however
      the build ends; exactly the tools that are nowhere on the search path are
      fetched, and they are downloaded and unpacked, never installed; of a
      package's directory exactly the executable entries are copied.
    - The project's tree is merged into the image exactly, if it is real and
      fits what is there; hooks leave neither
      their scripts nor the stub for sudo behind; the image's deb-ostree.hk is
      the generated one; the ISO gets the last kernel in the order of names.
    - An array index is read modulo 2^64.
    - An image that is pulled is a copy of the directory that was pushed, up to
      what [copy_of] lists as lost (a pull that fails while reading the layers
      has, as in the code, already cleared its target).  A layered image unpacks to the overlay of
      its layers, if it has no hard links, its whiteouts come first and its
      entries fit the trees they are replayed on; [replaced_in_place] and
      [opaque_removes_own] show what happens to others.  Names with double dots
      are written outside of the target.
    - The tree a [build all] hands to the ISO builder is such a copy of the root
      file system it built, but for deb-ostree.hk, which names the pushed image;
      mksquashfs reads it as it is unless the installer is first put into it.
    - The message of a failed [build all] is the text for the part that failed,
      with the error it returned on the host it was called on, or for the check
      that stopped it, and has the place of a syntax error in config.hk.
    - [build all] performs its stages in order, stops at the first failure,
      always releases the lock, and does nothing before tools and lock are there;
      on the machine, its commands are those of one plan for the configuration
      and the project it read and the configuration it reads again for the ISO.
      The command line is guarded and its forms agree;
      [clean] removes exactly what it should from the disk.

    ** Bounds

    Serializing and the traversal of interpolation recurse on nested maps with a
    bound of the size of the heap: a tree has no more levels than maps.  A chain
    of references is bounded by two more than the number of references in the
    heap, since it repeats none of them.  The loop over one string is bounded by
    its length.  The walk of a directory is bounded by the longest path when it
    starts, which is enough unless the tree is copied into itself.  Path
    resolution gives up after forty links, as Linux does.  The theorems show
    that the other bounds are never reached.

    ** Not modelled

    The log lines of a run, and the texts of the errors of the operating system,
    of external commands and of the registry library, which are arguments where
    a message contains them; the errors of rootfs, isobuild, toolchain, download
    and ociimage are constructors and the words the code puts around them.  What
    external commands, the network and a registry do are parameters: every
    theorem holds for all of them.  Two lists of environment variables that no
    code uses (noninteractiveEnv of rootfs and installerNoninteractiveEnv of
    isobuild).  In Fs the user is root, the disk does not fill up, and paths are
    absolute.  The lock file has two faces, an entry on the disk and an inode
    with its locks, that only [clean] removes together.  Of layered images, hard
    links and changes of kind under a name are outside the overlay theorem.
    Next on the plan: hard links in layers, and the tree of a separate [build
    iso] after a [build cloud]. *)

From Stdlib Require Import Ascii String ZArith Lia.
From stdpp Require Import base list gmap strings.

(** ** Go strings

    A Go [string] is an immutable sequence of bytes; it is modelled by a list
    of 8-bit characters, and a literal in [gostring_scope] is read as the list
    of its bytes. *)

Abbreviation gostring := (list ascii).

Declare Scope gostring_scope.
Delimit Scope gostring_scope with gs.

Definition gs_parse (l : list Byte.byte) : gostring := List.map ascii_of_byte l.
Definition gs_print (l : gostring) : option (list Byte.byte) :=
  Some (List.map byte_of_ascii l).
String Notation gostring gs_parse gs_print : gostring_scope.

Open Scope gostring_scope.

(** The byte with a given code. *)
Definition chr (n : nat) : ascii := ascii_of_nat n.
#[global] Arguments chr : simpl never.

(** Newline, tab, carriage return, double quote, backslash. *)
Abbreviation NL := "010"%char.
Abbreviation TAB := "009"%char.
Abbreviation CR := "013"%char.
Abbreviation DQ := "034"%char.
Abbreviation BSL := "092"%char.

(** Boolean equality of Go strings, the [==] of the code. *)
Fixpoint str_eqb (a b : gostring) : bool :=
  match a, b with
  | [], [] => true
  | c :: a', d :: b' => Ascii.eqb c d && str_eqb a' b'
  | _, _ => false
  end.

(** ** Outcomes

    A call returns a value, returns an error, or the runtime panics (index out
    of range, nil dereference).  [OutOfFuel] is the outcome of a recursion of
    the model whose fuel ran out; the theorems show it does not occur. *)

Inductive res (E A : Type) : Type :=
| Ok (a : A)
| Err (e : E)
| Panic
| OutOfFuel.
Arguments Ok {E A} a.
Arguments Err {E A} e.
Arguments Panic {E A}.
Arguments OutOfFuel {E A}.

Definition res_bind {E A B} (m : res E A) (k : A → res E B) : res E B :=
  match m with
  | Ok a => k a
  | Err e => Err e
  | Panic => Panic
  | OutOfFuel => OutOfFuel
  end.

(** Stateful code: the state survives an error, as a mutated heap does. *)
Definition ST (S E A : Type) : Type := S → res E A * S.

Definition st_ret {S E A} (a : A) : ST S E A := λ s, (Ok a, s).
Definition st_err {S E A} (e : E) : ST S E A := λ s, (Err e, s).
Definition st_panic {S E A} : ST S E A := λ s, (Panic, s).
Definition st_lift {S E A} (r : res E A) : ST S E A := λ s, (r, s).
Definition st_bind {S E A B} (m : ST S E A) (k : A → ST S E B) : ST S E B :=
  λ s, match m s with
       | (Ok a, s') => k a s'
       | (Err e, s') => (Err e, s')
       | (Panic, s') => (Panic, s')
       | (OutOfFuel, s') => (OutOfFuel, s')
       end.

Declare Scope go_scope.
Delimit Scope go_scope with go.
Notation "'let?' x ':=' m 'in' k" := (res_bind m (λ x, k))
  (at level 200, x name, m at level 100, k at level 200) : go_scope.
Notation "'let!' x ':=' m 'in' k" := (st_bind m (λ x, k))
  (at level 200, x name, m at level 100, k at level 200) : go_scope.
Notation "m ';;' k" := (st_bind m (λ _, k))
  (at level 100, k at level 200, right associativity) : go_scope.
Open Scope go_scope.

(** The outcome is a regular return: a value or an error. *)
Definition returns {E A} (r : res E A) : Prop :=
  match r with Ok _ | Err _ => True | _ => False end.

(** ** Machine integers *)

(** Two's-complement wrap-around of a Go [int] on a 64-bit platform. *)
Definition int64_wrap (z : Z) : Z := ((z + 2 ^ 63) mod 2 ^ 64 - 2 ^ 63)%Z.

(** ** Automation *)

Create HintDb hk discriminated.

(** Split a hypothesis on the outcome of a call, keeping the successful case. *)
Ltac inv_ok H :=
  match type of H with
  | res_bind ?m _ = Ok _ =>
      let E := fresh "E" in
      destruct m eqn:E; simpl in H; try discriminate H
  end.

(** Case analysis on the conditions of an [if] or a [match] in the goal. *)
Ltac split_match :=
  match goal with
  | |- context [match ?x with _ => _ end] =>
      lazymatch x with
      | context [match _ with _ => _ end] => fail
      | _ => destruct x eqn:?
      end
  end.

Ltac split_match_in H :=
  match type of H with
  | context [match ?x with _ => _ end] =>
      lazymatch x with
      | context [match _ with _ => _ end] => fail
      | _ => destruct x eqn:?
      end
  end.

(** Reflect the boolean tests of the code into propositions. *)
Ltac breflect :=
  repeat match goal with
  | H : (_ && _)%bool = true |- _ => apply andb_prop in H as [? ?]
  | H : (_ || _)%bool = false |- _ => apply orb_false_elim in H as [? ?]
  | H : negb _ = true |- _ => apply negb_true_iff in H
  | H : negb _ = false |- _ => apply negb_false_iff in H
  | H : Ascii.eqb _ _ = true |- _ => apply Ascii.eqb_eq in H
  | H : Ascii.eqb _ _ = false |- _ => apply Ascii.eqb_neq in H
  | H : Nat.eqb _ _ = true |- _ => apply Nat.eqb_eq in H
  | H : Nat.eqb _ _ = false |- _ => apply Nat.eqb_neq in H
  | H : Nat.ltb _ _ = true |- _ => apply Nat.ltb_lt in H
  | H : Nat.ltb _ _ = false |- _ => apply Nat.ltb_ge in H
  | H : Nat.leb _ _ = true |- _ => apply Nat.leb_le in H
  | H : Nat.leb _ _ = false |- _ => apply Nat.leb_gt in H
  end.

(** ** Shared lemmas *)

Lemma str_eqb_eq a b : str_eqb a b = true ↔ a = b.
Proof.
  revert b; induction a as [|c a IH]; intros [|d b]; simpl; try done.
  rewrite andb_true_iff, Ascii.eqb_eq, IH. split; [by intros [-> ->]|by intros [= -> ->]].
Qed.

Lemma str_eqb_refl a : str_eqb a a = true.
Proof. by apply str_eqb_eq. Qed.

Lemma str_eqb_neq a b : str_eqb a b = false ↔ a ≠ b.
Proof. rewrite <- not_true_iff_false, str_eqb_eq. done. Qed.

Lemma str_eqb_spec a b : reflect (a = b) (str_eqb a b).
Proof.
  destruct (str_eqb a b) eqn:E; constructor;
    [by apply str_eqb_eq | by apply str_eqb_neq].
Qed.

#[export] Hint Rewrite str_eqb_refl : hk.

Lemma res_bind_Ok {E A B} (m : res E A) (k : A → res E B) b :
  res_bind m k = Ok b ↔ ∃ a, m = Ok a ∧ k a = Ok b.
Proof. destruct m; simpl; split; try done; try (intros (? & ? & ?); simplify_eq; done); eauto. Qed.

Lemma st_bind_Ok {S E A B} (m : ST S E A) (k : A → ST S E B) s b s' :
  st_bind m k s = (Ok b, s') → ∃ a s1, m s = (Ok a, s1) ∧ k a s1 = (Ok b, s').
Proof. unfold st_bind. destruct (m s) as [[a|e| |] s1]; try done. by exists a, s1. Qed.

Lemma returns_bind {E A B} (m : res E A) (k : A → res E B) :
  returns m → (∀ a, m = Ok a → returns (k a)) → returns (res_bind m k).
Proof. destruct m; simpl; auto. Qed.

Lemma int64_wrap_id z : (- 2 ^ 63 ≤ z < 2 ^ 63)%Z → int64_wrap z = z.
Proof. intros H. unfold int64_wrap. rewrite Z.mod_small; lia. Qed.

Lemma int64_wrap_range z : (- 2 ^ 63 ≤ int64_wrap z < 2 ^ 63)%Z.
Proof.
  unfold int64_wrap. pose proof (Z.mod_pos_bound (z + 2 ^ 63) (2 ^ 64)). lia.
Qed.

(** A decidable fact about one byte holds when it holds of all 256. *)
Fixpoint all_below (n : nat) (P : ascii → bool) : bool :=
  match n with
  | O => true
  | S n' => P (chr n') && all_below n' P
  end.

Lemma all_below_spec n P c : all_below n P = true → nat_of_ascii c < n → P c = true.
Proof.
  induction n as [|n IH]; [lia|]. simpl. intros [H1 H2]%andb_prop Hc.
  destruct (decide (nat_of_ascii c = n)) as [<-|]; [|apply IH; [done|lia]].
  unfold chr in H1. by rewrite ascii_nat_embedding in H1.
Qed.

Lemma forall_bytes P : all_below 256 P = true → ∀ c, P c = true.
Proof.
  intros H c. apply (all_below_spec 256); [done|]. apply nat_ascii_bounded.
Qed.
