(* ===== verification/GoStrings.v ===== *)
(** * The part of Go's [strings] and [unicode/utf8] packages the program uses

    Strings are byte lists.  White space is Go's [unicode.IsSpace]: the six
    ASCII characters and the UTF-8 encodings of U+0085, U+00A0, U+1680,
    U+2000-U+200A, U+2028, U+2029, U+202F, U+205F and U+3000.  Those encodings
    begin with a byte that never continues another rune, so matching their
    byte patterns is decoding them.  The second half of the file has the
    lemmas on trimming, splitting and searching the components share. *)

From Stdlib Require Import Ascii String ZArith Lia.
From stdpp Require Import base list gmap strings.
From S2P Require Import Prelude.

(** ** Byte classes *)

Abbreviation code c := (nat_of_ascii c).

Definition between (lo hi : nat) (c : ascii) : bool :=
  (lo <=? code c) && (code c <=? hi).

Definition is_ascii (c : ascii) : bool := code c <? 128.
Definition is_digit (c : ascii) : bool := between 48 57 c.
Definition is_upper (c : ascii) : bool := between 65 90 c.

(** [unicode.IsSpace] on runes of one, two and three bytes. *)
Definition space1 (c : ascii) : bool := between 9 13 c || (code c =? 32).

Definition space2 (c d : ascii) : bool :=
  (code c =? 194) && ((code d =? 133) || (code d =? 160)).

Definition space3 (c d e : ascii) : bool :=
  ((code c =? 225) && (code d =? 154) && (code e =? 128))
  || ((code c =? 226) && (code d =? 128)
      && (between 128 138 e || (code e =? 168) || (code e =? 169) || (code e =? 175)))
  || ((code c =? 226) && (code d =? 129) && (code e =? 159))
  || ((code c =? 227) && (code d =? 128) && (code e =? 128)).

(** ** Trimming *)

Section trim.
Variable sp2 : ascii → ascii → bool.
Variable sp3 : ascii → ascii → ascii → bool.

Fixpoint trim_with (s : gostring) : gostring :=
  match s with
  | [] => []
  | c :: s1 =>
      if space1 c then trim_with s1 else
      match s1 with
      | [] => s
      | d :: s2 =>
          if sp2 c d then trim_with s2 else
          match s2 with
          | [] => s
          | e :: s3 => if sp3 c d e then trim_with s3 else s
          end
      end
  end.
End trim.

Definition trimLeft : gostring → gostring := trim_with space2 space3.

(** Trimming on the right is trimming the reversal, with reversed patterns. *)
Definition trimRev : gostring → gostring :=
  trim_with (λ c d, space2 d c) (λ c d e, space3 e d c).
Definition trimRight (s : gostring) : gostring := rev (trimRev (rev s)).

(** [strings.TrimSpace] *)
Definition TrimSpace (s : gostring) : gostring := trimRight (trimLeft s).

Fixpoint drop_nl (s : gostring) : gostring :=
  match s with
  | c :: s' => if Ascii.eqb c NL then drop_nl s' else s
  | [] => []
  end.

(** [strings.TrimRight(s, "\n")] *)
Definition TrimRightNL (s : gostring) : gostring := rev (drop_nl (rev s)).

(** ** Prefixes, suffixes and searching *)

Fixpoint HasPrefix (s p : gostring) : bool :=
  match p, s with
  | [], _ => true
  | c :: p', d :: s' => Ascii.eqb c d && HasPrefix s' p'
  | _ :: _, [] => false
  end.

Definition HasSuffix (s p : gostring) : bool := HasPrefix (rev s) (rev p).

Definition TrimPrefix (s p : gostring) : gostring :=
  if HasPrefix s p then drop (length p) s else s.

(** [strings.Index]; [None] is the code's -1. *)
Fixpoint Index (s sub : gostring) : option nat :=
  if HasPrefix s sub then Some O
  else match s with
       | [] => None
       | _ :: s' => option_map S (Index s' sub)
       end.

Fixpoint IndexByte (s : gostring) (c : ascii) : option nat :=
  match s with
  | [] => None
  | d :: s' => if Ascii.eqb d c then Some O else option_map S (IndexByte s' c)
  end.

Definition Contains (s sub : gostring) : bool :=
  match Index s sub with Some _ => true | None => false end.

Definition mem (c : ascii) (s : gostring) : bool := existsb (Ascii.eqb c) s.

(** [strings.ContainsAny] for a set of ASCII characters. *)
Definition ContainsAny (s chars : gostring) : bool :=
  existsb (λ c, mem c chars) s.

(** ** Splitting and joining *)

(** [strings.Split] at a one-byte separator: never empty. *)
Fixpoint split_on (sep : ascii) (s : gostring) : list gostring :=
  match s with
  | [] => [[]]
  | c :: s' =>
      if Ascii.eqb c sep then [] :: split_on sep s'
      else match split_on sep s' with
           | [] => [[c]]
           | w :: ws => (c :: w) :: ws
           end
  end.

Fixpoint Join (parts : list gostring) (sep : gostring) : gostring :=
  match parts with
  | [] => []
  | [p] => p
  | p :: ps => p ++ sep ++ Join ps sep
  end.

Definition Repeat (c : ascii) (n : nat) : gostring := replicate n c.

(** The words of [strings.Fields]: maximal runs without white space. *)
Definition flush (cur : gostring) (ws : list gostring) : list gostring :=
  match cur with [] => ws | _ => rev cur :: ws end.

Fixpoint fields_aux (s cur : gostring) : list gostring :=
  match s with
  | [] => flush cur []
  | c :: s1 =>
      if space1 c then flush cur (fields_aux s1 []) else
      match s1 with
      | [] => flush (c :: cur) []
      | d :: s2 =>
          if space2 c d then flush cur (fields_aux s2 []) else
          match s2 with
          | [] => fields_aux s1 (c :: cur)
          | e :: s3 =>
              if space3 c d e then flush cur (fields_aux s3 [])
              else fields_aux s1 (c :: cur)
          end
      end
  end.

Definition Fields (s : gostring) : list gostring := fields_aux s [].

(** [strings.ReplaceAll] of one byte, and [NewReplacer] on one-byte keys. *)
Definition replace_bytes (f : ascii → option gostring) (s : gostring) : gostring :=
  flat_map (λ c, match f c with Some r => r | None => [c] end) s.

(** ** Case

    [strings.ToLower] up to comparison with ASCII words, its only use in the
    program: besides A-Z, the runes whose lower case is ASCII are U+0130 and
    U+212A; every other rune stays non-ASCII. *)

Definition lower_byte (c : ascii) : ascii :=
  if is_upper c then chr (code c + 32) else c.

Fixpoint ToLower (s : gostring) : gostring :=
  match s with
  | [] => []
  | c :: s1 =>
      match s1 with
      | [] => [lower_byte c]
      | d :: s2 =>
          if (code c =? 196) && (code d =? 176) then "i"%char :: ToLower s2 else
          match s2 with
          | [] => lower_byte c :: ToLower s1
          | e :: s3 =>
              if (code c =? 226) && (code d =? 132) && (code e =? 170)
              then "k"%char :: ToLower s3
              else lower_byte c :: ToLower s1
          end
      end
  end.

(** ** Runes

    [for _, r := range s] followed by [WriteRune(r)]: the list of the runes of
    [s], each as its UTF-8 encoding, where a byte that starts no valid
    encoding gives U+FFFD. *)

Definition cont (c : ascii) : bool := between 128 191 c.
Definition rune_error : gostring := ["239"; "191"; "189"]%char.

(** The second byte's range after a given three- or four-byte lead. *)
Definition second_ok (c d : ascii) : bool :=
  if code c =? 224 then between 160 191 d
  else if code c =? 237 then between 128 159 d
  else if code c =? 240 then between 144 191 d
  else if code c =? 244 then between 128 143 d
  else cont d.

Fixpoint runes (s : gostring) : list gostring :=
  match s with
  | [] => []
  | c :: s1 =>
      if is_ascii c then [c] :: runes s1 else
      match s1 with
      | [] => [rune_error]
      | d :: s2 =>
          if between 194 223 c && cont d then [c; d] :: runes s2 else
          match s2 with
          | [] => rune_error :: runes s1
          | e :: s3 =>
              if between 224 239 c && second_ok c d && cont e
              then [c; d; e] :: runes s3 else
              match s3 with
              | [] => rune_error :: runes s1
              | g :: s4 =>
                  if between 240 244 c && second_ok c d && cont e && cont g
                  then [c; d; e; g] :: runes s4
                  else rune_error :: runes s1
              end
          end
      end
  end.

(** A string is valid UTF-8 when decoding loses nothing. *)
Definition valid_utf8 (s : gostring) : bool := str_eqb (concat (runes s)) s.

(** ** Lemmas: byte classes *)

Lemma ascii_not_space2_l c d : is_ascii c = true → space2 c d = false.
Proof.
  unfold is_ascii, space2. intros H%Nat.ltb_lt.
  destruct (Nat.eqb_spec (code c) 194); [lia|done].
Qed.

Lemma ascii_not_space2_r c d : is_ascii d = true → space2 c d = false.
Proof.
  unfold is_ascii, space2. intros H%Nat.ltb_lt.
  destruct (Nat.eqb_spec (code d) 133); [lia|].
  destruct (Nat.eqb_spec (code d) 160); [lia|]. apply andb_false_r.
Qed.

Lemma space3_high c d e :
  space3 c d e = true → 128 ≤ code c ∧ 128 ≤ code d ∧ 128 ≤ code e.
Proof.
  unfold space3, between. intros H.
  repeat match goal with
         | H : (_ || _)%bool = true |- _ => apply orb_true_iff in H as [H|H]
         end; breflect; repeat split; try lia;
    repeat match goal with
           | H : (_ || _)%bool = true |- _ => apply orb_true_iff in H as [H|H]
           end; breflect; lia.
Qed.

Lemma ascii_not_space3 c d e :
  is_ascii c || is_ascii d || is_ascii e = true → space3 c d e = false.
Proof.
  unfold is_ascii. intros H. destruct (space3 c d e) eqn:E; [|done].
  apply space3_high in E. repeat rewrite orb_true_iff in H.
  rewrite !Nat.ltb_lt in H. lia.
Qed.

(** ** Lemmas: trimming *)

Section trim_lemmas.
Variable sp2 : ascii → ascii → bool.
Variable sp3 : ascii → ascii → ascii → bool.

Definition starts_space (s : gostring) : bool :=
  match s with
  | [] => false
  | [c] => space1 c
  | [c; d] => space1 c || sp2 c d
  | c :: d :: e :: _ => space1 c || sp2 c d || sp3 c d e
  end.

Lemma trim_with_fix s : starts_space s = false → trim_with sp2 sp3 s = s.
Proof.
  destruct s as [|c [|d [|e s]]]; simpl; intros H; breflect;
    repeat match goal with E : _ = false |- _ => rewrite E; clear E end; done.
Qed.

(** The unfolding of one trimming step, as an induction scheme. *)
Lemma trim_with_ind (P : gostring → gostring → Prop) :
  (∀ s, starts_space s = false → P s s) →
  (∀ u s t, P s t → P (u ++ s) t) →
  ∀ s, P s (trim_with sp2 sp3 s).
Proof.
  intros Hstop Hskip s.
  induction s as [s IH] using (induction_ltof1 _ (@length _)); unfold ltof in IH.
  destruct s as [|c s1]; [by apply Hstop|]. simpl. destruct (space1 c) eqn:E1.
  { apply (Hskip [c]), IH. simpl. lia. }
  destruct s1 as [|d s2]; [by apply Hstop|]. destruct (sp2 c d) eqn:E2.
  { apply (Hskip [c; d]), IH. simpl. lia. }
  destruct s2 as [|e s3].
  { apply Hstop. simpl. by rewrite E1, E2. }
  destruct (sp3 c d e) eqn:E3.
  { apply (Hskip [c; d; e]), IH. simpl. lia. }
  apply Hstop. simpl. by rewrite E1, E2, E3.
Qed.

Lemma trim_with_starts s : starts_space (trim_with sp2 sp3 s) = false.
Proof. by apply (trim_with_ind (λ _ t, starts_space t = false)). Qed.

Lemma trim_with_suffix s : ∃ u, s = u ++ trim_with sp2 sp3 s.
Proof.
  apply (trim_with_ind (λ s t, ∃ u, s = u ++ t)); [by exists []|].
  intros u s' t [v ->]. exists (u ++ v). by rewrite app_assoc.
Qed.

Lemma starts_space_prefix s t :
  starts_space (s ++ t) = false → starts_space s = false.
Proof.
  destruct s as [|c [|d [|e s]]]; destruct t as [|c' [|d' t]]; simpl;
    intros H; breflect; try done;
    repeat match goal with E : _ = false |- _ => rewrite E; clear E end; done.
Qed.

(** An ASCII byte shields what precedes it from the patterns. *)
Lemma starts_space_app_ascii s c t :
  (∀ a, sp2 a c = false) →
  (∀ a b, sp3 a c b = false) → (∀ a b, sp3 a b c = false) →
  s ≠ [] → starts_space s = false → starts_space (s ++ c :: t) = false.
Proof.
  intros H2 H3 H3' Hs H. destruct s as [|a [|b [|e s]]]; [done|..]; simpl in *.
  - destruct t; simpl; by rewrite H, H2, ?H3.
  - by rewrite H, H3'.
  - done.
Qed.
End trim_lemmas.

Definition starts_left := starts_space space2 space3.
Definition starts_rev := starts_space (λ c d, space2 d c) (λ c d e, space3 e d c).

(** A printable ASCII byte at an end keeps trimming away from it. *)
Definition solid (c : ascii) : bool := is_ascii c && negb (space1 c).

Lemma solid_ascii c : solid c = true → is_ascii c = true.
Proof. unfold solid. intros H. by breflect. Qed.

Lemma starts_left_solid c s : solid c = true → starts_left (c :: s) = false.
Proof.
  unfold solid, starts_left. intros H. breflect.
  destruct s as [|d [|e s]]; simpl; rewrite ?H0, ?ascii_not_space2_l by done; try done.
  rewrite ascii_not_space3; [done|]. by rewrite H.
Qed.

Lemma starts_rev_solid c s : solid c = true → starts_rev (c :: s) = false.
Proof.
  unfold solid, starts_rev. intros H. breflect.
  destruct s as [|d [|e s]]; simpl; rewrite ?H0, ?ascii_not_space2_r by done; try done.
  rewrite ascii_not_space3; [done|]. by rewrite H, orb_true_r.
Qed.

Lemma TrimSpace_id s :
  starts_left s = false → starts_rev (rev s) = false → TrimSpace s = s.
Proof.
  intros Hl Hr. unfold TrimSpace, trimRight, trimLeft, trimRev.
  rewrite (trim_with_fix _ _ s) by done. rewrite trim_with_fix by done.
  apply rev_involutive.
Qed.

Lemma TrimSpace_trimmed s :
  starts_left (TrimSpace s) = false ∧ starts_rev (rev (TrimSpace s)) = false.
Proof.
  unfold TrimSpace, trimRight. rewrite rev_involutive. split.
  - destruct (trim_with_suffix (λ c d, space2 d c) (λ c d e, space3 e d c)
                (rev (trimLeft s))) as [u Hu].
    apply (starts_space_prefix _ _ _ (rev u)). rewrite <- rev_app_distr.
    unfold trimRev. rewrite <- Hu, rev_involutive. apply trim_with_starts.
  - apply trim_with_starts.
Qed.

Lemma TrimSpace_idem s : TrimSpace (TrimSpace s) = TrimSpace s.
Proof. destruct (TrimSpace_trimmed s). by apply TrimSpace_id. Qed.

Lemma TrimSpace_fixed s :
  TrimSpace s = s ↔ starts_left s = false ∧ starts_rev (rev s) = false.
Proof.
  split; [intros H; rewrite <- H; apply TrimSpace_trimmed|].
  intros [??]. by apply TrimSpace_id.
Qed.

Lemma starts_rev_word u b v :
  is_ascii b = true → v ≠ [] → TrimSpace v = v → starts_rev (rev (u ++ b :: v)) = false.
Proof.
  intros Hb Hv [_ Hr]%TrimSpace_fixed. rewrite rev_app_distr. simpl. rewrite <- app_assoc.
  simpl. apply starts_space_app_ascii; try done.
  - intros. by apply ascii_not_space2_l.
  - intros. apply ascii_not_space3. rewrite Hb. by rewrite orb_true_r.
  - intros. apply ascii_not_space3. by rewrite Hb.
  - intros Hn. apply Hv. apply (f_equal (@rev _)) in Hn. by rewrite rev_involutive in Hn.
Qed.

(** A line [c ... b v] whose last word [v] is trimmed is itself trimmed. *)
Lemma TrimSpace_framed c u b v :
  solid c = true → is_ascii b = true → v ≠ [] → TrimSpace v = v →
  TrimSpace (c :: u ++ b :: v) = c :: u ++ b :: v.
Proof.
  intros Hc Hb Hv Ht. apply TrimSpace_id; [by apply starts_left_solid|].
  by apply (starts_rev_word (c :: u)).
Qed.

(** Two trimmed words with an ASCII byte and any text between them. *)
Lemma TrimSpace_words u b m b' v :
  is_ascii b = true → is_ascii b' = true → u ≠ [] → v ≠ [] →
  TrimSpace u = u → TrimSpace v = v →
  TrimSpace (u ++ b :: m ++ b' :: v) = u ++ b :: m ++ b' :: v.
Proof.
  intros Hb Hb' Hu Hv [Hl _]%TrimSpace_fixed Ht. apply TrimSpace_id.
  - apply starts_space_app_ascii; try done.
    + intros. by apply ascii_not_space2_r.
    + intros. apply ascii_not_space3. rewrite Hb. by rewrite orb_true_r.
    + intros. apply ascii_not_space3. rewrite Hb. by rewrite !orb_true_r.
  - rewrite app_comm_cons, app_assoc. by apply starts_rev_word.
Qed.

Lemma TrimSpace_solid c u d :
  solid c = true → solid d = true → TrimSpace (c :: u ++ [d]) = c :: u ++ [d].
Proof.
  intros Hc Hd. apply TrimSpace_id; [by apply starts_left_solid|].
  simpl. rewrite rev_app_distr. simpl. by apply starts_rev_solid.
Qed.

Lemma TrimSpace_leading c s :
  space1 c = true → TrimSpace (c :: s) = TrimSpace s.
Proof. intros H. unfold TrimSpace, trimLeft. simpl. by rewrite H. Qed.

(** A blank byte at the end never completes a blank rune. *)
Lemma space1_not_last c a b : space1 c = true → space2 a c = false ∧ space3 a b c = false.
Proof.
  intros H. assert (Ha : is_ascii c = true).
  { unfold space1, between in H. unfold is_ascii. apply Nat.ltb_lt.
    apply orb_prop in H as [H|H]; breflect; lia. }
  split; [by apply ascii_not_space2_r|]. apply ascii_not_space3. by rewrite Ha, orb_true_r.
Qed.

Lemma trimLeft_snoc n s c : length s ≤ n → space1 c = true →
  trimLeft (s ++ [c]) = match trimLeft s with [] => [] | t => t ++ [c] end.
Proof.
  intros Hn Hc. revert s Hn. unfold trimLeft. induction n as [|n IH]; intros s Hn.
  { destruct s; simpl in *; [by rewrite Hc|lia]. }
  destruct s as [|a s]; [simpl; by rewrite Hc|]. simpl app. cbn [trim_with].
  destruct (space1 a); [apply IH; simpl in *; lia|].
  destruct s as [|b s].
  { simpl. by rewrite (proj1 (space1_not_last c a a Hc)). }
  simpl app. cbv iota. destruct (space2 a b); [apply IH; simpl in *; lia|].
  destruct s as [|d s].
  { simpl. by rewrite (proj2 (space1_not_last c a b Hc)). }
  simpl app. cbv iota. destruct (space3 a b d); [apply IH; simpl in *; lia|done].
Qed.

Lemma TrimSpace_trailing c s : space1 c = true → TrimSpace (s ++ [c]) = TrimSpace s.
Proof.
  intros Hc. unfold TrimSpace. rewrite (trimLeft_snoc (length s)) by done.
  destruct (trimLeft s) as [|a t]; [done|]. unfold trimRight, trimRev.
  rewrite rev_app_distr. simpl. by rewrite Hc.
Qed.

Lemma TrimSpace_nil : TrimSpace [] = [].
Proof. done. Qed.

#[export] Hint Resolve TrimSpace_idem : hk.

(** ** Lemmas: searching *)

Lemma HasPrefix_iff s p : HasPrefix s p = true ↔ ∃ r, s = p ++ r.
Proof.
  revert s. induction p as [|c p IH]; intros [|d s]; simpl.
  - split; [by exists []|done].
  - split; [by eexists|done].
  - split; [done|]. by intros [r ?].
  - rewrite andb_true_iff, Ascii.eqb_eq, IH. split.
    + intros [-> [r ->]]. by exists r.
    + intros [r [= -> ->]]. eauto.
Qed.

Lemma HasSuffix_iff s p : HasSuffix s p = true ↔ ∃ r, s = r ++ p.
Proof.
  unfold HasSuffix. rewrite HasPrefix_iff. split; intros [r Hr].
  - exists (rev r). apply (f_equal (@rev _)) in Hr.
    by rewrite rev_app_distr, !rev_involutive in Hr.
  - exists (rev r). by rewrite Hr, rev_app_distr.
Qed.

Lemma HasSuffix_snoc s c : HasSuffix (s ++ [c]) [c] = true.
Proof. apply HasSuffix_iff. by exists s. Qed.

Lemma Index_Some s sub n :
  Index s sub = Some n → ∃ r, s = take n s ++ sub ++ r ∧ n + length sub ≤ length s.
Proof.
  revert n. induction s as [|c s IH]; intros n; cbn [Index].
  - destruct (HasPrefix [] sub) eqn:E; [|done]. intros [= <-].
    apply HasPrefix_iff in E as [r E]. destruct sub; [|done]. by exists [].
  - destruct (HasPrefix (c :: s) sub) eqn:E.
    + intros [= <-]. apply HasPrefix_iff in E as [r E]. exists r. split; [done|].
      apply (f_equal length) in E. rewrite length_app in E. simpl in *. lia.
    + destruct (Index s sub) as [m|] eqn:Em; [|done]. intros [= <-].
      destruct (IH m eq_refl) as (r & Hr & Hlen). exists r. simpl.
      split; [by f_equal|lia].
Qed.

Lemma Index_head s sub : HasPrefix s sub = true → Index s sub = Some O.
Proof. intros H. destruct s; cbn [Index]; by rewrite H. Qed.

Lemma IndexByte_None s c : mem c s = false → IndexByte s c = None.
Proof.
  unfold mem. induction s as [|d s IH]; simpl; [done|]. intros H. breflect.
  rewrite IH by done. destruct (Ascii.eqb_spec d c); [congruence|done].
Qed.

Lemma mem_true c s : mem c s = true ↔ c ∈ s.
Proof.
  unfold mem. rewrite existsb_exists. setoid_rewrite Ascii.eqb_eq.
  rewrite list_elem_of_In. split; [by intros (? & ? & ->)|eauto].
Qed.

Lemma mem_false c s : mem c s = false ↔ c ∉ s.
Proof. by rewrite <- not_true_iff_false, mem_true. Qed.

Lemma mem_app c s t : mem c (s ++ t) = mem c s || mem c t.
Proof. unfold mem. apply existsb_app. Qed.

Lemma HasPrefix_two c d s x y :
  HasPrefix (c :: d :: s) [x; y] = Ascii.eqb x c && (Ascii.eqb y d && true).
Proof. by destruct s. Qed.

(** The first arrow of [key => value] is the one between key and value. *)
Lemma Index_arrow key v :
  Contains key "=>" = false →
  Index (key ++ " => " ++ v) "=>" = Some (S (length key)).
Proof.
  unfold Contains. induction key as [|c key IH]; [done|].
  change ((c :: key) ++ " => " ++ v) with (c :: (key ++ " => " ++ v)).
  cbn [Index].
  destruct (HasPrefix (c :: key) "=>") eqn:E; [done|].
  destruct (HasPrefix (c :: key ++ " => " ++ v) "=>") eqn:E'.
  { destruct key as [|d key]; cbn [app] in E'; rewrite HasPrefix_two in E'.
    - by rewrite andb_false_r in E'.
    - rewrite HasPrefix_two in E. congruence. }
  intros H. rewrite IH; [done|]. by destruct (Index key "=>").
Qed.

(** ** Lemmas: splitting *)

Lemma split_on_notin sep s : mem sep s = false → split_on sep s = [s].
Proof.
  unfold mem. induction s as [|c s IH]; simpl; [done|]. intros H. breflect.
  rewrite IH by done. destruct (Ascii.eqb_spec c sep); [congruence|done].
Qed.

Lemma split_on_app sep l s :
  mem sep l = false → split_on sep (l ++ sep :: s) = l :: split_on sep s.
Proof.
  unfold mem. induction l as [|c l IH]; simpl; intros H.
  - by rewrite Ascii.eqb_refl.
  - breflect. rewrite IH by done. destruct (Ascii.eqb_spec c sep); [congruence|done].
Qed.

Lemma split_on_lines sep ls t :
  Forall (λ l, mem sep l = false) ls →
  split_on sep (concat (map (λ l, l ++ [sep]) ls) ++ t) = ls ++ split_on sep t.
Proof.
  induction 1 as [|l ls Hl _ IH]; simpl; [done|].
  rewrite <- !app_assoc. simpl. rewrite split_on_app by done. by rewrite IH.
Qed.

Lemma split_on_length sep s : 0 < length (split_on sep s).
Proof.
  induction s as [|c s IH]; simpl; [lia|].
  destruct (Ascii.eqb c sep); simpl; [lia|].
  destruct (split_on sep s); simpl in *; lia.
Qed.

Lemma split_on_cat sep s t : split_on sep (s ++ sep :: t) = split_on sep s ++ split_on sep t.
Proof.
  induction s as [|c s IH]; simpl; [by rewrite Ascii.eqb_refl|].
  destruct (Ascii.eqb c sep); simpl; [by rewrite IH|]. rewrite IH.
  pose proof (split_on_length sep s). by destruct (split_on sep s); simpl in *; [lia|].
Qed.

Lemma Join_split sep s : Join (split_on sep s) [sep] = s.
Proof.
  induction s as [|c s IH]; [done|]. simpl.
  pose proof (split_on_length sep s) as Hlen.
  destruct (Ascii.eqb_spec c sep) as [->|].
  - destruct (split_on sep s) as [|w ws]; simpl in *; [lia|]. by f_equal.
  - destruct (split_on sep s) as [|w [|w' ws]]; simpl in *; [lia|..]; by rewrite <- IH.
Qed.

Lemma split_on_free sep s l : l ∈ split_on sep s → mem sep l = false.
Proof.
  revert l. induction s as [|c s IH]; intros l; cbn [split_on].
  { by intros ->%list_elem_of_singleton. }
  destruct (Ascii.eqb_spec c sep) as [->|Hne].
  { intros [->|Hl]%elem_of_cons; [done|by apply IH]. }
  destruct (split_on sep s) as [|w ws].
  - intros ->%list_elem_of_singleton. simpl. by rewrite (proj2 (Ascii.eqb_neq _ _)).
  - intros [->|Hl]%elem_of_cons; [|apply IH; by right]. simpl.
    rewrite IH by (by left). by rewrite (proj2 (Ascii.eqb_neq _ _)).
Qed.

(** The pieces before and after a piece of a joined text. *)
Lemma Join_app_cons (a : gostring) l x m sep :
  Join ((a :: l) ++ x :: m) sep = Join (a :: l) sep ++ sep ++ Join (x :: m) sep.
Proof.
  revert a. induction l as [|b l IH]; intros a; [done|].
  change ((a :: b :: l) ++ x :: m) with (a :: ((b :: l) ++ x :: m)).
  change (Join (a :: b :: l) sep) with (a ++ sep ++ Join (b :: l) sep).
  rewrite <- !app_assoc, <- IH. done.
Qed.

(** ** Lemmas: runes *)

Lemma runes_ascii s : forallb is_ascii s = true → runes s = map (λ c, [c]) s.
Proof.
  induction s as [|c s IH]; [done|]. intros [Hc Hs]%andb_prop. simpl.
  rewrite Hc. by rewrite IH.
Qed.

(** A decoding step consumes a whole encoding, or one bad byte. *)
Lemma runes_ind (P : gostring → list gostring → Prop) :
  P [] [] →
  (∀ r s, r ≠ [] → (∀ t, runes (r ++ t) = r :: runes t) →
     P s (runes s) → P (r ++ s) (r :: runes s)) →
  (∀ c s, runes (c :: s) = rune_error :: runes s →
     P s (runes s) → P (c :: s) (rune_error :: runes s)) →
  ∀ s, P s (runes s).
Proof.
  intros Hnil Hgood Hbad s.
  induction s as [s IH] using (induction_ltof1 _ (@length _)); unfold ltof in IH.
  destruct s as [|c s1]; [done|].
  destruct (is_ascii c) eqn:Ec.
  { assert (∀ t, runes ([c] ++ t) = [c] :: runes t) as Hr by (intros; simpl; by rewrite Ec).
    change (c :: s1) with ([c] ++ s1). rewrite (Hr s1). apply (Hgood [c]); [done..|]. apply IH. simpl. lia. }
  assert (Hbad' : runes (c :: s1) = rune_error :: runes s1 → P (c :: s1) (runes (c :: s1))).
  { intros E. rewrite E. apply Hbad; [done|]. apply IH. simpl. lia. }
  destruct s1 as [|d s2]; [apply Hbad'; simpl; by rewrite Ec|].
  destruct (between 194 223 c && cont d) eqn:E2.
  { assert (∀ t, runes ([c; d] ++ t) = [c; d] :: runes t) as Hr
      by (intros; simpl; by rewrite Ec, E2).
    change (c :: d :: s2) with ([c; d] ++ s2).
    rewrite (Hr s2). apply (Hgood [c; d]); [done..|]. apply IH. simpl. lia. }
  destruct s2 as [|e s3]; [apply Hbad'; simpl runes at 1; by rewrite Ec, E2|].
  destruct (between 224 239 c && second_ok c d && cont e) eqn:E3.
  { assert (∀ t, runes ([c; d; e] ++ t) = [c; d; e] :: runes t) as Hr
      by (intros; simpl; by rewrite Ec, E2, E3).
    change (c :: d :: e :: s3) with ([c; d; e] ++ s3).
    rewrite (Hr s3). apply (Hgood [c; d; e]); [done..|]. apply IH. simpl. lia. }
  destruct s3 as [|g s4]; [apply Hbad'; simpl runes at 1; by rewrite Ec, E2, E3|].
  destruct (between 240 244 c && second_ok c d && cont e && cont g) eqn:E4.
  { assert (∀ t, runes ([c; d; e; g] ++ t) = [c; d; e; g] :: runes t) as Hr
      by (intros; simpl; by rewrite Ec, E2, E3, E4).
    change (c :: d :: e :: g :: s4) with ([c; d; e; g] ++ s4).
    rewrite (Hr s4). apply (Hgood [c; d; e; g]); [done..|]. apply IH. simpl. lia. }
  apply Hbad'. simpl runes at 1. by rewrite Ec, E2, E3, E4.
Qed.

Lemma runes_length s : length s ≤ length (concat (runes s)).
Proof.
  apply (runes_ind (λ s r, length s ≤ length (concat r))); simpl; [done|..].
  - intros r s' _ _ IH. rewrite !length_app. lia.
  - intros c s' _ IH. lia.
Qed.

(** Decoding a valid string does not look past its end. *)
Lemma runes_app a b : valid_utf8 a = true → runes (a ++ b) = runes a ++ runes b.
Proof.
  unfold valid_utf8. intros H%str_eqb_eq.
  apply (f_equal length), Nat.eq_le_incl in H. revert H.
  apply (runes_ind (λ a r, length (concat r) ≤ length a →
                           runes (a ++ b) = r ++ runes b)); simpl; [done|..].
  - intros r s _ Hr IH. rewrite !length_app. intros Hlen.
    rewrite <- app_assoc, Hr. simpl. f_equal. apply IH. lia.
  - intros c s _ _ Hlen. pose proof (runes_length s). simpl in Hlen. lia.
Qed.

Lemma runes_concat a : valid_utf8 a = true → concat (runes a) = a.
Proof. by intros H%str_eqb_eq. Qed.

Lemma valid_utf8_app a b :
  valid_utf8 a = true → valid_utf8 b = true → valid_utf8 (a ++ b) = true.
Proof.
  intros Ha Hb. unfold valid_utf8. rewrite runes_app by done.
  rewrite concat_app, !runes_concat by done. apply str_eqb_refl.
Qed.

Lemma valid_utf8_ascii s : forallb is_ascii s = true → valid_utf8 s = true.
Proof.
  intros H. unfold valid_utf8. rewrite runes_ascii by done.
  apply str_eqb_eq. induction s as [|c s IH]; [done|]. simpl in *. breflect.
  by rewrite IH.
Qed.

(** Each rune of a string is one ASCII byte or holds none. *)
Lemma runes_shape s r :
  r ∈ runes s → (∃ c, r = [c] ∧ is_ascii c = true) ∨ Forall (λ c, is_ascii c = false) r.
Proof.
  assert (Hhigh : ∀ c, 128 ≤ code c → is_ascii c = false).
  { intros c Hc. unfold is_ascii. apply Nat.ltb_ge. lia. }
  assert (Hcont : ∀ c, cont c = true → is_ascii c = false).
  { intros c. unfold cont, between. intros H. breflect. apply Hhigh. lia. }
  assert (Hsec : ∀ c d, second_ok c d = true → is_ascii d = false).
  { intros c d. unfold second_ok, cont, between.
    intros H. apply Hhigh. revert H.
    repeat (split_match; try (intros H; breflect; lia)). }
  assert (Herr : Forall (λ c, is_ascii c = false) rune_error) by (repeat constructor).
  revert r. induction s as [s IH] using (induction_ltof1 _ (@length _)).
  unfold ltof in IH. destruct s as [|c s1]; simpl; [set_solver|]. intros r.
  destruct (is_ascii c) eqn:Ec.
  { intros [->|Hr]%elem_of_cons; [left; eauto|]. apply (IH s1); simpl; done || lia. }
  repeat first
    [ apply Hcont; assumption
    | match goal with
      | |- r ∈ [] → _ => by intros ?%elem_of_nil
      | |- r ∈ runes ?t → _ => intros Hr; apply (IH t); [simpl; lia|exact Hr]
      | |- r ∈ _ :: _ → _ =>
          intros [->|Hr]%elem_of_cons;
          [right; first [exact Herr | breflect; repeat constructor; eauto] | revert Hr]
      | |- r ∈ match ?t with _ => _ end → _ => destruct t eqn:?
      end ].
Qed.

(** ** Lemmas: case *)

Lemma ToLower_cons_ascii c s :
  is_ascii c = true → ToLower (c :: s) = lower_byte c :: ToLower s.
Proof.
  unfold is_ascii. intros H%Nat.ltb_lt.
  assert (code c =? 196 = false) as E1 by (apply Nat.eqb_neq; lia).
  assert (code c =? 226 = false) as E2 by (apply Nat.eqb_neq; lia).
  destruct s as [|d [|e s]]; [done|..]; cbn [ToLower];
    rewrite E1, ?E2; cbn [andb]; done.
Qed.

Lemma ToLower_ascii s : forallb is_ascii s = true → ToLower s = map lower_byte s.
Proof.
  induction s as [|c s IH]; [done|]. cbn [forallb]. intros H. breflect.
  rewrite ToLower_cons_ascii by done. cbn [map]. by rewrite IH.
Qed.
