(* ===== verification/GoNumbers.v ===== *)
(** * Go numbers as the program reads and prints them

    A [float64] is a [spec_float] of the Standard Library at precision 53 and
    exponent bound 1024.  [ParseFloat] is [strconv.ParseFloat(s, 64)]: the
    syntax of [readFloat] (decimal and hexadecimal mantissas, underscores,
    exponents), the special words, correct rounding, and an error on overflow.
    [fmt_g] is [fmt.Sprintf("%g", n)] with the shortest digits that read back.
    [int64_of_float] is the amd64 conversion, where a value out of range gives
    the least integer. *)

From Stdlib Require Import Ascii String ZArith Lia SpecFloat.
From stdpp Require Import base list gmap strings.
From S2P Require Import Prelude GoStrings.

Abbreviation float64 := spec_float.
Abbreviation f_prec := 53%Z.
Abbreviation f_emax := 1024%Z.

(** The conversion [float64(z)]. *)
Definition f_of_Z (z : Z) : float64 := binary_normalize f_prec f_emax z 0 false.

Definition signed (neg : bool) (m : positive) : Z := if neg then Zneg m else Zpos m.

(** The float nearest to [±m * 10^e]. *)
Definition f_of_dec (neg : bool) (m : N) (e : Z) : float64 :=
  match m with
  | N0 => S754_zero neg
  | Npos p =>
      if (0 <=? e)%Z then
        binary_normalize f_prec f_emax (signed neg (p * Z.to_pos (10 ^ e))) 0 neg
      else
        SFdiv f_prec f_emax (S754_finite neg p 0)
              (S754_finite false (Z.to_pos (10 ^ (- e))) 0)
  end.

(** The float nearest to [±m * 2^e]. *)
Definition f_of_bin (neg : bool) (m : N) (e : Z) : float64 :=
  match m with
  | N0 => S754_zero neg
  | Npos p => binary_normalize f_prec f_emax (signed neg p) e neg
  end.

(** ** Reading *)

Definition lower_ascii (s : gostring) : gostring := map lower_byte s.

Definition digit_val (c : ascii) : N := N.of_nat (code c - 48).

(** The value of a digit in base 10 or 16. *)
Definition digit_in (hex : bool) (c : ascii) : option N :=
  if is_digit c then Some (digit_val c)
  else if hex && between 97 102 (lower_byte c)
       then Some (N.of_nat (code (lower_byte c) - 87))
       else None.

(** The mantissa loop of [readFloat]: digits seen, the decimal point, and the
    digits' value, kept exact. *)
Record mantissa : Type := Mantissa {
  nd : Z;
  dp : Z;
  mant : N;
  sawdot : bool;
  sawdigits : bool;
  underscores : bool }.

Definition mantissa0 : mantissa := Mantissa 0 0 0 false false false.

Definition push_digit (hex : bool) (d : N) (m : mantissa) : mantissa :=
  if (d =? 0)%N && (nd m =? 0)%Z then
    Mantissa (nd m) (dp m - 1) (mant m) (sawdot m) true (underscores m)
  else
    Mantissa (nd m + 1) (dp m) (mant m * (if hex then 16 else 10) + d)
             (sawdot m) true (underscores m).

Fixpoint scan_mantissa (hex : bool) (s : gostring) (m : mantissa)
    : mantissa * gostring :=
  match s with
  | [] => (m, [])
  | c :: s' =>
      if Ascii.eqb c "_" then
        scan_mantissa hex s'
          (Mantissa (nd m) (dp m) (mant m) (sawdot m) (sawdigits m) true)
      else if Ascii.eqb c "." then
        if sawdot m then (m, s)
        else scan_mantissa hex s'
               (Mantissa (nd m) (nd m) (mant m) true (sawdigits m) (underscores m))
      else match digit_in hex c with
           | Some d => scan_mantissa hex s' (push_digit hex d m)
           | None => (m, s)
           end
  end.

(** The exponent's digits; the value stops growing past 10000. *)
Fixpoint scan_exponent (s : gostring) (e : Z) (us : bool) : Z * bool * gostring :=
  match s with
  | [] => (e, us, [])
  | c :: s' =>
      if Ascii.eqb c "_" then scan_exponent s' e true
      else if is_digit c then
        scan_exponent s' (if (e <? 10000)%Z then e * 10 + Z.of_N (digit_val c) else e)%Z us
      else (e, us, s)
  end.

(** Sign of a number or an exponent, and the rest. *)
Definition scan_sign (s : gostring) : bool * gostring :=
  match s with
  | c :: s' => if Ascii.eqb c "+" then (false, s')
               else if Ascii.eqb c "-" then (true, s') else (false, s)
  | [] => (false, [])
  end.

(** [underscoreOK]: an underscore stands between digits, or between the base
    prefix and a digit. *)
Inductive seen : Type := SawStart | SawDigit | SawUnderscore | SawOther.

Fixpoint underscore_scan (hex : bool) (s : gostring) (saw : seen) : bool :=
  match s with
  | [] => match saw with SawUnderscore => false | _ => true end
  | c :: s' =>
      match digit_in hex c with
      | Some _ => underscore_scan hex s' SawDigit
      | None =>
          if Ascii.eqb c "_" then
            match saw with SawDigit => underscore_scan hex s' SawUnderscore | _ => false end
          else match saw with
               | SawUnderscore => false
               | _ => underscore_scan hex s' SawOther
               end
      end
  end.

Definition underscoreOK (s : gostring) : bool :=
  match snd (scan_sign s) with
  | z :: x :: r =>
      if Ascii.eqb z "0" && mem (lower_byte x) "box"
      then underscore_scan (Ascii.eqb (lower_byte x) "x") r SawDigit
      else underscore_scan false (z :: x :: r) SawStart
  | r => underscore_scan false r SawStart
  end.

(** The base prefix: ["0x"] followed by something. *)
Definition scan_base (s : gostring) : bool * gostring :=
  match s with
  | z :: x :: y :: r =>
      if Ascii.eqb z "0" && Ascii.eqb (lower_byte x) "x" then (true, y :: r) else (false, s)
  | _ => (false, s)
  end.

(** The optional exponent after the mantissa: its value, whether it holds an
    underscore, and what is left; [None] when the syntax is wrong. *)
Definition read_exponent (hex : bool) (s : gostring) : option (Z * bool * gostring) :=
  match s with
  | c :: s' =>
      if Ascii.eqb (lower_byte c) (if hex then "p" else "e")%char then
        let '(neg, r) := scan_sign s' in
        match r with
        | d :: _ =>
            if is_digit d then
              let '(e, us, rest) := scan_exponent r 0 false in
              Some ((if neg then - e else e)%Z, us, rest)
            else None
        | [] => None
        end
      else if hex then None else Some (0%Z, false, s)
  | [] => if hex then None else Some (0%Z, false, [])
  end.

(** [readFloat]: sign, base, mantissa, point and exponent of a whole string. *)
Definition readFloat (s : gostring) : option (bool * bool * mantissa * Z) :=
  let '(neg, s1) := scan_sign s in
  let '(hex, s2) := scan_base s1 in
  let '(m, s3) := scan_mantissa hex s2 mantissa0 in
  if sawdigits m then
    match read_exponent hex s3 with
    | Some (e, us, []) =>
        if (underscores m || us) && negb (underscoreOK s) then None
        else Some (neg, hex, m, e)
    | _ => None
    end
  else None.

Definition special (s : gostring) : option float64 :=
  let l := lower_ascii s in
  if str_eqb l "nan" then Some S754_nan
  else
    let '(neg, w) := scan_sign l in
    if str_eqb w "inf" || str_eqb w "infinity" then Some (S754_infinity neg) else None.

(** Position of the decimal point relative to the first significant digit. *)
Definition point (m : mantissa) : Z := if sawdot m then dp m else nd m.

(** [strconv.ParseFloat(s, 64)]; [None] stands for a syntax or range error. *)
Definition ParseFloat (s : gostring) : option float64 :=
  match special s with
  | Some f => Some f
  | None =>
      match readFloat s with
      | None => None
      | Some (neg, hex, m, e) =>
          let f :=
            if hex then f_of_bin neg (mant m) (4 * point m + e - 4 * nd m)
            else let p := (point m + e)%Z in
              if (mant m =? 0)%N then S754_zero neg
              else if (310 <? p)%Z then S754_infinity neg
              else if (p <? -330)%Z then S754_zero neg
              else f_of_dec neg (mant m) (p - nd m) in
          match f with
          | S754_infinity _ => None
          | _ => Some f
          end
      end
  end.

(** ** Printing *)

Fixpoint dec_digits (fuel : nat) (n : N) (acc : gostring) : gostring :=
  let c := chr (48 + N.to_nat (n mod 10)) in
  match fuel with
  | O => c :: acc
  | S fuel' => if (n <? 10)%N then c :: acc else dec_digits fuel' (n / 10) (c :: acc)
  end.

(** [%d] of a natural number: a number below 2^k has at most k digits. *)
Definition dec_of_N (n : N) : gostring := dec_digits (N.to_nat (N.size n)) n [].
Definition dec_of_nat (n : nat) : gostring := dec_of_N (N.of_nat n).

(** [%d] of an integer. *)
Definition dec_of_Z (z : Z) : gostring :=
  match z with
  | Zneg p => "-"%char :: dec_of_N (Npos p)
  | _ => dec_of_N (Z.to_N z)
  end.

(** The conversion [int64(f)]: truncation, the least integer out of range. *)
Definition int64_of_float (f : float64) : Z :=
  match f with
  | S754_zero _ => 0
  | S754_finite neg m e =>
      let a := Z.shiftl (Zpos m) e in
      let z := if neg then (- a)%Z else a in
      if (- 2 ^ 63 <=? z)%Z && (z <? 2 ^ 63)%Z then z else (- 2 ^ 63)%Z
  | _ => (- 2 ^ 63)%Z
  end.

(** The decimal exponent [k] with [10^(k-1) <= num/den < 10^k]. *)
Fixpoint exp10_up (fuel : nat) (num den : N) (k : Z) : Z :=
  match fuel with
  | O => k
  | S f => if (num <? den)%N then k else exp10_up f num (10 * den) (k + 1)
  end.

Fixpoint exp10_down (fuel : nat) (num den : N) (k : Z) : Z :=
  match fuel with
  | O => k
  | S f => if (den <=? 10 * num)%N then k else exp10_down f (10 * num) den (k - 1)
  end.

Definition exp10 (num den : N) : Z :=
  if (den <=? num)%N then exp10_up 400 num den 0 else exp10_down 400 num den 0.

(** The [n]-digit decimal nearest to [num/den] among those that read back as
    [f], if there is one. *)
Definition candidate (f : float64) (neg : bool) (num den : N) (k : Z) (n : nat)
    : option N :=
  let s := (Z.of_nat n - k)%Z in
  let num' := (num * Z.to_N (10 ^ Z.max 0 s))%N in
  let den' := (den * Z.to_N (10 ^ Z.max 0 (- s)))%N in
  let q := (num' / den')%N in
  let r := (num' mod den')%N in
  let ok c := SFeqb (f_of_dec neg c (- s)) f in
  let up := (den' <? 2 * r)%N || ((den' =? 2 * r)%N && N.odd q) in
  if up then if ok (q + 1)%N then Some (q + 1)%N else if ok q then Some q else None
  else if ok q then Some q else if ok (q + 1)%N then Some (q + 1)%N else None.

Fixpoint shortest (fuel : nat) (f : float64) (neg : bool) (num den : N) (k : Z) (n : nat)
    : N * nat :=
  match fuel with
  | O => (num / den, n)%N
  | S fuel' =>
      match candidate f neg num den k n with
      | Some d => (d, n)
      | None => shortest fuel' f neg num den k (S n)
      end
  end.

Definition two_digits (n : N) : gostring :=
  if (n <? 10)%N then "0"%char :: dec_of_N n else dec_of_N n.

Definition drop_zeros (s : gostring) : gostring :=
  let fix go (l : gostring) :=
    match l with
    | c :: l' => if Ascii.eqb c "0" then go l' else l
    | [] => []
    end in rev (go (rev s)).

(** The fractional part: nothing, or a point and the digits. *)
Definition frac_part (ds : gostring) : gostring :=
  match ds with [] => [] | _ => "."%char :: ds end.

(** Layout of the digits [ds] with the point after the [p]-th one. *)
Definition layout_g (neg : bool) (ds : gostring) (p : Z) : gostring :=
  let sign := if neg then ["-"%char] else [] in
  let x := (p - 1)%Z in
  if (x <? -4)%Z || (6 <=? x)%Z then
    sign ++ take 1 ds ++ frac_part (tail ds) ++ "e"%char ::
      (if (x <? 0)%Z then "-"%char else "+"%char) :: two_digits (Z.abs_N x)
  else if (p <=? 0)%Z then sign ++ "0." ++ Repeat "0" (Z.to_nat (- p)) ++ ds
  else
    let i := Z.to_nat p in
    sign ++ take i ds ++ Repeat "0" (i - length ds) ++ frac_part (drop i ds).

(** [fmt.Sprintf("%g", f)] *)
Definition fmt_g (f : float64) : gostring :=
  match f with
  | S754_nan => "NaN"
  | S754_infinity neg => if neg then "-Inf" else "+Inf"
  | S754_zero neg => if neg then "-0" else "0"
  | S754_finite neg m e =>
      let num := Z.to_N (Z.shiftl (Zpos m) (Z.max 0 e)) in
      let den := Z.to_N (2 ^ Z.max 0 (- e)) in
      let k := exp10 num den in
      let '(d, n) := shortest 17 f neg num den k 1 in
      let ds := dec_of_N d in
      layout_g neg (drop_zeros ds) (k + (Z.of_nat (length ds) - Z.of_nat n))
  end.

(** [formatNumber] of value.go: an integer that survives the conversion to
    [int64] prints with [%d], everything else with [%g]. *)
Definition formatNumber (n : float64) : gostring :=
  let i := int64_of_float n in
  if SFeqb n (f_of_Z i) then dec_of_Z i else fmt_g n.

(** ** Decimal digits *)

Definition dec_value (acc : N) (ds : gostring) : N :=
  fold_left (λ a c, a * 10 + digit_val c)%N ds acc.

Lemma digit_chr n : (n < 10)%N →
  is_digit (chr (48 + N.to_nat n)) = true ∧ digit_val (chr (48 + N.to_nat n)) = n.
Proof.
  intros H. unfold is_digit, between, digit_val, chr.
  rewrite nat_ascii_embedding by lia. split; [|lia].
  apply andb_true_intro; split; apply Nat.leb_le; lia.
Qed.

(** The digits of [n]: they are digits, read back as [n], and lead with a
    non-zero one when [n] is not zero; there are few of them. *)
Lemma dec_digits_spec fuel n acc :
  (n < 10 ^ N.of_nat (S fuel))%N →
  ∃ ds, dec_digits fuel n acc = ds ++ acc ∧ forallb is_digit ds = true ∧ ds ≠ [] ∧
        (∀ a, dec_value a ds = a * 10 ^ N.of_nat (length ds) + n)%N ∧
        (0 < n → ∃ c r, ds = c :: r ∧ digit_val c ≠ 0)%N ∧
        (∀ k : nat, 0 < k → (n < 10 ^ N.of_nat k)%N → length ds ≤ k).
Proof.
  revert n acc. induction fuel as [|fuel IH]; intros n acc Hn; cbn [dec_digits];
    [|destruct (N.ltb_spec n 10) as [Hlt|Hge]].
  1, 2: assert (n < 10)%N as Hlt' by lia;
    pose proof (digit_chr (n mod 10)%N ltac:(apply N.mod_lt; lia)) as [Hd Hv];
    rewrite (N.mod_small n 10) in * by done;
    eexists [_]; split; [done|]; cbn [forallb dec_value fold_left length];
    rewrite Hd, Hv; repeat split; try done; try lia;
    intros Hpos; eexists _, _; split; [done|]; rewrite Hv; lia.
  destruct (IH (n / 10)%N (chr (48 + N.to_nat (n mod 10)) :: acc))
    as (ds & -> & Hds & Hne & Hval & Hlead & Hlen).
  { apply N.Div0.div_lt_upper_bound. rewrite Nat2N.inj_succ, N.pow_succ_r' in Hn. lia. }
  pose proof (digit_chr (n mod 10)%N ltac:(apply N.mod_lt; lia)) as [Hd Hv].
  exists (ds ++ [chr (48 + N.to_nat (n mod 10))]). split; [by rewrite <- app_assoc|].
  repeat split.
  - rewrite forallb_app, Hds. cbn [forallb]. by rewrite Hd.
  - by destruct ds.
  - intros a. unfold dec_value in *. rewrite fold_left_app. cbn [fold_left].
    rewrite Hval, Hv, length_app. cbn [length]. rewrite Nat2N.inj_add, N.pow_add_r.
    pose proof (N.div_mod n 10). simpl (N.of_nat 1). lia.
  - intros _. destruct Hlead as (c & r & -> & Hc); [apply N.div_str_pos; lia|].
    by exists c, (r ++ [chr (48 + N.to_nat (n mod 10))]).
  - intros k Hk Hnk. rewrite length_app. cbn [length].
    destruct k as [|[|k]]; [lia|simpl in Hnk; lia|].
    enough (length ds ≤ S k) by lia. apply Hlen; [lia|].
    apply N.Div0.div_lt_upper_bound.
    rewrite (Nat2N.inj_succ (S k)), N.pow_succ_r' in Hnk. lia.
Qed.

Lemma dec_of_N_spec n :
  forallb is_digit (dec_of_N n) = true ∧ dec_of_N n ≠ [] ∧ dec_value 0 (dec_of_N n) = n ∧
  (0 < n → ∃ c r, dec_of_N n = c :: r ∧ digit_val c ≠ 0)%N ∧
  (∀ k : nat, 0 < k → (n < 10 ^ N.of_nat k)%N → length (dec_of_N n) ≤ k).
Proof.
  unfold dec_of_N.
  destruct (dec_digits_spec (N.to_nat (N.size n)) n []) as (ds & Heq & Hds & Hne & Hv & Hl & Hk).
  { rewrite Nat2N.inj_succ, N2Nat.id. pose proof (N.size_gt n).
    pose proof (N.pow_le_mono_l 2 10 (N.size n)). rewrite N.pow_succ_r'. lia. }
  rewrite Heq, app_nil_r. repeat split; done || by rewrite Hv.
Qed.

(** Decimal printing is injective. *)
Lemma dec_of_N_inj n m : dec_of_N n = dec_of_N m → n = m.
Proof.
  destruct (dec_of_N_spec n) as (_ & _ & Hn & _), (dec_of_N_spec m) as (_ & _ & Hm & _).
  congruence.
Qed.

(** ** Reading back an integer *)

Lemma is_digit_not c x : is_digit c = true → is_digit x = false → Ascii.eqb c x = false.
Proof. intros ??. apply Ascii.eqb_neq. congruence. Qed.

Lemma push_digit_pos hex d m : (0 < nd m)%Z →
  push_digit hex d m =
    Mantissa (nd m + 1) (dp m) (mant m * (if hex then 16 else 10) + d) (sawdot m) true
             (underscores m).
Proof.
  intros H. unfold push_digit. destruct (Z.eqb_spec (nd m) 0); [lia|].
  by rewrite andb_false_r.
Qed.

Lemma scan_digits ds m :
  forallb is_digit ds = true → (0 < nd m)%Z →
  scan_mantissa false ds m =
    (Mantissa (nd m + Z.of_nat (length ds)) (dp m) (dec_value (mant m) ds) (sawdot m)
       (sawdigits m || negb (Nat.eqb (length ds) 0)) (underscores m), []).
Proof.
  revert m. induction ds as [|c ds IH]; intros m Hds Hnd.
  - simpl. rewrite Z.add_0_r, orb_false_r. by destruct m.
  - cbn [forallb] in Hds. breflect. cbn [scan_mantissa].
    rewrite !is_digit_not by done. unfold digit_in. rewrite H.
    rewrite push_digit_pos by done.
    rewrite IH; cbn [nd dp mant sawdot sawdigits underscores]; [|done|lia].
    f_equal. f_equal; [simpl; lia|]. by rewrite orb_true_r.
Qed.

Lemma scan_dec n : (0 < n)%N →
  scan_mantissa false (dec_of_N n) mantissa0 =
    (Mantissa (Z.of_nat (length (dec_of_N n))) 0 n false true false, []).
Proof.
  intros Hn. destruct (dec_of_N_spec n) as (Hd & _ & Hv & Hl & _).
  destruct (Hl Hn) as (c & r & Hcr & Hc). rewrite Hcr in *.
  cbn [forallb] in Hd. breflect. cbn [scan_mantissa].
  rewrite !is_digit_not by done. unfold digit_in. rewrite H.
  assert (push_digit false (digit_val c) mantissa0 =
          Mantissa 1 0 (digit_val c) false true false) as ->.
  { unfold push_digit. destruct (N.eqb_spec (digit_val c) 0); [done|]. by simpl. }
  rewrite scan_digits by done. cbn [nd dp mant sawdot sawdigits underscores orb].
  f_equal. f_equal; [simpl; lia|]. rewrite <- Hv. done.
Qed.

(** Printed digits are neither a sign, a base prefix nor a special word. *)
Lemma digits_plain ds : forallb is_digit ds = true → ds ≠ [] →
  scan_sign ds = (false, ds) ∧ scan_base ds = (false, ds) ∧ lower_ascii ds = ds.
Proof.
  intros Hd Hne. destruct ds as [|c ds]; [done|].
  assert (Hlow : ∀ x, is_digit x = true → lower_byte x = x).
  { intros x. unfold is_digit, lower_byte, is_upper, between. intros H. breflect.
    destruct (Nat.leb_spec 65 (code x)); [lia|done]. }
  cbn [forallb] in Hd. breflect. repeat split.
  - simpl. rewrite !is_digit_not by done. done.
  - destruct ds as [|x [|y ds]]; try done. simpl in *. breflect.
    rewrite (Hlow x), (is_digit_not x "x") by done. by rewrite andb_false_r.
  - unfold lower_ascii. simpl. rewrite Hlow by done. f_equal.
    clear -H0 Hlow. induction ds as [|x ds IH]; [done|]. simpl in *. breflect.
    by rewrite Hlow, IH.
Qed.

Lemma readFloat_dec n : (0 < n)%N →
  readFloat (dec_of_N n) =
    Some (false, false, Mantissa (Z.of_nat (length (dec_of_N n))) 0 n false true false, 0%Z).
Proof.
  intros Hn. destruct (dec_of_N_spec n) as (Hd & Hne & _).
  destruct (digits_plain _ Hd Hne) as (Hs & Hb & _).
  unfold readFloat. rewrite Hs, Hb, scan_dec by done. done.
Qed.

Lemma readFloat_neg n : (0 < n)%N →
  readFloat ("-"%char :: dec_of_N n) =
    Some (true, false, Mantissa (Z.of_nat (length (dec_of_N n))) 0 n false true false, 0%Z).
Proof.
  intros Hn. destruct (dec_of_N_spec n) as (Hd & Hne & _).
  destruct (digits_plain _ Hd Hne) as (_ & Hb & _).
  unfold readFloat. cbn [scan_sign]. change (Ascii.eqb "-" "+") with false.
  change (Ascii.eqb "-" "-") with true. cbn iota. rewrite Hb, scan_dec by done. done.
Qed.

Lemma special_digits neg ds :
  forallb is_digit ds = true → ds ≠ [] →
  special (if neg : bool then "-"%char :: ds else ds) = None.
Proof.
  intros Hd Hne. destruct (digits_plain _ Hd Hne) as (Hs & _ & Hl).
  destruct ds as [|c ds]; [done|].
  assert (Hw : ∀ w, match w with x :: _ => is_digit x = false | [] => True end →
                    str_eqb (c :: ds) w = false).
  { intros [|x w] Hx; [done|]. simpl. cbn [forallb] in Hd. breflect.
    by rewrite is_digit_not. }
  unfold special. destruct neg; unfold lower_ascii in *.
  - change (map lower_byte ("-"%char :: c :: ds))
      with ("-"%char :: map lower_byte (c :: ds)).
    rewrite Hl. cbn -[str_eqb]. rewrite !Hw by done. done.
  - rewrite Hl, Hs, !Hw by done. done.
Qed.

Lemma f_of_dec_int neg p :
  f_of_dec neg (Npos p) 0 = f_of_Z (signed neg p).
Proof.
  unfold f_of_dec, f_of_Z. cbn [Z.leb]. change (Z.to_pos (10 ^ 0)) with 1%positive.
  rewrite Pos.mul_1_r. by destruct neg.
Qed.

(** [ParseFloat] of a printed integer is the conversion of that integer. *)
Lemma ParseFloat_dec_of_Z z :
  (Z.abs z < 10 ^ 300)%Z → (∀ b, f_of_Z z ≠ S754_infinity b) →
  ParseFloat (dec_of_Z z) = Some (f_of_Z z).
Proof.
  intros Hz Hfin. destruct z as [|p|p]; [done|..].
  all: destruct (dec_of_N_spec (Npos p)) as (Hd & Hne & _ & _ & Hlen);
    pose proof (Hlen 300%nat ltac:(lia) ltac:(simpl N.of_nat; lia)) as Hk;
    unfold ParseFloat, dec_of_Z; cbn [Z.to_N].
  - rewrite (special_digits false), readFloat_dec by done.
    cbn [point sawdot nd dp mant]. rewrite Z.add_0_r. cbn [N.eqb].
    destruct (Z.ltb_spec 310 (Z.of_nat (length (dec_of_N (Npos p))))); [lia|].
    destruct (Z.ltb_spec (Z.of_nat (length (dec_of_N (Npos p)))) (-330)); [lia|].
    rewrite Z.sub_diag, f_of_dec_int. simpl signed.
    destruct (f_of_Z (Z.pos p)) eqn:E; try done. by destruct (Hfin s).
  - rewrite (special_digits true), readFloat_neg by done.
    cbn [point sawdot nd dp mant]. rewrite Z.add_0_r. cbn [N.eqb].
    destruct (Z.ltb_spec 310 (Z.of_nat (length (dec_of_N (Npos p))))); [lia|].
    destruct (Z.ltb_spec (Z.of_nat (length (dec_of_N (Npos p)))) (-330)); [lia|].
    rewrite Z.sub_diag, f_of_dec_int. simpl signed.
    destruct (f_of_Z (Z.neg p)) eqn:E; try done. by destruct (Hfin s).
Qed.

Lemma int64_of_float_range f : (- 2 ^ 63 ≤ int64_of_float f < 2 ^ 63)%Z.
Proof.
  destruct f as [| | |neg m e]; simpl int64_of_float; try lia.
  destruct (_ && _) eqn:E; [|lia]. apply andb_prop in E as [?%Z.leb_le ?%Z.ltb_lt]. lia.
Qed.

Lemma SFeqb_eq_or_zero x y :
  SFeqb x y = true → x = y ∨ ∃ a b, x = S754_zero a ∧ y = S754_zero b.
Proof.
  unfold SFeqb, SFcompare.
  destruct x as [a|a| |a m e], y as [b|b| |b m' e']; try done; try (destruct a); try (destruct b);
    try done; try (by right; eexists _, _); try (by left); intros H; left.
  all: destruct (Z.compare_spec e e') as [->|?|?]; try done.
  all: simpl in H; destruct (Pcompare m m' Eq) eqn:E; try done;
    by apply Pos.compare_eq in E as ->.
Qed.

(** The integer branch of [formatNumber] reads back as the same number (the
    two zeros are one value). *)
Lemma formatNumber_int_reads n :
  SFeqb n (f_of_Z (int64_of_float n)) = true →
  ParseFloat (formatNumber n) = Some (f_of_Z (int64_of_float n)).
Proof.
  intros H. unfold formatNumber. rewrite H. apply ParseFloat_dec_of_Z.
  - pose proof (int64_of_float_range n). lia.
  - intros b Hb. rewrite Hb in H.
    apply SFeqb_eq_or_zero in H as [->|(?&?&?&?)]; [|done]. simpl in Hb.
    by vm_compute in Hb.
Qed.
