(* ===== verification/HkValue.v ===== *)
(** * Values and errors of the .hk format (internal/hk/value.go, errors.go)

    A value is a tagged union with the constructors of [ValueKind]; a map value
    holds a pointer, the location of an ordered map in the heap of [HkHeap]. *)

From Stdlib Require Import Ascii String ZArith Lia SpecFloat.
From stdpp Require Import base list gmap strings.
From S2P Require Import Prelude GoStrings GoNumbers.

Abbreviation loc := nat.

Inductive ValueKind : Type :=
| KindString
| KindNumber
| KindBool
| KindArray
| KindMap.

Inductive HkValue : Type :=
| VString (s : gostring)
| VNumber (n : float64)
| VBool (b : bool)
| VArray (items : list HkValue)
| VMap (m : loc).

Definition Kind (v : HkValue) : ValueKind :=
  match v with
  | VString _ => KindString
  | VNumber _ => KindNumber
  | VBool _ => KindBool
  | VArray _ => KindArray
  | VMap _ => KindMap
  end.

Definition is_map (v : HkValue) : bool :=
  match v with VMap _ => true | _ => false end.

Definition scalar (v : HkValue) : bool :=
  match v with VArray _ | VMap _ => false | _ => true end.

(** What the text of one value can denote: a scalar or an array of scalars. *)
Definition leaf_val (v : HkValue) : bool :=
  match v with VMap _ => false | VArray l => forallb scalar l | _ => true end.

Definition kindName (v : HkValue) : gostring :=
  match Kind v with
  | KindString => "string"
  | KindNumber => "number"
  | KindBool => "bool"
  | KindArray => "array"
  | KindMap => "map"
  end.

(** ** Errors *)

(** The messages of a syntax error, with the values they format. *)
Inductive ParseMessage : Type :=
| UnexpectedLine (line : gostring)
| UnclosedHeader
| EmptySectionName
| KeyOutsideSection
| MissingKey
| NestingTooDeep (depth : nat)
| MissingKeyName
| BadValue
| MissingArrowHead
| UnclosedInterpolation (s : gostring).

Record ParseErrorInfo : Type := ParseErr {
  Line : nat;
  Column : nat;
  Message : ParseMessage;
  Hint : gostring;
  SourceLine : gostring }.

Inductive HkError : Type :=
| ParseError (info : ParseErrorInfo)
| TypeMismatch (expected found : gostring)
| InvalidReference (path : gostring)
| CyclicReference (path : gostring)
| KeyConflict (key : gostring)
| MissingField (name : gostring)
| OpenFailed (path : gostring)
| ReadFailed (path : gostring).

(** ** Conversions *)

Definition AsString (v : HkValue) : res HkError gostring :=
  match v with
  | VString s => Ok s
  | VNumber n => Ok (formatNumber n)
  | VBool b => Ok (if b then "true" else "false")
  | _ => Err (TypeMismatch "string" (kindName v))
  end.

Definition AsNumber (v : HkValue) : res HkError float64 :=
  match v with VNumber n => Ok n | _ => Err (TypeMismatch "number" (kindName v)) end.

Definition AsBool (v : HkValue) : res HkError bool :=
  match v with VBool b => Ok b | _ => Err (TypeMismatch "bool" (kindName v)) end.

Definition AsArray (v : HkValue) : res HkError (list HkValue) :=
  match v with VArray l => Ok l | _ => Err (TypeMismatch "array" (kindName v)) end.

Definition AsMap (v : HkValue) : res HkError loc :=
  match v with VMap m => Ok m | _ => Err (TypeMismatch "map" (kindName v)) end.
