(* ===== verification/HkLex.v ===== *)
(** * Lexical layer of the .hk format

    lexvalue.go (scalars, arrays, escapes), path.go (dotted paths, array
    indices), the key helpers of parser.go and the scalar half of serialize.go.
    The theorems show that what the serializer writes for a scalar or an array
    is what the lexer reads, and which strings are the exceptions. *)

From Stdlib Require Import Ascii String ZArith Lia SpecFloat.
From stdpp Require Import base list gmap strings.
From S2P Require Import Prelude GoStrings GoNumbers HkValue.

(** The slice expression [s[i:j]], which panics out of range. *)
Definition slice {E} (s : gostring) (i j : nat) : res E gostring :=
  if (i <=? j) && (j <=? length s) then Ok (take (j - i) (drop i s)) else Panic.

(** [len(s) >= 2 && s[0] == '"' && s[len(s)-1] == '"'] *)
Definition quoted (s : gostring) : bool :=
  (2 <=? length s) &&
  match s with c :: _ => Ascii.eqb c DQ | [] => false end &&
  match last s with Some c => Ascii.eqb c DQ | None => false end.

(** ** lexvalue.go *)

Fixpoint unescapeString (s : gostring) : gostring :=
  match s with
  | [] => []
  | c :: s1 =>
      if Ascii.eqb c BSL then
        match s1 with
        | d :: s2 =>
            (if Ascii.eqb d "n" then [NL]
             else if Ascii.eqb d "t" then [TAB]
             else if Ascii.eqb d "r" then [CR]
             else if Ascii.eqb d DQ then [DQ]
             else if Ascii.eqb d BSL then [BSL]
             else [BSL; d]) ++ unescapeString s2
        | [] => [c]
        end
      else c :: unescapeString s1
  end.

Fixpoint split_elements (rs : list gostring) (cur : gostring) (inQuotes escaped : bool)
    : list gostring :=
  match rs with
  | [] => match cur with [] => [] | _ => [cur] end
  | r :: rs' =>
      if escaped then split_elements rs' (cur ++ r) inQuotes false
      else if str_eqb r [BSL] && inQuotes then split_elements rs' (cur ++ r) inQuotes true
      else if str_eqb r [DQ] then split_elements rs' (cur ++ r) (negb inQuotes) false
      else if str_eqb r "," && negb inQuotes then cur :: split_elements rs' [] inQuotes false
      else split_elements rs' (cur ++ r) inQuotes false
  end.

Definition splitArrayElements (s : gostring) : list gostring :=
  split_elements (runes s) [] false false.

Definition parseScalar (raw : gostring) : res HkError HkValue :=
  let raw := TrimSpace raw in
  if quoted raw then
    let? inner := slice raw 1 (length raw - 1) in
    Ok (VString (unescapeString inner))
  else
    let lower := ToLower raw in
    if str_eqb lower "true" then Ok (VBool true)
    else if str_eqb lower "false" then Ok (VBool false)
    else match ParseFloat raw with
         | Some n => Ok (VNumber n)
         | None => Ok (VString raw)
         end.

Fixpoint parse_items (parts : list gostring) : res HkError (list HkValue) :=
  match parts with
  | [] => Ok []
  | p :: ps =>
      let? v := parseScalar (TrimSpace p) in
      let? vs := parse_items ps in
      Ok (v :: vs)
  end.

Definition parseArrayLiteral (raw : gostring) : res HkError HkValue :=
  let? mid := slice raw 1 (length raw - 1) in
  let inner := TrimSpace mid in
  if str_eqb inner "" then Ok (VArray [])
  else
    let? items := parse_items (splitArrayElements inner) in
    Ok (VArray items).

Definition parseScalarOrArray (raw : gostring) : res HkError HkValue :=
  let raw := TrimSpace raw in
  if HasPrefix raw "[" && HasSuffix raw "]" then parseArrayLiteral raw
  else parseScalar raw.

(** ** path.go *)

Fixpoint split_path (rs : list gostring) (cur : gostring) (inQuotes seen : bool)
    : list gostring :=
  match rs with
  | [] => if negb (str_eqb cur "") || seen then [cur] else []
  | r :: rs' =>
      if str_eqb r [DQ] then split_path rs' cur (negb inQuotes) seen
      else if str_eqb r "." && negb inQuotes then cur :: split_path rs' [] inQuotes true
      else split_path rs' (cur ++ r) inQuotes seen
  end.

Definition splitPath (path : gostring) : list gostring :=
  split_path (runes path) [] false false.

(** The digit loop of [parseArrayIndex], on 64-bit integers; [None] when a
    character is neither a digit nor a leading minus sign. *)
Fixpoint index_digits (s : gostring) (n : Z) (neg started : bool) : option (Z * bool) :=
  match s with
  | [] => Some (n, neg)
  | c :: s' =>
      if Ascii.eqb c "-" && negb started then index_digits s' n true true
      else if is_digit c then
        index_digits s' (int64_wrap (int64_wrap (n * 10) + Z.of_N (digit_val c))) neg true
      else None
  end.

(** [parseArrayIndex]: the index if the segment has one, and the base name. *)
Definition parseArrayIndex (segment : gostring) : res HkError (option Z * gostring) :=
  match IndexByte segment "[", IndexByte segment "]" with
  | Some openIdx, Some closeIdx =>
      if closeIdx <? openIdx then Ok (None, segment)
      else
        let? base := slice segment 0 openIdx in
        let? numStr := slice segment (openIdx + 1) closeIdx in
        match index_digits numStr 0 false false with
        | None => Ok (None, segment)
        | Some (n, neg) => Ok (Some (if neg then int64_wrap (- n) else n), base)
        end
  | _, _ => Ok (None, segment)
  end.

(** ** Helpers of parser.go *)

Definition stripQuotes (s : gostring) : res HkError gostring :=
  if quoted s then slice s 1 (length s - 1) else Ok s.

Fixpoint count_dashes (line : gostring) : nat :=
  match line with
  | c :: l => if Ascii.eqb c "-" then S (count_dashes l) else O
  | [] => O
  end.

Definition countDashDepth (line : gostring) (lineNo : nat) (raw : gostring)
    : res HkError (nat * gostring) :=
  let i := count_dashes line in
  match drop i line with
  | c :: rest =>
      if negb (i =? 0) && Ascii.eqb c ">" then Ok (i, rest)
      else Err (ParseError (ParseErr lineNo (i + 1) MissingArrowHead
                              "Przyklad: -> klucz => wartosc" raw))
  | [] => Err (ParseError (ParseErr lineNo (i + 1) MissingArrowHead
                             "Przyklad: -> klucz => wartosc" raw))
  end.

(** ** Scalars in serialize.go *)

Definition looksLikeNumberOrBool (s : gostring) : bool :=
  let lower := ToLower s in
  if str_eqb lower "true" || str_eqb lower "false" then true
  else match ParseFloat s with Some _ => true | None => false end.

Definition needsQuotes (s : gostring) : bool :=
  str_eqb s "" || ContainsAny s [NL; TAB; CR; DQ; BSL]
  || looksLikeNumberOrBool s || negb (str_eqb (TrimSpace s) s).

Definition escape_byte (c : ascii) : option gostring :=
  if Ascii.eqb c BSL then Some [BSL; BSL]
  else if Ascii.eqb c DQ then Some [BSL; DQ]
  else if Ascii.eqb c NL then Some [BSL; "n"%char]
  else if Ascii.eqb c TAB then Some [BSL; "t"%char]
  else if Ascii.eqb c CR then Some [BSL; "r"%char]
  else None.

Definition escapeString (s : gostring) : gostring := replace_bytes escape_byte s.

Definition serializeString (s : gostring) : gostring :=
  if needsQuotes s then DQ :: escapeString s ++ [DQ] else s.

Fixpoint serializeScalarOrArray (v : HkValue) : gostring :=
  match v with
  | VString s => serializeString s
  | VNumber n => formatNumber n
  | VBool b => if b then "true" else "false"
  | VArray items => "[" ++ Join (map serializeScalarOrArray items) ", " ++ "]"
  | VMap _ => ""
  end.

(** ** Slices and quotes *)

Lemma slice_mid {E} c d (s : gostring) :
  slice (E := E) (c :: s ++ [d]) 1 (length (c :: s ++ [d]) - 1) = Ok s.
Proof.
  unfold slice. cbn [length]. rewrite length_app. cbn [length].
  replace (S (length s + 1) - 1) with (S (length s)) by lia.
  destruct (Nat.leb_spec 1 (S (length s))); [|lia].
  destruct (Nat.leb_spec (S (length s)) (S (length s + 1))); [|lia]. simpl.
  f_equal. apply take_app_length'. lia.
Qed.

Lemma quoted_iff s : quoted s = true ↔ ∃ m, s = DQ :: m ++ [DQ].
Proof.
  unfold quoted. split.
  - intros H. breflect. destruct s as [|c s]; [done|]. breflect. subst.
    destruct s as [|x s'] using rev_ind; [simpl in *; lia|]. exists s'.
    rewrite app_comm_cons, last_snoc in *. breflect. by subst.
  - intros [m ->]. rewrite app_comm_cons, last_snoc, Ascii.eqb_refl.
    rewrite length_app. simpl. by rewrite Nat.add_1_r.
Qed.

Lemma quoted_mem s : quoted s = true → mem DQ s = true.
Proof. intros [m ->]%quoted_iff. done. Qed.

Lemma ends_mid s : HasPrefix s "[" = true → HasSuffix s "]" = true →
  ∃ m, s = "["%char :: m ++ ["]"%char].
Proof.
  intros [r ->]%HasPrefix_iff [r' Hr]%HasSuffix_iff.
  destruct r' as [|c r']; [done|]. injection Hr as <- ->. by exists r'.
Qed.

(** ** Escapes *)

Lemma unescape_escape s : unescapeString (escapeString s) = s.
Proof.
  induction s as [|c s IH]; [done|].
  unfold escapeString, replace_bytes in *. cbn [flat_map]. unfold escape_byte at 1.
  destruct (Ascii.eqb_spec c BSL) as [->|]; [cbn; by rewrite IH|].
  destruct (Ascii.eqb_spec c DQ) as [->|]; [cbn; by rewrite IH|].
  destruct (Ascii.eqb_spec c NL) as [->|]; [cbn; by rewrite IH|].
  destruct (Ascii.eqb_spec c TAB) as [->|]; [cbn; by rewrite IH|].
  destruct (Ascii.eqb_spec c CR) as [->|]; [cbn; by rewrite IH|].
  cbn [app unescapeString]. destruct (Ascii.eqb_spec c BSL); [done|]. by rewrite IH.
Qed.

Lemma escape_no_newline s : mem NL (escapeString s) = false.
Proof.
  unfold escapeString, replace_bytes, mem.
  induction s as [|c s IH]; [done|]. cbn [flat_map]. rewrite existsb_app, IH, orb_false_r.
  unfold escape_byte. repeat (split_match; [done|]). cbn [existsb].
  rewrite orb_false_r. apply Ascii.eqb_neq. breflect. congruence.
Qed.

(** ** Scalars *)

Lemma needsQuotes_false s :
  needsQuotes s = false →
  s ≠ [] ∧ mem NL s = false ∧ mem DQ s = false ∧ mem BSL s = false ∧
  ToLower s ≠ "true" ∧ ToLower s ≠ "false" ∧ ParseFloat s = None ∧ TrimSpace s = s.
Proof.
  unfold needsQuotes, looksLikeNumberOrBool. intros H. breflect.
  apply str_eqb_neq in H. apply str_eqb_eq in H0.
  destruct (str_eqb (ToLower s) "true" || str_eqb (ToLower s) "false") eqn:El; [done|].
  breflect. destruct (ParseFloat s) eqn:Ef; [done|].
  assert (Hany : ∀ c, mem c [NL; TAB; CR; DQ; BSL] = true → mem c s = false).
  { intros c Hc. apply mem_false. intros Hin%list_elem_of_In.
    unfold ContainsAny in H2. apply not_true_iff_false in H2. apply H2.
    apply existsb_exists. eauto. }
  repeat split; try (by apply str_eqb_neq); try (by apply Hany); done.
Qed.

Lemma serializeString_quoted s :
  needsQuotes s = true → serializeString s = DQ :: escapeString s ++ [DQ].
Proof. intros H. unfold serializeString. by rewrite H. Qed.

Lemma serializeString_plain s : needsQuotes s = false → serializeString s = s.
Proof. intros H. unfold serializeString. by rewrite H. Qed.

Lemma TrimSpace_serializeString s : TrimSpace (serializeString s) = serializeString s.
Proof.
  unfold serializeString. destruct (needsQuotes s) eqn:E.
  - by apply TrimSpace_solid.
  - by apply needsQuotes_false in E as (_&_&_&_&_&_&_&?).
Qed.

Lemma serializeString_nonempty s : serializeString s ≠ [].
Proof.
  unfold serializeString. destruct (needsQuotes s) eqn:E; [done|].
  by apply needsQuotes_false in E as [? _].
Qed.

Lemma serializeString_no_newline s : mem NL (serializeString s) = false.
Proof.
  unfold serializeString. destruct (needsQuotes s) eqn:E.
  - change (DQ :: escapeString s ++ [DQ]) with ([DQ] ++ escapeString s ++ [DQ]).
    by rewrite !mem_app, escape_no_newline.
  - by apply needsQuotes_false in E as (_&?&_).
Qed.

Lemma parseScalar_serializeString s : parseScalar (serializeString s) = Ok (VString s).
Proof.
  unfold parseScalar. rewrite TrimSpace_serializeString.
  unfold serializeString. destruct (needsQuotes s) eqn:E.
  - rewrite (proj2 (quoted_iff _)) by eauto. rewrite slice_mid. simpl.
    by rewrite unescape_escape.
  - apply needsQuotes_false in E as (_ & _ & Hq & _ & Ht & Hf & Hp & _).
    destruct (quoted s) eqn:Eq; [apply quoted_mem in Eq; congruence|].
    rewrite (proj2 (str_eqb_neq _ _) Ht), (proj2 (str_eqb_neq _ _) Hf). by rewrite Hp.
Qed.

(** Lexing a scalar always gives a scalar: no error, no panic, no map. *)
Lemma parseScalar_total raw :
  ∃ v, parseScalar raw = Ok v ∧ Kind v ≠ KindArray ∧ Kind v ≠ KindMap.
Proof.
  unfold parseScalar. destruct (quoted (TrimSpace raw)) eqn:E.
  - apply quoted_iff in E as [m ->]. rewrite slice_mid. simpl. by eexists.
  - repeat split_match; by eexists.
Qed.

Lemma parse_items_total parts :
  ∃ vs, parse_items parts = Ok vs ∧
        Forall (λ v, Kind v ≠ KindArray ∧ Kind v ≠ KindMap) vs.
Proof.
  induction parts as [|p ps [vs [IH Hvs]]]; simpl; [by exists []|].
  destruct (parseScalar_total (TrimSpace p)) as (v & -> & Hv). simpl.
  rewrite IH. simpl. exists (v :: vs). auto.
Qed.

Lemma parseArrayLiteral_total m :
  ∃ vs, parseArrayLiteral ("["%char :: m ++ ["]"%char]) = Ok (VArray vs) ∧
        forallb scalar vs = true.
Proof.
  unfold parseArrayLiteral. rewrite slice_mid. simpl.
  destruct (str_eqb (TrimSpace m) ""); [by eexists|].
  destruct (parse_items_total (splitArrayElements (TrimSpace m))) as (vs & -> & Hvs).
  exists vs. split; [done|]. clear -Hvs. induction Hvs as [|v vs [? ?] _ IH]; [done|].
  simpl. rewrite IH. by destruct v.
Qed.

Lemma parseScalarOrArray_total raw :
  ∃ v, parseScalarOrArray raw = Ok v ∧ leaf_val v = true.
Proof.
  unfold parseScalarOrArray.
  destruct (HasPrefix (TrimSpace raw) "[" && HasSuffix (TrimSpace raw) "]") eqn:E.
  - apply andb_prop in E as [Ep Es]. destruct (ends_mid _ Ep Es) as [m ->].
    destruct (parseArrayLiteral_total m) as (vs & -> & ?). by eexists.
  - destruct (parseScalar_total (TrimSpace raw)) as (v & -> & ? & Hv). eexists.
    split; [done|]. by destruct v.
Qed.

(** ** The text of a number *)

Definition num_char (c : ascii) : bool := is_digit c || mem c "+-.eNaInf".

Lemma digits_num ds : forallb is_digit ds = true → forallb num_char ds = true.
Proof.
  induction ds as [|c ds IH]; [done|]. cbn [forallb]. intros H. breflect.
  unfold num_char at 1. by rewrite H, IH.
Qed.

Lemma forallb_sublist {A} (f : A → bool) l k :
  (∀ x, x ∈ k → x ∈ l) → forallb f l = true → forallb f k = true.
Proof.
  intros Hin H. apply forallb_forall. intros x Hx%list_elem_of_In.
  apply forallb_forall with (x := x) in H; [done|]. apply list_elem_of_In. auto.
Qed.

Lemma drop_zeros_sub ds x : x ∈ drop_zeros ds → x ∈ ds.
Proof.
  unfold drop_zeros. rewrite !list_elem_of_In, <- in_rev, (in_rev ds), <- !list_elem_of_In.
  generalize (rev ds) as l.
  induction l as [|c l IH]; [done|]. destruct (Ascii.eqb c "0"); set_solver.
Qed.

Lemma Repeat_zero_num n : forallb num_char (Repeat "0" n) = true.
Proof. unfold Repeat. induction n; [done|]. cbn [replicate forallb]. by rewrite IHn. Qed.

Lemma layout_g_chars neg ds p :
  forallb is_digit ds = true → forallb num_char (layout_g neg ds p) = true.
Proof.
  intros Hd.
  assert (Hsub : ∀ k, (∀ x, x ∈ k → x ∈ ds) → forallb num_char k = true).
  { intros k Hk. apply digits_num. by eapply forallb_sublist. }
  assert (Htail : ∀ k, (∀ x, x ∈ k → x ∈ ds) →
            forallb num_char (frac_part k) = true).
  { intros [|c k] Hk; [done|]. apply (andb_true_intro (conj eq_refl (Hsub _ Hk))). }
  assert (Hn : ∀ n, forallb num_char (dec_of_N n) = true).
  { intros n. apply digits_num, dec_of_N_spec. }
  assert (Hsign : forallb num_char (if neg then ["-"%char] else []) = true) by (by destruct neg).
  unfold layout_g. destruct (_ || _).
  - rewrite !forallb_app, Hsign. rewrite (Hsub (take 1 ds)), Htail;
      [|by intros x Hx; destruct ds; set_solver|intros x Hx; by eapply subseteq_take].
    cbn [forallb]. replace (num_char "e") with true by done.
    unfold two_digits. destruct (p - 1 <? 0)%Z, (Z.abs_N (p - 1) <? 10)%N;
      cbn [forallb]; by rewrite Hn.
  - destruct (p <=? 0)%Z; rewrite !forallb_app, Hsign, Repeat_zero_num.
    + by rewrite (Hsub ds).
    + rewrite (Hsub (take _ ds)), (Htail (drop _ ds)); [done|..];
        intros x Hx; [by eapply subseteq_drop|by eapply subseteq_take].
Qed.

Lemma layout_g_nonempty neg ds p : layout_g neg ds p ≠ [].
Proof.
  unfold layout_g. destruct (_ || _); [by destruct neg, (take 1 ds), (tail ds)|].
  destruct (Z.leb_spec p 0); [by destruct neg|].
  destruct neg; [done|]. simpl.
  destruct (Z.to_nat p) eqn:E; [lia|]. by destruct ds.
Qed.

Lemma formatNumber_chars n : forallb num_char (formatNumber n) = true ∧ formatNumber n ≠ [].
Proof.
  assert (Hz : ∀ z, forallb num_char (dec_of_Z z) = true ∧ dec_of_Z z ≠ []).
  { intros [|q|q]; [done|..]; destruct (dec_of_N_spec (Npos q)) as (Hd & Hne & _);
      simpl; (split; [|done]); by apply digits_num. }
  unfold formatNumber. destruct (SFeqb _ _); [apply Hz|].
  destruct n as [[]|[]| |neg m e]; try done. unfold fmt_g.
  destruct (shortest _ _ _ _ _ _ _) as [d k]. split; [|apply layout_g_nonempty].
  apply layout_g_chars. eapply forallb_sublist; [|apply (dec_of_N_spec d)].
  apply drop_zeros_sub.
Qed.

(** A number's text is printable ASCII without quotes, commas or brackets. *)
Lemma num_char_plain c : num_char c = true →
  solid c = true ∧ is_ascii c = true ∧ c ≠ DQ ∧ c ≠ ","%char ∧ c ≠ "["%char ∧ c ≠ NL.
Proof.
  intros H.
  pose proof (forall_bytes (λ c, implb (num_char c)
     (solid c && is_ascii c && negb (Ascii.eqb c DQ) && negb (Ascii.eqb c ",")
      && negb (Ascii.eqb c "[") && negb (Ascii.eqb c NL))) eq_refl c) as Hc.
  cbn beta in Hc. rewrite H in Hc. cbn [implb] in Hc. breflect. by repeat split.
Qed.

Lemma num_chars_notin s c :
  forallb num_char s = true → num_char c = false → mem c s = false.
Proof.
  intros H Hc. apply mem_false. intros Hin%list_elem_of_In.
  apply forallb_forall with (x := c) in H; [congruence|done].
Qed.

Lemma num_chars_ascii s : forallb num_char s = true → forallb is_ascii s = true.
Proof.
  intros H. apply forallb_forall. intros c Hc.
  apply forallb_forall with (x := c) in H; [|done]. by apply num_char_plain in H as (_&?&_).
Qed.

(** Text made of such characters is trimmed. *)
Lemma TrimSpace_all_solid s : forallb solid s = true → TrimSpace s = s.
Proof.
  intros H. destruct s as [|c s]; [done|]. cbn [forallb] in H. breflect.
  destruct s as [|d s] using rev_ind.
  - apply TrimSpace_id; [by apply starts_left_solid|by apply starts_rev_solid].
  - rewrite forallb_app in H0. cbn [forallb] in H0. breflect.
    apply TrimSpace_solid; assumption.
Qed.

Lemma num_chars_solid s : forallb num_char s = true → forallb solid s = true.
Proof.
  intros H. apply forallb_forall. intros c Hc.
  apply forallb_forall with (x := c) in H; [|done]. by apply num_char_plain in H as [? _].
Qed.

(** ** Arrays

    A piece of array text is self-contained when the element splitter passes
    over it whole. *)

Definition self_contained (p : gostring) : Prop :=
  ∀ t cur, split_elements (runes (p ++ t)) cur false false =
           split_elements (runes t) (cur ++ p) false false.

Lemma split_plain_runes rs ts cur :
  Forall (λ r, r ≠ [DQ] ∧ r ≠ ",") rs →
  split_elements (rs ++ ts) cur false false =
  split_elements ts (cur ++ concat rs) false false.
Proof.
  intros H. revert cur. induction H as [|r rs [H1 H2] _ IH]; intros cur.
  - by rewrite app_nil_r.
  - cbn [app split_elements concat]. rewrite andb_false_r.
    rewrite (proj2 (str_eqb_neq _ _) H1), (proj2 (str_eqb_neq _ _) H2).
    cbn [andb]. by rewrite IH, app_assoc.
Qed.

Lemma self_contained_plain p :
  valid_utf8 p = true → mem DQ p = false → mem "," p = false → self_contained p.
Proof.
  intros Hv Hq Hc t cur. rewrite runes_app by done.
  rewrite split_plain_runes; [by rewrite runes_concat|].
  apply Forall_forall. intros r Hr.
  assert (Hin : ∀ c, r = [c] → c ∈ p).
  { intros c ->. rewrite <- (runes_concat p) by done.
    apply list_elem_of_In, in_concat. exists [c].
    split; [by apply list_elem_of_In|by left]. }
  split; intros ->; [apply mem_false in Hq|apply mem_false in Hc]; naive_solver.
Qed.

Lemma escape_ascii c :
  is_ascii c = true →
  (escapeString [c] = [c] ∧ c ≠ DQ ∧ c ≠ BSL) ∨
  (∃ d, escapeString [c] = [BSL; d] ∧ is_ascii d = true).
Proof.
  intros H. unfold escapeString, replace_bytes, escape_byte. cbn [flat_map].
  repeat split_match; simplify_eq; breflect; eauto.
Qed.

Lemma escape_high r : Forall (λ c, is_ascii c = false) r → escapeString r = r.
Proof.
  unfold escapeString, replace_bytes. induction 1 as [|c r Hc _ IH]; [done|].
  cbn [flat_map]. rewrite IH. unfold escape_byte.
  assert (∀ d, is_ascii d = true → Ascii.eqb c d = false) as Hne
    by (intros d Hd; apply Ascii.eqb_neq; congruence).
  by rewrite !Hne.
Qed.

(** Inside quotes, escaped text never closes the quotes. *)
Lemma split_escaped s :
  valid_utf8 s = true → ∀ t cur,
  split_elements (runes (escapeString s ++ t)) cur true false =
  split_elements (runes t) (cur ++ escapeString s) true false.
Proof.
  unfold valid_utf8. intros H%str_eqb_eq. apply (f_equal length), Nat.eq_le_incl in H.
  revert H. apply (runes_ind (λ s rs, length (concat rs) ≤ length s → ∀ t cur,
    split_elements (runes (escapeString s ++ t)) cur true false =
    split_elements (runes t) (cur ++ escapeString s) true false)).
  - intros _ t cur. simpl. by rewrite app_nil_r.
  - intros r s' Hr Hruns IH Hlen t cur. simpl in Hlen. rewrite !length_app in Hlen.
    assert (Happ : escapeString (r ++ s') = escapeString r ++ escapeString s')
      by apply flat_map_app.
    rewrite Happ, <- app_assoc.
    destruct (runes_shape (r ++ s') r) as [(c & -> & Hc)|Hhigh].
    { rewrite Hruns. by left. }
    + destruct (escape_ascii c Hc) as [(-> & Hq & Hb)|(d & -> & Hd)].
      * cbn [app runes]. rewrite Hc. cbn [split_elements].
        rewrite !(proj2 (str_eqb_neq _ _)) by congruence. cbn [andb]. rewrite andb_false_r.
        rewrite IH by lia. by rewrite <- app_assoc.
      * cbn [app runes]. rewrite Hd. cbn [is_ascii]. change (is_ascii BSL) with true.
        cbn iota. cbn [split_elements]. change (str_eqb [BSL] [BSL]) with true.
        cbn [andb]. rewrite IH by lia. by rewrite <- !app_assoc.
    + rewrite escape_high by done. rewrite Hruns. cbn [split_elements].
      assert (Hne : ∀ c, is_ascii c = true → str_eqb r [c] = false).
      { intros c Hc. apply str_eqb_neq. intros ->. apply Forall_inv in Hhigh. congruence. }
      rewrite !Hne by done. cbn [andb]. rewrite IH by lia. by rewrite <- app_assoc.
  - intros c s' _ _ Hlen. pose proof (runes_length s'). simpl in Hlen. lia.
Qed.

Lemma self_contained_quoted s :
  valid_utf8 s = true → self_contained (DQ :: escapeString s ++ [DQ]).
Proof.
  intros Hv t cur. cbn [app runes]. change (is_ascii DQ) with true. cbn iota.
  cbn [split_elements]. change (str_eqb [DQ] [BSL]) with false.
  change (str_eqb [DQ] [DQ]) with true. cbn [andb negb].
  rewrite <- app_assoc. rewrite split_escaped by done. cbn [app runes].
  change (is_ascii DQ) with true. cbn iota. cbn [split_elements].
  change (str_eqb [DQ] [BSL]) with false. change (str_eqb [DQ] [DQ]) with true.
  cbn [andb negb]. f_equal. by rewrite <- !app_assoc.
Qed.

(** The values an array can hold and keep through the file. *)
Definition writable_elem (v : HkValue) : Prop :=
  match v with
  | VString s => valid_utf8 s = true ∧ (needsQuotes s = true ∨ mem "," s = false)
  | VNumber n => ParseFloat (formatNumber n) = Some n
  | VBool _ => True
  | _ => False
  end.

Lemma parseScalar_number n :
  ParseFloat (formatNumber n) = Some n → parseScalar (formatNumber n) = Ok (VNumber n).
Proof.
  intros H. destruct (formatNumber_chars n) as [Hc Hne]. unfold parseScalar.
  rewrite TrimSpace_all_solid by by apply num_chars_solid.
  destruct (quoted _) eqn:E.
  { apply quoted_mem in E. rewrite num_chars_notin in E; done. }
  assert (Hlow : ∀ w, str_eqb (ToLower (formatNumber n)) w = true →
            (w = "true" ∨ w = "false") → False).
  { intros w Hw%str_eqb_eq Hor.
    pose proof (ToLower_ascii _ (num_chars_ascii _ Hc)) as Hl.
    rewrite Hl in Hw.
    assert (Hin : "t"%char ∈ map lower_byte (formatNumber n)
                  ∨ "l"%char ∈ map lower_byte (formatNumber n)).
    { rewrite Hw. destruct Hor as [->| ->]; [left|right]; set_solver. }
    destruct Hin as [Hin|Hin]; apply list_elem_of_In, in_map_iff in Hin as (x & Hx & Hin);
      apply forallb_forall with (x := x) in Hc; [|done| |done];
      pose proof (forall_bytes (λ c, implb (num_char c)
        (negb (Ascii.eqb (lower_byte c) "t") && negb (Ascii.eqb (lower_byte c) "l")))
        eq_refl x) as Hb; cbn beta in Hb; rewrite Hc, Hx in Hb; done. }
  destruct (str_eqb (ToLower _) "true") eqn:E1; [exfalso; eauto|].
  destruct (str_eqb (ToLower _) "false") eqn:E2; [exfalso; eauto|].
  by rewrite H.
Qed.

(** What the element splitter and the scalar lexer need of an element's text. *)
Record element_text (v : HkValue) (p : gostring) : Prop := ElementText {
  et_nonempty : p ≠ [];
  et_trimmed : TrimSpace p = p;
  et_contained : self_contained p;
  et_reads : parseScalar p = Ok v;
  et_line : mem NL p = false }.

Lemma self_contained_ascii p :
  forallb is_ascii p = true → mem DQ p = false → mem "," p = false → self_contained p.
Proof. intros H ??. apply self_contained_plain; [by apply valid_utf8_ascii|done..]. Qed.

Lemma element_text_serialize v :
  writable_elem v → element_text v (serializeScalarOrArray v).
Proof.
  destruct v as [s|n|b|l|m]; simpl; intros H; try done.
  - destruct H as [Hv Hc]. split.
    + apply serializeString_nonempty.
    + apply TrimSpace_serializeString.
    + unfold serializeString. destruct (needsQuotes s) eqn:E.
      * by apply self_contained_quoted.
      * destruct Hc as [?|Hc]; [done|]. apply needsQuotes_false in E as (_&_&?&_).
        by apply self_contained_plain.
    + apply parseScalar_serializeString.
    + apply serializeString_no_newline.
  - destruct (formatNumber_chars n) as [Hc Hne]. split; try done.
    + by apply TrimSpace_all_solid, num_chars_solid.
    + apply self_contained_ascii; [by apply num_chars_ascii|by apply num_chars_notin..].
    + by apply parseScalar_number.
    + by apply num_chars_notin.
  - destruct b; split; try done; by apply self_contained_ascii.
Qed.

Lemma split_join parts cur :
  Forall self_contained parts → Forall (λ p, p ≠ []) parts →
  split_elements (runes (Join parts ", ")) cur false false =
  match parts with
  | [] => match cur with [] => [] | _ => [cur] end
  | p :: ps => (cur ++ p) :: map (cons " "%char) ps
  end.
Proof.
  intros Hp. revert cur. induction Hp as [|p ps Hp _ IH]; intros cur Hne; [done|].
  apply Forall_cons in Hne as [Hp0 Hne]. destruct ps as [|q qs].
  - cbn [Join]. rewrite <- (app_nil_r p) at 1. rewrite Hp. cbn.
    destruct (cur ++ p) eqn:E; [|done]. by apply app_eq_nil in E as [_ ?].
  - change (Join (p :: q :: qs) ", ") with (p ++ ", " ++ Join (q :: qs) ", ").
    rewrite Hp. cbn [app runes]. change (is_ascii ",") with true.
    change (is_ascii " ") with true. cbn iota. cbn [split_elements].
    change (str_eqb "," [BSL]) with false. change (str_eqb "," [DQ]) with false.
    change (str_eqb "," ",") with true. change (str_eqb " " [BSL]) with false.
    change (str_eqb " " [DQ]) with false. change (str_eqb " " ",") with false.
    cbn [andb negb app]. rewrite IH by done. done.
Qed.

(** An ASCII byte takes part in no multi-byte space. *)
Ltac shield :=
  intros; first [by apply ascii_not_space2_l | by apply ascii_not_space2_r
                |apply ascii_not_space3; by rewrite ?orb_true_r].

Lemma Join_trimmed parts :
  parts ≠ [] → Forall (λ p, p ≠ [] ∧ TrimSpace p = p) parts →
  Join parts ", " ≠ [] ∧ TrimSpace (Join parts ", ") = Join parts ", ".
Proof.
  intros Hne H. rewrite TrimSpace_fixed.
  induction H as [|p ps [Hp Ht] Hps IH]; [done|].
  apply TrimSpace_fixed in Ht as [Hl Hr]. destruct ps as [|q qs]; [done|].
  change (Join (p :: q :: qs) ", ") with (p ++ ","%char :: " "%char :: Join (q :: qs) ", ").
  destruct IH as (Hj & Hjl & Hjr); [done|]. split; [by destruct p|]. split.
  - apply starts_space_app_ascii; try done; shield.
  - rewrite rev_app_distr. cbn [rev]. rewrite <- !app_assoc. cbn [app].
    apply starts_space_app_ascii; try done; try shield.
    intros Hn. apply (f_equal (@rev _)) in Hn. by rewrite rev_involutive in Hn.
Qed.

Lemma TrimSpace_elem p : TrimSpace p = p → TrimSpace (" "%char :: p) = p.
Proof. intros H. by rewrite TrimSpace_leading. Qed.

Lemma parse_items_texts vs ps :
  Forall2 element_text vs ps →
  parse_items ps = Ok vs ∧ parse_items (map (cons " "%char) ps) = Ok vs.
Proof.
  induction 1 as [|v p vs ps H _ [IH1 IH2]]; [done|]. destruct H as [_ Ht _ Hr _].
  cbn [map parse_items]. rewrite TrimSpace_elem, Ht, Hr by done. simpl. rewrite IH1, IH2. done.
Qed.

Lemma element_texts_parts vs ps :
  Forall2 element_text vs ps →
  Forall (λ p, p ≠ []) ps ∧ Forall self_contained ps ∧
  Forall (λ p, p ≠ [] ∧ TrimSpace p = p) ps.
Proof.
  induction 1 as [|v p vs ps [] _ (?&?&?)]; [done|]. by repeat split; constructor.
Qed.

Lemma element_texts vs :
  Forall writable_elem vs → Forall2 element_text vs (map serializeScalarOrArray vs).
Proof.
  induction 1; simpl; constructor; [by apply element_text_serialize|done].
Qed.

Lemma parse_array_elements vs :
  Forall writable_elem vs →
  parseScalarOrArray (serializeScalarOrArray (VArray vs)) = Ok (VArray vs).
Proof.
  intros Hvs. pose proof (element_texts vs Hvs) as Ht.
  simpl. set (ps := map serializeScalarOrArray vs) in *.
  unfold parseScalarOrArray.
  rewrite (TrimSpace_solid "[" (Join ps ", ") "]") by done.
  rewrite (proj2 (HasPrefix_iff _ _)) by (by eexists).
  rewrite (proj2 (HasSuffix_iff _ _)) by (by exists ("[" ++ Join ps ", ")).
  cbn [andb]. unfold parseArrayLiteral. rewrite slice_mid. simpl.
  destruct (decide (ps = [])) as [E|E].
  { rewrite E in Ht |- *. apply Forall2_nil_inv_r in Ht as ->. done. }
  destruct (element_texts_parts _ _ Ht) as (Hne & Hsc & Htr).
  destruct (Join_trimmed ps E Htr) as [Hj ->].
  rewrite (proj2 (str_eqb_neq _ _) Hj).
  unfold splitArrayElements. rewrite split_join by done.
  destruct Ht as [|v p vs' ps' Hp Hps]; [done|].
  destruct (parse_items_texts vs' ps' Hps) as [_ H2].
  destruct Hp as [_ Hpt _ Hpr _]. cbn [parse_items app]. rewrite Hpt, Hpr. simpl.
  by rewrite H2.
Qed.

(** ** Paths *)

Lemma runes_mem s c : is_ascii c = true → [c] ∈ runes s → c ∈ s.
Proof.
  intros Hc. apply (runes_ind (λ s rs, [c] ∈ rs → c ∈ s)).
  - set_solver.
  - intros r s' _ _ IH [<-|Hin]%elem_of_cons; set_solver.
  - intros d s' _ IH [Heq|Hin]%elem_of_cons; [by inversion Heq|set_solver].
Qed.

Lemma split_path_no_dot rs cur q seen :
  Forall (λ r, r ≠ ".") rs → length (split_path rs cur q seen) ≤ 1.
Proof.
  intros H. revert cur q seen. induction H as [|r rs Hr _ IH]; intros cur q seen.
  - cbn [split_path]. destruct (_ || _); simpl; lia.
  - cbn [split_path]. rewrite (proj2 (str_eqb_neq r ".") Hr). cbn [andb].
    destruct (str_eqb r [DQ]); apply IH.
Qed.

Lemma splitPath_simple key : mem "." key = false → length (splitPath key) ≤ 1.
Proof.
  intros H%mem_false. apply split_path_no_dot, Forall_forall. intros r Hr ->.
  apply H. by apply runes_mem.
Qed.

Lemma split_path_plain rs ts cur seen :
  Forall (λ r, r ≠ [DQ] ∧ r ≠ ".") rs →
  split_path (rs ++ ts) cur false seen = split_path ts (cur ++ concat rs) false seen.
Proof.
  intros H. revert cur. induction H as [|r rs [H1 H2] _ IH]; intros cur.
  - by rewrite app_nil_r.
  - cbn [app split_path concat].
    rewrite (proj2 (str_eqb_neq _ _) H1), (proj2 (str_eqb_neq _ _) H2).
    cbn [andb]. by rewrite IH, app_assoc.
Qed.

(** A path segment: valid UTF-8 without dots or quotes. *)
Definition segment_ok (s : gostring) : bool :=
  valid_utf8 s && negb (mem "." s) && negb (mem DQ s).

Lemma split_path_segment s t cur seen :
  segment_ok s = true →
  split_path (runes (s ++ t)) cur false seen = split_path (runes t) (cur ++ s) false seen.
Proof.
  unfold segment_ok. intros H. breflect. apply mem_false in H0, H1.
  rewrite runes_app by done. rewrite split_path_plain; [by rewrite runes_concat|].
  apply Forall_forall. intros r Hr.
  split; intros ->; apply runes_mem in Hr; done.
Qed.

Lemma splitPath_join segs cur seen :
  Forall (λ s, segment_ok s = true) segs → segs ≠ [] → (seen = true ∨ 2 ≤ length segs ∨ cur ++ Join segs "." ≠ []) →
  split_path (runes (Join segs ".")) cur false seen =
  match segs with [] => [] | s :: ss => (cur ++ s) :: ss end.
Proof.
  intros H. revert cur seen. induction H as [|s ss Hs _ IH]; intros cur seen Hne Hor; [done|].
  destruct ss as [|s' ss].
  - cbn [Join] in *. rewrite <- (app_nil_r s) at 1. rewrite split_path_segment by done.
    cbn [runes split_path]. destruct (str_eqb_spec (cur ++ s) "") as [E|]; [|done].
    destruct Hor as [->|[Hlen|Hn]]; simpl in *; [done|lia|done].
  - change (Join (s :: s' :: ss) ".") with (s ++ "."%char :: Join (s' :: ss) ".").
    rewrite split_path_segment by done. cbn [runes]. change (is_ascii ".") with true.
    cbn iota. cbn [split_path]. change (str_eqb "." [DQ]) with false.
    change (str_eqb "." ".") with true. cbn [andb negb].
    f_equal. rewrite IH; [done|done|by left].
Qed.

(** ** Claims about the lexical layer *)

(** A text in brackets without a character that is written escaped. *)
Definition bare_array (s : gostring) : Prop :=
  (∃ m, s = "["%char :: m ++ ["]"%char]) ∧ Forall (λ c, mem c [NL; TAB; CR; DQ; BSL] = false) s.

Lemma bracket_plain m : looksLikeNumberOrBool ("["%char :: m) = false.
Proof.
  unfold looksLikeNumberOrBool. rewrite ToLower_cons_ascii by done.
  change (lower_byte "[") with "["%char.
  rewrite !(proj2 (str_eqb_neq _ _)) by discriminate. cbn [orb].
  assert (Hf : special ("["%char :: m) = None) by done.
  assert (Hr : readFloat ("["%char :: m) = None) by (destruct m as [|x [|y m]]; done).
  unfold ParseFloat. by rewrite Hf, Hr.
Qed.

Lemma bare_array_plain s : bare_array s → needsQuotes s = false.
Proof.
  intros [[m ->] Hc]. unfold needsQuotes. rewrite bracket_plain.
  rewrite (TrimSpace_solid "[" m "]") by done.
  rewrite (proj2 (str_eqb_eq _ _) eq_refl). cbn [negb]. rewrite !orb_false_r.
  unfold ContainsAny. apply orb_false_iff. split; [done|]. apply not_true_iff_false.
  intros (c & Hin & Hm)%existsb_exists. rewrite Forall_forall in Hc.
  rewrite Hc in Hm; [done|]. by apply list_elem_of_In.
Qed.

(** C27.  What the serializer writes for a string is read back by the lexer of
    values as that string exactly when the string is not a text in brackets
    without line ends, tabs, quotes and backslashes; such a text is read back
    as an array. *)
Theorem parse_serialize_string s :
  (parseScalarOrArray (serializeString s) = Ok (VString s) ↔ ¬ bare_array s) ∧
  (bare_array s ↔ ∃ items, parseScalarOrArray (serializeString s) = Ok (VArray items)).
Proof.
  assert (Hbare : bare_array s → ∃ items, parseScalarOrArray (serializeString s) = Ok (VArray items)).
  { intros Hb. rewrite serializeString_plain by (by apply bare_array_plain).
    destruct Hb as [[m ->] _]. unfold parseScalarOrArray. rewrite (TrimSpace_solid "[" m "]") by done.
    rewrite (proj2 (HasPrefix_iff _ _)) by (by exists (m ++ ["]"%char])).
    rewrite (proj2 (HasSuffix_iff _ _)) by (by exists ("["%char :: m)).
    destruct (parseArrayLiteral_total m) as (vs & Hvs & _). exists vs. exact Hvs. }
  assert (Hor : bare_array s ∨ parseScalarOrArray (serializeString s) = Ok (VString s)).
  { unfold parseScalarOrArray. rewrite TrimSpace_serializeString.
    destruct (HasPrefix _ "[" && HasSuffix _ "]") eqn:E; [|right; apply parseScalar_serializeString].
    left. apply andb_true_iff in E as [Ep Es]. unfold serializeString in Ep, Es.
    destruct (needsQuotes s) eqn:Eq; [by apply HasPrefix_iff in Ep as [r [=]]|].
    split; [by apply ends_mid|]. apply Forall_forall. intros c Hc.
    unfold needsQuotes in Eq. apply orb_false_iff in Eq as [Eq _].
    apply orb_false_iff in Eq as [Eq _]. apply orb_false_iff in Eq as [_ Eq].
    destruct (mem c [NL; TAB; CR; DQ; BSL]) eqn:Em; [|done].
    apply not_true_iff_false in Eq. destruct Eq. apply existsb_exists. exists c.
    split; [by apply list_elem_of_In|done]. }
  split; split.
  - intros E Hb. destruct (Hbare Hb) as [items E']. congruence.
  - by destruct Hor.
  - done.
  - intros [items E]. destruct Hor as [|E']; [done|]. congruence.
Qed.

(** C28.  Lexing a value never fails and never panics, whatever the
    text: it gives a string, a number, a boolean or an array of those, never a
    map and never a nested array. *)
Theorem parse_value_total raw :
  ∃ v, parseScalarOrArray raw = Ok v ∧ leaf_val v = true.
Proof. apply parseScalarOrArray_total. Qed.
