(* ===== verification/HkHeap.v ===== *)
(** * Ordered maps, the heap and the configuration object

    orderedmap.go and config.go of internal/hk.  The program shares ordered
    maps by pointer (a section's map is reached from the configuration and from
    the parser's stack at once), so the maps live in a heap and a map value is
    a location.  [HkM] is the monad of code that reads and writes that heap;
    following a pointer that is not allocated is a nil dereference. *)

From Stdlib Require Import Ascii String ZArith Lia SpecFloat.
From stdpp Require Import base list gmap strings.
From S2P Require Import Prelude GoStrings GoNumbers HkValue HkLex.

(** ** orderedmap.go *)

Record OrderedMap : Type := OMap {
  keys : list gostring;
  values : gmap gostring HkValue }.

Definition NewOrderedMap : OrderedMap := OMap [] ∅.

Definition om_Get (m : OrderedMap) (key : gostring) : option HkValue := values m !! key.

Definition om_Set (m : OrderedMap) (key : gostring) (val : HkValue) : OrderedMap :=
  OMap (match values m !! key with
        | Some _ => keys m
        | None => keys m ++ [key]
        end)
       (<[key := val]> (values m)).

Definition om_MustGet (m : OrderedMap) (key : gostring) : res HkError HkValue :=
  match values m !! key with
  | Some v => Ok v
  | None => Err (MissingField key)
  end.

Definition om_Keys (m : OrderedMap) : list gostring := keys m.

Definition om_Has (m : OrderedMap) (key : gostring) : bool :=
  match values m !! key with Some _ => true | None => false end.

Definition om_Len (m : OrderedMap) : nat := length (keys m).

(** ** The heap *)

Abbreviation heap := (gmap loc OrderedMap).
Abbreviation HkM := (ST heap HkError).

Definition deref (p : loc) : HkM OrderedMap :=
  λ h, match h !! p with Some m => (Ok m, h) | None => (Panic, h) end.

(** [p.Set(key, val)] through the pointer. *)
Definition set_at (p : loc) (key : gostring) (val : HkValue) : HkM unit :=
  λ h, match h !! p with
       | Some m => (Ok tt, <[p := om_Set m key val]> h)
       | None => (Panic, h)
       end.

(** [NewOrderedMap()] as a fresh object. *)
Definition new_map : HkM loc :=
  λ h, let p := fresh (dom h) in (Ok p, <[p := NewOrderedMap]> h).

(** ** config.go *)

Record HkConfig : Type := MkHkConfig { Sections : loc }.

Definition NewHkConfig : HkM HkConfig := let! p := new_map in st_ret (MkHkConfig p).

Definition cfg_Section (c : HkConfig) (name : gostring) : HkM loc :=
  let! secs := deref (Sections c) in
  let! v := st_lift (om_MustGet secs name) in
  st_lift (AsMap v).

(** One segment of the walk of [HkConfig.Get], past the section name. *)
Definition get_segment (path : gostring) (cur : HkValue) (seg : gostring) : HkM HkValue :=
  let! ib := st_lift (parseArrayIndex seg) in
  match AsMap cur with
  | Ok m =>
      let! om := deref m in
      match om_Get om (snd ib) with
      | None => st_err (InvalidReference path)
      | Some next =>
          match fst ib with
          | None => st_ret next
          | Some idx =>
              match AsArray next with
              | Ok arr =>
                  if (idx <? 0)%Z || (Z.of_nat (length arr) <=? idx)%Z
                  then st_err (InvalidReference path)
                  else match arr !! Z.to_nat idx with
                       | Some item => st_ret item
                       | None => st_panic
                       end
              | _ => st_err (InvalidReference path)
              end
          end
      end
  | _ => st_err (InvalidReference path)
  end.

Fixpoint get_segments (path : gostring) (segs : list gostring) (cur : HkValue) : HkM HkValue :=
  match segs with
  | [] => st_ret cur
  | seg :: segs' =>
      let! next := get_segment path cur seg in
      get_segments path segs' next
  end.

Definition cfg_Get (c : HkConfig) (path : gostring) : HkM HkValue :=
  match splitPath path with
  | [] => st_err (InvalidReference path)
  | s0 :: rest =>
      let! secs := deref (Sections c) in
      match om_Get secs s0 with
      | None => st_err (InvalidReference path)
      | Some cur => get_segments path rest cur
      end
  end.

(** ** Invariant and abstraction of ordered maps *)

(** The key list and the hash map agree, and no key is listed twice. *)
Definition om_wf (m : OrderedMap) : Prop :=
  NoDup (keys m) ∧ ∀ k, k ∈ keys m ↔ is_Some (values m !! k).

(** The contents in insertion order. *)
Definition entries (m : OrderedMap) : list (gostring * HkValue) :=
  omap (λ k, (k,.) <$> values m !! k) (keys m).

(** Reference definition: an association list updated in place. *)
Fixpoint assoc {V} (k : gostring) (l : list (gostring * V)) : option V :=
  match l with
  | [] => None
  | (k', v) :: l' => if str_eqb k k' then Some v else assoc k l'
  end.

Fixpoint assoc_set {V} (k : gostring) (v : V) (l : list (gostring * V))
    : list (gostring * V) :=
  match l with
  | [] => [(k, v)]
  | (k', v') :: l' =>
      if str_eqb k k' then (k', v) :: l' else (k', v') :: assoc_set k v l'
  end.

Section assoc_lemmas.
Context {V : Type}.
Implicit Types (l : list (gostring * V)) (k : gostring) (v : V).

Lemma assoc_set_eq k v l : assoc k (assoc_set k v l) = Some v.
Proof.
  induction l as [|[k' v'] l IH]; simpl; [by rewrite str_eqb_refl|].
  destruct (str_eqb k k') eqn:E; simpl; by rewrite E.
Qed.

Lemma assoc_set_ne k k' v l : k ≠ k' → assoc k' (assoc_set k v l) = assoc k' l.
Proof.
  intros Hne. induction l as [|[k1 v1] l IH]; simpl.
  - by rewrite (proj2 (str_eqb_neq k' k)) by done.
  - destruct (str_eqb_spec k k1) as [<-|]; simpl.
    + by rewrite (proj2 (str_eqb_neq k' k)) by done.
    + by rewrite IH.
Qed.

Lemma assoc_None k l : assoc k l = None ↔ k ∉ l.*1.
Proof.
  induction l as [|[k' v'] l IH]; simpl; [set_solver|].
  destruct (str_eqb_spec k k') as [->|]; [set_solver|]. rewrite IH. set_solver.
Qed.

Lemma assoc_In k v l : assoc k l = Some v → (k, v) ∈ l.
Proof.
  induction l as [|[k' v'] l IH]; simpl; [done|].
  destruct (str_eqb_spec k k') as [->|]; intros H; [simplify_eq; left|right; auto].
Qed.

Lemma assoc_NoDup k v l : NoDup l.*1 → (k, v) ∈ l → assoc k l = Some v.
Proof.
  induction l as [|[k' v'] l IH]; csimpl; intros Hnd Hin; [by apply not_elem_of_nil in Hin|].
  apply NoDup_cons in Hnd as [Hni Hnd]. apply elem_of_cons in Hin as [[= <- <-]|Hin].
  - by rewrite str_eqb_refl.
  - rewrite (proj2 (str_eqb_neq k k')); [by apply IH|]. intros ->. apply Hni.
    apply list_elem_of_fmap. by exists (k', v).
Qed.

Lemma assoc_set_new k v l : k ∉ l.*1 → assoc_set k v l = l ++ [(k, v)].
Proof.
  induction l as [|[k' v'] l IH]; simpl; [done|]. intros Hk.
  rewrite (proj2 (str_eqb_neq k k')) by set_solver. f_equal. apply IH. set_solver.
Qed.

Lemma assoc_set_keys k v l :
  (assoc_set k v l).*1 = if decide (k ∈ l.*1) then l.*1 else l.*1 ++ [k].
Proof.
  induction l as [|[k' v'] l IH]; csimpl; [done|].
  destruct (str_eqb_spec k k') as [->|Hne]; csimpl.
  - rewrite decide_True; [done|left].
  - rewrite IH. destruct (decide (k ∈ l.*1)).
    + rewrite decide_True; [done|by right].
    + rewrite decide_False; [done|]. set_solver.
Qed.

Lemma assoc_set_id k v l : assoc k l = Some v → NoDup l.*1 → assoc_set k v l = l.
Proof.
  induction l as [|[k' v'] l IH]; simpl; [done|]. intros H [Hni Hnd]%NoDup_cons.
  destruct (str_eqb_spec k k') as [->|]; [by simplify_eq|]. by rewrite IH.
Qed.

Lemma assoc_set_NoDup k v l : NoDup l.*1 → NoDup (assoc_set k v l).*1.
Proof.
  intros H. rewrite assoc_set_keys. case_decide; [done|].
  apply NoDup_app. split; [done|]. split; [|apply NoDup_singleton]. set_solver.
Qed.
End assoc_lemmas.

Lemma entries_keys m : om_wf m → (entries m).*1 = keys m.
Proof.
  intros [_ Hdom]. unfold entries.
  assert (H : ∀ k, k ∈ keys m → is_Some (values m !! k)) by (intros; by apply Hdom).
  clear Hdom. induction (keys m) as [|k l IH]; [done|]. csimpl.
  destruct (H k) as [v Hv]; [left|]. rewrite Hv. csimpl. f_equal. apply IH.
  intros k' Hk'. apply H. by right.
Qed.

Lemma entries_assoc m k : om_wf m → assoc k (entries m) = om_Get m k.
Proof.
  intros [_ Hdom]. unfold entries, om_Get.
  destruct (values m !! k) as [v|] eqn:Hv.
  - assert (Hk : k ∈ keys m) by (apply Hdom; by eexists). clear Hdom.
    induction (keys m) as [|k' l IH]; [set_solver|]. csimpl.
    destruct (decide (k = k')) as [<-|Hne].
    + rewrite Hv. csimpl. by rewrite str_eqb_refl.
    + apply elem_of_cons in Hk as [?|Hk]; [done|].
      destruct (values m !! k'); csimpl; [|by apply IH].
      rewrite (proj2 (str_eqb_neq k k')) by done. by apply IH.
  - apply assoc_None. intros Hin. apply list_elem_of_fmap in Hin as ([k' v'] & -> & Hin).
    apply list_elem_of_omap in Hin as (k & _ & Hk). simpl in Hv.
    destruct (values m !! k) eqn:E; simplify_eq/=.
Qed.

Lemma NewOrderedMap_wf : om_wf NewOrderedMap.
Proof. split; [constructor|]. intros k. csimpl. rewrite lookup_empty. split; [set_solver|by intros []]. Qed.

Lemma om_Set_wf m k v : om_wf m → om_wf (om_Set m k v).
Proof.
  intros [Hnd Hdom]. unfold om_Set. split; csimpl.
  - destruct (values m !! k) eqn:E; [done|]. apply NoDup_app.
    split; [done|]. split; [|apply NoDup_singleton]. intros x Hx ->%list_elem_of_singleton.
    apply Hdom in Hx as [w Hw]. congruence.
  - intros k'. rewrite lookup_insert. case_decide as Heq.
    + subst. split; [by eexists|]. intros _. destruct (values m !! k') eqn:E; [|set_solver].
      apply Hdom. by eexists.
    + rewrite <- Hdom. destruct (values m !! k); [done|]. set_solver.
Qed.

Lemma assoc_ext {V} (l1 l2 : list (gostring * V)) :
  l1.*1 = l2.*1 → NoDup l1.*1 → (∀ k, assoc k l1 = assoc k l2) → l1 = l2.
Proof.
  revert l2. induction l1 as [|[k v] l1 IH]; intros [|[k' v'] l2]; try done.
  csimpl. intros [= <- Hks] [Hni Hnd]%NoDup_cons Hext.
  pose proof (Hext k) as Hk. rewrite str_eqb_refl in Hk. simplify_eq. f_equal.
  apply IH; [done..|]. intros k'. destruct (decide (k' = k)) as [->|Hne].
  - rewrite (proj2 (assoc_None k l1)) by done. symmetry. apply assoc_None. by rewrite <- Hks.
  - specialize (Hext k'). by rewrite (proj2 (str_eqb_neq k' k)) in Hext by done.
Qed.

(** An ordered map updated by [Set] is the association list updated in place:
    a new key goes last, an old key keeps its position. *)
Lemma entries_Set m k v : om_wf m → entries (om_Set m k v) = assoc_set k v (entries m).
Proof.
  intros Hwf. pose proof (om_Set_wf m k v Hwf) as Hwf'. pose proof Hwf as [Hnd Hdom].
  apply assoc_ext.
  - rewrite entries_keys by done. rewrite assoc_set_keys, entries_keys by done. simpl.
    destruct (values m !! k) eqn:E; case_decide as Hk; try done.
    + destruct Hk. apply Hdom. by eexists.
    + apply Hdom in Hk as [? ?]. congruence.
  - rewrite entries_keys by done. apply Hwf'.
  - intros k'. rewrite entries_assoc by done. unfold om_Get. simpl. rewrite lookup_insert.
    case_decide as Heq.
    + subst. by rewrite assoc_set_eq.
    + rewrite assoc_set_ne by done. by rewrite entries_assoc.
Qed.

Lemma entries_New : entries NewOrderedMap = [].
Proof. done. Qed.

Lemma fresh_None (h : heap) : h !! fresh (dom h) = None.
Proof. apply not_elem_of_dom, is_fresh. Qed.

#[export] Hint Resolve NewOrderedMap_wf om_Set_wf : hk.
