(* ===== verification/HkTree.v ===== *)
(** * Trees: the abstract view of a configuration

    A tree is a scalar leaf or a node with keyed children in order.  The nodes
    carry a label: locations for the tree a heap holds, [unit] for the abstract
    tree.  [rep h t] says that the heap [h] holds the located tree [t].  The
    lemmas show how a write through one pointer changes the tree: exactly at
    the node with that location, because no location occurs twice. *)

From Stdlib Require Import Ascii String ZArith Lia SpecFloat.
From stdpp Require Import base list gmap strings.
From S2P Require Import Prelude GoStrings GoNumbers HkValue HkLex HkHeap.

Inductive tree (A : Type) : Type :=
| Leaf (v : HkValue)
| Node (a : A) (kvs : list (gostring * tree A)).
Arguments Leaf {A} v.
Arguments Node {A} a kvs.

Section tree_ind.
Context {A : Type}.
Variable P : tree A → Prop.
Hypothesis P_leaf : ∀ v, P (Leaf v).
Hypothesis P_node : ∀ a kvs, Forall (λ kv, P kv.2) kvs → P (Node a kvs).

Fixpoint tree_ind' (t : tree A) : P t :=
  match t with
  | Leaf v => P_leaf v
  | Node a kvs =>
      P_node a kvs
        ((fix go (l : list (gostring * tree A)) : Forall (λ kv, P kv.2) l :=
            match l with
            | [] => Forall_nil_2 _
            | kv :: l' => Forall_cons_2 _ _ _ (tree_ind' kv.2) (go l')
            end) kvs)
  end.
End tree_ind.

Abbreviation path := (list gostring).
Abbreviation kvs_of A := (list (gostring * tree A)).

(** Children of a node; a leaf has none. *)
Definition children {A} (t : tree A) : kvs_of A :=
  match t with Leaf _ => [] | Node _ kvs => kvs end.

Definition is_node {A} (t : tree A) : bool :=
  match t with Leaf _ => false | Node _ _ => true end.

Fixpoint tlookup {A} (t : tree A) (π : path) : option (tree A) :=
  match π with
  | [] => Some t
  | k :: π' =>
      match t with
      | Leaf _ => None
      | Node _ kvs =>
          match assoc k kvs with Some c => tlookup c π' | None => None end
      end
  end.

Fixpoint assoc_alter {V} (f : V → V) (k : gostring) (l : list (gostring * V))
    : list (gostring * V) :=
  match l with
  | [] => []
  | (k', v) :: l' => if str_eqb k k' then (k', f v) :: l' else (k', v) :: assoc_alter f k l'
  end.

(** Change the children of the node at a path. *)
Fixpoint talter {A} (f : kvs_of A → kvs_of A) (t : tree A) (π : path) : tree A :=
  match t with
  | Leaf v => Leaf v
  | Node a kvs =>
      match π with
      | [] => Node a (f kvs)
      | k :: π' => Node a (assoc_alter (λ c, talter f c π') k kvs)
      end
  end.

Fixpoint locs (t : tree loc) : list loc :=
  match t with
  | Leaf _ => []
  | Node p kvs => p :: flat_map (λ kv, locs kv.2) kvs
  end.

Fixpoint erase {A} (t : tree A) : tree unit :=
  match t with
  | Leaf v => Leaf v
  | Node _ kvs => Node tt (map (λ kv, (kv.1, erase kv.2)) kvs)
  end.

(** The value stored in the parent for a child. *)
Definition val_of (t : tree loc) : HkValue :=
  match t with Leaf v => v | Node p _ => VMap p end.

Definition vals_of (kvs : kvs_of loc) : list (gostring * HkValue) :=
  map (λ kv, (kv.1, val_of kv.2)) kvs.

Inductive rep (h : heap) : tree loc → Prop :=
| rep_leaf v : leaf_val v = true → rep h (Leaf v)
| rep_node p m kvs :
    h !! p = Some m → om_wf m → entries m = vals_of kvs →
    Forall (λ kv, rep h kv.2) kvs → rep h (Node p kvs).

(** ** Lookup and update of trees *)

Section tree_lemmas.
Context {A : Type}.
Implicit Types (t : tree A) (kvs : kvs_of A) (π : path).

Lemma assoc_alter_eq {V} (f : V → V) k l :
  assoc k (assoc_alter f k l) = f <$> assoc k l.
Proof.
  induction l as [|[k' v] l IH]; simpl; [done|].
  destruct (str_eqb k k') eqn:E; simpl; by rewrite E.
Qed.

Lemma assoc_alter_ne {V} (f : V → V) k k' l :
  k ≠ k' → assoc k' (assoc_alter f k l) = assoc k' l.
Proof.
  intros Hne. induction l as [|[k1 v] l IH]; simpl; [done|].
  destruct (str_eqb_spec k k1) as [<-|]; simpl.
  - by rewrite (proj2 (str_eqb_neq k' k)) by done.
  - by rewrite IH.
Qed.

Lemma assoc_alter_keys {V} (f : V → V) k l : (assoc_alter f k l).*1 = l.*1.
Proof.
  induction l as [|[k1 v] l IH]; [done|]. cbn [assoc_alter].
  destruct (str_eqb k k1); csimpl; [done|]. by rewrite IH.
Qed.

Lemma tlookup_app t π π' :
  tlookup t (π ++ π') = match tlookup t π with Some c => tlookup c π' | None => None end.
Proof.
  revert t. induction π as [|k π IH]; intros t; [done|]. simpl.
  destruct t as [v|a kvs]; [done|]. destruct (assoc k kvs); [apply IH|done].
Qed.

Lemma tlookup_talter f t π a kvs :
  tlookup t π = Some (Node a kvs) → tlookup (talter f t π) π = Some (Node a (f kvs)).
Proof.
  revert t. induction π as [|k π IH]; intros t H; simpl in *.
  - by simplify_eq/=.
  - destruct t as [v|b l]; [done|]. simpl. rewrite assoc_alter_eq.
    destruct (assoc k l); [|done]. simpl. by apply IH.
Qed.

(** Looking up a prefix of the updated path finds the same node, updated
    further down. *)
Lemma tlookup_talter_prefix f t π π' a kvs :
  tlookup t π = Some (Node a kvs) →
  tlookup (talter f t (π ++ π')) π = Some (talter f (Node a kvs) π').
Proof.
  revert t. induction π as [|k π IH]; intros t H; simpl in *.
  - by simplify_eq.
  - destruct t as [v|b l]; [done|]. simpl. rewrite assoc_alter_eq.
    destruct (assoc k l); [|done]. simpl. by apply IH.
Qed.

Lemma talter_node f a kvs π : ∃ kvs', talter f (Node a kvs) π = Node a kvs'.
Proof. destruct π; simpl; eauto. Qed.

Lemma assoc_alter_ext {V} (f g : V → V) k l :
  (∀ v, assoc k l = Some v → f v = g v) → assoc_alter f k l = assoc_alter g k l.
Proof.
  induction l as [|[k' v] l IH]; simpl; [done|]. intros H.
  destruct (str_eqb k k') eqn:E; [by rewrite H|]. by rewrite IH.
Qed.

Lemma assoc_alter_set {V} (f : V → V) k v l :
  assoc k l = Some v → assoc_alter f k l = assoc_set k (f v) l.
Proof.
  induction l as [|[k' v'] l IH]; simpl; [done|].
  destruct (str_eqb k k'); intros H; simplify_eq; [done|]. by rewrite IH.
Qed.

Lemma assoc_set_set {V} k (v w : V) l :
  assoc_set k v (assoc_set k w l) = assoc_set k v l.
Proof.
  induction l as [|[k' v'] l IH]; simpl; [by rewrite str_eqb_refl|].
  destruct (str_eqb k k') eqn:E; simpl; rewrite E; [done|]. by rewrite IH.
Qed.

(** Two updates at one path compose. *)
Lemma talter_compose f g t π : talter f (talter g t π) π = talter (λ l, f (g l)) t π.
Proof.
  revert t. induction π as [|k π IH]; intros [v|a kvs]; simpl; [done..|].
  f_equal. induction kvs as [|[k' c] l IHl]; simpl; [done|].
  destruct (str_eqb k k') eqn:E; simpl; rewrite E; [by rewrite IH|]. by rewrite IHl.
Qed.

End tree_lemmas.

Lemma assoc_split {V} k (v : V) l :
  assoc k l = Some v →
  ∃ l1 l2, l = l1 ++ (k, v) :: l2 ∧
    (∀ f, assoc_alter f k l = l1 ++ (k, f v) :: l2) ∧
    (∀ w, assoc_set k w l = l1 ++ (k, w) :: l2).
Proof.
  induction l as [|[k' v'] l IH]; simpl; [done|].
  destruct (str_eqb_spec k k') as [<-|Hne]; intros H.
  - simplify_eq. by exists [], l.
  - destruct (IH H) as (l1 & l2 & -> & Ha & Hs). exists ((k', v') :: l1), l2.
    repeat split; [intros f; by rewrite Ha|intros w; by rewrite Hs].
Qed.

(** ** Erasure *)

Definition erase_kvs {A} (kvs : kvs_of A) : kvs_of unit :=
  map (λ kv, (kv.1, erase kv.2)) kvs.

Lemma erase_assoc {A} k (kvs : kvs_of A) : assoc k (erase_kvs kvs) = erase <$> assoc k kvs.
Proof.
  induction kvs as [|[k' c] l IH]; simpl; [done|]. by destruct (str_eqb k k').
Qed.

Lemma erase_assoc_set {A} k (c : tree A) kvs :
  erase_kvs (assoc_set k c kvs) = assoc_set k (erase c) (erase_kvs kvs).
Proof.
  induction kvs as [|[k' c'] l IH]; simpl; [done|].
  destruct (str_eqb k k'); simpl; [done|]. f_equal. apply IH.
Qed.

Lemma erase_lookup {A} (t : tree A) π : tlookup (erase t) π = erase <$> tlookup t π.
Proof.
  revert t. induction π as [|k π IH]; intros t; [done|].
  destruct t as [v|a kvs]; simpl; [done|].
  fold (erase_kvs kvs). rewrite erase_assoc.
  destruct (assoc k kvs); simpl; [apply IH|done].
Qed.

Lemma erase_talter {A} (f : kvs_of A → kvs_of A) g (t : tree A) π :
  (∀ kvs, erase_kvs (f kvs) = g (erase_kvs kvs)) →
  erase (talter f t π) = talter g (erase t) π.
Proof.
  intros Hfg. revert t. induction π as [|k π IH]; intros [v|a kvs]; simpl; try done.
  - f_equal. apply Hfg.
  - f_equal. induction kvs as [|[k' c] l IHl]; simpl; [done|].
    destruct (str_eqb k k'); simpl; [by rewrite IH|]. f_equal. apply IHl.
Qed.

Lemma erase_node {A} (t : tree A) : is_node (erase t) = is_node t.
Proof. by destruct t. Qed.

(** ** Located trees in a heap *)

Lemma locs_node p kvs : locs (Node p kvs) = p :: flat_map (λ kv, locs kv.2) kvs.
Proof. done. Qed.

Lemma elem_of_flat_locs l (kvs : kvs_of loc) :
  l ∈ flat_map (λ kv, locs kv.2) kvs ↔ ∃ k c, (k, c) ∈ kvs ∧ l ∈ locs c.
Proof.
  rewrite list_elem_of_In, in_flat_map. split.
  - intros ([k c] & H1 & H2). exists k, c. by rewrite !list_elem_of_In.
  - intros (k & c & H1 & H2). exists (k, c). by rewrite <- !list_elem_of_In.
Qed.

Lemma rep_frame h h' t :
  rep h t → (∀ l, l ∈ locs t → h' !! l = h !! l) → rep h' t.
Proof.
  induction t as [v|p kvs IH] using tree_ind'; intros Hrep Hfr; inversion Hrep; subst.
  - by constructor.
  - econstructor; eauto.
    + rewrite Hfr; [done|]. rewrite locs_node. by left.
    + rewrite Forall_forall in *. intros [k c] Hin. apply (IH (k, c)); eauto.
      intros l Hl. apply Hfr. rewrite locs_node. right.
      apply elem_of_flat_locs. eauto.
Qed.

Lemma rep_dom h t l : rep h t → l ∈ locs t → is_Some (h !! l).
Proof.
  induction t as [v|p kvs IH] using tree_ind'; intros Hrep Hl; inversion Hrep; subst.
  - set_solver.
  - rewrite locs_node in Hl. apply elem_of_cons in Hl as [->|Hl]; [by eexists|].
    apply elem_of_flat_locs in Hl as (k & c & Hin & Hl).
    rewrite Forall_forall in *. by apply (IH (k, c)); [done|apply (H4 (k, c))|].
Qed.

Lemma rep_assoc h p kvs k c : rep h (Node p kvs) → assoc k kvs = Some c → rep h c.
Proof.
  inversion 1 as [|? ? ? _ _ _ Hall]; subst. intros Hin%assoc_In.
  rewrite Forall_forall in Hall. by apply (Hall (k, c)).
Qed.

Lemma rep_lookup h t π c : rep h t → tlookup t π = Some c → rep h c.
Proof.
  revert t. induction π as [|k π IH]; intros t Hrep H; simpl in *; [by simplify_eq|].
  destruct t as [|p kvs]; [done|]. destruct (assoc k kvs) as [c'|] eqn:E; [|done].
  eapply IH; [|done]. by eapply rep_assoc.
Qed.

Lemma locs_lookup t π c l : tlookup t π = Some c → l ∈ locs c → l ∈ locs t.
Proof.
  revert t. induction π as [|k π IH]; intros t H Hl; simpl in *; [by simplify_eq|].
  destruct t as [|p kvs]; [done|]. destruct (assoc k kvs) as [c'|] eqn:E; [|done].
  rewrite locs_node. right. apply elem_of_flat_locs. exists k, c'.
  split; [by apply assoc_In|]. by eapply IH.
Qed.

(** Reading a key through a pointer. *)
Lemma rep_deref h p kvs :
  rep h (Node p kvs) →
  ∃ m, h !! p = Some m ∧ om_wf m ∧ entries m = vals_of kvs ∧
       keys m = kvs.*1 ∧ ∀ k, om_Get m k = val_of <$> assoc k kvs.
Proof.
  inversion 1 as [|? m ? Hp Hwf Hent _]; subst. exists m. repeat split; try apply Hwf; try done.
  - rewrite <- entries_keys by done. rewrite Hent. unfold vals_of.
    clear. induction kvs as [|[k c] l IH]; csimpl; [done|]. by f_equal.
  - intros k. rewrite <- entries_assoc by done. rewrite Hent. unfold vals_of. clear.
    induction kvs as [|[k' c] l IH]; simpl; [done|]. by destruct (str_eqb k k').
Qed.

Lemma val_of_talter f t π : val_of (talter f t π) = val_of t.
Proof. by destruct t, π. Qed.

Lemma vals_of_alter (f : tree loc → tree loc) k kvs :
  (∀ c, val_of (f c) = val_of c) → vals_of (assoc_alter f k kvs) = vals_of kvs.
Proof.
  intros Hf. induction kvs as [|[k' c] l IH]; simpl; [done|].
  destruct (str_eqb k k'); simpl; [by rewrite Hf|]. f_equal. apply IH.
Qed.

Lemma vals_of_set k c kvs : vals_of (assoc_set k c kvs) = assoc_set k (val_of c) (vals_of kvs).
Proof.
  induction kvs as [|[k' c'] l IH]; simpl; [done|].
  destruct (str_eqb k k'); simpl; [done|]. f_equal. apply IH.
Qed.

(** Updating the node at a path: the heap may change at that node's location
    and outside the tree. *)
Lemma rep_talter f h h' t π q kvs :
  rep h t → NoDup (locs t) → tlookup t π = Some (Node q kvs) →
  (∀ l, l ∈ locs t → l ≠ q → h' !! l = h !! l) →
  rep h' (Node q (f kvs)) →
  rep h' (talter f t π).
Proof.
  revert t. induction π as [|k π IH]; intros t Hrep Hnd Hlk Hfr Hnew; simpl in Hlk.
  { by simplify_eq/=. }
  destruct t as [|p l]; [done|]. destruct (assoc k l) as [c|] eqn:Ec; [|done].
  simpl. destruct (assoc_split _ _ _ Ec) as (l1 & l2 & El & Ha & _).
  inversion Hrep as [|? m ? Hp Hwf Hent Hall]; subst p kvs0.
  rewrite locs_node in Hnd, Hfr. apply NoDup_cons in Hnd as [Hpni Hnd].
  assert (Hq : q ∈ locs c) by (eapply locs_lookup; [done|by left]).
  assert (Hqin : q ∈ flat_map (λ kv, locs kv.2) l).
  { apply elem_of_flat_locs. exists k, c. split; [by apply assoc_In|done]. }
  econstructor; [|done| |].
  - rewrite Hfr; [done|by left|]. intros ->. done.
  - rewrite Hent, vals_of_alter; [done|]. intros. apply val_of_talter.
  - rewrite Ha, El in *. rewrite flat_map_app in Hnd, Hfr. simpl in Hnd, Hfr.
    apply NoDup_app in Hnd as (Hnd1 & Hdisj1 & [Hndc [Hdisj2 Hnd2]]%NoDup_app).
    rewrite Forall_app, Forall_cons in Hall |- *. simpl in *. destruct Hall as (A1 & Ac & A2).
    split; [|split].
    + rewrite Forall_forall in *. intros [k' c'] Hin. eapply rep_frame; [by apply (A1 (k', c'))|].
      intros x Hx. assert (x ∈ flat_map (λ kv, locs kv.2) l1) by (apply elem_of_flat_locs; eauto).
      apply Hfr; [right; apply elem_of_app; by left|]. intros ->.
      apply (Hdisj1 q); [done|]. apply elem_of_app. by left.
    + apply IH; try done. intros x Hx Hne. apply Hfr; [|done]. right.
      rewrite !elem_of_app. auto.
    + rewrite Forall_forall in *. intros [k' c'] Hin. eapply rep_frame; [by apply (A2 (k', c'))|].
      intros x Hx. assert (x ∈ flat_map (λ kv, locs kv.2) l2) by (apply elem_of_flat_locs; eauto).
      apply Hfr; [right; rewrite !elem_of_app; auto|]. intros ->.
      by apply (Hdisj2 q).
Qed.

Lemma locs_talter f t π q kvs :
  NoDup (locs t) → tlookup t π = Some (Node q kvs) →
  NoDup (locs (Node q (f kvs))) →
  (∀ l, l ∈ locs (Node q (f kvs)) → l ∈ locs (Node q kvs) ∨ l ∉ locs t) →
  NoDup (locs (talter f t π)) ∧
  (∀ l, l ∈ locs (talter f t π) → l ∈ locs t ∨ l ∈ locs (Node q (f kvs))).
Proof.
  revert t. induction π as [|k π IH]; intros t Hnd Hlk Hnew Hin; simpl in Hlk.
  { simplify_eq. simpl talter. auto. }
  destruct t as [|p l]; [done|]. destruct (assoc k l) as [c|] eqn:Ec; [|done].
  destruct (assoc_split _ _ _ Ec) as (l1 & l2 & El & Ha & _).
  cbn [talter]. rewrite Ha, El in *. rewrite !locs_node, !flat_map_app in *. simpl in *.
  apply NoDup_cons in Hnd as [Hp (Hnd1 & Hdisj1 & [Hndc [Hdisj2 Hnd2]]%NoDup_app)%NoDup_app].
  assert (Hsub : ∀ x, x ∈ locs (Node q kvs) → x ∈ locs c) by (intros; by eapply locs_lookup).
  destruct (IH c) as [IH1 IH2]; [done..| |].
  { intros x Hx. destruct (Hin x Hx) as [?|Hni]; [by left|right].
    intros Hc. apply Hni. rewrite elem_of_cons, !elem_of_app. auto. }
  assert (Hcase : ∀ x, x ∈ locs (talter f c π) → x ∈ locs c ∨
            (x ≠ p ∧ x ∉ flat_map (λ kv, locs kv.2) l1 ∧ x ∉ flat_map (λ kv, locs kv.2) l2)).
  { intros x Hx. destruct (IH2 x Hx) as [?|Hq]; [by left|].
    destruct (Hin x Hq) as [?%Hsub|Hni]; [by left|right].
    rewrite elem_of_cons, !elem_of_app in Hni. tauto. }
  rewrite !elem_of_app in Hp.
  split.
  - rewrite NoDup_cons, !NoDup_app, !elem_of_app. split_and!; try done.
    + intros [?|[Hx|?]]; [tauto| |tauto]. destruct (Hcase p Hx); tauto.
    + intros x Hx [Hy|Hy]%elem_of_app.
      * destruct (Hcase x Hy) as [?|(?&?&?)]; [|done]. apply (Hdisj1 x); [done|].
        apply elem_of_app. by left.
      * apply (Hdisj1 x); [done|]. apply elem_of_app. by right.
    + intros x Hx Hy. destruct (Hcase x Hx) as [?|(?&?&?)]; [by apply (Hdisj2 x)|done].
  - intros x. rewrite !elem_of_cons, !elem_of_app.
    intros [->|[?|[Hx|?]]]; [tauto..| |tauto].
    apply IH2 in Hx. rewrite elem_of_cons in Hx. tauto.
Qed.

(** ** Heap operations on a held tree *)

(** The heap holds the tree, each of its maps at its own location. *)
Definition holds (h : heap) (t : tree loc) : Prop := rep h t ∧ NoDup (locs t).

Lemma holds_lookup h t π c : holds h t → tlookup t π = Some c → holds h c.
Proof.
  intros [Hrep Hnd] Hlk. split; [by eapply rep_lookup|]. clear Hrep.
  revert t Hnd Hlk. induction π as [|k π IH]; intros t Hnd Hlk; simpl in Hlk; [by simplify_eq|].
  destruct t as [|p l]; [done|]. destruct (assoc k l) as [c'|] eqn:Ec; [|done].
  destruct (assoc_split _ _ _ Ec) as (l1 & l2 & -> & _).
  rewrite locs_node, flat_map_app in Hnd. simpl in Hnd.
  apply NoDup_cons in Hnd as [_ (_ & _ & [? _]%NoDup_app)%NoDup_app]. by apply (IH c').
Qed.

Lemma locs_assoc_set q k c kvs l :
  l ∈ locs (Node q (assoc_set k c kvs)) → l ∈ locs (Node q kvs) ∨ l ∈ locs c.
Proof.
  rewrite !locs_node, !elem_of_cons. intros [->|Hl]; [auto|]. revert Hl.
  destruct (assoc k kvs) as [c'|] eqn:E.
  - destruct (assoc_split _ _ _ E) as (l1 & l2 & -> & _ & ->).
    rewrite !flat_map_app, !elem_of_app. simpl. rewrite !elem_of_app. tauto.
  - rewrite assoc_set_new by by apply assoc_None. rewrite flat_map_app, elem_of_app. simpl.
    rewrite app_nil_r. tauto.
Qed.

Lemma NoDup_assoc_set q k c kvs :
  NoDup (locs (Node q kvs)) → NoDup (locs c) → (∀ l, l ∈ locs c → l ∉ locs (Node q kvs)) →
  NoDup (locs (Node q (assoc_set k c kvs))).
Proof.
  intros Hnd Hc Hdisj. rewrite !locs_node in *.
  destruct (assoc k kvs) as [c'|] eqn:E.
  - destruct (assoc_split _ _ _ E) as (l1 & l2 & El & _ & ->). rewrite El in *.
    rewrite !flat_map_app in *. simpl in *.
    apply NoDup_cons in Hnd as [Hp (H1 & Hd1 & [Hc' [Hd2 H2]]%NoDup_app)%NoDup_app].
    setoid_rewrite elem_of_cons in Hdisj. setoid_rewrite elem_of_app in Hdisj.
    setoid_rewrite elem_of_app in Hdisj. setoid_rewrite elem_of_app in Hd1.
    rewrite !elem_of_app in Hp.
    rewrite NoDup_cons, !NoDup_app, !elem_of_app. setoid_rewrite elem_of_app.
    split_and!; try done.
    + intros [?|[Hx|?]]; [tauto| |tauto]. apply Hdisj in Hx. tauto.
    + intros x Hx [Hy|Hy]; [apply Hdisj in Hy; tauto|]. apply (Hd1 x Hx). tauto.
    + intros x Hx Hy. apply Hdisj in Hx. tauto.
  - rewrite assoc_set_new by by apply assoc_None. rewrite flat_map_app. simpl.
    rewrite app_nil_r, app_comm_cons. apply NoDup_app. split; [done|]. split; [|done].
    intros x Hx Hy. by apply (Hdisj x).
Qed.

(** [Set] through the pointer of the node at [π] sets the key at that node. *)
Lemma set_at_holds h t π q kvs k c :
  holds h t → tlookup t π = Some (Node q kvs) → holds h c →
  (∀ l, l ∈ locs c → l ∉ locs t) →
  ∃ h', set_at q k (val_of c) h = (Ok tt, h') ∧ holds h' (talter (assoc_set k c) t π) ∧
        (∀ l, l ≠ q → h' !! l = h !! l).
Proof.
  intros [Hrep Hnd] Hlk [Hrc Hndc] Hdisj.
  assert (Hsub : ∀ l, l ∈ locs (Node q kvs) → l ∈ locs t) by (intros; by eapply locs_lookup).
  pose proof (rep_lookup _ _ _ _ Hrep Hlk) as Hrq.
  destruct (holds_lookup h t π (Node q kvs)) as [_ Hndq]; [done..|].
  inversion Hrq as [|? m ? Hq Hwf Hent Hall]; subst.
  exists (<[q := om_Set m k (val_of c)]> h). unfold set_at. rewrite Hq.
  assert (Hfr : ∀ l, l ≠ q → <[q := om_Set m k (val_of c)]> h !! l = h !! l)
    by (intros; by rewrite lookup_insert_ne).
  assert (Hqc : q ∉ locs c).
  { intros Hx. apply (Hdisj q Hx), Hsub. by left. }
  assert (Hnew : rep (<[q := om_Set m k (val_of c)]> h) (Node q (assoc_set k c kvs))).
  { econstructor.
    - apply lookup_insert_eq.
    - by apply om_Set_wf.
    - by rewrite entries_Set, Hent, vals_of_set.
    - apply Forall_forall. intros [k' c'] Hin. simpl.
      assert (Hc' : c' = c ∨ (k', c') ∈ kvs).
      { clear -Hin. induction kvs as [|[k1 c1] l IH]; simpl in Hin; [set_solver|].
        destruct (str_eqb k k1); set_solver. }
      destruct Hc' as [->|Hin'].
      + eapply rep_frame; [done|]. intros l Hl. apply Hfr. congruence.
      + rewrite Forall_forall in Hall. eapply rep_frame; [by apply (Hall (k', c'))|].
        intros l Hl. apply Hfr. intros ->. apply NoDup_cons in Hndq as [Hni _]. apply Hni.
        apply elem_of_flat_locs. eauto. }
  split; [done|]. split; [|done]. split.
  - eapply rep_talter; eauto.
  - eapply locs_talter; eauto.
    + apply NoDup_assoc_set; [done..|]. intros l Hl Hx. by apply (Hdisj l Hl), Hsub.
    + intros l [?|?]%locs_assoc_set; [by left|right; auto].
Qed.

(** A fresh map is a new empty node, apart from every tree the heap holds. *)
Lemma new_map_holds h t :
  holds h t →
  let p := fresh (dom h) in
  new_map h = (Ok p, <[p := NewOrderedMap]> h) ∧
  holds (<[p := NewOrderedMap]> h) t ∧ holds (<[p := NewOrderedMap]> h) (Node p []) ∧
  p ∉ locs t.
Proof.
  intros [Hrep Hnd] p. pose proof (fresh_None h) as Hp. fold p in Hp.
  assert (Hni : p ∉ locs t).
  { intros Hin. destruct (rep_dom h t p Hrep Hin). congruence. }
  split; [done|]. split; [|split; [|done]].
  - split; [|done]. eapply rep_frame; [done|]. intros l Hl.
    rewrite lookup_insert_ne; [done|]. congruence.
  - split; [|apply NoDup_singleton].
    econstructor; [apply lookup_insert_eq|apply NewOrderedMap_wf|done|done].
Qed.

(** A pointer read: the ordered map of the node. *)
Lemma deref_holds h t π q kvs :
  holds h t → tlookup t π = Some (Node q kvs) →
  ∃ m, deref q h = (Ok m, h) ∧ keys m = kvs.*1 ∧
       ∀ k, om_Get m k = val_of <$> assoc k kvs.
Proof.
  intros [Hrep _] Hlk. pose proof (rep_lookup _ _ _ _ Hrep Hlk) as Hrq.
  destruct (rep_deref _ _ _ Hrq) as (m & Hq & _ & _ & Hk & Hg).
  exists m. unfold deref. by rewrite Hq.
Qed.

Lemma leaf_holds h v : leaf_val v = true → holds h (Leaf v).
Proof. split; [by constructor|constructor]. Qed.

#[export] Hint Resolve leaf_holds holds_lookup : hk.
