(* ===== verification/HkParser.v ===== *)
(** * The .hk parser (internal/hk/parser.go)

    The first part is the parser as written: it keeps a stack of pointers to
    the maps it is filling and mutates them in the heap.  The second part is
    its specification on immutable trees, where a pointer is a path of keys.
    The simulation between the two shows that sharing maps by pointer never
    shows: the parser does not panic, and its heap holds the specified tree. *)

From Stdlib Require Import Ascii String ZArith Lia SpecFloat.
From stdpp Require Import base list gmap strings.
From S2P Require Import Prelude GoStrings GoNumbers HkValue HkLex HkHeap HkTree.

(** ** The parser as written *)

Record parser : Type := Parser {
  config : HkConfig;
  currentSection : gostring;
  nodeStack : list loc;
  keyStack : list gostring }.

Definition perr (lineNo col : nat) (msg : ParseMessage) (hint raw : gostring) : HkError :=
  ParseError (ParseErr lineNo col msg hint raw).

Definition handleSectionHeader (p : parser) (line : gostring) (lineNo : nat) (raw : gostring)
    : HkM parser :=
  if negb (HasSuffix line "]") then
    st_err (perr lineNo (length line) UnclosedHeader "Czy zapisano: [nazwa_sekcji]" raw)
  else
    let! inner := st_lift (slice line 1 (length line - 1)) in
    let name := TrimSpace inner in
    if str_eqb name "" then
      st_err (perr lineNo 2 EmptySectionName "Przyklad: [metadata]" raw)
    else
      let! secs := deref (Sections (config p)) in
      let! sectionMap :=
        match om_Get secs name with
        | Some existing =>
            match AsMap existing with
            | Ok m => st_ret m
            | _ => st_err (KeyConflict name)
            end
        | None =>
            let! m := new_map in
            set_at (Sections (config p)) name (VMap m) ;;
            st_ret m
        end in
      st_ret (Parser (config p) name [sectionMap] [name]).

(** The last step of an insertion: a map is not overwritten by a scalar. *)
Definition set_checked (cur : loc) (k : gostring) (value : HkValue) (key : gostring)
    : HkM unit :=
  let! om := deref cur in
  match om_Get om k with
  | Some existing =>
      if is_map existing && negb (is_map value) then st_err (KeyConflict key)
      else set_at cur k value
  | None => set_at cur k value
  end.

(** The loop over all segments but the last, creating maps on the way. *)
Fixpoint descend (done segs : list gostring) (cur : loc) : HkM loc :=
  match segs with
  | [] => st_ret cur
  | seg :: segs' =>
      let! om := deref cur in
      match om_Get om seg with
      | None =>
          let! m := new_map in
          set_at cur seg (VMap m) ;;
          descend (done ++ [seg]) segs' m
      | Some existing =>
          match AsMap existing with
          | Ok m => descend (done ++ [seg]) segs' m
          | _ => st_err (KeyConflict (Join (done ++ [seg]) "."))
          end
      end
  end.

Definition insertWithDotExpansion (target : loc) (key : gostring) (value : HkValue)
    : HkM unit :=
  let segments := splitPath key in
  if length segments <=? 1 then set_checked target key value key
  else
    let! cur := descend [] (removelast segments) target in
    match last segments with
    | Some l => set_checked cur l value key
    | None => st_panic
    end.

Definition handleKeyLine (p : parser) (line : gostring) (lineNo : nat) (raw : gostring)
    : HkM parser :=
  if str_eqb (currentSection p) "" then
    st_err (perr lineNo 1 KeyOutsideSection "Kazdy klucz musi byc wewnatrz [sekcji]" raw)
  else
    let! dr := st_lift (countDashDepth line lineNo raw) in
    let depth := fst dr in
    let rest := TrimSpace (snd dr) in
    if str_eqb rest "" then
      st_err (perr lineNo (depth + 1) MissingKey "Przyklad: -> klucz => wartosc" raw)
    else if length (nodeStack p) <? depth then
      st_err (perr lineNo 1 (NestingTooDeep depth)
        "Kazdy poziom (myslnik) musi miec rodzica zdefiniowanego linia wyzej" raw)
    else
      let nodes := take depth (nodeStack p) in
      let names := take depth (keyStack p) in
      match nodes !! (depth - 1) with
      | None => st_panic
      | Some targetMap =>
          match Index rest "=>" with
          | None =>
              let! keyName := st_lift (stripQuotes (TrimSpace rest)) in
              let! newMap := new_map in
              insertWithDotExpansion targetMap keyName (VMap newMap) ;;
              st_ret (Parser (config p) (currentSection p)
                             (nodes ++ [newMap]) (names ++ [keyName]))
          | Some arrowIdx =>
              let! kp := st_lift (slice rest 0 arrowIdx) in
              let! vp := st_lift (slice rest (arrowIdx + 2) (length rest)) in
              let keyPart := TrimSpace kp in
              if str_eqb keyPart "" then
                st_err (perr lineNo (depth + 1) MissingKeyName
                          "Przyklad: -> klucz => wartosc" raw)
              else
                match parseScalarOrArray (TrimSpace vp) with
                | Err _ => st_err (perr lineNo (depth + 1) BadValue "" raw)
                | Panic => st_panic
                | OutOfFuel => st_lift OutOfFuel
                | Ok value =>
                    let! key := st_lift (stripQuotes keyPart) in
                    insertWithDotExpansion targetMap key value ;;
                    st_ret (Parser (config p) (currentSection p) nodes names)
                end
          end
      end.

Fixpoint parse_lines (p : parser) (lines : list gostring) (lineNo : nat) : HkM HkConfig :=
  match lines with
  | [] => st_ret (config p)
  | raw :: rest =>
      let line := TrimSpace raw in
      if str_eqb line "" || HasPrefix line "!" then parse_lines p rest (S lineNo)
      else if HasPrefix line "[" then
        let! p' := handleSectionHeader p line (lineNo + 1) raw in
        parse_lines p' rest (S lineNo)
      else if HasPrefix line "-" then
        let! p' := handleKeyLine p line (lineNo + 1) raw in
        parse_lines p' rest (S lineNo)
      else
        st_err (perr (lineNo + 1) 1 (UnexpectedLine line)
                  "Linie musza zaczynac sie od '!', '[' lub '-'" raw)
  end.

Definition parse (lines : list gostring) : HkM HkConfig :=
  let! c := NewHkConfig in
  parse_lines (Parser c "" [] []) lines 0.

Definition ParseString (input : gostring) : HkM HkConfig := parse (split_on NL input).

(** *** LoadFile: the lines of [bufio.Scanner] *)

Definition dropCR (s : gostring) : gostring :=
  match last s with
  | Some c => if Ascii.eqb c CR then removelast s else s
  | None => s
  end.

Definition drop_last_empty (ls : list gostring) : list gostring :=
  match last ls with Some [] => removelast ls | _ => ls end.

(** [bufio.MaxScanTokenSize]: a line that fills the buffer is an error. *)
Definition maxToken : N := 65536.

Definition scan_lines (content : gostring) : option (list gostring) :=
  let ls := drop_last_empty (split_on NL content) in
  if existsb (λ l, (maxToken <=? N.of_nat (length l))%N) ls then None
  else Some (map dropCR ls).

(** [fs] gives the content of the files that can be opened. *)
Definition LoadFile (fs : gostring → option gostring) (path : gostring) : HkM HkConfig :=
  match fs path with
  | None => st_err (OpenFailed path)
  | Some content =>
      match scan_lines content with
      | None => st_err (ReadFailed path)
      | Some lines => parse lines
      end
  end.

(** ** The specification on trees

    The same line grammar; a configuration is a tree, and the stack holds the
    paths of the nodes being filled. *)

Record sstate : Type := SState {
  sroot : tree unit;
  ssec : gostring;
  sstack : list path }.

Definition spec_header (s : sstate) (line : gostring) (lineNo : nat) (raw : gostring)
    : res HkError sstate :=
  if negb (HasSuffix line "]") then
    Err (perr lineNo (length line) UnclosedHeader "Czy zapisano: [nazwa_sekcji]" raw)
  else
    let? inner := slice line 1 (length line - 1) in
    let name := TrimSpace inner in
    if str_eqb name "" then
      Err (perr lineNo 2 EmptySectionName "Przyklad: [metadata]" raw)
    else
      match assoc name (children (sroot s)) with
      | Some (Node _ _) => Ok (SState (sroot s) name [[name]])
      | Some (Leaf _) => Err (KeyConflict name)
      | None => Ok (SState (talter (assoc_set name (Node tt [])) (sroot s) []) name [[name]])
      end.

Definition spec_set (t : tree unit) (π : path) (k : gostring) (c : tree unit) (key : gostring)
    : res HkError (tree unit) :=
  match tlookup t π with
  | Some (Node _ kvs) =>
      match assoc k kvs with
      | Some old =>
          if is_node old && negb (is_node c) then Err (KeyConflict key)
          else Ok (talter (assoc_set k c) t π)
      | None => Ok (talter (assoc_set k c) t π)
      end
  | _ => Panic
  end.

Fixpoint spec_descend (done segs : list gostring) (t : tree unit) (π : path)
    : res HkError (tree unit * path) :=
  match segs with
  | [] => Ok (t, π)
  | seg :: segs' =>
      match tlookup t π with
      | Some (Node _ kvs) =>
          match assoc seg kvs with
          | None =>
              spec_descend (done ++ [seg]) segs'
                (talter (assoc_set seg (Node tt [])) t π) (π ++ [seg])
          | Some (Node _ _) => spec_descend (done ++ [seg]) segs' t (π ++ [seg])
          | Some (Leaf _) => Err (KeyConflict (Join (done ++ [seg]) "."))
          end
      | _ => Panic
      end
  end.

(** Insert [c] under a key that may be dotted; the path where it ends up. *)
Definition spec_insert (t : tree unit) (π : path) (key : gostring) (c : tree unit)
    : res HkError (tree unit * path) :=
  let segments := splitPath key in
  if length segments <=? 1 then
    let? t' := spec_set t π key c key in Ok (t', π ++ [key])
  else
    let? d := spec_descend [] (removelast segments) t π in
    match last segments with
    | Some l => let? t' := spec_set (fst d) (snd d) l c key in Ok (t', snd d ++ [l])
    | None => Panic
    end.

Definition spec_key_line (s : sstate) (line : gostring) (lineNo : nat) (raw : gostring)
    : res HkError sstate :=
  if str_eqb (ssec s) "" then
    Err (perr lineNo 1 KeyOutsideSection "Kazdy klucz musi byc wewnatrz [sekcji]" raw)
  else
    let? dr := countDashDepth line lineNo raw in
    let depth := fst dr in
    let rest := TrimSpace (snd dr) in
    if str_eqb rest "" then
      Err (perr lineNo (depth + 1) MissingKey "Przyklad: -> klucz => wartosc" raw)
    else if length (sstack s) <? depth then
      Err (perr lineNo 1 (NestingTooDeep depth)
        "Kazdy poziom (myslnik) musi miec rodzica zdefiniowanego linia wyzej" raw)
    else
      let nodes := take depth (sstack s) in
      match nodes !! (depth - 1) with
      | None => Panic
      | Some π =>
          match Index rest "=>" with
          | None =>
              let? keyName := stripQuotes (TrimSpace rest) in
              let? r := spec_insert (sroot s) π keyName (Node tt []) in
              Ok (SState (fst r) (ssec s) (nodes ++ [snd r]))
          | Some arrowIdx =>
              let? kp := slice rest 0 arrowIdx in
              let? vp := slice rest (arrowIdx + 2) (length rest) in
              let keyPart := TrimSpace kp in
              if str_eqb keyPart "" then
                Err (perr lineNo (depth + 1) MissingKeyName
                       "Przyklad: -> klucz => wartosc" raw)
              else
                let? value := parseScalarOrArray (TrimSpace vp) in
                let? key := stripQuotes keyPart in
                let? r := spec_insert (sroot s) π key (Leaf value) in
                Ok (SState (fst r) (ssec s) nodes)
          end
      end.

Fixpoint spec_lines (s : sstate) (lines : list gostring) (lineNo : nat)
    : res HkError sstate :=
  match lines with
  | [] => Ok s
  | raw :: rest =>
      let line := TrimSpace raw in
      if str_eqb line "" || HasPrefix line "!" then spec_lines s rest (S lineNo)
      else if HasPrefix line "[" then
        let? s' := spec_header s line (lineNo + 1) raw in
        spec_lines s' rest (S lineNo)
      else if HasPrefix line "-" then
        let? s' := spec_key_line s line (lineNo + 1) raw in
        spec_lines s' rest (S lineNo)
      else
        Err (perr (lineNo + 1) 1 (UnexpectedLine line)
               "Linie musza zaczynac sie od '!', '[' lub '-'" raw)
  end.

Definition sstate0 : sstate := SState (Node tt []) "" [].

(** The tree a list of lines denotes. *)
Definition spec_parse (lines : list gostring) : res HkError (tree unit) :=
  let? s := spec_lines sstate0 lines 0 in Ok (sroot s).

(** ** Simulation *)

(** Equal errors, related results; neither side panics. *)
Definition sim_res {A B} (R : heap → A → B → Prop)
    (x : res HkError A * heap) (y : res HkError B) : Prop :=
  match fst x, y with
  | Ok a, Ok b => R (snd x) a b
  | Err e, Err e' => e = e'
  | _, _ => False
  end.

Lemma sim_bind {A B A' B'} (R : heap → A → B → Prop) (R' : heap → A' → B' → Prop)
    (m : HkM A) k h (r : res HkError B) k' :
  sim_res R (m h) r →
  (∀ a b h', R h' a b → sim_res R' (k a h') (k' b)) →
  sim_res R' (st_bind m k h) (res_bind r k').
Proof.
  unfold sim_res, st_bind. intros Hm Hk.
  destruct (m h) as [[a|e| |] h']; destruct r; simpl in *; try done. by apply Hk.
Qed.

Lemma sim_mono {A B} (R R' : heap → A → B → Prop) x y :
  sim_res R x y → (∀ h a b, R h a b → R' h a b) → sim_res R' x y.
Proof. unfold sim_res. intros H HR. destruct x as [[] h], y; simpl in *; auto. Qed.

(** A pure step after the specification. *)
Lemma sim_post {A B B'} (R : heap → A → B → Prop) (R' : heap → A → B' → Prop) x
    (r : res HkError B) f :
  sim_res R x r → (∀ h a b, R h a b → R' h a (f b)) →
  sim_res R' x (res_bind r (λ b, Ok (f b))).
Proof. unfold sim_res. intros H HR. destruct x as [[] h], r; simpl in *; auto. Qed.

(** A pure step on both sides. *)
Lemma sim_ret {A B A' B'} (R : heap → A → B → Prop) (R' : heap → A' → B' → Prop)
    (m : HkM A) h (r : res HkError B) f g :
  sim_res R (m h) r → (∀ h' a b, R h' a b → R' h' (f a) (g b)) →
  sim_res R' (st_bind m (λ a, st_ret (f a)) h) (res_bind r (λ b, Ok (g b))).
Proof. intros Hm HR. eapply sim_bind; [done|]. intros. by apply HR. Qed.

Lemma sim_lift {A} (r : res HkError A) h :
  returns r → sim_res (λ h' a b, h' = h ∧ a = b ∧ r = Ok a) (st_lift r h) r.
Proof. destruct r; simpl; done. Qed.

(** The node at [π] in the located tree has location [q]. *)
Definition node_at (t : tree loc) (q : loc) (π : path) : Prop :=
  ∃ kvs, tlookup t π = Some (Node q kvs).

(** Nodes on the way to [π] stay where they are. *)
Definition stable (t t' : tree loc) (π : path) : Prop :=
  ∀ π0 q, π0 `prefix_of` π → node_at t q π0 → node_at t' q π0.

Definition apart (c t : tree loc) : Prop := ∀ l, l ∈ locs c → l ∉ locs t.

Lemma stable_refl t π : stable t t π.
Proof. by intros π0 q _ H. Qed.

Lemma stable_trans t1 t2 t3 π : stable t1 t2 π → stable t2 t3 π → stable t1 t3 π.
Proof. unfold stable. eauto. Qed.

Lemma stable_prefix t t' π π' : π `prefix_of` π' → stable t t' π' → stable t t' π.
Proof. intros Hp Hs π0 q H0. apply Hs. by trans π. Qed.

Lemma stable_talter f t π : stable t (talter f t π) π.
Proof.
  intros π0 q [π1 ->] [kvs H].
  destruct (talter_node f q kvs π1) as [kvs' Hk]. exists kvs'.
  by rewrite (tlookup_talter_prefix f _ _ π1 _ _ H), Hk.
Qed.

Lemma is_map_val_of h c : rep h c → is_map (val_of c) = is_node c.
Proof. inversion 1 as [v Hv|]; subst; simpl; [by destruct v|done]. Qed.

Lemma AsMap_val_of h c : rep h c →
  match c with
  | Node p _ => AsMap (val_of c) = Ok p
  | Leaf _ => ∃ e, AsMap (val_of c) = Err e
  end.
Proof. inversion 1 as [v Hv|]; subst; simpl; [|done]. destruct v; simpl in *; eauto; done. Qed.

Lemma tlookup_set t π q kvs k (c : tree loc) :
  tlookup t π = Some (Node q kvs) →
  tlookup (talter (assoc_set k c) t π) (π ++ [k]) = Some c.
Proof.
  intros H. rewrite tlookup_app, (tlookup_talter _ _ _ _ _ H). simpl.
  by rewrite assoc_set_eq.
Qed.

(** Reading one key on both sides. *)
Lemma sim_read h t π q kvs k :
  holds h t → tlookup t π = Some (Node q kvs) →
  ∃ m, deref q h = (Ok m, h) ∧ om_Get m k = val_of <$> assoc k kvs ∧
       tlookup (erase t) π = Some (Node tt (erase_kvs kvs)) ∧
       assoc k (erase_kvs kvs) = erase <$> assoc k kvs ∧
       (∀ c, assoc k kvs = Some c → rep h c).
Proof.
  intros Hh Hlk. destruct (deref_holds _ _ _ _ _ Hh Hlk) as (m & Hd & _ & Hg).
  exists m. repeat split; try done.
  - by rewrite erase_lookup, Hlk.
  - apply erase_assoc.
  - intros c Hc. destruct Hh as [Hrep _]. eapply rep_assoc; [|done]. by eapply rep_lookup.
Qed.

Lemma sim_set_checked h t π q kvs k c key :
  holds h t → tlookup t π = Some (Node q kvs) → holds h c → apart c t →
  sim_res (λ h' _ T', holds h' (talter (assoc_set k c) t π) ∧
                      erase (talter (assoc_set k c) t π) = T')
    (set_checked q k (val_of c) key h) (spec_set (erase t) π k (erase c) key).
Proof.
  intros Hh Hlk Hc Hap. destruct (sim_read h t π q kvs k Hh Hlk) as (m & Hd & Hg & He & Ha & Hr).
  destruct (set_at_holds h t π q kvs k c) as (h' & Hset & Hh' & _); [done..|].
  assert (Herase : erase (talter (assoc_set k c) t π) = talter (assoc_set k (erase c)) (erase t) π).
  { apply erase_talter. intros. apply erase_assoc_set. }
  unfold set_checked, spec_set, st_bind. rewrite Hd, He, Hg, Ha, Herase.
  destruct (assoc k kvs) as [old|]; simpl.
  - rewrite (is_map_val_of h old), (is_map_val_of h c), !erase_node; [|apply Hc|by apply Hr].
    destruct (is_node old && negb (is_node c)); [done|]. unfold sim_res. rewrite Hset. done.
  - unfold sim_res. rewrite Hset. done.
Qed.

Definition descend_post (t c : tree loc) (π : path) (segs : list gostring)
    (h' : heap) (q' : loc) (r : tree unit * path) : Prop :=
  ∃ t', holds h' t' ∧ erase t' = fst r ∧ snd r = π ++ segs ∧ node_at t' q' (snd r) ∧
        holds h' c ∧ apart c t' ∧ stable t t' π.

(** A new map under a key, next to a tree that is still to be inserted. *)
Lemma new_submap h t π q kvs seg c :
  holds h t → tlookup t π = Some (Node q kvs) → holds h c → apart c t →
  let p := fresh (dom h) in
  let h1 := <[p := NewOrderedMap]> h in
  let t2 := talter (assoc_set seg (Node p [])) t π in
  ∃ h2, set_at q seg (VMap p) h1 = (Ok tt, h2) ∧ holds h2 t2 ∧ node_at t2 p (π ++ [seg]) ∧
    erase t2 = talter (assoc_set seg (Node tt [])) (erase t) π ∧ holds h2 c ∧ apart c t2.
Proof.
  intros Hh Hlk Hc Hap p h1 t2. destruct (new_map_holds h t Hh) as (_ & Hh1 & Hp & Hni).
  destruct (new_map_holds h c Hc) as (_ & Hc1 & _ & Hpc). fold p in Hh1, Hp, Hni, Hc1, Hpc.
  fold h1 in Hh1, Hp, Hc1.
  destruct (set_at_holds h1 t π q kvs seg (Node p [])) as (h2 & Hset & Hh2 & Hfr); try done.
  { intros l Hl. simpl in Hl. set_solver. }
  assert (Hqt : q ∈ locs t) by (eapply locs_lookup; [done|by left]).
  exists h2. split_and!; try done.
  - exists []. by eapply tlookup_set.
  - apply erase_talter. intros. apply erase_assoc_set.
  - split; [|apply Hc]. eapply rep_frame; [apply Hc1|]. intros l Hl. apply Hfr.
    intros ->. by apply (Hap q).
  - intros l Hl Hx. destruct (locs_talter (assoc_set seg (Node p [])) t π q kvs) as [_ Hin]; try done.
    + apply Hh.
    + apply NoDup_assoc_set; [by eapply (holds_lookup h t)|apply NoDup_singleton|].
      intros l' ->%list_elem_of_singleton Hl'. apply Hni. by eapply locs_lookup.
    + intros l' [?|Hl']%locs_assoc_set; [by left|right]. simpl in Hl'. set_solver.
    + destruct (Hin l Hx) as [?|[Hl'|Hl']%locs_assoc_set]; [by apply (Hap l)| |].
      * apply (Hap l Hl). by eapply locs_lookup.
      * simpl in Hl'. set_solver.
Qed.

Lemma sim_descend segs done h t π q c :
  holds h t → node_at t q π → holds h c → apart c t →
  sim_res (descend_post t c π segs)
    (descend done segs q h) (spec_descend done segs (erase t) π).
Proof.
  revert done h t π q. induction segs as [|seg segs IH]; intros done h t π q Hh [kvs Hlk] Hc Hap.
  { simpl. exists t. rewrite app_nil_r. split_and!; try done.
    - by exists kvs.
    - apply stable_refl. }
  destruct (sim_read h t π q kvs seg Hh Hlk) as (m & Hd & Hg & He & Ha & Hr).
  cbn [descend spec_descend]. unfold st_bind at 1. rewrite Hd, He, Hg, Ha.
  destruct (assoc seg kvs) as [old|] eqn:Eo; simpl.
  - pose proof (AsMap_val_of h old (Hr old eq_refl)) as Hm.
    destruct old as [v|p l]; simpl in *; [destruct Hm as [e ->]; done|].
    assert (Hn : node_at t p (π ++ [seg])).
    { exists l. rewrite tlookup_app, Hlk. simpl. by rewrite Eo. }
    specialize (IH (done ++ [seg]) h t (π ++ [seg]) p Hh Hn Hc Hap).
    eapply sim_mono; [exact IH|].
    intros h' a b (t' & ? & ? & Hsnd & ? & ? & ? & Hst). exists t'.
    rewrite <- app_assoc in Hsnd. split_and!; try done.
    eapply stable_prefix; [|done]. by eexists.
  - unfold st_bind at 1. destruct (new_map_holds h t Hh) as (Hnew & _). rewrite Hnew.
    destruct (new_submap h t π q kvs seg c Hh Hlk Hc Hap)
      as (h2 & Hset & Hh2 & Hn2 & Herase & Hc2 & Hap2).
    unfold st_bind at 1. rewrite Hset, <- Herase.
    specialize (IH (done ++ [seg]) h2 _ (π ++ [seg]) _ Hh2 Hn2 Hc2 Hap2).
    eapply sim_mono; [exact IH|].
    intros h' a b (t' & ? & ? & Hsnd & ? & ? & ? & Hst). exists t'.
    rewrite <- app_assoc in Hsnd. split_and!; try done.
    eapply stable_trans; [apply stable_talter|]. eapply stable_prefix; [|done]. by eexists.
Qed.

Definition insert_post (t c : tree loc) (π : path)
    (h' : heap) (_ : unit) (r : tree unit * path) : Prop :=
  ∃ t', holds h' t' ∧ erase t' = fst r ∧ tlookup t' (snd r) = Some c ∧
        π `prefix_of` snd r ∧ stable t t' π.

Lemma sim_insert h t π q c key :
  holds h t → node_at t q π → holds h c → apart c t →
  sim_res (insert_post t c π)
    (insertWithDotExpansion q key (val_of c) h) (spec_insert (erase t) π key (erase c)).
Proof.
  intros Hh [kvs Hlk] Hc Hap. unfold insertWithDotExpansion, spec_insert.
  destruct (Nat.leb_spec (length (splitPath key)) 1) as [Hle|Hgt].
  - pose proof (sim_set_checked h t π q kvs key c key Hh Hlk Hc Hap) as Hs.
    eapply sim_post; [exact Hs|]. intros h' [] T' [Hh' <-].
    exists (talter (assoc_set key c) t π). split_and!; try done.
    + by eapply tlookup_set.
    + by eexists.
    + apply stable_talter.
  - eapply sim_bind.
    { apply (sim_descend _ [] h t π q c); [done|by exists kvs|done|done]. }
    intros q' [T π'] h' (t' & Hh' & He' & Hsnd & [kvs' Hlk'] & Hc' & Hap' & Hst). simpl in *.
    destruct (last (splitPath key)) as [l|] eqn:El.
    2:{ apply last_None in El. rewrite El in Hgt. simpl in Hgt. lia. }
    subst T. pose proof (sim_set_checked h' t' π' q' kvs' l c key Hh' Hlk' Hc' Hap') as Hs.
    eapply sim_post; [exact Hs|]. intros h2 [] T' [Hh2 <-].
    exists (talter (assoc_set l c) t' π'). split_and!; try done.
    + by eapply tlookup_set.
    + rewrite Hsnd, <- app_assoc. by eexists.
    + eapply stable_trans; [done|]. eapply (stable_prefix _ _ _ π'); [|apply stable_talter].
      rewrite Hsnd. by eexists.
Qed.

(** Each entry of the stack is on the way to the next one. *)
Definition chain (l : list path) : Prop :=
  ∀ i j π π', i ≤ j → l !! i = Some π → l !! j = Some π' → π `prefix_of` π'.

(** The parser's state against the specification's. *)
Definition sim_state (h : heap) (p : parser) (s : sstate) : Prop :=
  currentSection p = ssec s ∧
  ∃ t, holds h t ∧ erase t = sroot s ∧ node_at t (Sections (config p)) [] ∧
       Forall2 (node_at t) (nodeStack p) (sstack s) ∧ chain (sstack s).

Lemma chain_take n l : chain l → chain (take n l).
Proof.
  intros H i j π π' Hij. rewrite !lookup_take_Some. intros [? _] [? _]. by eapply H.
Qed.

Lemma chain_snoc l π' :
  chain l → (∀ π, π ∈ l → π `prefix_of` π') → chain (l ++ [π']).
Proof.
  intros Hl Hp i j π1 π2 Hij. rewrite !lookup_app_Some, !list_lookup_singleton_Some.
  intros [H1|[Hi [Hi0 <-]]] [H2|[Hj [_ <-]]].
  - by eapply Hl.
  - apply Hp. by eapply list_elem_of_lookup_2.
  - apply lookup_lt_Some in H2. lia.
  - done.
Qed.

Lemma chain_single π : chain [π].
Proof. intros [|i] [|j] π1 π2 Hij; simpl; intros; by simplify_eq. Qed.

Lemma chain_last l π i : chain l → l !! i = Some π → length l = S i →
  ∀ π0, π0 ∈ l → π0 `prefix_of` π.
Proof.
  intros Hl Hi Hlen π0 [j Hj]%list_elem_of_lookup. eapply Hl; [|done|done].
  apply lookup_lt_Some in Hj. lia.
Qed.

(** Names pushed on the stack move along with a change below them. *)
Lemma node_at_stable t t' π ps πs :
  stable t t' π → (∀ π0, π0 ∈ πs → π0 `prefix_of` π) →
  Forall2 (node_at t) ps πs → Forall2 (node_at t') ps πs.
Proof.
  intros Hst Hp H. induction H; constructor; [apply Hst; [apply Hp; by left|done]|].
  apply IHForall2. intros. apply Hp. by right.
Qed.

Lemma sim_header h p s line lineNo raw :
  HasPrefix line "[" = true →
  sim_state h p s →
  sim_res sim_state (handleSectionHeader p line lineNo raw h) (spec_header s line lineNo raw).
Proof.
  intros Hpre (Hsec & t & Hh & He & [kvs Hroot] & Hstack & Hch).
  unfold handleSectionHeader, spec_header.
  destruct (HasSuffix line "]") eqn:Esuf; [|done].
  destruct (ends_mid line Hpre Esuf) as (mid & ->). cbn [negb].
  rewrite slice_mid. cbn [res_bind]. unfold st_bind at 1. cbn [st_lift].
  set (name := TrimSpace mid). destruct (str_eqb name ""); [done|].
  destruct (sim_read h t [] _ kvs name Hh Hroot) as (m & Hd & Hg & Hl & Ha & Hr).
  rewrite <- He. simpl in Hl. injection Hl as ->. cbn [children].
  unfold st_bind at 1. rewrite Hd, Hg, Ha.
  destruct (assoc name kvs) as [old|] eqn:Eo; simpl.
  - pose proof (AsMap_val_of h old (Hr old eq_refl)) as Hm.
    destruct old as [v|q l]; simpl in *; [destruct Hm as [e ->]; done|].
    simplify_eq. split; [done|]. exists (Node (Sections (config p)) kvs).
    split_and!; try done; [by exists kvs| |apply chain_single].
    constructor; [|done]. exists l. simpl. by rewrite Eo.
  - unfold st_bind at 1 2. destruct (new_map_holds h t Hh) as (Hnew & Hh1 & Hp & Hni).
    rewrite Hnew. set (q := fresh (dom h)) in *. set (h1 := <[q := NewOrderedMap]> h) in *.
    destruct (set_at_holds h1 t [] (Sections (config p)) kvs name (Node q [])) as (h2 & Hset & Hh2 & _); try done.
    { intros l Hl. simpl in Hl. set_solver. }
    unfold st_bind at 1. change (VMap q) with (val_of (Node q [])). rewrite Hset.
    split; [done|]. exists (talter (assoc_set name (Node q [])) t []). simpl in Hroot.
    simplify_eq. split_and!; try done.
    + rewrite (erase_talter _ (assoc_set name (Node tt []))); [done|].
      intros. apply erase_assoc_set.
    + by eexists.
    + constructor; [|done]. exists []. simpl. by rewrite assoc_set_eq.
    + apply chain_single.
Qed.

Lemma stripQuotes_ok s : ∃ k, stripQuotes s = Ok k.
Proof.
  unfold stripQuotes. destruct (quoted s) eqn:E; [|by eexists].
  apply quoted_iff in E as [m ->]. rewrite slice_mid. by eexists.
Qed.

Lemma countDashDepth_depth line lineNo raw :
  returns (countDashDepth line lineNo raw) ∧
  ∀ depth rest, countDashDepth line lineNo raw = Ok (depth, rest) → 1 ≤ depth.
Proof.
  unfold countDashDepth. destruct (drop _ line) as [|c rest]; [done|].
  destruct (Nat.eqb_spec (count_dashes line) 0), (Ascii.eqb c ">"); simpl; split; try done.
  intros ? ? [= <- <-]. lia.
Qed.

Lemma slice_ok {E} (s : gostring) i j : i ≤ j → j ≤ length s →
  slice (E := E) s i j = Ok (take (j - i) (drop i s)).
Proof.
  intros. unfold slice. destruct (Nat.leb_spec i j), (Nat.leb_spec j (length s)); done || lia.
Qed.

(** Inserting below the top of the cut stack keeps the states related. *)
Lemma sim_key_insert h p s t depth π q c key :
  holds h t → erase t = sroot s → node_at t (Sections (config p)) [] →
  Forall2 (node_at t) (nodeStack p) (sstack s) → chain (sstack s) →
  currentSection p = ssec s → 1 ≤ depth → 
  take depth (sstack s) !! (depth - 1) = Some π →
  take depth (nodeStack p) !! (depth - 1) = Some q →
  holds h c → apart c t →
  sim_res (λ h' _ r,
      ∃ t', holds h' t' ∧ erase t' = fst r ∧ node_at t' (Sections (config p)) [] ∧
            Forall2 (node_at t') (take depth (nodeStack p)) (take depth (sstack s)) ∧
            tlookup t' (snd r) = Some c ∧ chain (take depth (sstack s)) ∧
            chain (take depth (sstack s) ++ [snd r]))
    (insertWithDotExpansion q key (val_of c) h) (spec_insert (sroot s) π key (erase c)).
Proof.
  intros Hh He Hroot Hst Hch Hsec Hd Hπ Hq Hc Hap. rewrite <- He.
  assert (Hst' : Forall2 (node_at t) (take depth (nodeStack p)) (take depth (sstack s)))
    by by apply Forall2_take.
  assert (Hqπ : node_at t q π) by by eapply Forall2_lookup_lr.
  assert (Hch' : chain (take depth (sstack s))) by by apply chain_take.
  assert (Hpre : ∀ π0, π0 ∈ take depth (sstack s) → π0 `prefix_of` π).
  { eapply chain_last; [done..|]. pose proof (lookup_lt_Some _ _ _ Hπ).
    rewrite length_take in *. lia. }
  eapply sim_mono; [by apply sim_insert|].
  intros h' [] r (t' & Hh' & He' & Hlk & Hpr & Hs). exists t'. split_and!; try done.
  - apply Hs; [apply prefix_nil|done].
  - by eapply node_at_stable.
  - apply chain_snoc; [done|]. intros π0 ?. trans π; auto.
Qed.

Lemma sim_key_line h p s line lineNo raw :
  sim_state h p s →
  sim_res sim_state (handleKeyLine p line lineNo raw h) (spec_key_line s line lineNo raw).
Proof.
  intros (Hsec & t & Hh & He & Hroot & Hstack & Hch).
  unfold handleKeyLine, spec_key_line. rewrite Hsec.
  destruct (str_eqb (ssec s) ""); [done|].
  destruct (countDashDepth_depth line lineNo raw) as [Hret Hdep].
  eapply sim_bind; [by apply sim_lift|]. intros [depth rest0] [? ?] h' (-> & [= <- <-] & Ed).
  apply Hdep in Ed. cbn [fst snd]. clear Hret Hdep. set (rest := TrimSpace rest0).
  destruct (str_eqb rest ""); [done|].
  rewrite (Forall2_length _ _ _ Hstack).
  destruct (Nat.ltb_spec (length (sstack s)) depth) as [|Hle]; [done|].
  destruct (lookup_lt_is_Some_2 (take depth (sstack s)) (depth - 1)) as [π Hπ].
  { rewrite length_take. lia. }
  destruct (lookup_lt_is_Some_2 (take depth (nodeStack p)) (depth - 1)) as [q Hq].
  { rewrite length_take, (Forall2_length _ _ _ Hstack). lia. }
  rewrite Hπ, Hq. destruct (Index rest "=>") as [i|] eqn:Ei.
  - apply Index_Some in Ei as (post & _ & Hi). cbn [length] in Hi.
    rewrite !slice_ok by lia.
    unfold st_bind at 1 2. cbn [st_lift res_bind].
    set (kp := TrimSpace (take _ _)). set (vp := TrimSpace (take _ (drop (i + 2) _))).
    destruct (str_eqb kp ""); [done|].
    destruct (parseScalarOrArray_total vp) as (v & -> & Hv).
    destruct (stripQuotes_ok kp) as [key ->].
    unfold st_bind at 1. cbn [st_lift res_bind].
    eapply (sim_ret (λ h' _ r, _)).
    { apply (sim_key_insert h p s t depth π q (Leaf v)); try done; [by apply leaf_holds|].
      intros l Hl. simpl in Hl. set_solver. }
    intros h' [] r (t' & ? & ? & ? & ? & ? & ? & ?). split; [done|]. by exists t'.
  - destruct (stripQuotes_ok (TrimSpace rest)) as [key ->].
    unfold st_bind at 1 2. cbn [st_lift res_bind].
    destruct (new_map_holds h t Hh) as (Hnew & Hh1 & Hp & Hni).
    rewrite Hnew. set (n := fresh (dom h)) in *. set (h1 := <[n := NewOrderedMap]> h) in *.
    eapply (sim_ret (λ h' _ r, _)).
    { apply (sim_key_insert h1 p s t depth π q (Node n [])); try done.
      intros l Hl. simpl in Hl. set_solver. }
    intros h' [] r (t' & ? & ? & ? & ? & ? & ? & ?). split; [done|]. exists t'.
    split_and!; try done. simpl. apply Forall2_app; [done|]. constructor; [|done].
    by eexists.
Qed.

(** The heap holds a located form of the tree, with its root at the sections. *)
Definition config_holds (h : heap) (c : HkConfig) (T : tree unit) : Prop :=
  ∃ t, holds h t ∧ erase t = T ∧ node_at t (Sections c) [].

Lemma sim_lines lines : ∀ h p s lineNo,
  sim_state h p s →
  sim_res (λ h' c s', config_holds h' c (sroot s'))
    (parse_lines p lines lineNo h) (spec_lines s lines lineNo).
Proof.
  induction lines as [|raw lines IH]; intros h p s lineNo Hs; cbn [parse_lines spec_lines].
  { destruct Hs as (_ & t & Hh & He & Hr & _). by exists t. }
  set (line := TrimSpace raw).
  destruct (str_eqb line "" || HasPrefix line "!"); [by apply IH|].
  destruct (HasPrefix line "[") eqn:Eh; [|destruct (HasPrefix line "-"); [|done]].
  - eapply sim_bind; [by apply sim_header|]. auto.
  - eapply sim_bind; [by apply sim_key_line|]. auto.
Qed.

Lemma parse_sim lines h : sim_res config_holds (parse lines h) (spec_parse lines).
Proof.
  unfold parse, spec_parse, NewHkConfig, st_bind. cbn [st_ret new_map].
  set (p := fresh (dom h)).
  eapply sim_post; [apply sim_lines|auto].
  split; [done|]. exists (Node p []). split_and!; try done.
  - split; [|apply NoDup_singleton].
    econstructor; [apply lookup_insert_eq|apply NewOrderedMap_wf|done|done].
  - by eexists.
Qed.
