(* ===== verification/HkParserProps.v ===== *)
(** * Properties of the .hk parser

    Stated of [parse], [ParseString] and [LoadFile] as written; the proofs go
    through the tree specification of HkParser. *)

From Stdlib Require Import Ascii String ZArith Lia SpecFloat.
From stdpp Require Import base list gmap strings.
From S2P Require Import Prelude GoStrings GoNumbers HkValue HkLex HkHeap HkTree HkParser.

(** ** Lines in the specification *)

(** One line of the specification. *)
Definition spec_line (s : sstate) (lineNo : nat) (raw : gostring) : res HkError sstate :=
  let line := TrimSpace raw in
  if str_eqb line "" || HasPrefix line "!" then Ok s
  else if HasPrefix line "[" then spec_header s line (lineNo + 1) raw
  else if HasPrefix line "-" then spec_key_line s line (lineNo + 1) raw
  else Err (perr (lineNo + 1) 1 (UnexpectedLine line)
              "Linie musza zaczynac sie od '!', '[' lub '-'" raw).

Lemma spec_lines_cons s raw rest n :
  spec_lines s (raw :: rest) n =
  res_bind (spec_line s n raw) (λ s', spec_lines s' rest (S n)).
Proof.
  cbn [spec_lines]. unfold spec_line. repeat split_match; done.
Qed.

Lemma spec_lines_app s l1 l2 n :
  spec_lines s (l1 ++ l2) n =
  res_bind (spec_lines s l1 n) (λ s', spec_lines s' l2 (n + length l1)).
Proof.
  revert s n. induction l1 as [|raw l1 IH]; intros s n; simpl app.
  { simpl. by rewrite Nat.add_0_r. }
  rewrite !spec_lines_cons. destruct (spec_line s n raw); simpl; [|done..].
  rewrite IH. by rewrite Nat.add_succ_r.
Qed.

(** Two lines that trim to the same text do the same, whatever their numbers,
    when the first succeeds. *)
Lemma spec_line_ok s n m raw raw' s' :
  TrimSpace raw = TrimSpace raw' →
  spec_line s n raw = Ok s' → spec_line s m raw' = Ok s'.
Proof.
  unfold spec_line, spec_header, spec_key_line, countDashDepth, res_bind. intros <-.
  repeat split_match; simplify_eq/=; done.
Qed.

Lemma spec_line_num s n m raw s' : spec_line s n raw = Ok s' ↔ spec_line s m raw = Ok s'.
Proof. split; by apply spec_line_ok. Qed.

(** ** Where an error is reported *)

(** A syntax error of one line points at that line. *)
Definition located (n : nat) (raw : gostring) (e : HkError) : Prop :=
  match e with
  | ParseError i => Line i = n + 1 ∧ SourceLine i = raw
  | KeyConflict _ => True
  | _ => False
  end.

Definition conflict (e : HkError) : Prop := ∃ key, e = KeyConflict key.

Lemma spec_set_err t π k c key e : spec_set t π k c key = Err e → conflict e.
Proof. unfold spec_set. repeat split_match; intros; simplify_eq; by eexists. Qed.

Lemma spec_descend_err segs pre t π e : spec_descend pre segs t π = Err e → conflict e.
Proof.
  revert pre t π. induction segs as [|seg segs IH]; intros pre t π; simpl; [done|].
  repeat split_match; intros; simplify_eq; eauto. by eexists.
Qed.

Lemma spec_insert_err t π key c e : spec_insert t π key c = Err e → conflict e.
Proof.
  unfold spec_insert, res_bind. repeat split_match; intros; simplify_eq;
    eauto using spec_set_err, spec_descend_err.
Qed.

Lemma conflict_located n raw e : conflict e → located n raw e.
Proof. by intros [key ->]. Qed.

Lemma spec_header_err s line n raw e :
  HasPrefix line "[" = true →
  spec_header s line (n + 1) raw = Err e → located n raw e.
Proof.
  unfold spec_header. intros Hp.
  destruct (HasSuffix line "]") eqn:Es; [|intros; by simplify_eq/=].
  destruct (ends_mid line Hp Es) as [m ->]. rewrite slice_mid. cbn [negb res_bind].
  repeat split_match; intros; by simplify_eq/=.
Qed.

Lemma spec_key_line_err s line n raw e :
  spec_key_line s line (n + 1) raw = Err e → located n raw e.
Proof.
  unfold spec_key_line. destruct (str_eqb (ssec s) ""); [intros; by simplify_eq/=|].
  destruct (countDashDepth line (n + 1) raw) as [[d r]|e0| |] eqn:Ed; try done; cbn [res_bind].
  2:{ intros [= ->]. revert Ed. unfold countDashDepth.
      repeat split_match; intros; by simplify_eq/=. }
  cbn [fst snd]. set (rest := TrimSpace r).
  destruct (str_eqb rest ""); [intros; by simplify_eq/=|].
  destruct (length (sstack s) <? d); [intros; by simplify_eq/=|].
  destruct (take d (sstack s) !! (d - 1)) as [π|]; [|done].
  destruct (Index rest "=>") as [i|] eqn:Ei.
  - apply Index_Some in Ei as (post & _ & Hi). cbn [length] in Hi.
    rewrite !slice_ok by lia. cbn [res_bind].
    destruct (str_eqb _ ""); [intros; by simplify_eq/=|].
    destruct (parseScalarOrArray_total (TrimSpace (take (length rest - (i + 2)) (drop (i + 2) rest))))
      as (v & -> & _). cbn [res_bind].
    destruct (stripQuotes_ok (TrimSpace (take (i - 0) (drop 0 rest)))) as [key ->].
    cbn [res_bind]. destruct (spec_insert _ _ _ _) eqn:E; simpl; intros; simplify_eq.
    eauto using conflict_located, spec_insert_err.
  - destruct (stripQuotes_ok (TrimSpace rest)) as [key ->]. cbn [res_bind].
    destruct (spec_insert _ _ _ _) eqn:E; simpl; intros; simplify_eq.
    eauto using conflict_located, spec_insert_err.
Qed.

Lemma spec_line_err s n raw e : spec_line s n raw = Err e → located n raw e.
Proof.
  unfold spec_line. destruct (str_eqb _ "" || _); [done|].
  destruct (HasPrefix (TrimSpace raw) "[") eqn:Ep; [by apply spec_header_err|].
  destruct (HasPrefix (TrimSpace raw) "-"); [apply spec_key_line_err|].
  intros; by simplify_eq/=.
Qed.

(** The first line that fails decides the error. *)
Lemma spec_lines_err s lines n e :
  spec_lines s lines n = Err e →
  ∃ i raw s', lines !! i = Some raw ∧ spec_lines s (take i lines) n = Ok s' ∧
              spec_line s' (n + i) raw = Err e.
Proof.
  revert s n. induction lines as [|raw lines IH]; intros s n; [done|].
  rewrite spec_lines_cons. destruct (spec_line s n raw) as [s1|e1| |] eqn:E; simpl; try done.
  - intros (i & r & s' & Hi & Hok & He)%IH. exists (S i), r, s'. split; [done|].
    rewrite Nat.add_succ_r. split; [|done]. cbn [take]. by rewrite spec_lines_cons, E.
  - intros [= ->]. exists O, raw, s. by rewrite Nat.add_0_r.
Qed.

(** ** Comments, blank lines and carriage returns *)

Definition silent (raw : gostring) : bool :=
  str_eqb (TrimSpace raw) "" || HasPrefix (TrimSpace raw) "!".

Lemma spec_line_silent s n raw : silent raw = true → spec_line s n raw = Ok s.
Proof. unfold silent, spec_line. by intros ->. Qed.

(** Only the trimmed texts of the lines that are not silent matter. *)
Lemma spec_lines_filter s lines n m s' :
  spec_lines s lines n = Ok s' ↔
  spec_lines s (filter (λ raw, silent raw = false) lines) m = Ok s'.
Proof.
  revert s n m. induction lines as [|raw lines IH]; intros s n m; [done|].
  rewrite filter_cons, spec_lines_cons. destruct (silent raw) eqn:E.
  - rewrite decide_False by done. rewrite spec_line_silent by done. apply IH.
  - rewrite decide_True by done. rewrite spec_lines_cons, !res_bind_Ok.
    setoid_rewrite (IH _ _ (S m)). by setoid_rewrite (spec_line_num s n m).
Qed.

(** ** What a held heap determines *)

Lemma rep_inj h t1 t2 : rep h t1 → rep h t2 → val_of t1 = val_of t2 → t1 = t2.
Proof.
  revert t2. induction t1 as [v|p kvs IH] using tree_ind'; intros t2 H1 H2 Hv;
    inversion H1 as [? Hm|? m ? Hp Hwf Hent Hall]; subst;
    inversion H2 as [? Hm'|? m' ? Hp' Hwf' Hent' Hall']; subst; simpl in *; simplify_eq; try done.
  f_equal. rewrite Hent in Hent'. clear Hwf Hwf' Hent H1 H2 Hp.
  revert kvs0 Hent' Hall'. induction kvs as [|[k c] l IHl]; intros [|[k' c'] l'] E Hall';
    simplify_eq/=; [done|].
  apply Forall_cons in IH as [Hc IH]. apply Forall_cons in Hall as [? ?].
  apply Forall_cons in Hall' as [? ?]. f_equal; [f_equal; by apply Hc|by apply IHl].
Qed.

Lemma config_holds_inj h c T T' : config_holds h c T → config_holds h c T' → T = T'.
Proof.
  intros (t & [Ht _] & <- & [kvs E]) (t' & [Ht' _] & <- & [kvs' E']). simpl in *. simplify_eq.
  by rewrite (rep_inj h _ _ Ht Ht' eq_refl).
Qed.

(** The lines denote a tree when the parser, on any heap, succeeds and leaves
    that tree in the heap. *)
Definition denotes (m : HkM HkConfig) (T : tree unit) : Prop :=
  ∀ h, ∃ c h', m h = (Ok c, h') ∧ config_holds h' c T.

Lemma parse_denotes lines T : denotes (parse lines) T ↔ spec_parse lines = Ok T.
Proof.
  split.
  - intros H. destruct (H ∅) as (c & h' & Hp & Hc). pose proof (parse_sim lines ∅) as Hs.
    unfold sim_res in Hs. rewrite Hp in Hs. simpl in Hs.
    destruct (spec_parse lines) as [T'| | |]; try done. f_equal. by eapply config_holds_inj.
  - intros H h. pose proof (parse_sim lines h) as Hs. unfold sim_res in Hs. rewrite H in Hs.
    destruct (parse lines h) as [[c| | |] h']; try done. by exists c, h'.
Qed.

Lemma parse_error lines h e : fst (parse lines h) = Err e ↔ spec_parse lines = Err e.
Proof.
  pose proof (parse_sim lines h) as Hs. unfold sim_res in Hs.
  destruct (parse lines h) as [[] h'], (spec_parse lines); simpl in *; naive_solver.
Qed.

(** ** Where an insertion goes *)

(** The path a key names below the map it is inserted in. *)
Definition key_path (key : gostring) : path :=
  let segments := splitPath key in
  if length segments <=? 1 then [key] else segments.

Definition comparable (π π' : path) : Prop := π `prefix_of` π' ∨ π' `prefix_of` π.

Lemma tlookup_set_other {A} (t : tree A) π k c π' :
  ¬ comparable (π ++ [k]) π' →
  tlookup (talter (assoc_set k c) t π) π' = tlookup t π'.
Proof.
  unfold comparable.
  revert t π'. induction π as [|k0 π IH]; intros t π' Hnc; (destruct t as [v|a kvs]; [done|]);
    (destruct π' as [|k' π']; [exfalso; apply Hnc; right; apply prefix_nil|]); simpl.
  - destruct (decide (k = k')) as [<-|Hne].
    + exfalso. apply Hnc. left. apply prefix_cons, prefix_nil.
    + by rewrite assoc_set_ne.
  - destruct (decide (k0 = k')) as [<-|Hne].
    + rewrite assoc_alter_eq. destruct (assoc k0 kvs) as [c0|]; simpl; [|done].
      apply IH. intros [H|H]; apply Hnc; [left|right]; by apply prefix_cons.
    + by rewrite assoc_alter_ne.
Qed.

(** Between trees: what lies off the path is kept. *)
Definition kept (t t' : tree unit) (π : path) : Prop :=
  ∀ π', ¬ comparable π π' → tlookup t' π' = tlookup t π'.

(** A new empty map on the way to [π ++ seg :: segs] holds nothing yet. *)
Lemma set_empty_kept t π a kvs seg segs :
  tlookup t π = Some (Node a kvs) → assoc seg kvs = None →
  kept t (talter (assoc_set seg (Node tt [])) t π) (π ++ seg :: segs).
Proof.
  intros Hlk Hn π' Hnc.
  destruct (decide (π ++ [seg] `prefix_of` π')) as [[x ->]|H1].
  - rewrite <- app_assoc, !tlookup_app, (tlookup_talter _ _ _ _ _ Hlk), Hlk. simpl.
    rewrite assoc_set_eq, Hn. destruct x as [|k x]; [|done]. exfalso. apply Hnc. right.
    rewrite app_nil_r. exists segs. by rewrite <- app_assoc.
  - apply tlookup_set_other. intros [H|H]; [done|]. apply Hnc. right.
    destruct H as [x E]. exists (x ++ segs). by rewrite app_assoc, <- E, <- app_assoc.
Qed.

Lemma spec_descend_kept segs l pre t π t' π' :
  spec_descend pre segs t π = Ok (t', π') →
  π' = π ++ segs ∧ kept t t' (π ++ segs ++ [l]).
Proof.
  revert pre t π. induction segs as [|seg segs IH]; intros pre t π; cbn [spec_descend].
  { intros [= <- <-]. by rewrite app_nil_r. }
  destruct (tlookup t π) as [[|a kvs]|] eqn:Hlk; try done.
  destruct (assoc seg kvs) as [[|b l0]|] eqn:Ea; try done.
  - intros [-> Hk]%IH. rewrite <- !app_assoc in *. done.
  - intros [-> Hk]%IH. rewrite <- !app_assoc in *. split; [done|]. intros π0 Hnc.
    rewrite Hk by done. by eapply set_empty_kept.
Qed.

Lemma spec_set_kept t π k c key t' :
  spec_set t π k c key = Ok t' → tlookup t' (π ++ [k]) = Some c ∧ kept t t' (π ++ [k]).
Proof.
  unfold spec_set. destruct (tlookup t π) as [[|[] kvs]|] eqn:Hlk; try done.
  assert (H : Ok (E := HkError) (talter (assoc_set k c) t π) = Ok t' →
              tlookup t' (π ++ [k]) = Some c ∧ kept t t' (π ++ [k])).
  { intros [= <-]. split; [|intros π'; apply tlookup_set_other].
    rewrite tlookup_app, (tlookup_talter _ _ _ _ _ Hlk). simpl. by rewrite assoc_set_eq. }
  repeat split_match; done.
Qed.

Lemma spec_insert_kept t π key c t' π' :
  spec_insert t π key c = Ok (t', π') →
  π' = π ++ key_path key ∧ tlookup t' π' = Some c ∧ kept t t' π'.
Proof.
  unfold spec_insert, key_path. destruct (length (splitPath key) <=? 1).
  - intros (t1 & [? ?]%spec_set_kept & [= <- <-])%res_bind_Ok. done.
  - intros ([t1 π1] & Hd & Hr)%res_bind_Ok.
    destruct (last (splitPath key)) as [l|] eqn:El; [|done].
    apply last_Some in El as [segs El]. rewrite El, removelast_last in Hd. cbn [fst snd] in Hr.
    apply (spec_descend_kept _ l) in Hd as [-> Hk1].
    apply res_bind_Ok in Hr as (t2 & [Hlk Hk2]%spec_set_kept & [= <- <-]).
    rewrite El, <- app_assoc in *. split_and!; try done.
    intros π0 Hnc. rewrite Hk2, Hk1; done.
Qed.

(** ** The lines of a file *)

Lemma TrimSpace_dropCR raw : TrimSpace (dropCR raw) = TrimSpace raw.
Proof.
  unfold dropCR. induction raw as [|c raw _] using rev_ind; [done|].
  rewrite last_snoc. destruct (Ascii.eqb_spec c CR) as [->|]; [|done].
  rewrite removelast_last. by rewrite TrimSpace_trailing.
Qed.

Lemma spec_lines_dropCR s lines n s' :
  spec_lines s (map dropCR lines) n = Ok s' ↔ spec_lines s lines n = Ok s'.
Proof.
  revert s n. induction lines as [|raw lines IH]; intros s n; [done|]. simpl map.
  rewrite !spec_lines_cons, !res_bind_Ok. setoid_rewrite IH.
  pose proof (TrimSpace_dropCR raw).
  split; intros (s1 & H1 & H2); exists s1; (split; [|done]); by eapply spec_line_ok.
Qed.

Lemma spec_lines_drop_last s lines n s' :
  spec_lines s (drop_last_empty lines) n = Ok s' ↔ spec_lines s lines n = Ok s'.
Proof.
  unfold drop_last_empty. induction lines as [|raw lines _] using rev_ind; [done|].
  rewrite last_snoc. destruct raw; [|done].
  rewrite removelast_last, spec_lines_app, res_bind_Ok. simpl. split; [eauto|].
  by intros (s1 & ? & [= ->]).
Qed.

(** A file whose lines fit the scanner's buffer. *)
Definition short_lines (content : gostring) : bool :=
  forallb (λ l, (N.of_nat (length l) <? maxToken)%N) (drop_last_empty (split_on NL content)).

Lemma scan_lines_short content : short_lines content = true →
  scan_lines content = Some (map dropCR (drop_last_empty (split_on NL content))).
Proof.
  unfold short_lines, scan_lines. intros H. set (ls := drop_last_empty _) in *.
  replace (existsb _ ls) with false; [done|]. symmetry.
  induction ls as [|l ls IH]; [done|]. simpl in *.
  apply andb_prop in H as [H%N.ltb_lt ?]. rewrite IH by done.
  destruct (N.leb_spec maxToken (N.of_nat (length l))); [lia|done].
Qed.

Lemma scan_lines_long content : short_lines content = false → scan_lines content = None.
Proof.
  unfold short_lines, scan_lines. intros H. set (ls := drop_last_empty _) in *.
  replace (existsb _ ls) with true; [done|]. symmetry.
  induction ls as [|l ls IH]; [done|]. simpl in *.
  destruct (N.leb_spec maxToken (N.of_nat (length l))); [done|]. simpl. apply IH.
  destruct (N.ltb_spec (N.of_nat (length l)) maxToken); [done|lia].
Qed.

(** ** Claims *)

(** C1.  The parser that fills shared maps through pointers refines the
    specification on trees: on every input and every heap it neither panics
    nor diverges; it fails with exactly the error the specification gives, and
    otherwise the maps reachable from the configuration it returns form, with
    no sharing between them, exactly the tree the specification computes. *)
Theorem ParseString_refines input h :
  match ParseString input h with
  | (Ok c, h') => ∃ T, spec_parse (split_on NL input) = Ok T ∧ config_holds h' c T
  | (Err e, _) => spec_parse (split_on NL input) = Err e
  | _ => False
  end.
Proof.
  pose proof (parse_sim (split_on NL input) h) as Hs. unfold sim_res, ParseString in *.
  destruct (parse _ h) as [[c|e| |] h']; destruct (spec_parse _); simpl in *; try done.
  - by eexists.
  - by subst.
Qed.

Lemma parse_error_at lines h e h' :
  parse lines h = (Err (ParseError e), h') →
  ∃ i T, Line e = i + 1 ∧ lines !! i = Some (SourceLine e) ∧
         denotes (parse (take i lines)) T.
Proof.
  intros H. assert (He : spec_parse lines = Err (ParseError e)).
  { apply (parse_error _ h). by rewrite H. }
  unfold spec_parse in He.
  destruct (spec_lines sstate0 lines 0) as [|e'| |] eqn:E; simpl in He; try done.
  injection He as ->.
  apply spec_lines_err in E as (i & raw & s' & Hi & Hok & Hl).
  apply spec_line_err in Hl as [HL <-]. exists i, (sroot s'). split_and!; try done.
  apply parse_denotes. unfold spec_parse. by rewrite Hok.
Qed.

(** C32.  A syntax error points at the first line that cannot be parsed: its
    number is that line's position counted from one, the quoted source is that
    raw line, and the lines before it parse. *)
Theorem parse_error_line lines h e h' :
  parse lines h = (Err (ParseError e), h') →
  ∃ i T, Line e = i + 1 ∧ lines !! i = Some (SourceLine e) ∧
         denotes (parse (take i lines)) T.
Proof. apply parse_error_at. Qed.

Lemma parse_error_line_witness :
  ∃ i T, 2 = i + 1 ∧ ["[a]" : gostring; "b"] !! i = Some ("b" : gostring) ∧
         denotes (parse (take i ["[a]" : gostring; "b"])) T.
Proof.
  apply (parse_error_line ["[a]" : gostring; "b"] ∅
           (ParseErr 2 1 (UnexpectedLine "b")
              "Linie musza zaczynac sie od '!', '[' lub '-'" "b")
           (snd (parse ["[a]" : gostring; "b"] ∅))).
  vm_compute. reflexivity.
Defined.

(** Comment lines and blank lines mean nothing: a list of lines parses
    to a tree exactly when the list without them does. *)
Theorem parse_comments lines T :
  denotes (parse lines) T ↔
  denotes (parse (filter (λ raw, silent raw = false) lines)) T.
Proof.
  rewrite !parse_denotes. unfold spec_parse. rewrite !res_bind_Ok.
  by setoid_rewrite (spec_lines_filter sstate0 lines 0 0).
Qed.

(** Loading a file agrees with parsing its content as a string, for files
    with either line ending: the same content gives the same tree.  A line that
    fills the 64 KiB buffer of the scanner is the one difference: it is a read
    error. *)
Theorem LoadFile_ParseString fs path content T :
  fs path = Some content →
  if short_lines content
  then denotes (LoadFile fs path) T ↔ denotes (ParseString content) T
  else ∀ h, LoadFile fs path h = (Err (ReadFailed path), h).
Proof.
  intros Hf. unfold LoadFile. rewrite Hf. destruct (short_lines content) eqn:Es.
  - rewrite scan_lines_short by done. unfold ParseString. rewrite !parse_denotes.
    unfold spec_parse. rewrite !res_bind_Ok. setoid_rewrite spec_lines_dropCR.
    by setoid_rewrite spec_lines_drop_last.
  - by rewrite scan_lines_long.
Qed.

Lemma LoadFile_ParseString_witness :
  let content := ("[a]" ++ [CR; NL] ++ "-> k => 1" ++ [CR; NL]) in
  let fs := λ p : gostring, if str_eqb p "f.hk" then Some content else None in
  short_lines content = true ∧
  (denotes (LoadFile fs "f.hk") (Node tt [("a" : gostring, Node tt [("k" : gostring, Leaf (VNumber (f_of_Z 1)))])])
   ↔ denotes (ParseString content) (Node tt [("a" : gostring, Node tt [("k" : gostring, Leaf (VNumber (f_of_Z 1)))])])).
Proof.
  intros content fs. split; [by vm_compute|].
  exact (LoadFile_ParseString fs "f.hk" content _ eq_refl).
Defined.

(** C26.  A successful insertion under a dotted key puts the value exactly at the
    path the key names below the target, creating the maps on the way, and
    changes no value at any path that is neither above nor below that one. *)
Theorem insert_places h t π q c key h' :
  holds h t → node_at t q π → holds h c → apart c t →
  insertWithDotExpansion q key (val_of c) h = (Ok tt, h') →
  ∃ t', holds h' t' ∧ tlookup t' (π ++ key_path key) = Some c ∧
        ∀ π', ¬ comparable (π ++ key_path key) π' →
              erase <$> tlookup t' π' = erase <$> tlookup t π'.
Proof.
  intros Hh Hn Hc Hap Hi. pose proof (sim_insert h t π q c key Hh Hn Hc Hap) as Hs.
  unfold sim_res in Hs. rewrite Hi in Hs. simpl in Hs.
  destruct (spec_insert (erase t) π key (erase c)) as [[T' π1]| | |] eqn:E; try done.
  destruct Hs as (t' & Hh' & He & Hlk & _). simpl in *. exists t'.
  destruct (spec_insert_kept _ _ _ _ _ _ E) as (-> & _ & Hk). split_and!; try done.
  intros π' Hnc. rewrite <- !erase_lookup, He. by apply Hk.
Qed.

Lemma insert_places_witness :
  let h : heap := {[ 0 := NewOrderedMap ]} in
  let h' := snd (insertWithDotExpansion 0 "a.b" (VBool true) h) in
  ∃ t', holds h' t' ∧ tlookup t' ["a" : gostring; "b"] = Some (Leaf (VBool true)) ∧
        ∀ π', ¬ comparable ["a" : gostring; "b"] π' →
              erase <$> tlookup t' π' = erase <$> tlookup (Node 0 []) π'.
Proof.
  intros h h'. apply (insert_places h (Node 0 []) [] 0 (Leaf (VBool true)) "a.b" h').
  - split; [|apply NoDup_singleton].
    econstructor; [apply lookup_insert_eq|apply NewOrderedMap_wf|done|constructor].
  - by exists [].
  - by apply leaf_holds.
  - intros l Hl. simpl in Hl. by apply not_elem_of_nil in Hl.
  - by vm_compute.
Defined.
