(* ===== verification/HkGet.v ===== *)
(** * Reading a configuration by path (HkConfig.Get of internal/hk/config.go)

    [cfg_Get] walks pointers in the heap; [spec_get] walks the tree the heap
    holds.  The two agree on every path, errors included. *)

From Stdlib Require Import Ascii String ZArith Lia SpecFloat.
From stdpp Require Import base list gmap strings.
From S2P Require Import Prelude GoStrings GoNumbers HkValue HkLex HkHeap HkTree HkParser.

Definition spec_segment (path : gostring) (t : tree unit) (seg : gostring)
    : res HkError (tree unit) :=
  let? ib := parseArrayIndex seg in
  match t with
  | Leaf _ => Err (InvalidReference path)
  | Node _ kvs =>
      match assoc (snd ib) kvs with
      | None => Err (InvalidReference path)
      | Some next =>
          match fst ib, next with
          | None, _ => Ok next
          | Some idx, Leaf (VArray arr) =>
              if (idx <? 0)%Z then Err (InvalidReference path)
              else match arr !! Z.to_nat idx with
                   | Some item => Ok (Leaf item)
                   | None => Err (InvalidReference path)
                   end
          | Some _, _ => Err (InvalidReference path)
          end
      end
  end.

Fixpoint spec_segments (path : gostring) (segs : list gostring) (t : tree unit)
    : res HkError (tree unit) :=
  match segs with
  | [] => Ok t
  | seg :: segs' => let? t' := spec_segment path t seg in spec_segments path segs' t'
  end.

(** The first segment is a section name, without an index. *)
Definition spec_get (T : tree unit) (path : gostring) : res HkError (tree unit) :=
  match splitPath path with
  | [] => Err (InvalidReference path)
  | s0 :: rest =>
      match assoc s0 (children T) with
      | None => Err (InvalidReference path)
      | Some t => spec_segments path rest t
      end
  end.

(** ** The index of a segment *)

Lemma IndexByte_Some s c i :
  IndexByte s c = Some i → s !! i = Some c ∧ i < length s.
Proof.
  revert i. induction s as [|d s IH]; intros i; simpl; [done|].
  destruct (Ascii.eqb_spec d c) as [->|]; [intros [= <-]; simpl; split; [done|lia]|].
  destruct (IndexByte s c) as [j|]; simpl; [|done]. intros [= <-].
  destruct (IH j eq_refl). split; [done|]. simpl. lia.
Qed.

Lemma parseArrayIndex_ok seg : ∃ r, parseArrayIndex seg = Ok r.
Proof.
  unfold parseArrayIndex. destruct (IndexByte seg "[") as [o|] eqn:Eo; [|by eexists].
  destruct (IndexByte seg "]") as [c|] eqn:Ec; [|by eexists].
  apply IndexByte_Some in Eo as [Ho ?]. apply IndexByte_Some in Ec as [Hc ?].
  destruct (Nat.ltb_spec c o); [by eexists|].
  assert (o ≠ c) by congruence. rewrite !slice_ok by lia. cbn [res_bind].
  repeat split_match; by eexists.
Qed.

(** ** Agreement *)

(** The value [v] stands for the tree [T] in the heap. *)
Definition stands (h : heap) (v : HkValue) (T : tree unit) : Prop :=
  ∃ t, rep h t ∧ val_of t = v ∧ erase t = T.

Lemma stands_leaf h v : scalar v = true → stands h v (Leaf v).
Proof. intros Hv. exists (Leaf v). split; [|done]. constructor. by destruct v. Qed.

Definition reads (h0 : heap) : heap → HkValue → tree unit → Prop :=
  λ h v T, h = h0 ∧ stands h0 v T.

Lemma get_item path h arr idx :
  forallb scalar arr = true →
  sim_res (reads h)
    ((if (idx <? 0)%Z || (Z.of_nat (length arr) <=? idx)%Z
      then st_err (InvalidReference path)
      else match arr !! Z.to_nat idx with Some item => st_ret item | None => st_panic end) h)
    (if (idx <? 0)%Z then Err (InvalidReference path)
     else match arr !! Z.to_nat idx with
          | Some item => Ok (Leaf item)
          | None => Err (InvalidReference path)
          end).
Proof.
  intros Ha. destruct (Z.ltb_spec idx 0); [done|]. simpl.
  destruct (Z.leb_spec (Z.of_nat (length arr)) idx) as [Hge|Hlt].
  - rewrite lookup_ge_None_2 by lia. done.
  - destruct (lookup_lt_is_Some_2 arr (Z.to_nat idx)) as [item Hi]; [lia|]. rewrite Hi.
    split; [done|]. apply stands_leaf. apply list_elem_of_lookup_2 in Hi.
    rewrite forallb_forall in Ha. apply Ha. by apply list_elem_of_In.
Qed.

Lemma sim_segment path h v T seg :
  stands h v T → sim_res (reads h) (get_segment path v seg h) (spec_segment path T seg).
Proof.
  intros (t & Hrep & <- & <-). unfold get_segment, spec_segment.
  destruct (parseArrayIndex_ok seg) as [[i base] ->].
  unfold st_bind at 1. cbn [st_lift res_bind fst snd].
  pose proof (AsMap_val_of h t Hrep) as Hm. destruct t as [v|p kvs]; cbn [erase].
  { destruct Hm as [e ->]. done. }
  rewrite Hm. destruct (rep_deref h p kvs Hrep) as (m & Hp & _ & _ & _ & Hg).
  unfold st_bind, deref. rewrite Hp, Hg. fold (erase_kvs kvs). rewrite erase_assoc.
  destruct (assoc base kvs) as [c|] eqn:Ec; cbn [fmap option_fmap option_map]; [|done].
  assert (Hc : rep h c) by by eapply rep_assoc.
  destruct i as [idx|]; [|split; [done|by exists c]].
  destruct c as [v|q l]; [|done]. inversion Hc as [? Hv|]; subst.
  destruct v; try done. by apply get_item.
Qed.

Lemma sim_segments path segs h v T :
  stands h v T → sim_res (reads h) (get_segments path segs v h) (spec_segments path segs T).
Proof.
  revert v T. induction segs as [|seg segs IH]; intros v T Hv; cbn [get_segments spec_segments].
  { by split. }
  eapply sim_bind; [by apply sim_segment|]. intros v' T' h' [-> Hv']. by apply IH.
Qed.

Lemma sim_get h c T path :
  config_holds h c T → sim_res (reads h) (cfg_Get c path h) (spec_get T path).
Proof.
  intros (t & [Hrep _] & <- & [kvs E]). simpl in E. simplify_eq.
  unfold cfg_Get, spec_get. destruct (splitPath path) as [|s0 rest]; [done|].
  destruct (rep_deref h _ _ Hrep) as (m & Hp & _ & _ & _ & Hg).
  unfold st_bind, deref. rewrite Hp, Hg. cbn [erase children].
  fold (erase_kvs kvs). rewrite erase_assoc.
  destruct (assoc s0 kvs) as [c0|] eqn:Ec; cbn [fmap option_fmap option_map]; [|done].
  apply sim_segments. exists c0. split; [|done]. by eapply rep_assoc.
Qed.

Lemma spec_segment_err path t seg e :
  spec_segment path t seg = Err e → e = InvalidReference path.
Proof.
  unfold spec_segment. destruct (parseArrayIndex_ok seg) as [[i base] ->]. cbn [res_bind].
  repeat split_match; intros; by simplify_eq.
Qed.

Lemma spec_get_err T path e : spec_get T path = Err e → e = InvalidReference path.
Proof.
  unfold spec_get. destruct (splitPath path) as [|s0 rest]; [intros; by simplify_eq|].
  destruct (assoc s0 (children T)) as [t|]; [|intros; by simplify_eq].
  revert t. induction rest as [|seg rest IH]; intros t; [done|]. cbn [spec_segments].
  destruct (spec_segment path t seg) eqn:E; simpl; try done; [apply IH|].
  intros [= <-]. by eapply spec_segment_err.
Qed.

(** ** Plain paths *)

(** A segment that names a key: no dots, quotes or brackets. *)
Definition plain_segment (s : gostring) : bool := segment_ok s && negb (mem "[" s).

Lemma parseArrayIndex_plain s : mem "[" s = false → parseArrayIndex s = Ok (None, s).
Proof. intros H. unfold parseArrayIndex. by rewrite IndexByte_None. Qed.

Lemma spec_segments_plain path segs t :
  forallb plain_segment segs = true →
  spec_segments path segs t =
  match tlookup t segs with Some c => Ok c | None => Err (InvalidReference path) end.
Proof.
  revert t. induction segs as [|seg segs IH]; intros t H; [done|].
  cbn [forallb] in H. unfold plain_segment in H at 1. breflect.
  cbn [spec_segments tlookup]. unfold spec_segment. rewrite parseArrayIndex_plain by done.
  cbn [res_bind fst snd]. destruct t as [v|a kvs]; [done|].
  destruct (assoc seg kvs); [|done]. by apply IH.
Qed.

(** C30.  Reading a dotted path of a parsed configuration gives what the tree of
    its text has at that path (a map when the path ends at one, an element when
    it ends in an index), never panics, and fails with InvalidReference exactly
    when the tree has nothing there. *)
Theorem Get_refines input h c h' path :
  ParseString input h = (Ok c, h') →
  ∃ T, spec_parse (split_on NL input) = Ok T ∧
       match cfg_Get c path h' with
       | (Ok v, h'') => h'' = h' ∧ ∃ t, spec_get T path = Ok t ∧ stands h' v t
       | (Err e, _) => spec_get T path = Err e ∧ e = InvalidReference path
       | _ => False
       end.
Proof.
  intros Hp. pose proof (parse_sim (split_on NL input) h) as Hs.
  unfold sim_res in Hs. change (parse (split_on NL input)) with (ParseString input) in Hs.
  rewrite Hp in Hs. simpl in Hs.
  destruct (spec_parse (split_on NL input)) as [T| | |]; try done. exists T. split; [done|].
  pose proof (sim_get h' c T path Hs) as Hg. unfold sim_res, reads in Hg.
  destruct (cfg_Get c path h') as [[v|e| |] h2]; destruct (spec_get T path) eqn:E;
    simpl in *; try done.
  - destruct Hg. eauto.
  - subst. split; [done|]. by eapply spec_get_err.
Qed.

Lemma Get_refines_witness :
  let input := ("[a]" ++ [NL] ++ "-> b.c => [1, x]") in
  ∃ c h' T, ParseString input ∅ = (Ok c, h') ∧
    spec_parse (split_on NL input) = Ok T ∧
    match cfg_Get c "a.b.c[1]" h' with
    | (Ok v, h'') => h'' = h' ∧ ∃ t, spec_get T "a.b.c[1]" = Ok t ∧ stands h' v t
    | (Err e, _) => spec_get T "a.b.c[1]" = Err e ∧ e = InvalidReference "a.b.c[1]"
    | _ => False
    end.
Proof.
  intros input. destruct (ParseString input ∅) as [[c| | |] h'] eqn:E;
    [|vm_compute in E; discriminate..].
  destruct (Get_refines input ∅ c h' "a.b.c[1]" E) as (T & ? & ?).
  by exists c, h', T.
Defined.

(** ** The range of indices *)

Lemma int64_wrap_mod a b : (a mod 2 ^ 64 = b mod 2 ^ 64)%Z → int64_wrap a = int64_wrap b.
Proof. intros E. unfold int64_wrap. by rewrite Z.add_mod, E, <- Z.add_mod by done. Qed.

Lemma int64_wrap_cong z : (int64_wrap z mod 2 ^ 64 = z mod 2 ^ 64)%Z.
Proof.
  unfold int64_wrap. rewrite Zminus_mod, Z.mod_mod, <- Zminus_mod by done. f_equal. lia.
Qed.

(** Wrapping after every operation is wrapping once at the end. *)
Lemma int64_wrap_step n d :
  int64_wrap (int64_wrap (int64_wrap n * 10) + d) = int64_wrap (n * 10 + d).
Proof.
  apply int64_wrap_mod. rewrite Zplus_mod, int64_wrap_cong, Zmult_mod, int64_wrap_cong.
  by rewrite <- Zmult_mod, <- Zplus_mod.
Qed.

Lemma index_digits_wrap ds n neg started :
  forallb is_digit ds = true →
  index_digits ds (int64_wrap (Z.of_N n)) neg started =
    Some (int64_wrap (Z.of_N (dec_value n ds)), neg).
Proof.
  revert n started. induction ds as [|c ds IH]; intros n started Hds; [done|].
  cbn [forallb] in Hds. apply andb_prop in Hds as [Hc Hds]. cbn [index_digits].
  rewrite (is_digit_not c "-") by done. cbn [andb]. rewrite Hc, int64_wrap_step.
  replace (Z.of_N n * 10 + Z.of_N (digit_val c))%Z with (Z.of_N (n * 10 + digit_val c)) by lia.
  by apply IH.
Qed.

Lemma IndexByte_first (c : ascii) s t :
  mem c s = false → IndexByte (s ++ c :: t) c = Some (length s).
Proof.
  induction s as [|d s IH]; cbn [app IndexByte length].
  { intros _. by rewrite Ascii.eqb_refl. }
  intros [Hd Hs]%orb_false_iff. rewrite (Ascii.eqb_sym d c), Hd, IH by done. done.
Qed.

Lemma parseArrayIndex_index base num :
  mem "[" base = false → mem "]" base = false → mem "]" num = false →
  parseArrayIndex (base ++ "["%char :: num ++ "]") =
    match index_digits num 0 false false with
    | Some (n, neg) => Ok (Some (if neg then int64_wrap (- n) else n), base)
    | None => Ok (None, base ++ "["%char :: num ++ "]")
    end.
Proof.
  intros Ho Hc Hn. unfold parseArrayIndex. rewrite IndexByte_first by done.
  assert (E : IndexByte (base ++ "["%char :: num ++ "]") "]" = Some (length base + 1 + length num)).
  { change (num ++ "]") with (num ++ "]"%char :: []).
    replace (base ++ "["%char :: num ++ "]"%char :: []) with ((base ++ "["%char :: num) ++ "]"%char :: [])
      by by rewrite <- app_assoc.
    rewrite IndexByte_first.
    - rewrite length_app. cbn [length]. f_equal. lia.
    - unfold mem in *. rewrite existsb_app, Hc. cbn [existsb orb]. by rewrite Hn. }
  rewrite E. destruct (Nat.ltb_spec (length base + 1 + length num) (length base)); [lia|].
  rewrite !slice_ok; rewrite ?length_app; cbn [length]; rewrite ?length_app; cbn [length]; try lia.
  cbn [res_bind]. rewrite Nat.sub_0_r, drop_0, take_app_length.
  replace (length base + 1) with (length (base ++ ["["%char])) by by rewrite length_app.
  replace (base ++ "["%char :: num ++ "]") with ((base ++ ["["%char]) ++ num ++ "]")
    by by rewrite <- app_assoc.
  rewrite drop_app_length.
  match goal with |- context [take ?k _] => replace k with (length num) by lia end.
  by rewrite take_app_length.
Qed.

Lemma digits_no_bracket ds : forallb is_digit ds = true → mem "]" ds = false.
Proof.
  induction ds as [|c ds IH]; [done|]. cbn [forallb]. intros [Hc Hds]%andb_prop.
  unfold mem in *. cbn [existsb]. rewrite IH by done. rewrite Ascii.eqb_sym.
  by rewrite (is_digit_not c "]").
Qed.

(** C31.  An array index in a path is read at 64 bits: whatever its length, a
    string of digits, or a minus sign and digits, gives the number of 64 bits
    congruent to the written one, the written one itself when that fits, and
    never fails; the base name is untouched. *)
Theorem index_bounds base ds :
  mem "[" base = false → mem "]" base = false → forallb is_digit ds = true →
  let n := Z.of_N (dec_value 0 ds) in
  ∃ i j, parseArrayIndex (base ++ "[" ++ ds ++ "]") = Ok (Some i, base) ∧
    parseArrayIndex (base ++ "[" ++ "-" ++ ds ++ "]") = Ok (Some j, base) ∧
    (- 2 ^ 63 ≤ i < 2 ^ 63 ∧ - 2 ^ 63 ≤ j < 2 ^ 63 ∧
     i mod 2 ^ 64 = n mod 2 ^ 64 ∧ j mod 2 ^ 64 = (- n) mod 2 ^ 64 ∧
     (n < 2 ^ 63 → i = n ∧ j = - n))%Z.
Proof.
  intros Ho Hc Hds n. exists (int64_wrap n), (int64_wrap (- n)).
  pose proof (digits_no_bracket ds Hds) as Hb.
  change ("[" ++ ds ++ "]") with ("["%char :: ds ++ "]").
  change ("[" ++ "-" ++ ds ++ "]") with ("["%char :: ("-"%char :: ds) ++ "]").
  rewrite !parseArrayIndex_index by done. cbn [index_digits Ascii.eqb Bool.eqb andb negb].
  pose proof (λ neg started, index_digits_wrap ds 0 neg started Hds) as E.
  change (int64_wrap (Z.of_N 0)) with 0%Z in E. rewrite !E.
  fold n. split_and!; try done; try apply int64_wrap_range; try apply int64_wrap_cong.
  - do 3 f_equal. apply int64_wrap_mod.
    rewrite <- Z.sub_0_l, Zminus_mod, int64_wrap_cong, <- Zminus_mod. by rewrite Z.sub_0_l.
  - intros Hn. rewrite !int64_wrap_id; [done|lia|lia].
Qed.

Lemma index_bounds_witness :
  ∃ i j, parseArrayIndex "a[18446744073709551617]" = Ok (Some i, ("a" : gostring)) ∧
    parseArrayIndex "a[-18446744073709551617]" = Ok (Some j, ("a" : gostring)) ∧
    i = 1%Z ∧ j = (-1)%Z.
Proof.
  destruct (index_bounds "a" "18446744073709551617" eq_refl eq_refl eq_refl)
    as (i & j & Hi & Hj & _).
  exists i, j. split; [exact Hi|]. split; [exact Hj|].
  vm_compute in Hi. vm_compute in Hj. injection Hi as <-. injection Hj as <-. by split.
Defined.
