(* ===== verification/HkSerialize.v ===== *)
(** * Writing a configuration (internal/hk/serialize.go)

    [Serialize] walks the maps of the heap; it is the printer of the tree the
    heap holds.  A tree whose names and values the format can express is read
    back unchanged by the parser. *)

From Stdlib Require Import Ascii String ZArith Lia SpecFloat.
From stdpp Require Import base list gmap strings.
From S2P Require Import Prelude GoStrings GoNumbers HkValue HkLex HkHeap HkTree HkParser.
From S2P Require Import HkParserProps.

(** ** The code *)

Definition line_prefix (depth : nat) : gostring := Repeat "-" depth ++ ">".

(** [val, _ := m.Get(key)]: the zero value of a missing key is the empty string. *)
Definition get_or_zero (m : OrderedMap) (key : gostring) : HkValue :=
  match om_Get m key with Some v => v | None => VString [] end.

(** The loop over the keys of one map; [sub_lines] writes a nested map. *)
Fixpoint write_keys (sub_lines : loc → HkM gostring) (om : OrderedMap) (depth : nat)
    (ks : list gostring) : HkM gostring :=
  match ks with
  | [] => st_ret []
  | key :: ks' =>
      let! text :=
        match get_or_zero om key with
        | VMap sub =>
            let! body := sub_lines sub in
            st_ret (line_prefix depth ++ " " ++ key ++ [NL] ++ body)
        | val =>
            st_ret (line_prefix depth ++ " " ++ key ++ " => "
                    ++ serializeScalarOrArray val ++ [NL])
        end in
      let! more := write_keys sub_lines om depth ks' in
      st_ret (text ++ more)
  end.

Fixpoint writeMapLines (fuel : nat) (m : loc) (depth : nat) : HkM gostring :=
  match fuel with
  | O => st_lift OutOfFuel
  | S fuel' =>
      let! om := deref m in
      write_keys (λ sub, writeMapLines fuel' sub (S depth)) om depth (om_Keys om)
  end.

(** The loop over the sections; an entry that is not a map is skipped. *)
Fixpoint write_sections (fuel : nat) (secs : OrderedMap) (names : list gostring) : HkM gostring :=
  match names with
  | [] => st_ret []
  | sectionName :: names' =>
      let! text :=
        match AsMap (get_or_zero secs sectionName) with
        | Ok sectionMap =>
            let! body := writeMapLines fuel sectionMap 1 in
            st_ret ("[" ++ sectionName ++ "]" ++ [NL] ++ body ++ [NL])
        | _ => st_ret []
        end in
      let! more := write_sections fuel secs names' in
      st_ret (text ++ more)
  end.

(** Nesting is no deeper than the number of maps in the heap. *)
Definition Serialize (c : HkConfig) : HkM gostring :=
  λ h, (let! secs := deref (Sections c) in
        let! text := write_sections (size h) secs (om_Keys secs) in
        st_ret (TrimRightNL text ++ [NL])) h.

(** ** The printer of trees *)

Fixpoint map_lines (depth : nat) (t : tree unit) : list gostring :=
  match t with
  | Leaf _ => []
  | Node _ kvs =>
      flat_map (λ kv,
        match kv.2 with
        | Leaf v => [line_prefix depth ++ " " ++ kv.1 ++ " => " ++ serializeScalarOrArray v]
        | Node _ _ => (line_prefix depth ++ " " ++ kv.1) :: map_lines (S depth) kv.2
        end) kvs
  end.

Definition section_lines (kv : gostring * tree unit) : list gostring :=
  match kv.2 with
  | Leaf _ => []
  | Node _ _ => ("[" ++ kv.1 ++ "]") :: map_lines 1 kv.2 ++ [[]]
  end.

Definition unlines (ls : list gostring) : gostring := concat (map (λ l, l ++ [NL]) ls).

Definition spec_serialize (T : tree unit) : gostring :=
  TrimRightNL (unlines (flat_map section_lines (children T))) ++ [NL].

(** ** Refinement *)

Fixpoint theight {A} (t : tree A) : nat :=
  match t with
  | Leaf _ => 0
  | Node _ kvs => S (foldr (λ kv n, Nat.max (theight kv.2) n) 0 kvs)
  end.

Lemma theight_child {A} (a : A) kvs k c n :
  (k, c) ∈ kvs → theight (Node a kvs) ≤ S n → theight c ≤ n.
Proof.
  intros Hin Hle. cbn [theight] in Hle. apply le_S_n in Hle. revert Hle.
  induction kvs as [|kv l IH]; [by apply not_elem_of_nil in Hin|].
  apply elem_of_cons in Hin as [<-|Hin]; simpl; intros; [lia|]. apply IH; [done|lia].
Qed.

Lemma theight_locs t : theight t ≤ length (locs t).
Proof.
  induction t as [v|p kvs IH] using tree_ind'; [done|]. simpl. apply le_n_S.
  induction IH as [|[k c] l Hc _ IHl]; simpl in *; [done|]. rewrite length_app. lia.
Qed.

Lemma locs_size h t : holds h t → length (locs t) ≤ size h.
Proof.
  intros [Hrep Hnd]. rewrite <- size_dom.
  rewrite <- (size_list_to_set (C := gset loc)) by done. apply subseteq_size.
  intros l Hl%elem_of_list_to_set. apply elem_of_dom. by eapply rep_dom.
Qed.

Lemma unlines_app l1 l2 : unlines (l1 ++ l2) = unlines l1 ++ unlines l2.
Proof. unfold unlines. by rewrite map_app, concat_app. Qed.

Lemma unlines_cons l ls : unlines (l :: ls) = l ++ [NL] ++ unlines ls.
Proof. unfold unlines. simpl. by rewrite <- app_assoc. Qed.

(** Reading the children of a node through its ordered map. *)
Lemma get_or_zero_child h p kvs m k c :
  rep h (Node p kvs) → h !! p = Some m → NoDup kvs.*1 → (k, c) ∈ kvs →
  get_or_zero m k = val_of c ∧ rep h c.
Proof.
  intros Hrep Hp Hnd Hin. destruct (rep_deref h p kvs Hrep) as (m' & Hp' & _ & _ & _ & Hg).
  simplify_eq. unfold get_or_zero. rewrite Hg.
  assert (Ha : assoc k kvs = Some c) by by apply assoc_NoDup.
  rewrite Ha. split; [done|]. by eapply rep_assoc.
Qed.

Lemma rep_keys_NoDup h p kvs : rep h (Node p kvs) → NoDup kvs.*1.
Proof.
  intros Hrep. destruct (rep_deref h p kvs Hrep) as (m & _ & [Hnd _] & _ & <- & _). done.
Qed.

Lemma write_keys_holds h sub_lines om depth (kvs : kvs_of loc) :
  (∀ k c, (k, c) ∈ kvs → get_or_zero om k = val_of c ∧ rep h c) →
  (∀ k q l, (k, Node q l) ∈ kvs →
     sub_lines q h = (Ok (unlines (map_lines (S depth) (erase (Node q l)))), h)) →
  write_keys sub_lines om depth kvs.*1 h =
  (Ok (unlines (map_lines depth (erase (Node 0 kvs)))), h).
Proof.
  induction kvs as [|[k c] l IH]; intros Hget Hsub; [done|].
  rewrite fmap_cons. cbn [write_keys fst].
  destruct (Hget k c) as [-> Hc]; [by left|].
  cbn [erase map map_lines flat_map fst snd]. rewrite unlines_app.
  specialize (IH (λ k c H, Hget k c (list_elem_of_further _ _ _ H))
                 (λ k q l H, Hsub k q l (list_elem_of_further _ _ _ H))).
  destruct c as [v|q kvs]; cbn [val_of erase].
  - inversion Hc as [? Hv|]; subst. unfold st_bind. destruct v; try done;
      cbn [st_ret]; rewrite IH; unfold unlines; cbn [map concat]; by rewrite app_nil_r, <- !app_assoc.
  - unfold st_bind. rewrite (Hsub k q kvs) by by left. cbn [st_ret]. rewrite IH.
    cbn [st_ret]. by rewrite unlines_cons, <- !app_assoc.
Qed.

Lemma writeMapLines_holds fuel : ∀ h p kvs depth,
  rep h (Node p kvs) → theight (Node p kvs) ≤ fuel →
  writeMapLines fuel p depth h = (Ok (unlines (map_lines depth (erase (Node p kvs)))), h).
Proof.
  induction fuel as [|fuel IH]; intros h p kvs depth Hrep Hf; [simpl in Hf; lia|].
  cbn [writeMapLines]. destruct (rep_deref h p kvs Hrep) as (m & Hp & _ & _ & Hk & Hg).
  unfold st_bind at 1, deref. rewrite Hp. unfold om_Keys. rewrite Hk.
  apply write_keys_holds.
  - intros k c Hin. eapply get_or_zero_child; eauto using rep_keys_NoDup.
  - intros k q l Hin. apply IH; [|by eapply theight_child].
    eapply (get_or_zero_child h p kvs); eauto using rep_keys_NoDup.
Qed.

Lemma write_sections_holds fuel h p kvs m :
  rep h (Node p kvs) → h !! p = Some m → theight (Node p kvs) ≤ S fuel →
  write_sections fuel m kvs.*1 h =
  (Ok (unlines (flat_map section_lines (children (erase (Node p kvs))))), h).
Proof.
  intros Hrep Hp Hf. cbn [erase children].
  assert (Hall : ∀ k c, (k, c) ∈ kvs → get_or_zero m k = val_of c ∧ rep h c ∧ theight c ≤ fuel).
  { intros k c Hin. destruct (get_or_zero_child h p kvs m k c); eauto using rep_keys_NoDup.
    split_and!; [done..|by eapply theight_child]. }
  clear Hrep Hf. induction kvs as [|[k c] l IH]; [done|].
  rewrite fmap_cons. cbn [write_sections fst].
  destruct (Hall k c) as (-> & Hc & Hh); [by left|].
  specialize (IH (λ k c H, Hall k c (list_elem_of_further _ _ _ H))).
  cbn [map flat_map fst snd]. rewrite unlines_app.
  pose proof (AsMap_val_of h c Hc) as Hm. destruct c as [v|q kvs].
  - destruct Hm as [e ->]. unfold st_bind. cbn [st_ret]. by rewrite IH.
  - rewrite Hm. unfold st_bind. rewrite (writeMapLines_holds fuel h q kvs 1 Hc Hh). cbn [st_ret].
    rewrite IH. cbn [st_ret]. unfold section_lines. cbn [fst snd erase].
    rewrite unlines_cons, unlines_app. unfold unlines at 4. simpl. by rewrite <- !app_assoc.
Qed.

Lemma Serialize_holds h c T :
  config_holds h c T → Serialize c h = (Ok (spec_serialize T), h).
Proof.
  intros (t & Hh & <- & [kvs E]). simpl in E. simplify_eq.
  pose proof (theight_locs (Node (Sections c) kvs)). pose proof (locs_size h _ Hh).
  destruct Hh as [Hrep _].
  unfold Serialize. destruct (rep_deref h _ kvs Hrep) as (m & Hp & _ & _ & Hk & _).
  unfold st_bind at 1, deref. rewrite Hp. unfold om_Keys. rewrite Hk.
  unfold st_bind. rewrite (write_sections_holds _ h (Sections c) kvs) by (done || lia). done.
Qed.
