(* ===== verification/HkRoundTrip.v ===== *)
(** * Writing and reading back

    The printable trees are those whose names and values the line format can
    express; the parser reads the text of such a tree back as the tree. *)

From Stdlib Require Import Ascii String ZArith Lia SpecFloat.
From stdpp Require Import base list gmap strings.
From S2P Require Import Prelude GoStrings GoNumbers HkValue HkLex HkHeap HkTree HkParser.
From S2P Require Import HkParserProps HkSerialize.

(** ** Printable trees *)

Definition section_ok (name : gostring) : bool :=
  negb (str_eqb name []) && str_eqb (TrimSpace name) name && negb (mem NL name).

Definition key_ok (k : gostring) : bool :=
  section_ok k && negb (Contains k "=>") && negb (quoted k) && negb (mem "." k).

(** A string written without quotes must not look like an array. *)
Definition bracketed (s : gostring) : bool := HasPrefix s "[" && HasSuffix s "]".

Definition leaf_ok (v : HkValue) : Prop :=
  match v with
  | VString s => needsQuotes s = true ∨ bracketed s = false
  | VNumber n => ParseFloat (formatNumber n) = Some n
  | VBool _ => True
  | VArray vs => Forall writable_elem vs
  | VMap _ => False
  end.

Inductive printable : tree unit → Prop :=
| printable_leaf v : leaf_ok v → printable (Leaf v)
| printable_node kvs :
    NoDup kvs.*1 → Forall (λ kv, key_ok kv.1 = true) kvs →
    Forall (λ kv, printable kv.2) kvs → printable (Node tt kvs).

(** A configuration: named sections that are maps. *)
Definition printable_config (T : tree unit) : Prop :=
  ∃ kvs, T = Node tt kvs ∧ NoDup kvs.*1 ∧
         Forall (λ kv, section_ok kv.1 = true ∧ is_node kv.2 = true ∧ printable kv.2) kvs.

(** ** The text of a value *)

Record value_text (v : HkValue) (p : gostring) : Prop := ValueText {
  vt_nonempty : p ≠ [];
  vt_trimmed : TrimSpace p = p;
  vt_line : mem NL p = false;
  vt_reads : parseScalarOrArray p = Ok v }.

Lemma parse_not_array p :
  TrimSpace p = p → bracketed p = false → parseScalarOrArray p = parseScalar p.
Proof. unfold parseScalarOrArray, bracketed. by intros -> ->. Qed.

Lemma mem_Join c ps sep :
  mem c sep = false → Forall (λ p, mem c p = false) ps → mem c (Join ps sep) = false.
Proof.
  intros Hs H. induction H as [|p ps Hp Hps IH]; [done|].
  destruct ps as [|q ps]; [done|].
  change (Join (p :: q :: ps) sep) with (p ++ sep ++ Join (q :: ps) sep).
  by rewrite !mem_app, Hp, Hs, IH.
Qed.

Lemma not_bracketed_num p : forallb num_char p = true → bracketed p = false.
Proof.
  intros H. unfold bracketed. destruct (HasPrefix p "[") eqn:E; [|done].
  apply HasPrefix_iff in E as [r ->]. done.
Qed.

Lemma value_text_serialize v : leaf_ok v → value_text v (serializeScalarOrArray v).
Proof.
  destruct v as [s|n|b|vs|m]; intros H; [| | | |done]; cbn [leaf_ok] in H.
  - pose proof (TrimSpace_serializeString s) as Ht. split; try done.
    + apply serializeString_nonempty.
    + apply serializeString_no_newline.
    + cbn [serializeScalarOrArray]. rewrite parse_not_array; [apply parseScalar_serializeString|done|].
      destruct (needsQuotes s) eqn:E.
      * by rewrite serializeString_quoted.
      * rewrite serializeString_plain by done. by destruct H.
  - destruct (formatNumber_chars n) as [Hc Hne]. cbn [serializeScalarOrArray].
    assert (Ht : TrimSpace (formatNumber n) = formatNumber n)
      by (apply TrimSpace_all_solid; by apply num_chars_solid).
    split; try done.
    + by apply num_chars_notin.
    + rewrite parse_not_array; [by apply parseScalar_number|done|by apply not_bracketed_num].
  - by destruct b.
  - cbn [serializeScalarOrArray]. split.
    + done.
    + by apply TrimSpace_solid.
    + change (mem NL ("[" ++ Join (map serializeScalarOrArray vs) ", " ++ "]") = false).
      rewrite !mem_app, mem_Join; [done|done|].
      pose proof (element_texts vs H) as Ht. clear H.
      induction Ht as [|v p vs ps [] _ IH]; constructor; done.
    + by apply parse_array_elements.
Qed.

(** ** One written line *)

Lemma talter_at {A} (f g : kvs_of A → kvs_of A) t π a kvs :
  tlookup t π = Some (Node a kvs) → f kvs = g kvs → talter f t π = talter g t π.
Proof.
  intros H E. revert t H. induction π as [|k π IH]; intros [v|b l] H; simpl in *; try done.
  - simplify_eq. by rewrite E.
  - f_equal. apply assoc_alter_ext. intros c Hc. rewrite Hc in H. by apply IH.
Qed.


Lemma countDashDepth_prefix depth x n raw :
  1 ≤ depth → countDashDepth (line_prefix depth ++ x) n raw = Ok (depth, x).
Proof.
  intros Hd. assert (Hc : count_dashes (line_prefix depth ++ x) = depth).
  { clear. unfold line_prefix, Repeat. induction depth as [|d IH]; [done|].
    cbn [replicate app count_dashes]. by rewrite Ascii.eqb_refl, IH. }
  unfold countDashDepth. rewrite Hc. unfold line_prefix. rewrite <- app_assoc.
  rewrite drop_app_length' by (symmetry; apply length_replicate). cbn [app].
  destruct (Nat.eqb_spec depth 0); [lia|done].
Qed.

Lemma line_trimmed depth w :
  1 ≤ depth → w ≠ [] → TrimSpace w = w →
  TrimSpace (line_prefix depth ++ " " ++ w) = line_prefix depth ++ " " ++ w.
Proof.
  intros Hd Hw Ht. destruct depth as [|d]; [lia|]. unfold line_prefix. cbn [Repeat replicate].
  by apply (TrimSpace_framed "-" (replicate d "-"%char ++ ">") " " w).
Qed.

Lemma key_ok_spec k : key_ok k = true →
  k ≠ [] ∧ TrimSpace k = k ∧ mem NL k = false ∧ Contains k "=>" = false ∧
  quoted k = false ∧ mem "." k = false.
Proof.
  unfold key_ok, section_ok. intros H. breflect.
  split_and!; try done; [by apply str_eqb_neq|by apply str_eqb_eq].
Qed.

Section key_lines.
Variables (s : sstate) (depth : nat) (π : path) (kvs : kvs_of unit) (k : gostring).
Hypothesis Hsec : ssec s ≠ [].
Hypothesis Hdepth : 1 ≤ depth.
Hypothesis Htop : sstack s !! (depth - 1) = Some π.
Hypothesis Hnode : tlookup (sroot s) π = Some (Node tt kvs).
Hypothesis Hnew : k ∉ kvs.*1.
Hypothesis Hkey : key_ok k = true.

Lemma stack_depth : depth ≤ length (sstack s) ∧ take depth (sstack s) !! (depth - 1) = Some π.
Proof.
  pose proof (lookup_lt_Some _ _ _ Htop). split; [lia|].
  rewrite lookup_take_lt by lia. done.
Qed.

Lemma spec_insert_new c :
  spec_insert (sroot s) π k c = Ok (talter (λ l, l ++ [(k, c)]) (sroot s) π, π ++ [k]).
Proof.
  apply key_ok_spec in Hkey as (_ & _ & _ & _ & _ & Hdot).
  unfold spec_insert. rewrite (proj2 (Nat.leb_le _ _)) by by apply splitPath_simple.
  unfold spec_set. rewrite Hnode. rewrite (proj2 (assoc_None k kvs)) by done. cbn [res_bind].
  do 2 f_equal. eapply talter_at; [done|]. by apply assoc_set_new.
Qed.

(** The guards of a key line pass. *)
Lemma spec_key_guards n x :
  x ≠ [] → TrimSpace x = x →
  spec_line s n (line_prefix depth ++ " " ++ x) =
  match Index x "=>" with
  | None =>
      let? keyName := stripQuotes (TrimSpace x) in
      let? r := spec_insert (sroot s) π keyName (Node tt []) in
      Ok (SState (fst r) (ssec s) (take depth (sstack s) ++ [snd r]))
  | Some i =>
      let? kp := slice x 0 i in
      let? vp := slice x (i + 2) (length x) in
      if str_eqb (TrimSpace kp) [] then
        Err (perr (n + 1) (depth + 1) MissingKeyName "Przyklad: -> klucz => wartosc"
               (line_prefix depth ++ " " ++ x))
      else
        let? value := parseScalarOrArray (TrimSpace vp) in
        let? key := stripQuotes (TrimSpace kp) in
        let? r := spec_insert (sroot s) π key (Leaf value) in
        Ok (SState (fst r) (ssec s) (take depth (sstack s)))
  end.
Proof.
  intros Hx Ht. unfold spec_line. rewrite line_trimmed by done.
  assert (Hp : ∀ t, ∃ u, line_prefix depth ++ t = "-"%char :: u).
  { intros t. destruct depth as [|d]; [lia|]. unfold line_prefix. simpl. eauto. }
  destruct (Hp (" " ++ x)) as [u Hu].
  replace (str_eqb _ [] || HasPrefix _ "!") with false by by rewrite Hu.
  replace (HasPrefix _ "[") with false by by rewrite Hu.
  replace (HasPrefix _ "-") with true by (rewrite Hu; by destruct u).
  unfold spec_key_line. rewrite (proj2 (str_eqb_neq _ _) Hsec).
  rewrite countDashDepth_prefix by done. cbn [res_bind fst snd].
  change (TrimSpace (" " ++ x)) with (TrimSpace (" "%char :: x)).
  rewrite TrimSpace_leading by done. rewrite Ht, (proj2 (str_eqb_neq _ _) Hx).
  destruct stack_depth as [Hle ->]. destruct (Nat.ltb_spec (length (sstack s)) depth); [lia|].
  by rewrite Ht.
Qed.

Lemma stripQuotes_plain x : quoted x = false → stripQuotes x = Ok x.
Proof. unfold stripQuotes. by intros ->. Qed.

Lemma spec_map_line n :
  spec_line s n (line_prefix depth ++ " " ++ k) =
  Ok (SState (talter (λ l, l ++ [(k, Node tt [])]) (sroot s) π) (ssec s)
        (take depth (sstack s) ++ [π ++ [k]])).
Proof.
  destruct (key_ok_spec k Hkey) as (Hne & Ht & _ & Hc & Hq & _).
  rewrite spec_key_guards by done. unfold Contains in Hc.
  destruct (Index k "=>"); [done|]. rewrite Ht, stripQuotes_plain by done. cbn [res_bind].
  by rewrite spec_insert_new.
Qed.

Lemma spec_value_line n v p :
  value_text v p →
  spec_line s n (line_prefix depth ++ " " ++ k ++ " => " ++ p) =
  Ok (SState (talter (λ l, l ++ [(k, Leaf v)]) (sroot s) π) (ssec s) (take depth (sstack s))).
Proof.
  intros [Hpn Hpt _ Hpr]. destruct (key_ok_spec k Hkey) as (Hne & Ht & _ & Hc & Hq & _).
  rewrite spec_key_guards.
  2:{ by destruct k. }
  2:{ by apply (TrimSpace_words k " " "=>" " " p). }
  rewrite Index_arrow by done. rewrite !slice_ok by (rewrite ?length_app; simpl; lia).
  cbn [res_bind].
  replace (take _ (drop 0 _)) with (k ++ [" "%char]).
  2:{ rewrite drop_0, Nat.sub_0_r. change (" => " ++ p) with ([" "%char] ++ "=> " ++ p).
      rewrite app_assoc, take_app_length' by (rewrite length_app; simpl; lia). done. }
  replace (drop (S (length k) + 2) _) with (" "%char :: p).
  2:{ change (" => " ++ p) with (" =>" ++ " "%char :: p).
      rewrite app_assoc, drop_app_length' by (rewrite length_app; simpl; lia). done. }
  rewrite take_ge by (rewrite ?length_app; simpl; lia).
  rewrite TrimSpace_trailing, TrimSpace_leading, Ht, Hpt by done.
  rewrite (proj2 (str_eqb_neq _ _) Hne), Hpr, stripQuotes_plain by done. cbn [res_bind].
  by rewrite spec_insert_new.
Qed.
End key_lines.

(** ** A written map, a written configuration *)

Lemma talter_snoc {A} (f : kvs_of A → kvs_of A) t π k :
  talter f t (π ++ [k]) = talter (assoc_alter (λ c, talter f c []) k) t π.
Proof.
  revert t. induction π as [|k0 π IH]; intros [v|a l]; simpl; try done.
  f_equal. apply assoc_alter_ext. intros. apply IH.
Qed.

Lemma assoc_alter_last {V} (f : V → V) k v l :
  k ∉ l.*1 → assoc_alter f k (l ++ [(k, v)]) = l ++ [(k, f v)].
Proof.
  induction l as [|[k' v'] l IH]; csimpl; intros Hk; [by rewrite str_eqb_refl|].
  rewrite (proj2 (str_eqb_neq k k')) by set_solver. rewrite IH; [done|set_solver].
Qed.

(** Filling the map just opened. *)
Lemma talter_fill t π kvs k sub :
  tlookup t π = Some (Node tt kvs) → k ∉ kvs.*1 →
  talter (λ l, l ++ sub) (talter (λ l, l ++ [(k, Node tt [])]) t π) (π ++ [k]) =
  talter (λ l, l ++ [(k, Node tt sub)]) t π.
Proof.
  intros H Hk. rewrite talter_snoc, talter_compose. eapply talter_at; [done|].
  by rewrite assoc_alter_last.
Qed.

Definition runs_map (t : tree unit) : Prop :=
  ∀ s depth π kvs0 n kvs, t = Node tt kvs →
  ssec s ≠ [] → 1 ≤ depth → sstack s !! (depth - 1) = Some π →
  tlookup (sroot s) π = Some (Node tt kvs0) → NoDup (kvs0 ++ kvs).*1 →
  ∃ stk, spec_lines s (map_lines depth t) n =
           Ok (SState (talter (λ l, l ++ kvs) (sroot s) π) (ssec s) stk) ∧
         take depth stk = take depth (sstack s).

Lemma lookup_take_eq {A} (l l' : list A) n i :
  take n l = take n l' → i < n → l !! i = l' !! i.
Proof.
  intros H Hi. rewrite <- (lookup_take_lt l n i), <- (lookup_take_lt l' n i) by done.
  by rewrite H.
Qed.

(** One more child, then the rest of the children. *)
Lemma runs_map_step depth π t kvs0 k c l sec stk :
  runs_map (Node tt l) → sec ≠ [] → 1 ≤ depth →
  ∀ stack n, take depth stk = take depth stack → stack !! (depth - 1) = Some π →
  tlookup t π = Some (Node tt kvs0) → NoDup (kvs0 ++ (k, c) :: l).*1 →
  ∃ stk', spec_lines (SState (talter (λ l, l ++ [(k, c)]) t π) sec stk)
            (map_lines depth (Node tt l)) n =
          Ok (SState (talter (λ l', l' ++ (k, c) :: l) t π) sec stk') ∧
          take depth stk' = take depth stack.
Proof.
  intros Hl Hsec Hd stack n Htk Htop Hn Hnd.
  destruct (Hl (SState (talter (λ l, l ++ [(k, c)]) t π) sec stk) depth π
              (kvs0 ++ [(k, c)]) n l) as (stk' & Hrun & Htk'); cbn [sroot ssec sstack]; try done.
  - rewrite <- Htop. apply (lookup_take_eq _ _ depth); [done|lia].
  - by rewrite (tlookup_talter _ _ _ _ _ Hn).
  - by rewrite <- app_assoc.
  - exists stk'. rewrite Hrun. split; [|by etrans]. do 2 f_equal. cbn [sroot].
    rewrite talter_compose. eapply talter_at; [done|]. by rewrite <- app_assoc.
Qed.

Lemma talter_nothing t π kvs :
  tlookup t π = Some (Node tt kvs) → talter (λ l, l ++ []) t π = t.
Proof.
  intros H. rewrite (talter_at _ (λ l, l) t π tt kvs H (app_nil_r kvs)). clear H.
  revert t. induction π as [|k π IH]; intros [v|a l]; simpl; try done.
  f_equal. induction l as [|[k' c] l IHl]; simpl; [done|].
  destruct (str_eqb k k'); [by rewrite IH|by rewrite IHl].
Qed.

Lemma printable_runs t : printable t → runs_map t.
Proof.
  induction t as [v|[] kvs IH] using tree_ind'; intros Hp; [by intros ????????|].
  inversion Hp as [|? _ Hkeys Hsub]; subst. clear Hp.
  induction kvs as [|[k c] l IHl]; intros s depth π kvs0 n ? [= <-] Hsec Hd Htop Hn Hnd.
  { exists (sstack s). rewrite (talter_nothing _ _ kvs0) by done. by destruct s. }
  apply Forall_cons in IH as [IHc IH], Hkeys as [Hk Hkeys], Hsub as [Hc Hsub].
  specialize (IHl IH Hkeys Hsub). simpl in IHc, Hk, Hc.
  assert (Hni : k ∉ kvs0.*1).
  { rewrite fmap_app in Hnd. apply NoDup_app in Hnd as (_ & Hdj & _). intros Hin.
    apply (Hdj k Hin). csimpl. by left. }
  cbn [map_lines flat_map fst snd].
  change (flat_map _ l) with (map_lines depth (Node tt l)).
  destruct c as [v|[] sub].
  - rewrite spec_lines_app. inversion Hc; subst.
    rewrite spec_lines_cons, (spec_value_line s depth π kvs0 k) with (v := v)
      by (done || by apply value_text_serialize).
    cbn [res_bind spec_lines].
    eapply runs_map_step; try done. by rewrite take_idemp.
  - rewrite spec_lines_app, spec_lines_cons, (spec_map_line s depth π kvs0) by done.
    cbn [res_bind].
    destruct (stack_depth s depth π) as [Hlen Htk]; [done..|].
    destruct (IHc Hc (SState (talter (λ l, l ++ [(k, Node tt [])]) (sroot s) π) (ssec s)
                (take depth (sstack s) ++ [π ++ [k]])) (S depth) (π ++ [k]) [] (S n) sub)
      as (stk & Hrun & Hst); try done; cbn [sroot ssec sstack app]; [lia| | | |].
    + replace (S depth - 1) with depth by lia.
      rewrite lookup_app_r, length_take by (rewrite length_take; lia).
      by replace (depth - _) with 0 by lia.
    + rewrite tlookup_app, (tlookup_talter _ _ _ _ _ Hn). simpl.
      rewrite <- (assoc_set_new k (Node tt []) kvs0) by done. by rewrite assoc_set_eq.
    + by inversion Hc.
    + rewrite Hrun. cbn [res_bind sroot ssec]. rewrite (talter_fill _ _ kvs0) by done.
      eapply runs_map_step; try done.
      apply (f_equal (take depth)) in Hst. rewrite !take_take in Hst.
      rewrite Nat.min_l in Hst by lia. rewrite Hst. cbn [sstack].
      by rewrite take_app_le, take_idemp by (rewrite length_take; lia).
Qed.

Lemma spec_section_line s n name kvs :
  section_ok name = true → sroot s = Node tt kvs → name ∉ kvs.*1 →
  spec_line s n ("[" ++ name ++ "]") =
  Ok (SState (Node tt (kvs ++ [(name, Node tt [])])) name [[name]]).
Proof.
  unfold section_ok. intros H Hr Hn. breflect.
  assert (Ht : TrimSpace name = name) by by apply str_eqb_eq.
  change ("[" ++ name ++ "]") with ("["%char :: name ++ ["]"%char]).
  unfold spec_line. rewrite TrimSpace_solid by done.
  assert (Hs : HasSuffix ("["%char :: name ++ ["]"%char]) "]" = true).
  { apply HasSuffix_iff. by exists ("[" ++ name). }
  assert (Hp : HasPrefix ("["%char :: name ++ ["]"%char]) "[" = true)
    by (apply HasPrefix_iff; by eexists).
  rewrite Hp. change (str_eqb ("["%char :: name ++ ["]"%char]) []) with false.
  change (HasPrefix ("["%char :: name ++ ["]"%char]) "!") with false. cbn [orb].
  unfold spec_header. rewrite Hs, slice_mid. cbn [negb res_bind]. rewrite Ht.
  change (str_eqb name "") with (str_eqb name []). rewrite H.
  rewrite Hr. cbn [children]. rewrite (proj2 (assoc_None _ _)) by done.
  simpl. by rewrite assoc_set_new.
Qed.

Lemma sections_run kvs : ∀ s n kvs0,
  Forall (λ kv, section_ok kv.1 = true ∧ is_node kv.2 = true ∧ printable kv.2) kvs →
  sroot s = Node tt kvs0 → NoDup (kvs0 ++ kvs).*1 →
  ∃ s', spec_lines s (flat_map section_lines kvs) n = Ok s' ∧ sroot s' = Node tt (kvs0 ++ kvs).
Proof.
  induction kvs as [|[name c] l IH]; intros s n kvs0 Hall Hr Hnd.
  { exists s. split; [done|]. by rewrite app_nil_r. }
  apply Forall_cons in Hall as [(Hname & Hc & Hp) Hall]. simpl in Hname, Hc, Hp.
  destruct c as [|[] sub]; [done|].
  assert (Hni : name ∉ kvs0.*1).
  { rewrite fmap_app in Hnd. apply NoDup_app in Hnd as (_ & Hdj & _). intros Hin.
    apply (Hdj name Hin). csimpl. by left. }
  cbn [flat_map section_lines fst snd].
  rewrite <- app_comm_cons, spec_lines_cons, (spec_section_line s n name kvs0) by done.
  cbn [res_bind]. rewrite <- app_assoc, spec_lines_app.
  set (s1 := SState (Node tt (kvs0 ++ [(name, Node tt [])])) name [[name]]).
  assert (Hlk : tlookup (sroot s1) [name] = Some (Node tt [])).
  { simpl. rewrite <- (assoc_set_new name (Node tt []) kvs0) by done. by rewrite assoc_set_eq. }
  destruct (printable_runs _ Hp s1 1 [name] [] (S n) sub) as (stk & Hrun & _); try done.
  { simpl. intros ->. done. }
  { by inversion Hp. }
  rewrite Hrun. cbn [res_bind sroot ssec app]. rewrite spec_lines_cons, spec_line_silent by done.
  cbn [res_bind].
  destruct (IH (SState (talter (λ l, l ++ sub) (sroot s1) [name]) name stk)
              (S (S n + length (map_lines 1 (Node tt sub))))
              (kvs0 ++ [(name, Node tt sub)])) as (s' & Hs' & Hroot); [done| | |].
  - simpl. by rewrite assoc_alter_last.
  - by rewrite <- app_assoc.
  - exists s'. split; [exact Hs'|]. by rewrite Hroot, <- app_assoc.
Qed.

(** ** The text as lines *)

Lemma drop_nl_spec s : ∃ n, s = replicate n NL ++ drop_nl s.
Proof.
  induction s as [|c s [n IH]]; [by exists 0|]. simpl.
  destruct (Ascii.eqb_spec c NL) as [->|]; [|by exists 0]. exists (S n). simpl. by f_equal.
Qed.

Lemma rev_replicate {A} n (x : A) : rev (replicate n x) = replicate n x.
Proof. rewrite rev_alt. apply reverse_replicate. Qed.

Lemma TrimRightNL_spec s : ∃ n, s = TrimRightNL s ++ replicate n NL.
Proof.
  unfold TrimRightNL. destruct (drop_nl_spec (rev s)) as [n Hn]. exists n.
  apply (f_equal (@rev _)) in Hn. rewrite rev_involutive, rev_app_distr in Hn.
  by rewrite Hn, rev_replicate at 1.
Qed.

Abbreviation loud := (filter (λ raw, silent raw = false)).

Lemma loud_newlines s n : loud (split_on NL (s ++ replicate n NL)) = loud (split_on NL s).
Proof.
  revert s. induction n as [|n IH]; intros s; [by rewrite app_nil_r|].
  rewrite replicate_S_end, app_assoc. rewrite split_on_cat, filter_app, IH.
  by rewrite app_nil_r.
Qed.

Lemma loud_serialize T :
  Forall (λ l, mem NL l = false) (flat_map section_lines (children T)) →
  loud (split_on NL (spec_serialize T)) = loud (flat_map section_lines (children T)).
Proof.
  intros H. unfold spec_serialize. set (ls := flat_map section_lines (children T)) in *.
  destruct (TrimRightNL_spec (unlines ls)) as [n Hn].
  rewrite (loud_newlines _ 1), <- (loud_newlines _ n), <- Hn.
  rewrite <- (app_nil_r (unlines ls)). unfold unlines. rewrite split_on_lines by done.
  rewrite filter_app. by rewrite app_nil_r.
Qed.

Lemma line_prefix_no_newline d : mem NL (line_prefix d) = false.
Proof.
  unfold line_prefix, Repeat. induction d as [|d IH]; [done|]. exact IH.
Qed.

Lemma map_lines_no_newline t : printable t → ∀ depth,
  Forall (λ l, mem NL l = false) (map_lines depth t).
Proof.
  induction t as [v|[] kvs IH] using tree_ind'; intros Hp depth; [done|].
  inversion Hp as [|? _ Hkeys Hsub]; subst. clear Hp. cbn [map_lines].
  induction kvs as [|[k c] l IHl]; [done|]. cbn [flat_map fst snd].
  apply Forall_cons in IH as [IHc IH], Hkeys as [Hk Hkeys], Hsub as [Hc Hsub].
  specialize (IHl IH Hkeys Hsub). simpl in IHc, Hk, Hc.
  apply key_ok_spec in Hk as (_ & _ & Hk & _).
  apply Forall_app. split; [|done].
  assert (Hpre : ∀ x, mem NL x = false →
            mem NL (line_prefix depth ++ " " ++ k ++ x) = false).
  { intros x Hx. by rewrite !mem_app, line_prefix_no_newline, Hk, Hx. }
  destruct c as [v|[] sub]; constructor; try done.
  - inversion Hc; subst. apply Hpre. rewrite mem_app.
    by destruct (value_text_serialize v) as [_ _ -> _].
  - rewrite <- (app_nil_r k). by apply Hpre.
  - by apply IHc.
Qed.

Lemma sections_no_newline kvs :
  Forall (λ kv, section_ok kv.1 = true ∧ is_node kv.2 = true ∧ printable kv.2) kvs →
  Forall (λ l, mem NL l = false) (flat_map section_lines kvs).
Proof.
  induction 1 as [|[name c] l (Hn & Hc & Hp) _ IH]; [done|]. simpl in Hn, Hc, Hp.
  cbn [flat_map]. apply Forall_app. split; [|done].
  unfold section_lines. cbn [fst snd]. destruct c as [|[] sub]; [done|]. constructor.
  - unfold section_ok in Hn. breflect. by rewrite !mem_app, H0.
  - apply Forall_app. split; [by apply map_lines_no_newline|by constructor].
Qed.

Lemma serialize_parses T :
  printable_config T → denotes (ParseString (spec_serialize T)) T.
Proof.
  intros (kvs & -> & Hnd & Hall). unfold ParseString. apply parse_denotes. unfold spec_parse.
  destruct (sections_run kvs sstate0 0 [] Hall) as (s' & Hrun & Hroot); [done..|].
  apply res_bind_Ok. exists s'. split; [|by rewrite Hroot].
  apply (spec_lines_filter _ _ 0 0). rewrite loud_serialize by by apply sections_no_newline.
  by apply (spec_lines_filter _ _ 0 0) in Hrun.
Qed.

(** ** Claims *)

(** C29.  Serializing a configuration is a read-only, terminating walk that prints
    exactly the tree its maps form. *)
Theorem Serialize_refines h c T :
  config_holds h c T → Serialize c h = (Ok (spec_serialize T), h).
Proof. apply Serialize_holds. Qed.

(** C2.  Writing a configuration whose names and values the format can express
    and parsing the text gives the same configuration back: the same sections,
    keys, nesting and values in the same order. *)
Theorem parse_serialize h c T :
  config_holds h c T → printable_config T →
  ∃ text, Serialize c h = (Ok text, h) ∧ denotes (ParseString text) T.
Proof.
  intros Hc Hp. exists (spec_serialize T). split; [by apply Serialize_holds|].
  by apply serialize_parses.
Qed.

(** A configuration with nesting, quoting, an array and a number. *)
Definition sample_text : gostring :=
  "[a]" ++ [NL] ++ "-> b" ++ [NL] ++ "--> c => 1.5" ++ [NL] ++ "-> d => [x, true]" ++ [NL].

Definition sample_tree : tree unit :=
  Node tt [("a" : gostring,
    Node tt [("b" : gostring, Node tt [("c" : gostring, Leaf (VNumber (S754_finite false 6755399441055744 (-52))))]);
             ("d" : gostring, Leaf (VArray [VString "x"; VBool true]))])].

Lemma sample_holds :
  ∃ c h, ParseString sample_text ∅ = (Ok c, h) ∧ config_holds h c sample_tree.
Proof.
  pose proof (parse_sim (split_on NL sample_text) ∅) as Hs. unfold sim_res in Hs.
  change (parse (split_on NL sample_text)) with (ParseString sample_text) in Hs.
  replace (spec_parse (split_on NL sample_text)) with (Ok (E := HkError) sample_tree) in Hs
    by (vm_compute; reflexivity).
  destruct (ParseString sample_text ∅) as [[c| | |] h]; try done. by exists c, h.
Qed.

Lemma sample_printable : printable_config sample_tree.
Proof.
  eexists. split; [reflexivity|]. split; [apply NoDup_singleton|].
  apply Forall_singleton. split_and!; [done..|]. simpl.
  repeat first [apply printable_node | apply printable_leaf | apply Forall_cons; split
    | apply Forall_nil; exact I | apply NoDup_cons; split | apply NoDup_nil; exact I
    | progress simpl | done ].
  - by apply not_elem_of_cons; split; [|apply not_elem_of_nil].
  - apply not_elem_of_nil.
  - apply not_elem_of_nil.
  - split; [done|by right].
Qed.

Lemma Serialize_refines_witness :
  ∃ c h, config_holds h c sample_tree ∧
         Serialize c h = (Ok (spec_serialize sample_tree), h) ∧
         spec_serialize sample_tree = sample_text.
Proof.
  destruct sample_holds as (c & h & _ & Hc). exists c, h. split; [done|].
  split; [exact (Serialize_refines h c sample_tree Hc)|]. vm_compute. reflexivity.
Defined.

Lemma parse_serialize_witness :
  ∃ c h text, config_holds h c sample_tree ∧ Serialize c h = (Ok text, h) ∧
              denotes (ParseString text) sample_tree.
Proof.
  destruct sample_holds as (c & h & _ & Hc).
  destruct (parse_serialize h c sample_tree Hc sample_printable) as (text & ? & ?).
  by exists c, h, text.
Defined.

(** The limit of the format: a string in brackets is written without
    quotes, so it comes back as an array, and a string with a comma inside an
    array comes back as two elements. *)
Theorem bracket_string_lost :
  parseScalarOrArray (serializeScalarOrArray (VString "[x]")) = Ok (VArray [VString "x"]) ∧
  parseScalarOrArray (serializeScalarOrArray (VArray [VString "a,b"])) =
    Ok (VArray [VString "a"; VString "b"]).
Proof. by vm_compute. Qed.
