(* ===== verification/HkInterp.v ===== *)
(** * Interpolation of references (internal/hk/interpolate.go)

    [resolver] is modelled with its mutable set of references in progress next
    to the heap.  [eval] is the reference meaning of a string with references:
    a depth-indexed evaluator with no cycle tracking.  The resolver always
    returns; a string it returns is what [eval] gives at some depth, and it fails
    only when [eval] gives none at any depth or on a reference to the very path
    it resolves, while that path leads to another value. *)

From Stdlib Require Import Ascii String ZArith Lia SpecFloat.
From stdpp Require Import base list gmap strings.
From S2P Require Import Prelude GoStrings GoNumbers HkValue HkLex HkHeap HkTree HkParser.
From S2P Require Import HkParserProps HkGet HkSerialize.

(** ** The code *)

Record rstate : Type := RState { rheap : heap; resolving : gset gostring }.

Abbreviation RM := (ST rstate HkError).

Definition on_heap {A} (m : HkM A) : RM A :=
  λ st, let '(r, h') := m (rheap st) in (r, RState h' (resolving st)).

(** ** The pieces of a string *)

(** Literal text, a reference, or a reference that is not closed. *)
Inductive piece : Type := Text (t : gostring) | Ref (r : gostring) | Unclosed.

Fixpoint pieces (n : nat) (rest : gostring) : list piece :=
  match n with
  | O => []
  | S n' =>
      match Index rest "${" with
      | None => [Text rest]
      | Some start =>
          let tail := drop start rest in
          match Index tail "}" with
          | None => [Text (take start rest); Unclosed]
          | Some stop =>
              Text (take start rest) :: Ref (take (stop - 2) (drop 2 tail))
              :: pieces n' (drop (stop + 1) tail)
          end
      end
  end.

Definition pieces_of (s : gostring) : list piece := pieces (S (length s)) s.

Definition refs_of (s : gostring) : list gostring :=
  omap (λ p, match p with Ref r => Some r | _ => None end) (pieces_of s).

(** The references of all strings stored in a heap, array elements included. *)
Fixpoint value_refs (v : HkValue) : list gostring :=
  match v with
  | VString s => refs_of s
  | VArray items => flat_map value_refs items
  | _ => []
  end.

Definition map_refs (m : OrderedMap) : list gostring :=
  flat_map (λ kv, value_refs kv.2) (map_to_list (values m)).

Definition heap_refs (h : heap) : gset gostring :=
  list_to_set (flat_map (λ lm, map_refs lm.2) (map_to_list h)).

(** A chain of references repeats none of them: the first string's reference
    and then references of stored strings. *)
Definition chain_fuel (h : heap) : nat := 2 + size (heap_refs h).

Section code.
(** [os.Getenv]; the empty string when the variable is unset. *)
Variable getenv : gostring → gostring.
Variable config : HkConfig.

(** [resolveRef]; [rec] is the recursive call to [resolveString]. *)
Definition resolveRef (rec : gostring → gostring → RM gostring) (ref selfPath : gostring)
    : RM gostring :=
  if HasPrefix ref "env:" then st_ret (getenv (TrimPrefix ref "env:"))
  else λ st,
    if bool_decide (ref ∈ resolving st) || str_eqb ref selfPath
    then (Err (CyclicReference ref), st)
    else
      match cfg_Get config ref (rheap st) with
      | (Ok (VString s as val), h) =>
          if Contains s "${" then
            let '(r, st') := rec s ref (RState h ({[ ref ]} ∪ resolving st)) in
            (r, RState (rheap st') (resolving st' ∖ {[ ref ]}))
          else (AsString val, RState h (resolving st))
      | (Ok val, h) => (AsString val, RState h (resolving st))
      | (Err _, h) => (Err (InvalidReference ref), RState h (resolving st))
      | (Panic, h) => (Panic, RState h (resolving st))
      | (OutOfFuel, h) => (OutOfFuel, RState h (resolving st))
      end.

(** The loop of [resolveString] from the text [rest = s[i:]] on; each round
    consumes text, so [n] rounds are enough for fewer than [n] bytes. *)
Fixpoint resolve_loop (ref_of : gostring → RM gostring) (s : gostring) (n : nat)
    (rest : gostring) : RM gostring :=
  match n with
  | O => st_lift OutOfFuel
  | S n' =>
      match rest with
      | [] => st_ret []
      | _ =>
          match Index rest "${" with
          | None => st_ret rest
          | Some start =>
              let! pre := st_lift (slice rest 0 start) in
              let! tail := st_lift (slice rest start (length rest)) in
              match Index tail "}" with
              | None => st_err (perr 0 0 (UnclosedInterpolation s) [] [])
              | Some stop =>
                  let! ref := st_lift (slice tail 2 stop) in
                  let! resolved := ref_of ref in
                  let! more := resolve_loop ref_of s n' (drop (stop + 1) tail) in
                  st_ret (pre ++ resolved ++ more)
              end
          end
      end
  end.

(** [fuel] bounds the length of a chain of references. *)
Fixpoint resolveString (fuel : nat) (s selfPath : gostring) : RM gostring :=
  match fuel with
  | O => st_lift OutOfFuel
  | S fuel' =>
      resolve_loop (λ ref, resolveRef (resolveString fuel') ref selfPath) s (S (length s)) s
  end.

(** A string value, resolved on the current heap. *)
Definition resolve_value (s selfPath : gostring) : RM gostring :=
  λ st, resolveString (chain_fuel (rheap st)) s selfPath st.

(** The elements of an array: [i] is the index of the first of [items]. *)
Fixpoint resolve_items (fullPath : gostring) (i : nat) (items : list HkValue)
    : RM (list HkValue) :=
  match items with
  | [] => st_ret []
  | item :: items' =>
      let! item' :=
        match item with
        | VString s =>
            let! resolved :=
              resolve_value s (fullPath ++ "[" ++ dec_of_nat i ++ "]") in
            st_ret (VString resolved)
        | _ => st_ret item
        end in
      let! more := resolve_items fullPath (S i) items' in
      st_ret (item' :: more)
  end.

Definition full_path (pathPrefix key : gostring) : gostring :=
  if str_eqb pathPrefix [] then key else pathPrefix ++ "." ++ key.

(** The loop over the keys of one map; [sub_map] resolves a nested map. *)
Fixpoint resolve_keys (sub_map : loc → gostring → RM unit) (m : loc)
    (pathPrefix : gostring) (ks : list gostring) : RM unit :=
  match ks with
  | [] => st_ret tt
  | key :: ks' =>
      let! om := on_heap (deref m) in
      let fullPath := full_path pathPrefix key in
      match get_or_zero om key with
      | VString s =>
          let! resolved := resolve_value s fullPath in
          on_heap (set_at m key (VString resolved))
      | VArray items =>
          let! newArr := resolve_items fullPath 0 items in
          on_heap (set_at m key (VArray newArr))
      | VMap sub => sub_map sub fullPath
      | _ => st_ret tt
      end ;;
      resolve_keys sub_map m pathPrefix ks'
  end.

Fixpoint resolveMap (depth : nat) (m : loc) (pathPrefix : gostring) : RM unit :=
  match depth with
  | O => st_lift OutOfFuel
  | S depth' =>
      let! om := on_heap (deref m) in
      resolve_keys (resolveMap depth') m pathPrefix (om_Keys om)
  end.

Definition ResolveInterpolations : HkM unit :=
  λ h, let '(r, st) := resolveMap (size h) (Sections config) [] (RState h ∅) in
       (r, rheap st).
End code.

(** ** The reference meaning *)

Section meaning.
Variable getenv : gostring → gostring.
(** What a path of the configuration holds. *)
Variable get : gostring → option HkValue.

Definition ref_value (ev : gostring → option gostring) (ref : gostring) : option gostring :=
  if HasPrefix ref "env:" then Some (getenv (TrimPrefix ref "env:"))
  else match get ref with
       | Some (VString s) => if Contains s "${" then ev s else Some s
       | Some v => match AsString v with Ok s => Some s | _ => None end
       | None => None
       end.

Fixpoint eval_pieces (val : gostring → option gostring) (ps : list piece) : option gostring :=
  match ps with
  | [] => Some []
  | Text t :: ps' => app t <$> eval_pieces val ps'
  | Ref r :: ps' =>
      match val r, eval_pieces val ps' with
      | Some v, Some out => Some (v ++ out)
      | _, _ => None
      end
  | Unclosed :: _ => None
  end.

(** The value of a string whose references chain to depth at most [n]. *)
Fixpoint eval (n : nat) (s : gostring) : option gostring :=
  match n with
  | O => None
  | S n' => eval_pieces (ref_value (eval n')) (pieces_of s)
  end.

Definition valued (s out : gostring) : Prop := ∃ n, eval n s = Some out.

Lemma eval_pieces_mono (f g : gostring → option gostring) ps out :
  (∀ r v, f r = Some v → g r = Some v) →
  eval_pieces f ps = Some out → eval_pieces g ps = Some out.
Proof.
  intros Hfg. revert out. induction ps as [|[t|r|] ps IH]; intros out; simpl; try done.
  - destruct (eval_pieces f ps); simpl; [|done]. intros [= <-]. by rewrite (IH _ eq_refl).
  - destruct (f r) as [v|] eqn:E; [|done]. rewrite (Hfg _ _ E).
    destruct (eval_pieces f ps); [|done]. intros [= <-]. by rewrite (IH _ eq_refl).
Qed.

Lemma ref_value_mono (f g : gostring → option gostring) ref v :
  (∀ s out, f s = Some out → g s = Some out) →
  ref_value f ref = Some v → ref_value g ref = Some v.
Proof.
  intros Hfg. unfold ref_value. destruct (HasPrefix ref "env:"); [done|].
  destruct (get ref) as [[]|]; try done. destruct (Contains s "${"); auto.
Qed.

Lemma eval_step n s out : eval n s = Some out → eval (S n) s = Some out.
Proof.
  revert s out. induction n as [|n IH]; intros s out; [done|]. cbn [eval].
  apply eval_pieces_mono. intros r v. apply ref_value_mono. exact IH.
Qed.

Lemma eval_le n m s out : n ≤ m → eval n s = Some out → eval m s = Some out.
Proof. induction 1; eauto using eval_step. Qed.

Lemma valued_det s out out' : valued s out → valued s out' → out = out'.
Proof.
  intros [n H] [m H']. apply (eval_le n (n + m)) in H; [|lia].
  apply (eval_le m (n + m)) in H'; [|lia]. congruence.
Qed.

(** The least depth at which a string has a value. *)
Lemma eval_least n s out :
  eval n s = Some out →
  ∃ m, S m ≤ n ∧ eval (S m) s = Some out ∧ eval m s = None.
Proof.
  revert out. induction n as [|n IH]; intros out H; [done|].
  destruct (eval n s) as [out'|] eqn:E.
  - destruct (IH _ eq_refl) as (m & Hm & H1 & H2). exists m. split; [lia|]. split; [|done].
    apply eval_step in E. congruence.
  - exists n. done.
Qed.
End meaning.

(** ** The loop runs the pieces *)

Fixpoint run_pieces (ref_of : gostring → RM gostring) (s : gostring) (ps : list piece)
    : RM gostring :=
  match ps with
  | [] => st_ret []
  | Text t :: ps' => let! more := run_pieces ref_of s ps' in st_ret (t ++ more)
  | Ref r :: ps' =>
      let! v := ref_of r in
      let! more := run_pieces ref_of s ps' in
      st_ret (v ++ more)
  | Unclosed :: _ => st_err (perr 0 0 (UnclosedInterpolation s) [] [])
  end.

Lemma Index_close tail r stop :
  tail = "${" ++ r → Index tail "}" = Some stop → 2 ≤ stop ∧ stop + 1 ≤ length tail.
Proof.
  intros Ht Hs. apply Index_Some in Hs as (q & Hq & Hle). cbn [length] in Hle.
  split; [|done]. destruct stop as [|[|stop]]; [..|lia]; rewrite Ht in Hq; by simplify_eq/=.
Qed.

Lemma Index_open rest start :
  Index rest "${" = Some start →
  start ≤ length rest ∧ ∃ r, drop start rest = "${" ++ r.
Proof.
  intros H. apply Index_Some in H as (r & Hr & Hle). split; [lia|]. exists r.
  rewrite Hr. rewrite drop_app_length'; [done|]. rewrite length_take. lia.
Qed.

Lemma loop_pieces ref_of s n : ∀ rest st, length rest < n →
  resolve_loop ref_of s n rest st = run_pieces ref_of s (pieces n rest) st.
Proof.
  induction n as [|n IH]; intros rest st Hn; [lia|]. cbn [resolve_loop pieces].
  destruct rest as [|c0 rest0]; [done|]. set (rest := c0 :: rest0) in *.
  destruct (Index rest "${") as [start|] eqn:Eo.
  2:{ simpl. unfold st_bind. simpl. by rewrite app_nil_r. }
  destruct (Index_open _ _ Eo) as (Hle & r & Hr).
  rewrite !slice_ok by lia. rewrite drop_0, Nat.sub_0_r.
  unfold st_bind at 1 2. cbn [st_lift].
  rewrite (take_ge (drop start rest)) by (rewrite length_drop; lia).
  destruct (Index (drop start rest) "}") as [stop|] eqn:Ec; [|done].
  destruct (Index_close _ _ _ Hr Ec) as [H2 Hlen].
  rewrite slice_ok by lia. cbn [run_pieces]. unfold st_bind. cbn [st_lift].
  destruct (ref_of _ st) as [[v|e| |] st']; try done.
  rewrite IH.
  2:{ rewrite !length_drop. rewrite length_drop in Hlen. lia. }
  destruct (run_pieces _ _ _ st') as [[more|e| |] st'']; try done.
Qed.

(** ** The resolver leaves its state as it found it *)

Lemma get_segments_heap path segs v h : snd (get_segments path segs v h) = h.
Proof.
  revert v. induction segs as [|seg segs IH]; intros v; [done|]. cbn [get_segments].
  unfold st_bind. assert (Hs : snd (get_segment path v seg h) = h).
  { unfold get_segment, st_bind, st_lift, deref. repeat split_match; by simplify_eq/=. }
  destruct (get_segment path v seg h) as [[] h']; simpl in *; subst; done.
Qed.

Lemma cfg_Get_heap c path h : snd (cfg_Get c path h) = h.
Proof.
  unfold cfg_Get. destruct (splitPath path); [done|]. unfold st_bind, deref.
  destruct (h !! Sections c); [|done]. destruct (om_Get _ _); [|done].
  apply get_segments_heap.
Qed.

(** [m] returns with the state unchanged, whatever it returns. *)
Definition restores {A} (m : RM A) (st : rstate) : Prop := snd (m st) = st.

Lemma run_pieces_restores ref_of s ps st :
  (∀ r, restores (ref_of r) st) → restores (run_pieces ref_of s ps) st.
Proof.
  unfold restores. intros H. induction ps as [|[t|r|] ps IH]; cbn [run_pieces]; try done;
    unfold st_bind.
  - destruct (run_pieces ref_of s ps st) as [[] st']; simpl in *; by subst.
  - specialize (H r). destruct (ref_of r st) as [[] st']; simpl in *; subst; try done.
    destruct (run_pieces ref_of s ps st) as [[] st'']; simpl in *; by subst.
Qed.

Section resolver.
Context (getenv : gostring → gostring) (c : HkConfig).

Lemma resolveString_unfold fuel s self st :
  resolveString getenv c (S fuel) s self st =
  run_pieces (λ ref, resolveRef getenv c (resolveString getenv c fuel) ref self) s
    (pieces_of s) st.
Proof. cbn [resolveString]. rewrite loop_pieces by lia. done. Qed.

Lemma resolveRef_restores rec ref self st :
  (∀ s X, restores (rec s ref) (RState (rheap st) X)) →
  restores (resolveRef getenv c rec ref self) st.
Proof.
  unfold restores, resolveRef. intros Hrec. destruct st as [h X]; simpl in *.
  destruct (HasPrefix ref "env:"); [done|]. simpl.
  destruct (bool_decide (ref ∈ X)) eqn:E1; [done|]. apply bool_decide_eq_false in E1.
  destruct (str_eqb ref self); [done|]. simpl.
  pose proof (cfg_Get_heap c ref h) as Hg.
  destruct (cfg_Get c ref h) as [[v|e| |] h']; simpl in *; subst; try done.
  destruct v as [s|n|b|l|m]; try done. destruct (Contains s "${"); [|done].
  specialize (Hrec s ({[ref]} ∪ X)).
  destruct (rec s ref (RState h ({[ref]} ∪ X))) as [r st']; simpl in *; subst. simpl.
  f_equal. set_solver.
Qed.

Lemma resolveString_restores fuel s self st :
  restores (resolveString getenv c fuel s self) st.
Proof.
  revert s self st. induction fuel as [|fuel IH]; intros s self st; [done|].
  unfold restores. rewrite resolveString_unfold. apply run_pieces_restores.
  intros r. apply resolveRef_restores. intros. apply IH.
Qed.
End resolver.

(** ** References of stored values *)

Definition stored (h : heap) (v : HkValue) : Prop := ∀ r, r ∈ value_refs v → r ∈ heap_refs h.

Lemma om_Get_stored h l m k v : h !! l = Some m → om_Get m k = Some v → stored h v.
Proof.
  intros Hl Hk r Hr. apply elem_of_list_to_set, list_elem_of_In, in_flat_map.
  exists (l, m). split; [by apply list_elem_of_In, elem_of_map_to_list|].
  apply in_flat_map. exists (k, v).
  split; [by apply list_elem_of_In, elem_of_map_to_list|by apply list_elem_of_In].
Qed.

Lemma item_stored h items i v : items !! i = Some v → stored h (VArray items) → stored h v.
Proof.
  intros Hi Hs r Hr. apply Hs. cbn [value_refs]. apply list_elem_of_In, in_flat_map.
  exists v. split; [|by apply list_elem_of_In].
  apply list_elem_of_In. by eapply list_elem_of_lookup_2.
Qed.

Lemma get_segment_stored path v seg h v' h' :
  get_segment path v seg h = (Ok v', h') → stored h v'.
Proof.
  unfold get_segment, st_bind, st_lift, deref.
  destruct (parseArrayIndex_ok seg) as [[i base] ->]. cbn [fst snd].
  destruct (AsMap v) as [m| | |]; try done. destruct (h !! m) as [om|] eqn:Em; [|done].
  destruct (om_Get om base) as [next|] eqn:En; [|done].
  pose proof (om_Get_stored _ _ _ _ _ Em En) as Hs.
  destruct i as [idx|]; [|by intros [= <- <-]].
  destruct next as [| | |items|]; try done. cbn [AsArray].
  destruct (_ || _); [done|]. destruct (items !! Z.to_nat idx) as [item|] eqn:Ei; [|done].
  intros [= <- <-]. by eapply item_stored.
Qed.

Lemma get_segments_stored path segs v h v' h' :
  stored h v → get_segments path segs v h = (Ok v', h') → stored h v'.
Proof.
  revert v. induction segs as [|seg segs IH]; intros v Hv; cbn [get_segments].
  { by intros [= <- <-]. }
  unfold st_bind. destruct (get_segment path v seg h) as [[v1| | |] h1] eqn:E; try done.
  assert (h1 = h) as ->.
  { pose proof (get_segments_heap path [seg] v h) as Hh. cbn [get_segments] in Hh.
    unfold st_bind in Hh. rewrite E in Hh. done. }
  apply IH. by eapply get_segment_stored.
Qed.

Lemma cfg_Get_stored c path h v h' : cfg_Get c path h = (Ok v, h') → stored h v.
Proof.
  unfold cfg_Get. destruct (splitPath path) as [|s0 rest]; [done|]. unfold st_bind, deref.
  destruct (h !! Sections c) as [secs|] eqn:Es; [|done].
  destruct (om_Get secs s0) as [v0|] eqn:E0; [|done].
  apply get_segments_stored. by eapply om_Get_stored.
Qed.

(** ** Correctness on a heap that holds a configuration *)

(** The pieces without the state. *)
Fixpoint pure_pieces (val : gostring → res HkError gostring) (s : gostring) (ps : list piece)
    : res HkError gostring :=
  match ps with
  | [] => Ok []
  | Text t :: ps' => let? more := pure_pieces val s ps' in Ok (t ++ more)
  | Ref r :: ps' =>
      let? v := val r in
      let? more := pure_pieces val s ps' in
      Ok (v ++ more)
  | Unclosed :: _ => Err (perr 0 0 (UnclosedInterpolation s) [] [])
  end.

Lemma run_pieces_pure ref_of s ps st :
  (∀ r, restores (ref_of r) st) →
  fst (run_pieces ref_of s ps st) = pure_pieces (λ r, fst (ref_of r st)) s ps.
Proof.
  unfold restores. intros H.
  induction ps as [|[t|r|] ps IH]; cbn [run_pieces pure_pieces]; try done; unfold st_bind.
  - rewrite <- IH. by destruct (run_pieces ref_of s ps st) as [[] ?].
  - specialize (H r). destruct (ref_of r st) as [[] st']; simpl in *; subst; try done.
    rewrite <- IH. by destruct (run_pieces ref_of s ps st) as [[] ?].
Qed.

Definition piece_refs (ps : list piece) : list gostring :=
  omap (λ p, match p with Ref r => Some r | _ => None end) ps.

(** Every reference returns: the pieces return, and an error leaves a
    reference without value or a piece unclosed. *)
Lemma pure_pieces_returns val s ps :
  (∀ r, r ∈ piece_refs ps → returns (val r)) → returns (pure_pieces val s ps).
Proof.
  induction ps as [|[t|r|] ps IH]; intros H; cbn [pure_pieces]; try done.
  - specialize (IH H). by destruct (pure_pieces val s ps).
  - assert (Hr : returns (val r)) by (apply H; csimpl; by left).
    assert (Hps : returns (pure_pieces val s ps)) by (apply IH; intros; apply H; csimpl; by right).
    destruct (val r); simpl in *; try done. by destruct (pure_pieces val s ps).
Qed.

Lemma pure_pieces_Ok val (f : nat → gostring → option gostring) s ps out :
  (∀ n m r v, n ≤ m → f n r = Some v → f m r = Some v) →
  (∀ r v, r ∈ piece_refs ps → val r = Ok v → ∃ n, f n r = Some v) →
  pure_pieces val s ps = Ok out → ∃ n, eval_pieces (f n) ps = Some out.
Proof.
  intros Hmono. revert out. induction ps as [|[t|r|] ps IH]; intros out Hval;
    cbn [pure_pieces eval_pieces]; [|..|done].
  - intros [= <-]. by exists 0.
  - intros (more & Hm & [= <-])%res_bind_Ok. destruct (IH more) as [n Hn]; [done..|].
    exists n. by rewrite Hn.
  - intros (v & Hv & (more & Hm & [= <-])%res_bind_Ok)%res_bind_Ok.
    destruct (Hval r v) as [n Hn]; [csimpl; by left|done|].
    destruct (IH more) as [m Hm']; [intros r' v' Hr'; apply Hval; csimpl; by right|done|].
    exists (n + m). rewrite (Hmono n (n + m) r v) by (done || lia).
    rewrite (eval_pieces_mono (f m) (f (n + m)) ps more); [done| |done].
    intros. apply (Hmono m); [lia|done].
Qed.

(** An error of a string that has a value is that of one of its references. *)
Lemma pure_pieces_Err val f s ps out e :
  eval_pieces f ps = Some out → pure_pieces val s ps = Err e →
  ∃ r v, r ∈ piece_refs ps ∧ f r = Some v ∧ val r = Err e.
Proof.
  revert out. induction ps as [|[t|r|] ps IH]; intros out; cbn [pure_pieces eval_pieces];
    try done.
  - destruct (eval_pieces f ps) as [o|] eqn:E; [|done]. intros _.
    destruct (pure_pieces val s ps); try done. intros [= ->]. csimpl. by eapply IH.
  - destruct (f r) as [v|] eqn:Er; [|done]. destruct (eval_pieces f ps) as [o|] eqn:E; [|done].
    intros _. csimpl. destruct (val r) as [|e'| |] eqn:Ev; try done.
    + destruct (pure_pieces val s ps); try done. intros [= ->].
      destruct (IH o eq_refl eq_refl) as (r' & v' & ? & ?). exists r', v'. split; [by right|done].
    + intros [= ->]. exists r, v. split_and!; [by left|done..].
Qed.

Section correct.
Context (getenv : gostring → gostring) (c : HkConfig) (h : heap) (T : tree unit).
Hypothesis Hcfg : config_holds h c T.

Definition lookup_value (path : gostring) : option HkValue :=
  match fst (cfg_Get c path h) with Ok v => Some v | _ => None end.

Lemma cfg_Get_cases path :
  cfg_Get c path h =
  match lookup_value path with
  | Some v => (Ok v, h)
  | None => (Err (InvalidReference path), h)
  end.
Proof.
  unfold lookup_value. pose proof (cfg_Get_heap c path h) as Hh.
  pose proof (sim_get h c T path Hcfg) as Hs. unfold sim_res in Hs.
  pose proof (spec_get_err T path) as He.
  destruct (cfg_Get c path h) as [[v|e| |] h']; simpl in *; subst; try done;
    destruct (spec_get T path); try done. subst. by rewrite (He _ eq_refl).
Qed.

Abbreviation result fuel s self X := (fst (resolveString getenv c fuel s self (RState h X))).
Abbreviation ev := (eval getenv lookup_value).

(** One reference, without the state. *)
Lemma resolveRef_pure fuel ref self X :
  fst (resolveRef getenv c (resolveString getenv c fuel) ref self (RState h X)) =
  if HasPrefix ref "env:" then Ok (getenv (TrimPrefix ref "env:"))
  else if bool_decide (ref ∈ X) || str_eqb ref self then Err (CyclicReference ref)
  else match lookup_value ref with
       | Some (VString s) =>
           if Contains s "${" then result fuel s ref ({[ ref ]} ∪ X) else Ok s
       | Some v => AsString v
       | None => Err (InvalidReference ref)
       end.
Proof.
  unfold resolveRef. destruct (HasPrefix ref "env:"); [done|]. cbn [resolving rheap].
  destruct (bool_decide (ref ∈ X) || str_eqb ref self); [done|]. rewrite cfg_Get_cases.
  destruct (lookup_value ref) as [[]|]; try done. destruct (Contains s "${"); [|done].
  by destruct (resolveString _ _ _ _ _ _).
Qed.

Lemma resolveString_pure fuel s self X :
  result (S fuel) s self X =
  pure_pieces (λ r, fst (resolveRef getenv c (resolveString getenv c fuel) r self (RState h X)))
    s (pieces_of s).
Proof.
  rewrite resolveString_unfold. apply run_pieces_pure. intros r. apply resolveRef_restores.
  intros. apply resolveString_restores.
Qed.

(** *** The resolver returns *)

Definition avail (X : gset gostring) : nat := size (heap_refs h ∖ X).

Lemma avail_add ref X : avail ({[ ref ]} ∪ X) ≤ avail X.
Proof. unfold avail. apply subseteq_size. set_solver. Qed.

Lemma avail_drop ref X :
  ref ∈ heap_refs h → ref ∉ X → avail ({[ ref ]} ∪ X) < avail X.
Proof. intros Hr HX. unfold avail. apply subset_size. set_solver. Qed.

Lemma lookup_stored path s : lookup_value path = Some (VString s) →
  ∀ r, r ∈ refs_of s → r ∈ heap_refs h.
Proof.
  intros H. pose proof (cfg_Get_cases path) as E. rewrite H in E.
  exact (cfg_Get_stored _ _ _ _ _ E).
Qed.

(** Enough fuel: one more than the references left, and one more again when
    the string is not one of the heap. *)
Definition enough (s : gostring) (X : gset gostring) (fuel : nat) : Prop :=
  avail X + 1 < fuel ∨ avail X < fuel ∧ ∀ r, r ∈ refs_of s → r ∈ heap_refs h.

Lemma resolveString_returns fuel s self X :
  enough s X fuel → returns (result fuel s self X).
Proof.
  revert s self X. induction fuel as [|fuel IH]; intros s self X Hf; [destruct Hf; lia|].
  rewrite resolveString_pure. apply pure_pieces_returns. intros r Hr. rewrite resolveRef_pure.
  destruct (HasPrefix r "env:"); [done|].
  destruct (bool_decide (r ∈ X)) eqn:E1; [done|]. apply bool_decide_eq_false in E1.
  destruct (str_eqb r self); [done|]. cbn [orb].
  destruct (lookup_value r) as [v|] eqn:El; [|done]. destruct v as [s'| | | |]; try done.
  destruct (Contains s' "${"); [|done]. apply IH. right.
  split; [|by eapply lookup_stored].
  destruct Hf as [Hf|[Hf Hs]].
  - pose proof (avail_add r X). lia.
  - pose proof (avail_drop r X (Hs r Hr) E1). lia.
Qed.

(** *** What it returns has the meaning *)

Lemma resolveString_sound fuel s self X out :
  result fuel s self X = Ok out → valued getenv lookup_value s out.
Proof.
  revert s self X out. induction fuel as [|fuel IH]; intros s self X out; [done|].
  rewrite resolveString_pure. intros Hp.
  eapply (pure_pieces_Ok _ (λ n, ref_value getenv lookup_value (ev n))) in Hp as [n Hn].
  - by exists (S n).
  - intros n m r v Hnm. apply ref_value_mono. intros. by eapply eval_le.
  - intros r v _. rewrite resolveRef_pure. unfold ref_value.
    destruct (HasPrefix r "env:"); [intros [= <-]; by exists 0|].
    destruct (_ || _); [done|]. destruct (lookup_value r) as [v0|]; [|done].
    destruct v0 as [s'| | | |]; try (intros ->; by exists 0).
    destruct (Contains s' "${"); [apply IH|]. intros [= <-]. by exists 0.
Qed.

(** *** What has a meaning is returned *)

(** A reference whose value lies deeper than [m]. *)
Definition deeper (m : nat) (r : gostring) : Prop :=
  ∃ s, lookup_value r = Some (VString s) ∧ Contains s "${" = true ∧ ev m s = None.

Lemma deeper_le m m' r : m' ≤ m → deeper m r → deeper m' r.
Proof.
  intros Hm (s & H1 & H2 & H3). exists s. split_and!; try done.
  destruct (ev m' s) eqn:E; [|done]. apply (eval_le _ _ m' m) in E; [congruence|done].
Qed.

Lemma deeper_no_value m r : deeper m r → HasPrefix r "env:" = false →
  ref_value getenv lookup_value (ev m) r = None.
Proof. intros (s & H1 & H2 & H3) He. unfold ref_value. by rewrite He, H1, H2. Qed.

Lemma resolveString_complete fuel m s self X out e :
  ev (S m) s = Some out → deeper m self → (∀ r, r ∈ X → deeper m r) →
  result fuel s self X ≠ Err e.
Proof.
  revert m s self X out e. induction fuel as [|fuel IH]; intros m s self X out e He Hself HX; [done|].
  rewrite resolveString_pure. cbn [eval] in He. intros Herr.
  destruct (pure_pieces_Err _ _ _ _ _ _ He Herr) as (r & v & _ & Hr & Hres). revert Hres.
  change (fst (resolveRef getenv c (resolveString getenv c fuel) r self (RState h X)) ≠ Err e).
  rewrite resolveRef_pure.
  destruct (HasPrefix r "env:") eqn:Eenv; [done|].
  destruct (bool_decide (r ∈ X)) eqn:E1.
  { apply bool_decide_eq_true in E1. by rewrite deeper_no_value in Hr; auto. }
  destruct (str_eqb_spec r self) as [->|]; [by rewrite deeper_no_value in Hr|]. cbn [orb].
  unfold ref_value in Hr. rewrite Eenv in Hr.
  destruct (lookup_value r) as [v0|] eqn:El; [|done].
  destruct v0 as [s'| | | |]; try done. destruct (Contains s' "${") eqn:Ec; [|done].
  apply eval_least in Hr as (m' & Hm' & Hv & Hn).
  apply (IH m' _ _ _ v); [done|by exists s'|].
  intros r' [->%elem_of_singleton|Hr']%elem_of_union; [by exists s'|].
  apply (deeper_le m); [lia|auto].
Qed.

(** The resolver fails on a string that has a value only when the string
    refers to the path it is resolved for, and that path leads elsewhere. *)
Lemma resolveString_top fuel m s self out e :
  ev (S m) s = Some out → ev m s = None → result fuel s self ∅ = Err e →
  e = CyclicReference self ∧ self ∈ refs_of s ∧ lookup_value self ≠ Some (VString s).
Proof.
  intros He Hn Hr. assert (Hdeep : lookup_value self ≠ Some (VString s)).
  { intros Hl. destruct (Contains s "${") eqn:Ec.
    - eapply (resolveString_complete fuel m); [exact He|by exists s| |exact Hr].
      intros r Hx. by apply elem_of_empty in Hx.
    - destruct fuel as [|fuel]; [done|]. rewrite resolveString_unfold in Hr.
      unfold pieces_of, Contains in *. cbn [pieces] in Hr. by destruct (Index s "${"). }
  destruct fuel as [|fuel]; [done|]. rewrite resolveString_pure in Hr. cbn [eval] in He.
  destruct (pure_pieces_Err _ _ _ _ _ _ He Hr) as (r & v & Hin & Hv & Hres).
  rewrite resolveRef_pure in Hres. destruct (HasPrefix r "env:") eqn:Eenv; [done|].
  rewrite bool_decide_false in Hres by apply not_elem_of_empty. cbn [orb] in Hres.
  destruct (str_eqb_spec r self) as [->|Hne]; [by injection Hres as <-|]. exfalso.
  unfold ref_value in Hv. rewrite Eenv in Hv. destruct (lookup_value r) as [v0|] eqn:El; [|done].
  destruct v0 as [s'| | | |]; try done. destruct (Contains s' "${") eqn:Ec; [|done].
  apply eval_least in Hv as (m' & Hm' & Hv & Hnone).
  eapply (resolveString_complete fuel m' s' r); [exact Hv|by exists s'| |exact Hres].
  intros r' [->%elem_of_singleton|Hr']%elem_of_union; [by exists s'|by apply elem_of_empty in Hr'].
Qed.

Lemma resolve_value_cases s self :
  ∃ r, resolve_value getenv c s self (RState h ∅) = (r, RState h ∅) ∧
       match r with
       | Ok out => valued getenv lookup_value s out
       | Err e => ∀ out, valued getenv lookup_value s out →
           e = CyclicReference self ∧ self ∈ refs_of s ∧ lookup_value self ≠ Some (VString s)
       | _ => False
       end.
Proof.
  unfold resolve_value. cbn [rheap].
  pose proof (resolveString_restores getenv c (chain_fuel h) s self (RState h ∅)) as Hst.
  assert (Hret : returns (result (chain_fuel h) s self ∅)).
  { apply resolveString_returns. left. unfold avail, chain_fuel. rewrite difference_empty_L. lia. }
  pose proof (resolveString_sound (chain_fuel h) s self ∅) as Hsound.
  pose proof (λ m out e, resolveString_top (chain_fuel h) m s self out e) as Htop.
  unfold restores in Hst.
  destruct (resolveString getenv c (chain_fuel h) s self (RState h ∅)) as [r st'] eqn:Er.
  cbn [fst snd] in *. subst st'. exists r. split; [done|]. destruct r as [out|e| |]; try done; [auto|].
  intros out [n Hn]. apply eval_least in Hn as (m & _ & Hm & Hnone). by apply (Htop m out).
Qed.
End correct.

(** ** Claims *)


Definition interp_text : list gostring :=
  ["[a]" : gostring; "-> x => v=${a.y}"; "-> y => ${a.m[1]}"; "-> m => [1, ${env:H}]";
   "-> p => ${a.q}"; "-> q => ${a.p}"].

Definition interp_heap : heap := snd (parse interp_text ∅).

Lemma interp_holds : ∃ T, config_holds interp_heap (MkHkConfig 0) T.
Proof.
  pose proof (parse_sim interp_text ∅) as Hs. unfold sim_res in Hs.
  replace (fst (parse interp_text ∅)) with (Ok (E := HkError) (MkHkConfig 0)) in Hs
    by (vm_compute; reflexivity).
  destruct (spec_parse interp_text) as [T| | |]; try done. by exists T.
Qed.


(** A section whose name has a dot hides a key of another section from the
    paths: its key c is found as a.b.c only for the key b.c of the section a, and
    the reference to that one is taken for a reference to itself. *)
Definition hidden_text : list gostring :=
  ["[a]" : gostring; "-> b.c => hello"; "[a.b]"; "-> c => ${a.b.c}"].

Theorem hidden_path_cyclic :
  let '(r, h) := parse hidden_text ∅ in
  r = Ok (MkHkConfig 0) ∧
  lookup_value (MkHkConfig 0) h "a.b.c" = Some (VString "hello") ∧
  fst (ResolveInterpolations (λ n, n) (MkHkConfig 0) h) = Err (CyclicReference "a.b.c").
Proof. vm_compute. auto. Qed.
