(* ===== verification/HkInterpAll.v ===== *)
(** * Interpolation of a whole configuration (resolveMap of internal/hk/interpolate.go)

    [ResolveInterpolations] rewrites the strings of the maps in place.  It
    returns on every configuration and keeps its shape: the same maps, keys and
    kinds of values.  When no resolved value contains a reference again, every
    string ends up with the value it has in the original configuration,
    whatever the order of the keys. *)

From Stdlib Require Import Ascii String ZArith Lia SpecFloat.
From stdpp Require Import base list gmap strings.
From S2P Require Import Prelude GoStrings GoNumbers HkValue HkLex HkHeap HkTree HkParser.
From S2P Require Import HkParserProps HkGet HkSerialize HkInterp.

(** ** Trees that differ in strings only *)

(** [R s s'] relates the strings of one leaf before and after. *)
Section related.
Context {A : Type} (R : gostring → gostring → Prop).

Inductive item_rel : HkValue → HkValue → Prop :=
| item_string s s' : R s s' → item_rel (VString s) (VString s')
| item_other v : (∀ s, v ≠ VString s) → scalar v = true → item_rel v v.

Inductive leaf_rel : HkValue → HkValue → Prop :=
| leaf_item v v' : item_rel v v' → leaf_rel v v'
| leaf_array l l' : Forall2 item_rel l l' → leaf_rel (VArray l) (VArray l').

Inductive tree_rel : tree A → tree A → Prop :=
| rel_leaf v v' : leaf_rel v v' → tree_rel (Leaf v) (Leaf v')
| rel_node a kvs kvs' :
    Forall2 (λ kv kv', kv.1 = kv'.1 ∧ tree_rel kv.2 kv'.2) kvs kvs' →
    tree_rel (Node a kvs) (Node a kvs').

Lemma tree_rel_assoc k kvs kvs' :
  Forall2 (λ kv kv', kv.1 = kv'.1 ∧ tree_rel kv.2 kv'.2) kvs kvs' →
  match assoc k kvs, assoc k kvs' with
  | Some c, Some c' => tree_rel c c'
  | None, None => True
  | _, _ => False
  end.
Proof.
  induction 1 as [|[k1 c1] [k2 c2] l l' [Hk Hc] _ IH]; simpl in *; [done|]. subst.
  by destruct (str_eqb k k2).
Qed.

Lemma tree_rel_lookup t t' π :
  tree_rel t t' →
  match tlookup t π, tlookup t' π with
  | Some c, Some c' => tree_rel c c'
  | None, None => True
  | _, _ => False
  end.
Proof.
  revert t t'. induction π as [|k π IH]; intros t t' H; simpl; [done|].
  inversion H as [|a kvs kvs' Hkvs]; subst; [done|].
  pose proof (tree_rel_assoc k _ _ Hkvs) as Ha.
  destruct (assoc k kvs), (assoc k kvs'); try done. by apply IH.
Qed.

Lemma tree_rel_node t t' π p kvs :
  tree_rel t t' → tlookup t π = Some (Node p kvs) →
  ∃ kvs', tlookup t' π = Some (Node p kvs') ∧ tree_rel (Node p kvs) (Node p kvs').
Proof.
  intros H Hl. pose proof (tree_rel_lookup t t' π H) as Hr. rewrite Hl in Hr.
  destruct (tlookup t' π) as [c'|]; [|done]. inversion Hr; subst. eauto.
Qed.

Lemma tree_rel_keys p kvs kvs' : tree_rel (Node p kvs) (Node p kvs') → kvs.*1 = kvs'.*1.
Proof.
  inversion 1 as [|? ? ? Hk]; subst. clear H.
  induction Hk as [|[k1 c1] [k2 c2] l l' [Hk Hc] _ IH]; csimpl in *; [done|]. by f_equal.
Qed.

Lemma tree_rel_height t t' : tree_rel t t' → theight t = theight t'.
Proof.
  revert t'. induction t as [v|p kvs IH] using tree_ind'; intros t' H;
    inversion H as [|? ? kvs' Hk]; subst; [done|]. simpl. f_equal. clear H.
  induction Hk as [|[k1 c1] [k2 c2] l l' [Hk Hc] _ IHl]; simpl in *; [done|].
  apply Forall_cons in IH as [H1 IH]. simpl in H1. by rewrite (H1 c2), (IHl IH).
Qed.

(** Replacing a leaf by one related to the original. *)
Lemma tree_rel_set t t' π p kvs k v v' :
  tree_rel t t' →
  tlookup t π = Some (Node p kvs) → assoc k kvs = Some (Leaf v) → leaf_rel v v' →
  tree_rel t (talter (assoc_set k (Leaf v')) t' π).
Proof.
  intros H Hl Ha Hv. revert t t' H Hl.
  induction π as [|k0 π IH]; intros t t' H Hl; inversion H as [|a l l' Hk]; subst; try done;
    simpl in *; constructor.
  - simplify_eq. clear -Ha Hv Hk.
    induction Hk as [|[k1 c1] [k2 c2] l l' [Hk Hc] Hl IH]; simpl in *; [done|]. subst k2.
    destruct (str_eqb k k1); simplify_eq; constructor; auto. split; [done|by constructor].
  - clear H. induction Hk as [|[k1 c1] [k2 c2] l l' [Hk Hc] Hls IHl]; simpl in *; [done|].
    subst k2. destruct (str_eqb k0 k1).
    + constructor; [split; [done|by apply IH]|done].
    + constructor; [done|by apply IHl].
Qed.
End related.

Lemma item_rel_mono (R Q : gostring → gostring → Prop) v v' :
  (∀ s s', Q s s' → R s s') → item_rel Q v v' → item_rel R v v'.
Proof. intros HQ [s s' H|w H]; [apply item_string; auto|by apply item_other]. Qed.

Lemma leaf_rel_mono (R Q : gostring → gostring → Prop) v v' :
  (∀ s s', Q s s' → R s s') → leaf_rel Q v v' → leaf_rel R v v'.
Proof.
  intros HQ [w w' H|l l' H]; [apply leaf_item; by eapply item_rel_mono|].
  apply leaf_array. eapply Forall2_impl; [exact H|]. intros. by eapply item_rel_mono.
Qed.

(** The strings of a tree, array elements included. *)
Definition value_strings (v : HkValue) : list gostring :=
  match v with
  | VString s => [s]
  | VArray l => omap (λ i, match i with VString s => Some s | _ => None end) l
  | _ => []
  end.

Fixpoint tree_strings {A} (t : tree A) : list gostring :=
  match t with
  | Leaf v => value_strings v
  | Node _ kvs => flat_map (λ kv, tree_strings kv.2) kvs
  end.

Lemma leaf_rel_self (R : gostring → gostring → Prop) v :
  leaf_val v = true → (∀ s, s ∈ value_strings v → R s s) → leaf_rel R v v.
Proof.
  intros Hv HR. destruct v as [s|n|b|l|m]; try done;
    try (apply leaf_item; by apply item_other).
  - apply leaf_item, item_string, HR. by left.
  - apply leaf_array. simpl in Hv. induction l as [|i l IH]; constructor; simpl in Hv; breflect.
    + destruct i; try (by apply item_other); [|done..]. apply item_string, HR. csimpl. by left.
    + apply IH; [done|]. intros s Hs. apply HR. csimpl. destruct i; try done. by right.
Qed.

Lemma tree_rel_self h t (R : gostring → gostring → Prop) :
  rep h t → (∀ s, s ∈ tree_strings t → R s s) → tree_rel R t t.
Proof.
  induction t as [v|p kvs IH] using tree_ind'; intros Hrep HR;
    inversion Hrep as [? Hv|? m ? _ _ _ Hall]; subst.
  { constructor. by apply leaf_rel_self. }
  constructor. clear Hrep. cbn [tree_strings] in HR.
  induction kvs as [|[k c] l IHl]; constructor;
    apply Forall_cons in IH as [Hc IH]; apply Forall_cons in Hall as [Hrc Hall]; simpl in *.
  - split; [done|]. apply Hc; [done|]. intros s Hs. apply HR, elem_of_app. by left.
  - apply IHl; try done. intros s Hs. apply HR, elem_of_app. by right.
Qed.

Lemma erase_rel {A} R (t t' : tree A) : tree_rel R t t' → tree_rel R (erase t) (erase t').
Proof.
  revert t'. induction t as [v|p kvs IH] using tree_ind'; intros t' H;
    inversion H as [|? ? kvs' Hk]; subst; simpl; constructor; [done|]. clear H.
  induction Hk as [|[k1 c1] [k2 c2] l l' [Hk Hc] _ IHl]; simpl in *; constructor;
    apply Forall_cons in IH as [H1 IH]; simpl in *; auto.
Qed.

(** Children related one by one. *)
Lemma tree_rel_children {A} (R Q : gostring → gostring → Prop) (p : A) kvs kvs' :
  tree_rel R (Node p kvs) (Node p kvs') → NoDup kvs.*1 →
  (∀ k c c', assoc k kvs = Some c → assoc k kvs' = Some c' → tree_rel Q c c') →
  tree_rel Q (Node p kvs) (Node p kvs').
Proof.
  inversion 1 as [|? ? ? Hk]; subst. clear H. intros Hnd HQ. constructor.
  induction Hk as [|[k1 c1] [k2 c2] l l' [Hk Hc] Hl IH]; [constructor|].
  simpl in Hk. subst k2. csimpl in Hnd. apply NoDup_cons in Hnd as [Hni Hnd].
  assert (Hni' : k1 ∉ l'.*1).
  { intros Hin. apply Hni. clear -Hl Hin.
    induction Hl as [|[] [] l l' [Hk _] _ IH]; csimpl in *; subst; set_solver. }
  constructor.
  - split; [done|]. apply (HQ k1); simpl; by rewrite str_eqb_refl.
  - apply IH; [done|]. intros k c c' H1 H2.
    assert (k ≠ k1).
    { intros ->. apply assoc_In in H1. apply Hni, list_elem_of_fmap. by exists (k1, c). }
    apply (HQ k); simpl; by rewrite (proj2 (str_eqb_neq k k1)).
Qed.

(** ** The walk *)

Lemma resolve_value_returns getenv c h T s self :
  config_holds h c T →
  ∃ r, resolve_value getenv c s self (RState h ∅) = (r, RState h ∅) ∧ returns r.
Proof.
  intros Hc. unfold resolve_value. cbn [rheap].
  pose proof (resolveString_restores getenv c (chain_fuel h) s self (RState h ∅)) as Hst.
  assert (Hret : returns (fst (resolveString getenv c (chain_fuel h) s self (RState h ∅)))).
  { apply (resolveString_returns getenv c h T Hc). left. unfold avail, chain_fuel.
    rewrite difference_empty_L. lia. }
  unfold restores in Hst.
  destruct (resolveString getenv c (chain_fuel h) s self (RState h ∅)) as [r st'].
  cbn [fst snd] in *. subst. eauto.
Qed.

Section walk.
Context (getenv : gostring → gostring) (c : HkConfig) (t0 : tree loc).
(** [R] may hold of a string at any time, [Q] holds once it is resolved. *)
Context (R Q : gostring → gostring → Prop).
Hypothesis QR : ∀ s s', Q s s' → R s s'.

(** A heap reached during the walk. *)
Definition reached (h : heap) (t : tree loc) : Prop :=
  holds h t ∧ node_at t (Sections c) [] ∧ tree_rel R t0 t.

Hypothesis resolves : ∀ h t s0 s self out,
  reached h t → R s0 s →
  resolve_value getenv c s self (RState h ∅) = (Ok out, RState h ∅) → Q s0 out.

Lemma reached_config h t : reached h t → config_holds h c (erase t).
Proof. intros (Hh & Hn & _). by exists t. Qed.

(** What a step on the parts below the paths [πs] establishes. *)
Definition walked (πs : list path) (t1 : tree loc) (x : res HkError unit * rstate) : Prop :=
  resolving (snd x) = ∅ ∧
  ∃ t2, reached (rheap (snd x)) t2 ∧
    match fst x with
    | Ok _ =>
        (∀ π', (∀ π, π ∈ πs → ¬ comparable π π') → tlookup t2 π' = tlookup t1 π') ∧
        (∀ π c0 c2, π ∈ πs → tlookup t0 π = Some c0 → tlookup t2 π = Some c2 → tree_rel Q c0 c2)
    | Err _ => True
    | _ => False
    end.

Lemma resolve_items_walk h t fullPath i l0 l :
  reached h t → Forall2 (item_rel R) l0 l →
  ∃ r, resolve_items getenv c fullPath i l (RState h ∅) = (r, RState h ∅) ∧
       match r with
       | Ok l' => Forall2 (item_rel Q) l0 l'
       | Err _ => True
       | _ => False
       end.
Proof.
  intros Hr Hl. revert i. induction Hl as [|v0 v l0 l Hv _ IH]; intros i; cbn [resolve_items].
  { by exists (Ok []). }
  assert (Hitem : ∃ r,
    match v with
    | VString s =>
        let! resolved := resolve_value getenv c s (fullPath ++ "[" ++ dec_of_nat i ++ "]") in
        st_ret (VString resolved)
    | _ => st_ret v
    end (RState h ∅) = (r, RState h ∅) ∧
    match r with Ok v' => item_rel Q v0 v' | Err _ => True | _ => False end).
  { destruct Hv as [s0 s Hs|v Hns].
    - destruct (resolve_value_returns getenv c h (erase t) s
        (fullPath ++ "[" ++ dec_of_nat i ++ "]") (reached_config h t Hr)) as (r & Hrun & Hret).
      unfold st_bind. rewrite Hrun. destruct r as [out|e| |]; try done; eexists; (split; [done|]).
      + constructor. by eapply resolves.
      + done.
    - destruct v; try (eexists; split; [done|]; by apply item_other). by specialize (Hns s). }
  destruct Hitem as (r & Hrun & Hv'). unfold st_bind at 1. rewrite Hrun.
  destruct r as [v'|e| |]; try done; [|by eexists].
  destruct (IH (S i)) as (r2 & Hrun2 & Hl'). unfold st_bind. rewrite Hrun2.
  destruct r2 as [l'|e| |]; try done; [|by eexists].
  eexists. split; [done|]. by constructor.
Qed.

(** A string or an array, resolved and stored back. *)
Lemma set_leaf_walk h t π p kvs0 k v0 v' :
  reached h t → tlookup t0 π = Some (Node p kvs0) → assoc k kvs0 = Some (Leaf v0) →
  leaf_rel Q v0 v' → leaf_val v' = true →
  walked [π ++ [k]] t (on_heap (set_at p k v') (RState h ∅)).
Proof.
  intros (Hh & Hn & Hrel) Hl0 Ha Hv Hleaf.
  destruct (tree_rel_node R t0 t π p kvs0 Hrel Hl0) as (kvs & Hl & _).
  destruct (set_at_holds h t π p kvs k (Leaf v')) as (h' & Hset & Hh' & _); try done.
  { by apply leaf_holds. }
  { intros l Hin. by apply not_elem_of_nil in Hin. }
  unfold walked, on_heap. cbn [val_of] in Hset. cbn [rheap]. rewrite Hset.
  cbn [fst snd rheap resolving].
  split; [done|]. exists (talter (assoc_set k (Leaf v')) t π).
  unfold reached. split_and!; try done.
  - destruct Hn as [l E]. destruct (talter_node (assoc_set k (Leaf v')) (Sections c) l π) as [l' Hl'].
    simpl in E. simplify_eq. rewrite Hl'. by exists l'.
  - eapply tree_rel_set; try done.
    by eapply leaf_rel_mono.
  - intros π' Hnc. apply tlookup_set_other. apply Hnc. by left.
  - intros π1 c0 c2 ->%list_elem_of_singleton H0 H2.
    rewrite tlookup_app, Hl0 in H0. simpl in H0. rewrite Ha in H0.
    rewrite (tlookup_set _ _ _ _ _ _ Hl) in H2. simplify_eq. by constructor.
Qed.

Lemma walked_seq πs πs' t m k st :
  walked πs t (m st) →
  (∀ h t2, reached h t2 → walked πs' t2 (k (RState h ∅))) →
  (∀ π π', π ∈ πs → π' ∈ πs' → ¬ comparable π' π) →
  walked (πs ++ πs') t (st_bind m (λ _, k) st).
Proof.
  intros Hm Hk Hdisj. unfold st_bind. destruct (m st) as [r [h X]].
  destruct Hm as (HX & t2 & Hr & Hres). simpl in HX, Hr. subst X.
  destruct r as [[]|e| |]; try done; [|split; [done|]; by exists t2].
  destruct Hres as [Hframe HQ]. destruct (Hk h t2 Hr) as (HX & t3 & Hr3 & Hres). split; [done|].
  exists t3. split; [done|]. destruct (fst (k (RState h ∅))); try done.
  destruct Hres as [Hframe3 HQ3]. split.
  - intros π' Hnc. rewrite Hframe3, Hframe; [done|..]; intros π Hπ; apply Hnc, elem_of_app; auto.
  - intros π c0 c3 [Hπ|Hπ]%elem_of_app H0 H3; [|by eapply HQ3].
    rewrite Hframe3 in H3 by eauto. by eapply HQ.
Qed.

Lemma walked_err h t πs e : reached h t → walked πs t (Err e, RState h ∅).
Proof. intros Hr. split; [done|]. by exists t. Qed.

Lemma item_rel_scalar (P : gostring → gostring → Prop) v v' :
  item_rel P v v' → scalar v = scalar v'.
Proof. by intros [|]. Qed.

Lemma items_scalar l0 l1 l2 :
  Forall2 (item_rel R) l0 l1 → Forall2 (item_rel Q) l0 l2 →
  forallb scalar l1 = true → forallb scalar l2 = true.
Proof.
  intros H1. revert l2. induction H1 as [|v0 v1 l0 l1 Hv _ IH]; intros l2 H2 Hs.
  - by apply Forall2_nil_inv_l in H2 as ->.
  - apply Forall2_cons_inv_l in H2 as (v2 & l2' & Hv2 & H2 & ->). simpl in *. breflect.
    rewrite IH, andb_true_r by done.
    by rewrite <- (item_rel_scalar _ _ _ Hv2), (item_rel_scalar _ _ _ Hv).
Qed.

(** One key of the map at [π]. *)
Lemma resolve_key_walk sub_map h t π p kvs0 kvs om pre k c0 c1 :
  reached h t → tlookup t0 π = Some (Node p kvs0) → assoc k kvs0 = Some c0 →
  tlookup t π = Some (Node p kvs) → assoc k kvs = Some c1 → get_or_zero om k = val_of c1 →
  (∀ q l0, c0 = Node q l0 → walked [π ++ [k]] t (sub_map q pre (RState h ∅))) →
  walked [π ++ [k]] t
    (match get_or_zero om k with
     | VString s =>
         let! resolved := resolve_value getenv c s pre in
         on_heap (set_at p k (VString resolved))
     | VArray items =>
         let! newArr := resolve_items getenv c pre 0 items in
         on_heap (set_at p k (VArray newArr))
     | VMap sub => sub_map sub pre
     | _ => st_ret tt
     end (RState h ∅)).
Proof.
  intros Hr Hl0 Ha0 Hl Ha Hg Hsub. rewrite Hg. pose proof Hr as ((Hrep & _) & _ & Hrel).
  assert (H1 : tlookup t (π ++ [k]) = Some c1) by (rewrite tlookup_app, Hl; simpl; by rewrite Ha).
  assert (H0 : tlookup t0 (π ++ [k]) = Some c0) by (rewrite tlookup_app, Hl0; simpl; by rewrite Ha0).
  pose proof (tree_rel_lookup R t0 t (π ++ [k]) Hrel) as Hc. rewrite H0, H1 in Hc.
  pose proof (rep_lookup _ _ _ _ Hrep H1) as Hrep1.
  destruct Hc as [v0 v1 Hv|q l0 l1 Hk]; [|by apply (Hsub q l0)]. cbn [val_of].
  inversion Hrep1 as [? Hleaf|]; subst.
  assert (Hsame : v0 = v1 → (∀ s, v1 ≠ VString s) → scalar v1 = true →
            walked [π ++ [k]] t (Ok tt, RState h ∅)).
  { intros -> Hns Hsc. split; [done|]. exists t. split; [done|]. split; [done|].
    intros π1 d0 d1 ->%list_elem_of_singleton E0 E1. simplify_eq. constructor.
    apply leaf_item. by apply item_other. }
  destruct v1 as [s1|n|b|l1|q]; [|by inversion Hv as [? ? Hi|]; inversion Hi; subst; apply Hsame..| |done].
  - inversion Hv as [? ? Hi|]; subst. inversion Hi as [s0 ? Hs|? Hns]; subst; [|by specialize (Hns s1)].
    destruct (resolve_value_returns getenv c h (erase t) s1 pre (reached_config h t Hr))
      as (r & Hrun & Hret).
    unfold st_bind. rewrite Hrun. destruct r as [out|e| |]; try done; [|by apply walked_err].
    eapply set_leaf_walk; try done. apply leaf_item, item_string. by eapply resolves.
  - assert (Hitems : ∃ l0, v0 = VArray l0 ∧ Forall2 (item_rel R) l0 l1).
    { inversion Hv as [? ? Hi|]; subst; [|eauto]. by inversion Hi; subst. }
    destruct Hitems as (l0 & -> & Hl01).
    destruct (resolve_items_walk h t pre 0 l0 l1 Hr Hl01) as (r & Hrun & Hret).
    unfold st_bind. rewrite Hrun. destruct r as [out|e| |]; try done; [|by apply walked_err].
    eapply set_leaf_walk; try done; [by apply leaf_array|]. by eapply items_scalar.
Qed.

Lemma comparable_snoc π k π' : comparable (π ++ [k]) π' → comparable π π'.
Proof.
  intros [H|[x E]]; [left; by eapply prefix_app_l|].
  destruct x as [|y x _] using rev_ind.
  - rewrite app_nil_r in E. left. rewrite <- E. by eexists.
  - rewrite app_assoc in E. apply app_inj_tail in E as [-> _]. right. by eexists.
Qed.

Lemma resolve_keys_walk sub_map π p kvs0 pre ks : ∀ h t,
  (∀ k q l0 h t pre, assoc k kvs0 = Some (Node q l0) → reached h t →
     walked [π ++ [k]] t (sub_map q pre (RState h ∅))) →
  tlookup t0 π = Some (Node p kvs0) → NoDup ks → (∀ k, k ∈ ks → k ∈ kvs0.*1) →
  reached h t →
  walked (map (λ k, π ++ [k]) ks) t (resolve_keys getenv c sub_map p pre ks (RState h ∅)).
Proof.
  induction ks as [|k ks IH]; intros h t Hsub Hl0 Hnd Hin Hr; cbn [resolve_keys map].
  { split; [done|]. exists t. split; [done|]. split; [done|].
    intros ? ? ? H. by apply not_elem_of_nil in H. }
  apply NoDup_cons in Hnd as [Hni Hnd].
  pose proof Hr as ((Hrep & _) & _ & Hrel).
  destruct (tree_rel_node R t0 t π p kvs0 Hrel Hl0) as (kvs & Hl & Hk).
  pose proof (rep_lookup _ _ _ _ Hrep Hl) as Hrepp.
  destruct (rep_deref h p kvs Hrepp) as (om & Hp & _ & _ & _ & Hg).
  destruct (assoc k kvs0) as [c0|] eqn:E0.
  2:{ apply assoc_None in E0. exfalso. apply E0, Hin. by left. }
  destruct (assoc k kvs) as [c1|] eqn:E1.
  2:{ apply assoc_None in E1. rewrite <- (tree_rel_keys R p kvs0 kvs Hk) in E1.
      exfalso. apply E1, Hin. by left. }
  unfold st_bind at 1, on_heap at 1, deref. cbn [rheap resolving]. rewrite Hp.
  apply (walked_seq [π ++ [k]]).
  - eapply resolve_key_walk; try done.
    + unfold get_or_zero. by rewrite Hg, E1.
    + intros q l0 ->. by eapply Hsub.
  - intros h2 t2 Hr2. apply IH; try done. intros. apply Hin. by right.
  - intros π1 π2 ->%list_elem_of_singleton (k' & <- & Hk')%list_elem_of_In%in_map_iff.
    apply list_elem_of_In in Hk'. intros [H|H]; apply prefix_app_inv in H;
      apply prefix_cons_inv_1 in H; congruence.
Qed.

Lemma resolveMap_walk depth : ∀ h t π p kvs0 pre,
  reached h t → tlookup t0 π = Some (Node p kvs0) → theight (Node p kvs0) ≤ depth →
  walked [π] t (resolveMap getenv c depth p pre (RState h ∅)).
Proof.
  induction depth as [|depth IH]; intros h t π p kvs0 pre Hr Hl0 Hd; [simpl in Hd; lia|].
  pose proof Hr as ((Hrep & _) & _ & Hrel).
  destruct (tree_rel_node R t0 t π p kvs0 Hrel Hl0) as (kvs & Hl & Hk).
  pose proof (rep_lookup _ _ _ _ Hrep Hl) as Hrepp.
  destruct (rep_deref h p kvs Hrepp) as (om & Hp & [Hnd _] & _ & Hkeys & Hg).
  cbn [resolveMap]. unfold st_bind at 1, on_heap at 1, deref. cbn [rheap resolving]. rewrite Hp.
  assert (Ek : om_Keys om = kvs0.*1).
  { unfold om_Keys. rewrite Hkeys. symmetry. by eapply tree_rel_keys. }
  assert (Hnd0 : NoDup kvs0.*1) by (rewrite <- Ek; exact Hnd).
  rewrite Ek.
  assert (Hw := resolve_keys_walk (resolveMap getenv c depth) π p kvs0 pre kvs0.*1 h t).
  destruct Hw as (HX & t2 & Hr2 & Hres); try done.
  { intros k q l0 h' t' pre' Ha Hr'. eapply IH; [done| |].
    - rewrite tlookup_app, Hl0. simpl. by rewrite Ha.
    - eapply theight_child; [by apply assoc_In|done]. }
  split; [done|]. exists t2. split; [done|].
  destruct (fst (resolve_keys _ _ _ _ _ _ _)); try done.
  destruct Hres as [Hframe HQ]. split.
  - intros π' Hnc. apply Hframe.
    intros π1 (k & <- & _)%list_elem_of_In%in_map_iff H.
    apply (Hnc π); [by left|by eapply comparable_snoc].
  - intros π1 c0 c2 ->%list_elem_of_singleton H0 H2. simplify_eq.
    destruct Hr2 as (_ & _ & Hrel2).
    destruct (tree_rel_node R t0 t2 π p kvs0 Hrel2 Hl0) as (kvs2 & Hl2 & Hk2).
    rewrite Hl2 in H2. injection H2 as <-.
    eapply tree_rel_children; [done..|]. intros k d0 d2 E0 E2.
    apply (HQ (π ++ [k])).
    + apply list_elem_of_In, in_map_iff. exists k. split; [done|]. apply list_elem_of_In.
      apply list_elem_of_fmap. exists (k, d0). split; [done|by apply assoc_In].
    + rewrite tlookup_app, Hl0. simpl. by rewrite E0.
    + rewrite tlookup_app, Hl2. simpl. by rewrite E2.
Qed.
End walk.

(** ** The meaning on trees *)

(** What a tree has at a path, as far as a reference can tell. *)
Definition tree_value (T : tree unit) (path : gostring) : option HkValue :=
  match spec_get T path with
  | Ok (Leaf v) => Some v
  | Ok (Node _ _) => Some (VMap 0)
  | _ => None
  end.

Lemma eval_pieces_ext f g ps : (∀ r, f r = g r) → eval_pieces f ps = eval_pieces g ps.
Proof.
  intros H. induction ps as [|[t|r|] ps IH]; simpl; try done; [by rewrite IH|].
  by rewrite H, IH.
Qed.

Lemma eval_tree getenv h c T n s :
  config_holds h c T → eval getenv (lookup_value c h) n s = eval getenv (tree_value T) n s.
Proof.
  intros Hc. revert s. induction n as [|n IH]; intros s; [done|]. cbn [eval].
  apply eval_pieces_ext. intros r. unfold ref_value. destruct (HasPrefix r "env:"); [done|].
  unfold lookup_value, tree_value. pose proof (sim_get h c T r Hc) as Hs. unfold sim_res in Hs.
  destruct (cfg_Get c r h) as [[v|e| |] h']; cbn [fst snd] in *;
    destruct (spec_get T r) as [t|e'| |]; try done.
  destruct Hs as [_ (t' & Hrep & <- & <-)]. destruct t' as [v|p kvs]; cbn [val_of erase]; [|done].
  destruct v; try done. by destruct (Contains s0 "${").
Qed.

Lemma valued_tree getenv h c T s out :
  config_holds h c T →
  valued getenv (lookup_value c h) s out ↔ valued getenv (tree_value T) s out.
Proof.
  intros Hc. unfold valued. split; intros [n H]; exists n; revert H; by rewrite (eval_tree _ h c T).
Qed.

(** Related trees have related values at every path. *)
Lemma spec_get_rel R T0 T1 path :
  tree_rel R T0 T1 →
  match spec_get T0 path, spec_get T1 path with
  | Ok a, Ok b => tree_rel R a b
  | Err _, Err _ => True
  | _, _ => False
  end.
Proof.
  intros H. unfold spec_get. destruct (splitPath path) as [|s0 rest]; [done|].
  inversion H as [|a kvs kvs' Hk]; subst; [done|]. cbn [children].
  pose proof (tree_rel_assoc R s0 _ _ Hk) as Ha.
  destruct (assoc s0 kvs) as [c0|], (assoc s0 kvs') as [c1|]; try done. clear H Hk kvs kvs' a.
  revert c0 c1 Ha. induction rest as [|seg rest IH]; intros c0 c1 Ha; cbn [spec_segments]; [done|].
  unfold spec_segment. destruct (parseArrayIndex_ok seg) as [[i base] ->]. cbn [res_bind fst snd].
  destruct Ha as [v v' Hv|a kvs kvs' Hk]; [done|].
  pose proof (tree_rel_assoc R base _ _ Hk) as Hb.
  destruct (assoc base kvs) as [d0|], (assoc base kvs') as [d1|]; try done.
  destruct i as [idx|]; [|by apply IH].
  destruct Hb as [v v' Hv|]; [|done].
  destruct Hv as [v v' Hi|l l' Hl].
  { destruct Hi as [|v Hns Hsc]; [done|]. by destruct v. }
  destruct (idx <? 0)%Z; [done|].
  pose proof (proj1 (Forall2_lookup (item_rel R) l l') Hl (Z.to_nat idx)) as Hlk.
  destruct Hlk as [x y Hxy|]; [|done]. cbn [res_bind]. apply IH. constructor. by apply leaf_item.
Qed.

Lemma no_ref_eval getenv get s : Contains s "${" = false → eval getenv get 1 s = Some s.
Proof.
  unfold Contains. intros H. cbn [eval]. unfold pieces_of. cbn [pieces].
  destruct (Index s "${"); [done|]. simpl. by rewrite app_nil_r.
Qed.

Lemma eval_pieces_depth (f : gostring → option gostring) g ps out :
  (∀ n m r v, n ≤ m → g n r = Some v → g m r = Some v) →
  (∀ r v, f r = Some v → ∃ n : nat, g n r = Some v) →
  eval_pieces f ps = Some out → ∃ n, eval_pieces (g n) ps = Some out.
Proof.
  intros Hmono Hf. revert out. induction ps as [|[t|r|] ps IH]; intros out; simpl; [|..|done].
  - intros [= <-]. by exists 0.
  - destruct (eval_pieces f ps) as [o|]; [|done]. intros [= <-].
    destruct (IH o eq_refl) as [n Hn]. exists n. by rewrite Hn.
  - destruct (f r) as [v|] eqn:Er; [|done]. destruct (eval_pieces f ps) as [o|]; [|done].
    intros [= <-]. destruct (Hf r v Er) as [n Hn], (IH o eq_refl) as [m Hm]. exists (n + m).
    rewrite (Hmono n (n + m) r v) by (done || lia).
    rewrite (eval_pieces_mono (g m) (g (n + m)) ps o); [done| |done].
    intros. apply (Hmono m); [lia|done].
Qed.

Section invariance.
Context (getenv : gostring → gostring) (T0 T1 : tree unit).
Abbreviation has_value := (valued getenv (tree_value T0)).
Context (R : gostring → gostring → Prop).
Hypothesis Hrel : tree_rel R T0 T1.
(** A changed string is the value of the original and has no references. *)
Hypothesis HR : ∀ s s', R s s' → s' = s ∨ has_value s s' ∧ Contains s' "${" = false.

(** Replacing strings by their values changes no value. *)
Lemma eval_invariant n s out :
  eval getenv (tree_value T1) n s = Some out → has_value s out.
Proof.
  revert s out. induction n as [|n IH]; intros s out; [done|]. cbn [eval]. intros H.
  apply (eval_pieces_depth _ (λ n, ref_value getenv (tree_value T0) (eval getenv (tree_value T0) n)))
    in H as [m Hm]; [by exists (S m)| |].
  { intros i j r v Hij. apply ref_value_mono. intros. by eapply eval_le. }
  intros r v. unfold ref_value. destruct (HasPrefix r "env:"); [intros; by exists 0|].
  unfold tree_value at 1 3. pose proof (spec_get_rel R T0 T1 r Hrel) as Hg.
  destruct (spec_get T0 r) as [t0| | |], (spec_get T1 r) as [t1| | |]; try done.
  destruct Hg as [v0 v1 Hv|]; [|done].
  destruct Hv as [v0 v1 Hi|l l' Hl]; [|done].
  destruct Hi as [s0 s1 Hs|w Hns Hsc].
  2:{ intros Hw. exists 0. destruct w as [s0| | | |]; [by destruct (Hns s0)|done..]. }
  destruct (HR s0 s1 Hs) as [->|[Hval Hno]].
  - destruct (Contains s0 "${"); [apply IH|intros; by exists 0].
  - rewrite Hno. intros [= <-]. destruct (Contains s0 "${") eqn:E; [done|].
    exists 0. f_equal. eapply valued_det; [|exact Hval]. exists 1. by apply no_ref_eval.
Qed.
End invariance.

(** ** Claims *)

Lemma resolve_walk getenv c h t R Q :
  holds h t → node_at t (Sections c) [] → tree_rel R t t →
  (∀ s s', Q s s' → R s s') →
  (∀ h' t' s0 s self out, reached c t R h' t' → R s0 s →
     resolve_value getenv c s self (RState h' ∅) = (Ok out, RState h' ∅) → Q s0 out) →
  ∃ r h' t', ResolveInterpolations getenv c h = (r, h') ∧ returns r ∧ holds h' t' ∧
    node_at t' (Sections c) [] ∧ tree_rel R t t' ∧ (r = Ok tt → tree_rel Q t t').
Proof.
  intros Hh [kvs Hn] Hself HQR Hres. unfold ResolveInterpolations.
  assert (Hr : reached c t R h t) by (split_and!; [done|by exists kvs|done]).
  assert (Hsize : theight (Node (Sections c) kvs) ≤ size h).
  { simpl in Hn. simplify_eq. pose proof (theight_locs (Node (Sections c) kvs)).
    pose proof (locs_size h _ Hh). lia. }
  destruct (resolveMap_walk getenv c t R Q HQR Hres (size h) h t [] (Sections c) kvs [] Hr Hn Hsize)
    as (_ & t' & (Hh' & Hn' & Hrel) & Hok).
  destruct (resolveMap getenv c (size h) (Sections c) [] (RState h ∅)) as [r st].
  cbn [fst snd] in *. exists r, (rheap st), t'. split_and!; try done.
  - by destruct r.
  - intros ->. destruct Hok as [_ HQ]. by apply (HQ []); [left| |].
Qed.

(** C21.  Interpolating a configuration always returns, with or without an
    error, and keeps its shape: the same sections, keys, nesting, numbers and
    booleans, and arrays of the same length; only strings change. *)
Theorem ResolveInterpolations_shape getenv c h T :
  config_holds h c T →
  ∃ r h' T', ResolveInterpolations getenv c h = (r, h') ∧ returns r ∧
             config_holds h' c T' ∧ tree_rel (λ _ _, True) T T'.
Proof.
  intros (t & Hh & <- & Hn).
  destruct (resolve_walk getenv c h t (λ _ _, True) (λ _ _, True))
    as (r & h' & t' & Hrun & Hret & Hh' & Hn' & Hrel & _); try done.
  { eapply tree_rel_self; [apply Hh|done]. }
  exists r, h', (erase t'). split_and!; try done; [by exists t'|by apply erase_rel].
Qed.

Lemma tree_strings_erase {A} (t : tree A) : tree_strings (erase t) = tree_strings t.
Proof.
  induction t as [v|p kvs IH] using tree_ind'; [done|]. simpl.
  induction IH as [|[k c] l Hc _ IHl]; simpl in *; [done|]. by rewrite Hc, IHl.
Qed.

Lemma tree_rel_mono {A} (R Q : gostring → gostring → Prop) (t t' : tree A) :
  (∀ s s', Q s s' → R s s') → tree_rel Q t t' → tree_rel R t t'.
Proof.
  intros HQ. revert t'. induction t as [v|p kvs IH] using tree_ind'; intros t' H;
    inversion H as [|? ? kvs' Hk]; subst; constructor; [by eapply leaf_rel_mono|]. clear H.
  induction Hk as [|[k1 c1] [k2 c2] l l' [Hk Hc] _ IHl]; constructor;
    apply Forall_cons in IH as [H1 IH]; simpl in *; auto.
Qed.

(** No value of a string of the configuration contains a reference again. *)
Definition clean (getenv : gostring → gostring) (T : tree unit) : Prop :=
  ∀ s out, s ∈ tree_strings T → valued getenv (tree_value T) s out → Contains out "${" = false.

(** C20.  When no resolved value contains a reference again, a successful
    interpolation replaces every string, in maps and in arrays, by the value it
    has in the original configuration: the order of sections and keys and the
    strings already replaced make no difference. *)
Theorem ResolveInterpolations_values getenv c h T :
  config_holds h c T → clean getenv T →
  ∃ r h' T', ResolveInterpolations getenv c h = (r, h') ∧ returns r ∧
             config_holds h' c T' ∧
             (r = Ok tt → tree_rel (valued getenv (tree_value T)) T T').
Proof.
  intros (t & Hh & <- & Hn) Hclean. set (V := valued getenv (tree_value (erase t))).
  set (R s s' := s ∈ tree_strings t ∧ (s' = s ∨ V s s')).
  set (Q s s' := s ∈ tree_strings t ∧ V s s').
  assert (HR : ∀ s s', R s s' → s' = s ∨ V s s' ∧ Contains s' "${" = false).
  { intros s s' [Hin [->|Hv]]; [by left|right]. split; [done|].
    apply (Hclean s); [by rewrite tree_strings_erase|done]. }
  destruct (resolve_walk getenv c h t R Q)
    as (r & h' & t' & Hrun & Hret & Hh' & Hn' & _ & HQ); try done.
  - eapply tree_rel_self; [apply Hh|]. intros s Hs. split; [done|by left].
  - intros s s' [? ?]. split; auto.
  - intros h1 t1 s0 s self out Hr Hs Hres.
    assert (Hout : V s out).
    { pose proof (reached_config _ _ _ _ _ Hr) as Hc1. destruct Hr as (_ & _ & Hrel).
      apply (f_equal fst) in Hres. unfold resolve_value in Hres. cbn [fst rheap] in Hres.
      apply (resolveString_sound getenv c h1 (erase t1) Hc1) in Hres.
      apply (valued_tree getenv h1 c (erase t1) _ _ Hc1) in Hres as [n Hn1].
      eapply (eval_invariant getenv (erase t) (erase t1) R); [by apply erase_rel|done|done]. }
    pose proof (HR s0 s Hs) as Hcase. destruct Hs as [Hin _]. split; [done|].
    destruct Hcase as [->|[Hv Hno]]; [done|].
    replace out with s; [done|]. eapply valued_det; [|exact Hout]. exists 1. by apply no_ref_eval.
  - exists r, h', (erase t'). split_and!; try done; [by exists t'|].
    intros Hok. apply erase_rel. eapply tree_rel_mono; [|by apply HQ]. by intros s s' [_ ?].
Qed.

(** ** Witnesses *)

Definition clean_lines : list gostring :=
  ["[a]" : gostring; "-> x => v=${a.y}"; "-> y => ${a.m[1]}"; "-> m => [1, ${env:H}]"].

Definition clean_heap : heap := snd (parse clean_lines ∅).

Definition clean_tree : tree unit :=
  match spec_parse clean_lines with Ok T => T | _ => Node tt [] end.

Lemma clean_holds : config_holds clean_heap (MkHkConfig 0) clean_tree.
Proof.
  pose proof (parse_sim clean_lines ∅) as Hs. unfold sim_res in Hs.
  replace (fst (parse clean_lines ∅)) with (Ok (E := HkError) (MkHkConfig 0)) in Hs
    by (vm_compute; reflexivity).
  unfold clean_tree. destruct (spec_parse clean_lines) as [T| | |]; done.
Qed.

Lemma clean_clean : clean (λ n, n) clean_tree.
Proof.
  intros s out Hs [n Hn].
  assert (Hc : ∃ v, eval (λ n, n) (tree_value clean_tree) 4 s = Some v ∧ Contains v "${" = false).
  { apply (Forall_forall (λ s, ∃ v, eval (λ n, n) (tree_value clean_tree) 4 s = Some v ∧
                                    Contains v "${" = false) (tree_strings clean_tree)); [|done].
    replace (tree_strings clean_tree) with ["v=${a.y}" : gostring; "${a.m[1]}"; "${env:H}"]
      by (vm_compute; reflexivity).
    repeat constructor; eexists; (split; [vm_compute; reflexivity|done]). }
  destruct Hc as (v & Hv & Hno). replace out with v; [done|].
  eapply (valued_det (λ n, n) (tree_value clean_tree) s); [by exists 4|by exists n].
Qed.

Lemma ResolveInterpolations_shape_witness :
  ∃ r h' T', ResolveInterpolations (λ n, n) (MkHkConfig 0) clean_heap = (r, h') ∧ returns r ∧
             config_holds h' (MkHkConfig 0) T' ∧ tree_rel (λ _ _, True) clean_tree T'.
Proof. exact (ResolveInterpolations_shape (λ n, n) _ _ _ clean_holds). Defined.

Lemma ResolveInterpolations_values_witness :
  ∃ r h' T', ResolveInterpolations (λ n, n) (MkHkConfig 0) clean_heap = (r, h') ∧ returns r ∧
             config_holds h' (MkHkConfig 0) T' ∧
             (r = Ok tt → tree_rel (valued (λ n, n) (tree_value clean_tree)) clean_tree T') ∧
             fst (ResolveInterpolations (λ n, n) (MkHkConfig 0) clean_heap) = Ok tt.
Proof.
  destruct (ResolveInterpolations_values (λ n, n) _ _ _ clean_holds clean_clean)
    as (r & h' & T' & ? & ? & ? & ?).
  exists r, h', T'. split_and!; [done..|vm_compute; reflexivity].
Defined.
