(* ===== verification/HkBuilder.v ===== *)
(** * Building configurations (internal/hk/builder.go, internal/hkgen/debostree_config.go)

    The fluent builder as code on the heap, with nil pointers, and the
    generator of deb-ostree.hk on top of it.  The generated file is read back
    by the parser as the generated configuration. *)

From Stdlib Require Import Ascii String ZArith Lia SpecFloat.
From stdpp Require Import base list gmap strings.
From S2P Require Import Prelude GoStrings GoNumbers HkValue HkLex HkHeap HkTree HkParser.
From S2P Require Import HkParserProps HkGet HkSerialize HkRoundTrip.

(** ** builder.go *)

Record Builder : Type := MkBuilder { bconfig : HkConfig }.

(** The map a section builder fills; nil when the key held something else. *)
Record SectionBuilder : Type := MkSection { sb_map : option loc }.

Definition NewBuilder : HkM Builder := let! c := NewHkConfig in st_ret (MkBuilder c).

(** [m, _ = v.AsMap()]: nil on a type mismatch. *)
Definition as_map_or_nil (v : HkValue) : option loc :=
  match AsMap v with Ok m => Some m | _ => None end.

Definition b_Section (b : Builder) (name : gostring) : HkM SectionBuilder :=
  let! secs := deref (Sections (bconfig b)) in
  match om_Get secs name with
  | Some existing => st_ret (MkSection (as_map_or_nil existing))
  | None =>
      let! m := new_map in
      set_at (Sections (bconfig b)) name (VMap m) ;;
      st_ret (MkSection (Some m))
  end.

Definition b_Build (b : Builder) : HkConfig := bconfig b.

Definition sb_Set (s : SectionBuilder) (key : gostring) (val : HkValue) : HkM SectionBuilder :=
  match sb_map s with
  | None => st_panic
  | Some m => set_at m key val ;; st_ret s
  end.

Definition sb_SubMap (s : SectionBuilder) (key : gostring) : HkM SectionBuilder :=
  match sb_map s with
  | None => st_panic
  | Some m =>
      let! om := deref m in
      let sub := match om_Get om key with Some existing => as_map_or_nil existing | None => None end in
      match sub with
      | Some p => st_ret (MkSection (Some p))
      | None =>
          let! p := new_map in
          set_at m key (VMap p) ;;
          st_ret (MkSection (Some p))
      end
  end.

(** ** debostree_config.go *)

Record DebOstreeConfigParams : Type := Params {
  SysrootPath : gostring;
  OstreeRepoPath : gostring;
  OSName : gostring;
  OverlayWorkDir : gostring;
  AptListsPath : gostring;
  OriginRefspec : gostring }.

Definition orDefault (val def : gostring) : gostring := if str_eqb val [] then def else val.

(** [b.Section(name).Set(key, hk.String(s))] *)
Definition section_set (b : Builder) (name key s : gostring) : HkM unit :=
  let! sec := b_Section b name in
  let! _ := sb_Set sec key (VString s) in
  st_ret tt.

Definition GenerateDebOstreeConfig (p : DebOstreeConfigParams) : HkM HkConfig :=
  let! b := NewBuilder in
  section_set b "sysroot" "path" (orDefault (SysrootPath p) "/") ;;
  section_set b "ostree" "repo_path" (orDefault (OstreeRepoPath p) "/ostree/repo") ;;
  section_set b "system" "osname" (orDefault (OSName p) "debian") ;;
  section_set b "overlay" "work_dir"
    (orDefault (OverlayWorkDir p) "/var/lib/deb-ostree/overlay-work") ;;
  section_set b "apt" "lists_path"
    (orDefault (AptListsPath p) "/var/lib/deb-ostree/apt-cache") ;;
  (if negb (str_eqb (OriginRefspec p) [])
   then section_set b "origin" "refspec" (OriginRefspec p)
   else st_ret tt) ;;
  st_ret (b_Build b).

(** The content [WriteDebOstreeConfig] writes. *)
Definition debostree_hk (p : DebOstreeConfigParams) : HkM gostring :=
  let! c := GenerateDebOstreeConfig p in Serialize c.

(** ** Specification *)

Definition entry (name key s : gostring) : gostring * tree unit :=
  (name, Node tt [(key, Leaf (VString s))]).

Definition debostree_tree (p : DebOstreeConfigParams) : tree unit :=
  Node tt ([entry "sysroot" "path" (orDefault (SysrootPath p) "/");
            entry "ostree" "repo_path" (orDefault (OstreeRepoPath p) "/ostree/repo");
            entry "system" "osname" (orDefault (OSName p) "debian");
            entry "overlay" "work_dir"
              (orDefault (OverlayWorkDir p) "/var/lib/deb-ostree/overlay-work");
            entry "apt" "lists_path"
              (orDefault (AptListsPath p) "/var/lib/deb-ostree/apt-cache")]
           ++ (if str_eqb (OriginRefspec p) [] then []
               else [entry "origin" "refspec" (OriginRefspec p)])).

(** ** The builder on trees *)

(** Asking for a section: the tree with the section, and a pointer to it. *)
Lemma b_Section_holds b h t kvs name :
  holds h t → t = Node (Sections (bconfig b)) kvs →
  (∀ c, assoc name kvs = Some c → is_node c = true) →
  ∃ h' t' q l, b_Section b name h = (Ok (MkSection (Some q)), h') ∧ holds h' t' ∧
    node_at t' (Sections (bconfig b)) [] ∧ tlookup t' [name] = Some (Node q l) ∧
    erase t' = match assoc name kvs with
               | Some _ => erase t
               | None => Node tt (erase_kvs kvs ++ [(name, Node tt [])])
               end.
Proof.
  intros Hh -> Hmap. unfold b_Section.
  destruct (sim_read h _ [] (Sections (bconfig b)) kvs name Hh eq_refl) as (m & Hd & Hg & _ & _ & _).
  unfold st_bind at 1. rewrite Hd, Hg. destruct (assoc name kvs) as [c|] eqn:Ec; simpl.
  - destruct c as [v|q l]; [by specialize (Hmap _ eq_refl)|]. cbn [val_of].
    exists h, (Node (Sections (bconfig b)) kvs), q, l. split_and!; try done; [by eexists|].
    simpl. by rewrite Ec.
  - unfold st_bind. destruct (new_map_holds h _ Hh) as (-> & Hh1 & Hp & Hni).
    set (q := fresh (dom h)) in *.
    destruct (set_at_holds _ _ [] (Sections (bconfig b)) kvs name (Node q []) Hh1 eq_refl Hp)
      as (h' & Hset & Hh' & _).
    { intros l Hl. apply list_elem_of_singleton in Hl. by subst. }
    cbn [val_of] in Hset. rewrite Hset.
    exists h', (talter (assoc_set name (Node q [])) (Node (Sections (bconfig b)) kvs) []), q, [].
    split_and!; try done.
    + by eexists.
    + simpl. by rewrite assoc_set_eq.
    + simpl. fold (erase_kvs (assoc_set name (Node q []) kvs)).
      rewrite erase_assoc_set, assoc_set_new; [done|].
      apply assoc_None. by rewrite erase_assoc, Ec.
Qed.

Lemma section_set_new b h kvs name key s :
  config_holds h (bconfig b) (Node tt kvs) → name ∉ kvs.*1 →
  ∃ h', section_set b name key s h = (Ok tt, h') ∧
        config_holds h' (bconfig b) (Node tt (kvs ++ [entry name key s])).
Proof.
  intros (t & Hh & He & [lkvs Hn]) Hni. simpl in Hn. injection Hn as ->. simpl in He.
  injection He as He. fold (erase_kvs lkvs) in He.
  assert (Hnone : assoc name lkvs = None).
  { assert (E : assoc name (erase_kvs lkvs) = None) by (rewrite He; by apply assoc_None).
    rewrite erase_assoc in E. by destruct (assoc name lkvs). }
  destruct (b_Section_holds b h _ lkvs name Hh eq_refl) as (h1 & t1 & q & l & Hrun & Hh1 & Hn1 & Hl & He1).
  { intros c E. congruence. }
  rewrite Hnone, He in He1.
  unfold section_set, st_bind. rewrite Hrun. unfold sb_Set, st_bind. cbn [sb_map].
  destruct (set_at_holds h1 t1 [name] q l key (Leaf (VString s)) Hh1 Hl) as (h2 & Hset & Hh2 & _).
  { by apply leaf_holds. }
  { intros x Hx. by apply not_elem_of_nil in Hx. }
  cbn [val_of] in Hset. rewrite Hset. exists h2. split; [done|].
  exists (talter (assoc_set key (Leaf (VString s))) t1 [name]). split_and!; try done.
  - rewrite (erase_talter _ (assoc_set key (Leaf (VString s)))) by (intros; apply erase_assoc_set).
    rewrite He1. simpl. by rewrite assoc_alter_last.
  - destruct Hn1 as [l1 E1]. simpl in E1. injection E1 as ->. by eexists.
Qed.

(** ** The generated file *)

Lemma new_builder_holds h :
  ∃ b h', NewBuilder h = (Ok b, h') ∧ config_holds h' (bconfig b) (Node tt []).
Proof.
  unfold NewBuilder, NewHkConfig, st_bind. cbn [st_ret new_map].
  set (p := fresh (dom h)). eexists _, _. split; [done|].
  exists (Node p []). split_and!; [|done|by eexists].
  split; [|apply NoDup_singleton].
  econstructor; [apply lookup_insert_eq|apply NewOrderedMap_wf|done|done].
Qed.

Ltac next_section H :=
  let h' := fresh "h" in let Hrun := fresh "Hrun" in let H' := fresh "H" in
  match goal with
  | |- context [section_set ?b ?name ?key ?s] =>
      destruct (section_set_new b _ _ name key s H) as (h' & Hrun & H');
      [apply (bool_decide_unpack _); vm_compute; exact I|];
      unfold st_bind at 1; rewrite Hrun; clear H Hrun; cbn [app] in H'; rename H' into H
  end.

Lemma Generate_holds p h :
  ∃ c h', GenerateDebOstreeConfig p h = (Ok c, h') ∧ config_holds h' c (debostree_tree p).
Proof.
  unfold GenerateDebOstreeConfig.
  destruct (new_builder_holds h) as (b & h0 & Hnew & H). unfold st_bind at 1. rewrite Hnew.
  do 5 next_section H. unfold debostree_tree. unfold b_Build.
  destruct (str_eqb (OriginRefspec p) []); cbn [negb].
  - unfold st_bind. eexists _, _. split; [done|]. exact H.
  - next_section H. eexists _, _. split; [done|]. exact H.
Qed.

(** Strings the format can write without turning them into arrays. *)
Definition param_ok (s : gostring) : bool := needsQuotes s || negb (bracketed s).

Definition params_ok (p : DebOstreeConfigParams) : bool :=
  forallb param_ok [SysrootPath p; OstreeRepoPath p; OSName p; OverlayWorkDir p;
                    AptListsPath p; OriginRefspec p].

Lemma param_ok_default s d : param_ok s = true → param_ok d = true → param_ok (orDefault s d) = true.
Proof. unfold orDefault. by destruct (str_eqb s []). Qed.

Lemma entry_printable name key s :
  key_ok key = true → section_ok name = true → param_ok s = true →
  section_ok (entry name key s).1 = true ∧ is_node (entry name key s).2 = true ∧
  printable (entry name key s).2.
Proof.
  intros Hk Hn Hs. split_and!; [done..|]. simpl. constructor.
  - apply NoDup_singleton.
  - by apply Forall_singleton.
  - apply Forall_singleton. constructor. cbn [leaf_ok]. unfold param_ok in Hs.
    apply orb_prop in Hs as [?|?]; [by left|right; by apply negb_true_iff].
Qed.

Lemma debostree_printable p : params_ok p = true → printable_config (debostree_tree p).
Proof.
  unfold params_ok. cbn [forallb]. intros H. breflect. eexists. split; [reflexivity|]. split.
  - destruct (str_eqb (OriginRefspec p) []); apply (bool_decide_unpack _); by vm_compute.
  - apply Forall_app. split.
    + repeat first [apply Forall_nil_2 | apply Forall_cons; split];
        apply entry_printable; try done; by apply param_ok_default.
    + destruct (str_eqb (OriginRefspec p) []); [done|]. apply Forall_singleton.
      by apply entry_printable.
Qed.

(** ** Claims *)

(** The generator never panics and builds exactly the documented sections:
    each with one key holding the parameter or its default, and [origin] only
    when a refspec is given. *)
Theorem Generate_refines p h :
  ∃ c h', GenerateDebOstreeConfig p h = (Ok c, h') ∧ config_holds h' c (debostree_tree p).
Proof. apply Generate_holds. Qed.

(** C24.  The deb-ostree.hk written into the image parses back to the
    generated sections, for all parameters the format can express. *)
Theorem debostree_hk_parses p h :
  params_ok p = true →
  ∃ text h', debostree_hk p h = (Ok text, h') ∧ denotes (ParseString text) (debostree_tree p).
Proof.
  intros Hp. destruct (Generate_holds p h) as (c & h' & Hrun & Hc).
  exists (spec_serialize (debostree_tree p)), h'. unfold debostree_hk, st_bind. rewrite Hrun.
  split; [by apply Serialize_holds|]. apply serialize_parses. by apply debostree_printable.
Qed.

Definition sample_params : DebOstreeConfigParams :=
  Params [] [] "hackeros" [] [] "deb-ostree-oci:ghcr.io/michal/hackeros:trixie".

Lemma debostree_hk_parses_witness :
  ∃ text h', debostree_hk sample_params ∅ = (Ok text, h') ∧
             denotes (ParseString text) (debostree_tree sample_params) ∧
             Contains text "-> refspec => deb-ostree-oci:ghcr.io/michal/hackeros:trixie" = true.
Proof.
  destruct (debostree_hk_parses sample_params ∅) as (text & h' & Hrun & Hd);
    [vm_compute; reflexivity|].
  exists text, h'. split_and!; [done..|]. apply (f_equal fst) in Hrun.
  vm_compute in Hrun. injection Hrun as <-. vm_compute. reflexivity.
Defined.
