(* ===== verification/GoSort.v ===== *)
(** * Ordering and sorting of strings (the sort package)

    Go compares strings byte by byte.  [sort.Strings] and [sort.Slice] are
    modelled by insertion sort; where the keys are distinct the sorted
    rearrangement is unique, so the model does not depend on the algorithm. *)

From Stdlib Require Import Ascii String Lia Sorting.Permutation.
From stdpp Require Import base list sorting.
From S2P Require Import Prelude GoStrings.

(** [a < b] on strings. *)
Fixpoint str_ltb (a b : gostring) : bool :=
  match a, b with
  | _, [] => false
  | [], _ :: _ => true
  | c :: a', d :: b' => (code c <? code d) || ((code c =? code d) && str_ltb a' b')
  end.

Definition str_le (a b : gostring) : Prop := str_ltb b a = false.

Lemma code_inj c d : code c = code d → c = d.
Proof.
  intros H. rewrite <- (ascii_nat_embedding c), <- (ascii_nat_embedding d). by f_equal.
Qed.

Lemma str_ltb_irrefl a : str_ltb a a = false.
Proof.
  induction a as [|c a IH]; [done|]. simpl. by rewrite Nat.ltb_irrefl, Nat.eqb_refl, IH.
Qed.

Lemma str_ltb_trans a b c : str_ltb a b = true → str_ltb b c = true → str_ltb a c = true.
Proof.
  revert b c. induction a as [|x a IH]; intros [|y b] [|z c]; simpl; try done.
  intros H1 H2. apply orb_true_iff in H1, H2. apply orb_true_iff.
  destruct H1 as [H1|H1], H2 as [H2|H2]; breflect.
  - left. apply Nat.ltb_lt. lia.
  - left. apply Nat.ltb_lt. lia.
  - left. apply Nat.ltb_lt. lia.
  - right. rewrite (IH b c), andb_true_r by done. apply Nat.eqb_eq. lia.
Qed.

Lemma str_ltb_total a b : str_ltb a b = false → str_ltb b a = false → a = b.
Proof.
  revert b. induction a as [|x a IH]; intros [|y b]; simpl; try done.
  intros H1 H2. breflect. assert (code x = code y) as E by lia.
  apply code_inj in E as ->. rewrite Nat.eqb_refl in *. simpl in *. f_equal. by apply IH.
Qed.

Lemma str_ltb_asym a b : str_ltb a b = true → str_ltb b a = false.
Proof.
  intros H. destruct (str_ltb b a) eqn:E; [|done].
  by rewrite <- (str_ltb_trans _ _ _ H E), str_ltb_irrefl.
Qed.

#[export] Instance str_le_refl : Reflexive str_le.
Proof. intros a. apply str_ltb_irrefl. Qed.

#[export] Instance str_le_trans : Transitive str_le.
Proof.
  unfold str_le. intros a b c H1 H2. destruct (str_ltb c a) eqn:E; [|done].
  destruct (str_ltb a b) eqn:E'.
  - by rewrite <- (str_ltb_trans _ _ _ E E'), H2.
  - assert (a = b) as -> by by apply str_ltb_total. congruence.
Qed.

#[export] Instance str_le_antisymm : AntiSymm (=) str_le.
Proof. intros a b H1 H2. by apply str_ltb_total. Qed.

(** ** Sorting by a key *)

Section sort.
Context {A : Type} (key : A → gostring).

Definition key_le (x y : A) : Prop := str_le (key x) (key y).

Fixpoint insert_sorted (x : A) (l : list A) : list A :=
  match l with
  | [] => [x]
  | y :: l' => if str_ltb (key y) (key x) then y :: insert_sorted x l' else x :: y :: l'
  end.

Definition sort_by (l : list A) : list A := foldr insert_sorted [] l.

Lemma insert_sorted_perm x l : insert_sorted x l ≡ₚ x :: l.
Proof.
  induction l as [|y l IH]; simpl; [done|]. destruct (str_ltb (key y) (key x)); [|done].
  rewrite IH. apply Permutation_swap.
Qed.

Lemma sort_by_perm l : sort_by l ≡ₚ l.
Proof. induction l as [|x l IH]; simpl; [done|]. by rewrite insert_sorted_perm, IH. Qed.

Lemma insert_sorted_sorted x l :
  StronglySorted key_le l → StronglySorted key_le (insert_sorted x l).
Proof.
  induction 1 as [|y l Hl IH Hy]; simpl; [by repeat constructor|].
  destruct (str_ltb (key y) (key x)) eqn:E.
  - constructor; [done|]. rewrite insert_sorted_perm. constructor; [|done].
    by apply str_ltb_asym.
  - constructor; [by constructor|]. constructor; [done|].
    eapply Forall_impl; [exact Hy|]. intros z Hz. unfold key_le in *. by trans (key y).
Qed.

Lemma sort_by_sorted l : StronglySorted key_le (sort_by l).
Proof. induction l; simpl; [constructor|by apply insert_sorted_sorted]. Qed.

(** With distinct keys there is one sorted rearrangement. *)
Lemma sorted_unique l1 l2 :
  StronglySorted key_le l1 → StronglySorted key_le l2 → l1 ≡ₚ l2 → NoDup (map key l1) →
  l1 = l2.
Proof.
  revert l2. induction l1 as [|x l1 IH]; intros l2 H1 H2 Hp Hnd.
  { symmetry. by apply Permutation_nil. }
  destruct l2 as [|y l2]; [by apply Permutation_sym, Permutation_nil in Hp|].
  inversion H1 as [|? ? Hs1 Hx]; subst. inversion H2 as [|? ? Hs2 Hy]; subst.
  assert (Hkey : ∀ z, z ∈ x :: l1 → key z = key x → z = x).
  { intros z Hz E. apply elem_of_cons in Hz as [->|Hz]; [done|]. simpl in Hnd.
    apply NoDup_cons in Hnd as [Hni _]. exfalso. apply Hni. rewrite <- E.
    apply list_elem_of_In, in_map. by apply list_elem_of_In. }
  assert (x = y) as <-.
  { symmetry. apply Hkey; [rewrite Hp; by left|]. apply (anti_symm str_le).
    - rewrite Forall_forall in Hy. assert (Hin : x ∈ y :: l2) by (rewrite <- Hp; by left).
      apply elem_of_cons in Hin as [->|Hin]; [done|by apply Hy].
    - rewrite Forall_forall in Hx. assert (Hin : y ∈ x :: l1) by (rewrite Hp; by left).
      apply elem_of_cons in Hin as [->|Hin]; [done|by apply Hx]. }
  f_equal. apply IH; try done; [by apply Permutation_cons_inv in Hp|].
  simpl in Hnd. by apply NoDup_cons in Hnd as [_ ?].
Qed.
End sort.

(** [sort.Strings] *)
Definition sort_strings (l : list gostring) : list gostring := sort_by id l.
