(* ===== verification/GoPath.v ===== *)
(** * Paths (the path/filepath package on Unix)

    Lexical operations on slash-separated paths, as the builder uses them. *)

From Stdlib Require Import Ascii String Lia.
From stdpp Require Import base list strings.
From S2P Require Import Prelude GoStrings.

(** The elements of a path after cleaning: [.] and empty elements dropped,
    [..] applied to the element before it; [acc] is reversed. *)
Fixpoint clean_elems (rooted : bool) (es : list gostring) (acc : list gostring)
    : list gostring :=
  match es with
  | [] => rev acc
  | e :: es' =>
      if str_eqb e [] || str_eqb e "." then clean_elems rooted es' acc
      else if str_eqb e ".." then
        match acc with
        | p :: acc' =>
            if str_eqb p ".." then clean_elems rooted es' (e :: acc)
            else clean_elems rooted es' acc'
        | [] => if rooted then clean_elems rooted es' [] else clean_elems rooted es' [e]
        end
      else clean_elems rooted es' (e :: acc)
  end.

(** [filepath.Clean] *)
Definition Clean (path : gostring) : gostring :=
  let rooted := HasPrefix path "/" in
  let body := Join (clean_elems rooted (split_on "/" path) []) "/" in
  if rooted then "/" ++ body else if str_eqb body [] then "." else body.

(** [filepath.Join] *)
Fixpoint path_join (elems : list gostring) : gostring :=
  match elems with
  | [] => []
  | e :: es => if str_eqb e [] then path_join es else Clean (Join (e :: es) "/")
  end.

Fixpoint drop_slashes (s : gostring) : gostring :=
  match s with
  | c :: s' => if Ascii.eqb c "/" then drop_slashes s' else s
  | [] => []
  end.

(** [filepath.Base] *)
Definition Base (path : gostring) : gostring :=
  if str_eqb path [] then "."
  else
    match drop_slashes (rev path) with
    | [] => "/"
    | r => match last (split_on "/" (rev r)) with Some e => e | None => [] end
    end.

(** [filepath.Dir] *)
Definition Dir (path : gostring) : gostring :=
  match split_on "/" path with
  | [] | [_] => "."
  | es => Clean (Join (removelast es) "/" ++ "/")
  end.

(** [filepath.Abs], in the working directory [wd]. *)
Definition Abs (wd path : gostring) : gostring :=
  if HasPrefix path "/" then Clean path else path_join [wd; path].

Example clean_1 : Clean "a//b/./../c/" = "a/c". Proof. reflexivity. Qed.
Example clean_2 : Clean "/../a/b/.." = "/a". Proof. reflexivity. Qed.
Example clean_3 : Clean "../../x" = "../../x". Proof. reflexivity. Qed.
Example clean_4 : Clean [] = ".". Proof. reflexivity. Qed.
Example join_1 : path_join ["/w"; "config"; "config.hk"] = "/w/config/config.hk".
Proof. reflexivity. Qed.
Example base_1 : map Base ["/a/b/"; "x"; "/"; []] = ["b"; "x"; "/"; "."]. Proof. reflexivity. Qed.
Example dir_1 : map Dir ["/a/b/c"; "x"; "/x"; "a/b/"] = ["/a/b"; "."; "/"; "a/b"].
Proof. reflexivity. Qed.

(** ** Names and absolute paths *)

(** A name a directory can hold. *)
Definition name_ok (e : gostring) : Prop :=
  e ≠ [] ∧ e ≠ "." ∧ e ≠ ".." ∧ mem "/" e = false.

(** The absolute path with the given elements. *)
Definition abs_path (es : list gostring) : gostring := "/" ++ Join es "/".

Lemma split_Join_slash es :
  es ≠ [] → Forall name_ok es → split_on "/" (Join es "/") = es.
Proof.
  intros Hne H. induction H as [|e es He H IH]; [done|]. destruct es as [|e' es].
  - simpl. apply split_on_notin, He.
  - change (Join (e :: e' :: es) "/") with (e ++ "/"%char :: Join (e' :: es) "/").
    rewrite split_on_app by apply He. by rewrite IH.
Qed.

Lemma split_abs_path es :
  Forall name_ok es →
  split_on "/" (abs_path es) = [] :: match es with [] => [[]] | _ => es end.
Proof.
  intros H. unfold abs_path. simpl. f_equal. destruct es as [|e es]; [done|].
  by apply split_Join_slash.
Qed.

(** Cleaning drops only the empty elements of a path of names. *)
Lemma clean_elems_names rooted es acc :
  Forall (λ e, e = [] ∨ name_ok e) es →
  clean_elems rooted es acc = rev acc ++ filter (λ e : gostring, e ≠ []) es.
Proof.
  intros H. revert acc. induction H as [|e es He H IH]; intros acc; cbn [clean_elems].
  { by rewrite app_nil_r. }
  destruct He as [->|(Hn & Hd & Hdd & _)].
  - cbn [str_eqb orb]. rewrite IH, filter_cons_False by auto. done.
  - rewrite (proj2 (str_eqb_neq e [])), (proj2 (str_eqb_neq e ".")),
      (proj2 (str_eqb_neq e "..")) by done.
    cbn [orb]. rewrite IH, filter_cons_True by done. simpl. by rewrite <- app_assoc.
Qed.

Lemma filter_names es : Forall name_ok es → filter (λ e : gostring, e ≠ []) es = es.
Proof.
  induction 1 as [|e es He H IH]; [done|]. rewrite filter_cons_True by apply He. by f_equal.
Qed.

Lemma names_or_empty es : Forall name_ok es → Forall (λ e, e = [] ∨ name_ok e) es.
Proof. intros H. eapply Forall_impl; [exact H|]. auto. Qed.

Lemma Clean_abs s es :
  HasPrefix s "/" = true → Forall (λ e, e = [] ∨ name_ok e) (split_on "/" s) →
  filter (λ e : gostring, e ≠ []) (split_on "/" s) = es → Clean s = abs_path es.
Proof.
  intros Hp Hs He. unfold Clean. rewrite Hp, clean_elems_names by done. simpl. by rewrite He.
Qed.

(** The slash a tar header puts after the name of a directory. *)
Definition trail (slash : bool) : gostring := if slash then "/" else [].

(** Joining a name or a relative path of names to an absolute path. *)
Lemma join_abs d rel slash :
  Forall name_ok d → Forall name_ok rel → rel ≠ [] →
  path_join [abs_path d; Join rel "/" ++ trail slash] = abs_path (d ++ rel).
Proof.
  intros Hd Hr Hne. unfold path_join. cbn [str_eqb].
  change (str_eqb (abs_path d) []) with false. cbv iota.
  apply Clean_abs; [apply HasPrefix_iff; by eexists|..].
  all: change (Join [abs_path d; Join rel "/" ++ trail slash] "/")
    with (abs_path d ++ "/"%char :: (Join rel "/" ++ trail slash));
    rewrite split_on_cat, split_abs_path by done.
  - apply Forall_app. split.
    + constructor; [by left|]. destruct d; [by repeat constructor; left|by apply names_or_empty].
    + destruct slash; unfold trail.
      * change (Join rel "/" ++ "/") with (Join rel "/" ++ "/"%char :: []).
        rewrite split_on_cat, split_Join_slash by done. apply Forall_app.
        split; [by apply names_or_empty|by repeat constructor; left].
      * rewrite app_nil_r, split_Join_slash by done. by apply names_or_empty.
  - rewrite filter_app. f_equal.
    + rewrite filter_cons_False by auto. destruct d; [done|by apply filter_names].
    + destruct slash; unfold trail.
      * change (Join rel "/" ++ "/") with (Join rel "/" ++ "/"%char :: []).
        rewrite split_on_cat, split_Join_slash, filter_app, filter_names by done.
        simpl. by rewrite app_nil_r.
      * rewrite app_nil_r, split_Join_slash by done. by apply filter_names.
Qed.

(** Joining several names to an absolute path. *)
Lemma join_names d es :
  Forall name_ok d → Forall name_ok es → path_join (abs_path d :: es) = abs_path (d ++ es).
Proof.
  intros Hd He. cbn [path_join]. change (str_eqb (abs_path d) []) with false. cbv iota.
  assert (Hs : split_on "/" (Join (abs_path d :: es) "/") =
               ([] :: match d with [] => [[]] | _ => d end) ++ es).
  { destruct es as [|e es].
    - cbn [Join]. by rewrite split_abs_path, app_nil_r.
    - change (Join (abs_path d :: e :: es) "/")
        with (abs_path d ++ "/"%char :: Join (e :: es) "/").
      by rewrite split_on_cat, split_abs_path, split_Join_slash. }
  assert (Hpre : HasPrefix (Join (abs_path d :: es) "/") "/" = true).
  { apply HasPrefix_iff. destruct es; by eexists. }
  apply Clean_abs; [done|..]; rewrite Hs.
  - apply Forall_app. split; [|by apply names_or_empty]. constructor; [by left|].
    destruct d; [by repeat constructor; left|by apply names_or_empty].
  - rewrite filter_app, (filter_names es) by done. f_equal. rewrite filter_cons_False by auto.
    destruct d; [done|by apply filter_names].
Qed.

Lemma drop_slashes_name r e : name_ok e → drop_slashes (rev (r ++ e)) = rev (r ++ e).
Proof.
  intros (Hn & _ & _ & Hm). rewrite rev_app_distr. destruct (rev e) as [|c e'] eqn:E.
  { apply (f_equal (@rev ascii)) in E. rewrite rev_involutive in E. done. }
  simpl. destruct (Ascii.eqb_spec c "/") as [->|]; [|done]. exfalso.
  apply mem_false in Hm. apply Hm. rewrite <- (rev_involutive e), E. simpl.
  apply elem_of_app. right. by left.
Qed.

Lemma Join_snoc_slash es e :
  es ≠ [] → Join (es ++ [e]) "/" = Join es "/" ++ "/" ++ e.
Proof.
  induction es as [|x es IH]; [done|]. intros _. destruct es as [|y es]; [done|].
  change (Join ((x :: y :: es) ++ [e]) "/") with (x ++ "/" ++ Join ((y :: es) ++ [e]) "/").
  rewrite IH by done. cbn [Join]. rewrite <- !app_assoc. done.
Qed.

Lemma Join_last es e : ∃ r, Join (es ++ [e]) "/" = r ++ e.
Proof.
  destruct es as [|x es]; [by exists []|]. rewrite Join_snoc_slash by done.
  exists (Join (x :: es) "/" ++ "/"). by rewrite app_assoc.
Qed.

Lemma Base_join rel e slash :
  Forall name_ok rel → name_ok e →
  Base (Join (rel ++ [e]) "/" ++ trail slash) = e.
Proof.
  intros Hr He. unfold Base. destruct (Join_last rel e) as [r Er].
  assert (Hne : ∃ c t, Join (rel ++ [e]) "/" = c :: t).
  { rewrite Er. destruct r; [|by eexists _, _]. destruct e; [by destruct He|by eexists _, _]. }
  destruct Hne as (c & t & Ec).
  assert (E : str_eqb (Join (rel ++ [e]) "/" ++ trail slash) [] = false).
  { by rewrite Ec. }
  rewrite E.
  assert (Ed : drop_slashes (rev (Join (rel ++ [e]) "/" ++ trail slash)) =
               rev (Join (rel ++ [e]) "/")).
  { destruct slash; unfold trail; [|rewrite app_nil_r]; [rewrite rev_app_distr; simpl|];
      rewrite Er; by apply drop_slashes_name. }
  rewrite Ed. destruct (rev (Join (rel ++ [e]) "/")) eqn:Erev.
  { apply (f_equal (@rev ascii)) in Erev. rewrite rev_involutive, Ec in Erev. done. }
  rewrite <- Erev, rev_involutive, split_Join_slash.
  - by rewrite last_snoc.
  - by destruct rel.
  - by apply Forall_app, conj, Forall_singleton.
Qed.

Lemma Dir_abs d e :
  Forall name_ok d → name_ok e → Dir (abs_path (d ++ [e])) = abs_path d.
Proof.
  intros Hd He. unfold Dir. rewrite split_abs_path by by apply Forall_app, conj, Forall_singleton.
  assert (Hm : match d ++ [e] with [] => [[]] | _ => d ++ [e] end = d ++ [e]) by by destruct d.
  rewrite Hm. destruct (d ++ [e]) as [|x l] eqn:E; [by destruct d|]. rewrite <- E.
  change ([] :: d ++ [e]) with (([] :: d) ++ [e]). rewrite removelast_last.
  apply Clean_abs.
  - apply HasPrefix_iff. destruct d; by eexists.
  - change (Join ([] :: d) "/" ++ "/") with (Join ([] :: d) "/" ++ "/"%char :: []).
    rewrite split_on_cat. apply Forall_app. split; [|by repeat constructor; left].
    destruct d as [|y d]; [by repeat constructor; left|].
    change (Join ([] :: y :: d) "/") with (abs_path (y :: d)). rewrite split_abs_path by done.
    constructor; [by left|by apply names_or_empty].
  - change (Join ([] :: d) "/" ++ "/") with (Join ([] :: d) "/" ++ "/"%char :: []).
    rewrite split_on_cat, filter_app. destruct d as [|y d]; [done|].
    change (Join ([] :: y :: d) "/") with (abs_path (y :: d)). rewrite split_abs_path by done.
    rewrite filter_cons_False by auto. rewrite filter_names by done. simpl. by rewrite app_nil_r.
Qed.

(** ** The directory part of a relative path *)

Lemma clean_elems_dot rooted es1 es2 acc :
  clean_elems rooted (es1 ++ "." :: es2) acc = clean_elems rooted (es1 ++ es2) acc.
Proof.
  revert acc. induction es1 as [|e es1 IH]; intros acc; [done|]. cbn [app clean_elems].
  rewrite !IH. destruct acc as [|p acc]; [|rewrite !IH]; done.
Qed.

Lemma Dir_join q c :
  Forall name_ok q → name_ok c →
  Dir (Join (q ++ [c]) "/") = match q with [] => "." | _ => Join q "/" end.
Proof.
  intros Hq Hc. unfold Dir.
  rewrite split_Join_slash by (try (by destruct q); by apply Forall_app, conj, Forall_singleton).
  destruct q as [|x q]; [done|]. destruct ((x :: q) ++ [c]) as [|y [|z l]] eqn:E; [done|by destruct q|].
  rewrite <- E, removelast_last.
  change (Join (x :: q) "/" ++ "/") with (Join (x :: q) "/" ++ "/"%char :: []).
  assert (Hrel : HasPrefix (Join (x :: q) "/" ++ "/"%char :: []) "/" = false).
  { destruct (HasPrefix _ _) eqn:Hp; [|done]. exfalso. apply Forall_cons_1 in Hq as [(Hx & _ & _ & Hm) _].
    apply HasPrefix_iff in Hp as [r Hr]. destruct x as [|a x]; [done|].
    apply mem_false in Hm. apply Hm. destruct q; simpl in Hr; injection Hr as -> _; by left. }
  unfold Clean. rewrite Hrel, split_on_cat, split_Join_slash by done.
  rewrite clean_elems_names.
  2: { apply Forall_app. split; [by apply names_or_empty|by repeat constructor; left]. }
  rewrite filter_app, filter_names by done. cbn [rev app].
  change (filter (λ e : gostring, e ≠ []) (split_on "/" [])) with ([] : list gostring).
  rewrite app_nil_r. destruct (str_eqb (Join (x :: q) "/") []) eqn:Ee; [|done].
  apply str_eqb_eq in Ee. apply Forall_cons_1 in Hq as [[Hx _] _]. destruct x; [done|].
  by destruct q.
Qed.

(** A directory joined with the directory part of a relative path and more names. *)
Lemma join_Dir d q c es :
  Forall name_ok d → Forall name_ok q → name_ok c → Forall name_ok es →
  path_join (abs_path d :: Dir (Join (q ++ [c]) "/") :: es) = abs_path (d ++ q ++ es).
Proof.
  intros Hd Hq Hc He. rewrite Dir_join by done. destruct q as [|x q].
  - rewrite <- join_names by (try done; by rewrite app_nil_l). cbn [app path_join].
    change (str_eqb (abs_path d) []) with false. cbv iota. unfold Clean.
    rewrite !(proj2 (HasPrefix_iff _ _)) by (destruct es; by eexists). cbv iota. f_equal. f_equal.
    change (Join (abs_path d :: "." :: es) "/")
      with (abs_path d ++ "/"%char :: Join ("." :: es) "/").
    rewrite split_on_cat. destruct es as [|e es].
    + change (split_on "/" (Join ["."] "/")) with (["."] : list gostring).
      by rewrite clean_elems_dot, app_nil_r.
    + change (Join ("." :: e :: es) "/") with (("." : gostring) ++ "/"%char :: Join (e :: es) "/").
      rewrite split_on_cat. change (split_on "/" ".") with (["."] : list gostring).
      cbn [app]. rewrite clean_elems_dot.
      change (Join (abs_path d :: e :: es) "/")
        with (abs_path d ++ "/"%char :: Join (e :: es) "/").
      by rewrite split_on_cat.
  - rewrite <- join_names by (try done; by apply Forall_app). cbn [path_join].
    change (str_eqb (abs_path d) []) with false. cbv iota. f_equal.
    change (Join (abs_path d :: (x :: q) ++ es) "/")
      with (abs_path d ++ "/"%char :: Join ((x :: q) ++ es) "/").
    change (Join (abs_path d :: Join (x :: q) "/" :: es) "/")
      with (abs_path d ++ "/"%char :: Join (Join (x :: q) "/" :: es) "/").
    f_equal. f_equal. destruct es as [|e es]; [by rewrite app_nil_r|]. clear.
    change (Join (Join (x :: q) "/" :: e :: es) "/") with (Join (x :: q) "/" ++ "/" ++ Join (e :: es) "/").
    revert x. induction q as [|y q IH]; intros x; [done|].
    change (Join ((x :: y :: q) ++ e :: es) "/") with (x ++ "/" ++ Join ((y :: q) ++ e :: es) "/").
    rewrite <- IH. change (Join (x :: y :: q) "/") with (x ++ "/" ++ Join (y :: q) "/").
    by rewrite <- !app_assoc.
Qed.
