(* ===== verification/Preflight.v ===== *)
(** * Host tools (internal/preflight/check.go)

    [checkTools] looks every binary up once and reports all that are missing in
    one message.  [lookPath] stands for the host: whether exec.LookPath finds a
    binary in $PATH. *)

From Stdlib Require Import Ascii String Lia.
From stdpp Require Import base list gmap strings sorting.
From S2P Require Import Prelude GoStrings GoNumbers GoSort.

Record Tool : Type := MkTool {
  Binary : gostring;
  AptPackage : gostring;
  UsedForStep : gostring }.

Definition cloudTools : list Tool :=
  [ MkTool "unshare" "util-linux"
      "sandbox: izolacja namespace mount/PID/UTS dla operacji w chroot";
    MkTool "dpkg-deb" "dpkg"
      "toolchain: rozpakowywanie .deb narzedzi build-time bez instalacji na hoscie" ].

Definition isoTools : list Tool :=
  [ MkTool "mksquashfs" "squashfs-tools" "build iso: pakowanie rootfs do filesystem.squashfs";
    MkTool "grub-mkrescue" "grub-pc-bin lub grub-efi-amd64-bin"
      "build iso: budowa hybrydowego ISO BIOS+UEFI";
    MkTool "xorriso" "xorriso"
      "build iso: tworzenie obrazu ISO (uzywane wewnetrznie przez grub-mkrescue)" ].

Section check.
Variable lookPath : gostring → bool.

(** The first loop: the missing tools in order, each binary looked up once. *)
Fixpoint missing_tools (tools : list Tool) (seen : gset gostring) : list Tool :=
  match tools with
  | [] => []
  | t :: tools' =>
      if bool_decide (Binary t ∈ seen) then missing_tools tools' seen
      else
        let seen' := {[ Binary t ]} ∪ seen in
        if lookPath (Binary t) then missing_tools tools' seen'
        else t :: missing_tools tools' seen'
  end.

(** [%-16s]: padded on the right to sixteen runes. *)
Definition pad16 (s : gostring) : gostring := s ++ Repeat " " (16 - length (runes s)).

Definition tool_line (t : Tool) : gostring :=
  "  - " ++ pad16 (Binary t) ++ " (uzywane przez: " ++ UsedForStep t ++ ")" ++ [NL].

(** The last loop: each package once, in order. *)
Fixpoint packages (tools : list Tool) (seenPkg : gset gostring) : list gostring :=
  match tools with
  | [] => []
  | t :: tools' =>
      if bool_decide (AptPackage t ∈ seenPkg) then packages tools' seenPkg
      else AptPackage t :: packages tools' ({[ AptPackage t ]} ∪ seenPkg)
  end.

Definition report (missing : list Tool) : gostring :=
  "brakuje " ++ dec_of_nat (length missing) ++ " wymaganych narzedzi w $PATH:" ++ [NL]
  ++ concat (map tool_line missing)
  ++ [NL] ++ "Zainstaluj brakujace pakiety:" ++ [NL] ++ "  sudo apt install"
  ++ concat (map (λ p, " " ++ p) (packages missing ∅)).

(** The tools an error names, sorted; the code's [sort.Slice]. *)
Definition reported (tools : list Tool) : list Tool := sort_by Binary (missing_tools tools ∅).

(** The error, if any. *)
Definition checkTools (tools : list Tool) : option gostring :=
  match missing_tools tools ∅ with
  | [] => None
  | missing => Some (report (sort_by Binary missing))
  end.

Definition CheckCloud : option gostring := checkTools cloudTools.
Definition CheckIso : option gostring := checkTools isoTools.
Definition CheckAll : option gostring := checkTools (cloudTools ++ isoTools).

(** ** Lemmas *)

Lemma missing_tools_spec tools seen t :
  t ∈ missing_tools tools seen →
  t ∈ tools ∧ Binary t ∉ seen ∧ lookPath (Binary t) = false.
Proof.
  revert seen. induction tools as [|t0 tools IH]; intros seen; simpl;
    [by intros ?%not_elem_of_nil|].
  destruct (bool_decide (Binary t0 ∈ seen)) eqn:E.
  { intros (? & ? & ?)%IH. split_and!; [by right|done..]. }
  apply bool_decide_eq_false in E. destruct (lookPath (Binary t0)) eqn:El.
  - intros (? & ? & ?)%IH. split_and!; [by right|set_solver|done].
  - intros [->|(? & ? & ?)%IH]%elem_of_cons; [split_and!; [by left|done..]|].
    split_and!; [by right|set_solver|done].
Qed.

Lemma missing_tools_complete tools seen t :
  t ∈ tools → Binary t ∉ seen → lookPath (Binary t) = false →
  Binary t ∈ map Binary (missing_tools tools seen).
Proof.
  revert seen. induction tools as [|t0 tools IH]; intros seen Hin Hs Hl;
    [by apply not_elem_of_nil in Hin|]. simpl.
  apply elem_of_cons in Hin as [->|Hin].
  - rewrite bool_decide_eq_false_2 by done. rewrite Hl. simpl. by left.
  - destruct (bool_decide (Binary t0 ∈ seen)); [by apply IH|].
    destruct (decide (Binary t0 = Binary t)) as [E|Hne].
    + rewrite E, Hl. simpl. rewrite E. by left.
    + assert (Hs' : Binary t ∉ {[ Binary t0 ]} ∪ seen) by set_solver.
      destruct (lookPath (Binary t0)); [by apply IH|]. simpl. right. by apply IH.
Qed.

Lemma missing_tools_NoDup tools seen : NoDup (map Binary (missing_tools tools seen)).
Proof.
  revert seen. induction tools as [|t0 tools IH]; intros seen; simpl; [constructor|].
  destruct (bool_decide (Binary t0 ∈ seen)); [done|].
  destruct (lookPath (Binary t0)); [done|]. simpl. constructor; [|done].
  intros (t & E & Hin)%list_elem_of_In%in_map_iff. apply list_elem_of_In in Hin.
  apply missing_tools_spec in Hin as (_ & Hni & _). set_solver.
Qed.

Lemma packages_spec tools seen p :
  p ∈ packages tools seen ↔ p ∉ seen ∧ p ∈ map AptPackage tools.
Proof.
  revert seen. induction tools as [|t tools IH]; intros seen; simpl.
  { split; [by intros ?%not_elem_of_nil|by intros [_ ?%not_elem_of_nil]]. }
  destruct (bool_decide (AptPackage t ∈ seen)) eqn:E.
  - apply bool_decide_eq_true in E. rewrite IH, elem_of_cons.
    split; intros [? H]; split; auto. destruct H; [by subst|done].
  - apply bool_decide_eq_false in E. rewrite !elem_of_cons, IH, elem_of_union, elem_of_singleton.
    destruct (decide (p = AptPackage t)); naive_solver.
Qed.

Lemma packages_NoDup tools seen : NoDup (packages tools seen).
Proof.
  revert seen. induction tools as [|t tools IH]; intros seen; simpl; [constructor|].
  destruct (bool_decide (AptPackage t ∈ seen)); [done|]. constructor; [|done].
  rewrite packages_spec. intros [H _]. apply H, elem_of_union. left. by apply elem_of_singleton.
Qed.

Lemma missing_tools_nil tools seen :
  missing_tools tools seen = [] ↔
  ∀ t, t ∈ tools → Binary t ∉ seen → lookPath (Binary t) = true.
Proof.
  split.
  - intros E t Hin Hs. destruct (lookPath (Binary t)) eqn:El; [done|].
    pose proof (missing_tools_complete tools seen t Hin Hs El) as Hm. rewrite E in Hm.
    by apply not_elem_of_nil in Hm.
  - intros H. destruct (missing_tools tools seen) as [|t l] eqn:E; [done|].
    assert (Ht : t ∈ missing_tools tools seen) by (rewrite E; by left).
    apply missing_tools_spec in Ht as (? & ? & Hf). rewrite H in Hf; done.
Qed.

Lemma checkTools_none tools :
  checkTools tools = None ↔ ∀ t, t ∈ tools → lookPath (Binary t) = true.
Proof.
  unfold checkTools. destruct (missing_tools tools ∅) as [|t l] eqn:E.
  - split; [|done]. intros _ t Hin. by apply (proj1 (missing_tools_nil tools ∅) E t Hin).
  - split; [done|]. intros H. assert (missing_tools tools ∅ = []) as E'.
    { apply missing_tools_nil. auto. }
    congruence.
Qed.

(** ** Claims *)


(** The check of build all passes exactly when the checks of build
    cloud and build iso both pass, so it catches up front what either step
    would. *)
Theorem CheckAll_both : CheckAll = None ↔ CheckCloud = None ∧ CheckIso = None.
Proof.
  unfold CheckAll, CheckCloud, CheckIso. rewrite !checkTools_none.
  setoid_rewrite elem_of_app. naive_solver.
Qed.
End check.
