(* ===== verification/BuildLock.v ===== *)
(** * The lock on a working directory (internal/buildlock/lock.go)

    The host's files are modelled as far as flock(2) sees them: paths name
    inodes, an open file description refers to an inode, and an inode has at
    most one exclusive lock, held by a description.  Processes acquire,
    release and die in any order; two of them never hold the lock of one
    directory, as long as nobody removes the lock file. *)

From Stdlib Require Import Ascii String Lia.
From stdpp Require Import base list gmap strings relations.
From S2P Require Import Prelude GoStrings GoNumbers GoPath.

Definition lockFileName : gostring := ".hackeros-builder.lock".

(** ** The host *)

Record world : Type := World {
  inodes : gmap gostring nat;      (** path to inode *)
  contents : gmap nat gostring;    (** inode to text; removed files keep theirs while open *)
  locks : gmap nat nat;            (** inode to the description that locks it *)
  opened : gmap nat nat }.         (** open file description to inode *)

Definition world0 : world := World ∅ ∅ ∅ ∅.

(** [os.OpenFile(path, O_CREATE|O_RDWR)] *)
Definition open_create (path : gostring) (w : world) : nat * world :=
  let fd := fresh (dom (opened w)) in
  match inodes w !! path with
  | Some i => (fd, World (inodes w) (contents w) (locks w) (<[fd := i]> (opened w)))
  | None =>
      let i := fresh (dom (contents w)) in
      (fd, World (<[path := i]> (inodes w)) (<[i := []]> (contents w)) (locks w)
             (<[fd := i]> (opened w)))
  end.

(** [flock(fd, LOCK_EX|LOCK_NB)]: whether it succeeds. *)
Definition flock_ex (fd : nat) (w : world) : bool * world :=
  match opened w !! fd with
  | None => (false, w)
  | Some i =>
      match locks w !! i with
      | Some fd' => (bool_decide (fd' = fd), w)
      | None => (true, World (inodes w) (contents w) (<[i := fd]> (locks w)) (opened w))
      end
  end.

(** Drop the lock of a description, if it has one. *)
Definition unlock (fd : nat) (w : world) : world :=
  match opened w !! fd with
  | Some i =>
      if bool_decide (locks w !! i = Some fd)
      then World (inodes w) (contents w) (delete i (locks w)) (opened w)
      else w
  | None => w
  end.

(** [close(2)] also drops the lock. *)
Definition close (fd : nat) (w : world) : world :=
  let w' := unlock fd w in
  World (inodes w') (contents w') (locks w') (delete fd (opened w')).

(** [Truncate(0)] and [WriteAt(text, 0)] *)
Definition write_file (fd : nat) (text : gostring) (w : world) : world :=
  match opened w !! fd with
  | Some i => World (inodes w) (<[i := text]> (contents w)) (locks w) (opened w)
  | None => w
  end.

(** ** lock.go *)

Record Lock : Type := MkLock { file : option nat; lock_path : gostring }.

Inductive LockError : Type :=
| CannotCreate (workDir : gostring)
| CannotOpen (lockPath : gostring)
| Busy (workDir lockPath : gostring).

Section lock.
(** Whether the host lets the builder create a directory or open a file. *)
Variables (mkdirOk openOk : gostring → bool).

Definition lockPath_of (workDir : gostring) : gostring := path_join [workDir; lockFileName].

Definition Acquire (pid : nat) (workDir : gostring) : ST world LockError Lock := λ w,
  if negb (mkdirOk workDir) then (Err (CannotCreate workDir), w)
  else
    let lockPath := lockPath_of workDir in
    if negb (openOk lockPath) then (Err (CannotOpen lockPath), w)
    else
      let '(fd, w1) := open_create lockPath w in
      let '(ok, w2) := flock_ex fd w1 in
      if negb ok then (Err (Busy workDir lockPath), close fd w2)
      else (Ok (MkLock (Some fd) lockPath), write_file fd (dec_of_nat pid ++ [NL]) w2).

(** [Release] on a non-nil lock; the lock object afterwards. *)
Definition Release (l : Lock) (w : world) : Lock * world :=
  match file l with
  | None => (l, w)
  | Some fd => (MkLock None (lock_path l), close fd (unlock fd w))
  end.

(** ** Processes *)

Record system : Type := Sys { host : world; held : gmap nat Lock }.

Definition system0 : system := Sys world0 ∅.

Inductive step : system → system → Prop :=
| step_acquire w hs p dir l w' :
    hs !! p = None → Acquire p dir w = (Ok l, w') →
    step (Sys w hs) (Sys w' (<[p := l]> hs))
| step_refused w hs p dir e w' :
    Acquire p dir w = (Err e, w') → step (Sys w hs) (Sys w' hs)
| step_release w hs p l l' w' :
    hs !! p = Some l → Release l w = (l', w') →
    step (Sys w hs) (Sys w' (delete p hs))
| step_die w hs p l fd :
    hs !! p = Some l → file l = Some fd →
    step (Sys w hs) (Sys (close fd w) (delete p hs)).

(** ** The invariant *)

(** Each holder has its own open description, which has the lock of the inode
    its path names. *)
Definition holder_ok (w : world) (l : Lock) : Prop :=
  ∃ fd i, file l = Some fd ∧ opened w !! fd = Some i ∧ locks w !! i = Some fd ∧
          inodes w !! lock_path l = Some i.

(** The part of the invariant that concerns the host alone. *)
Definition host_ok (w : world) : Prop :=
  (∀ path i, inodes w !! path = Some i → i ∈ dom (contents w)) ∧
  (∀ i fd, locks w !! i = Some fd → opened w !! fd = Some i) ∧
  (∀ fd i, opened w !! fd = Some i → i ∈ dom (contents w)).

Definition sys_inv (s : system) : Prop :=
  (∀ p l, held s !! p = Some l → holder_ok (host s) l) ∧
  (∀ p q l l', held s !! p = Some l → held s !! q = Some l' → file l = file l' → p = q) ∧
  host_ok (host s).

(** ** What Acquire does *)

Lemma fresh_opened w : opened w !! fresh (dom (opened w)) = None.
Proof. apply not_elem_of_dom. apply is_fresh. Qed.

Lemma Acquire_ok pid dir w l w' :
  host_ok w → Acquire pid dir w = (Ok l, w') →
  ∃ fd i, l = MkLock (Some fd) (lockPath_of dir) ∧ opened w !! fd = None ∧
    opened w' = <[fd := i]> (opened w) ∧ locks w !! i = None ∧
    locks w' = <[i := fd]> (locks w) ∧
    inodes w' = <[lockPath_of dir := i]> (inodes w) ∧
    (∀ j, inodes w !! lockPath_of dir = Some j → j = i) ∧
    dom (contents w') = {[ i ]} ∪ dom (contents w) ∧
    contents w' !! i = Some (dec_of_nat pid ++ [NL]).
Proof.
  intros (Hin & Hlk & Hop). unfold Acquire, open_create, flock_ex.
  destruct (mkdirOk dir); [|done]. destruct (openOk (lockPath_of dir)); [|done]. cbn [negb].
  set (fd := fresh (dom (opened w))).
  assert (Hfd : opened w !! fd = None) by apply fresh_opened.
  destruct (inodes w !! lockPath_of dir) as [i|] eqn:Ei;
    cbn [opened locks]; rewrite lookup_insert_eq.
  - destruct (locks w !! i) as [fd'|] eqn:El.
    + rewrite bool_decide_eq_false_2; [done|]. intros ->. apply Hlk in El. congruence.
    + cbn [negb]. intros [= <- <-]. exists fd, i. unfold write_file. cbn [opened].
      rewrite lookup_insert_eq. cbn [opened inodes contents locks]. split_and!; try done.
      * symmetry. by apply insert_id.
      * naive_solver.
      * by rewrite dom_insert_L.
      * by rewrite lookup_insert_eq.
  - set (i := fresh (dom (contents w))).
    assert (Hi : i ∉ dom (contents w)) by apply is_fresh.
    destruct (locks w !! i) as [fd'|] eqn:El.
    { exfalso. apply Hi. apply Hlk in El. by apply Hop in El. }
    cbn [negb]. intros [= <- <-]. exists fd, i. unfold write_file. cbn [opened].
    rewrite lookup_insert_eq. cbn [opened inodes contents locks]. split_and!; try done.
    + rewrite !dom_insert_L. set_solver.
    + by rewrite lookup_insert_eq.
Qed.

(** A refused acquisition leaves the host as it was. *)
Lemma Acquire_err pid dir w e w' :
  host_ok w → Acquire pid dir w = (Err e, w') → w' = w.
Proof.
  intros (Hin & Hlk & Hop). unfold Acquire, open_create, flock_ex.
  destruct (mkdirOk dir); [|by intros [= _ <-]].
  destruct (openOk (lockPath_of dir)); [|by intros [= _ <-]]. cbn [negb].
  set (fd := fresh (dom (opened w))).
  assert (Hfd : opened w !! fd = None) by apply fresh_opened.
  destruct (inodes w !! lockPath_of dir) as [i|] eqn:Ei;
    cbn [opened locks]; rewrite lookup_insert_eq.
  - destruct (locks w !! i) as [fd'|] eqn:El; [|done].
    destruct (bool_decide (fd' = fd)) eqn:Ed; [done|]. apply bool_decide_eq_false in Ed.
    cbn [negb]. intros [= _ <-]. unfold close, unlock. cbn [opened locks].
    rewrite lookup_insert_eq, El, bool_decide_eq_false_2 by congruence.
    cbn [opened locks inodes contents]. rewrite delete_insert_id by done. by destruct w.
  - set (i := fresh (dom (contents w))). destruct (locks w !! i) as [fd'|] eqn:El; [|done].
    exfalso. assert (Hi : i ∉ dom (contents w)) by apply is_fresh.
    apply Hi. apply Hlk in El. by apply Hop in El.
Qed.

(** While a description holds the lock of a path, nobody acquires it. *)
Lemma Acquire_busy pid dir w i fd :
  host_ok w → mkdirOk dir = true → openOk (lockPath_of dir) = true →
  inodes w !! lockPath_of dir = Some i → locks w !! i = Some fd →
  Acquire pid dir w = (Err (Busy dir (lockPath_of dir)), w).
Proof.
  intros Hw Hm Ho Hi Hl. destruct (Acquire pid dir w) as [[l|e| |] w'] eqn:E.
  - apply Acquire_ok in E as (fd' & i' & _ & _ & _ & Hn & _ & _ & Hj & _); [|done].
    apply Hj in Hi. congruence.
  - pose proof (Acquire_err _ _ _ _ _ Hw E) as ->. unfold Acquire in E. rewrite Hm, Ho in E.
    cbn [negb] in E. destruct (open_create _ _) as [? w1]. destruct (flock_ex _ w1) as [[] w2];
      cbn [negb] in E; by simplify_eq.
  - unfold Acquire in E. repeat split_match_in E; simplify_eq.
  - unfold Acquire in E. repeat split_match_in E; simplify_eq.
Qed.

(** A lock file that is not there is made and locked. *)
Lemma Acquire_free pid dir w :
  host_ok w → mkdirOk dir = true → openOk (lockPath_of dir) = true →
  inodes w !! lockPath_of dir = None → ∃ l w', Acquire pid dir w = (Ok l, w').
Proof.
  intros (Hin & Hlk & Hop) Hm Ho Hn. unfold Acquire, open_create, flock_ex. rewrite Hm, Ho, Hn.
  cbn [negb opened locks]. rewrite lookup_insert_eq. set (i := fresh (dom (contents w))).
  destruct (locks w !! i) as [fd|] eqn:El; [|by eexists _, _]. exfalso.
  assert (Hi : i ∉ dom (contents w)) by apply is_fresh. apply Hi. apply Hlk in El. by apply Hop in El.
Qed.

(** ** Releasing *)

(** The host after the holder [fd] of inode [i] lets go. *)
Definition dropped (fd i : nat) (w : world) : world :=
  World (inodes w) (contents w) (delete i (locks w)) (delete fd (opened w)).

Lemma close_holder fd i w :
  opened w !! fd = Some i → locks w !! i = Some fd → close fd w = dropped fd i w.
Proof. intros Ho Hl. unfold close, unlock. by rewrite Ho, bool_decide_eq_true_2. Qed.

Lemma Release_holder fd i path w :
  opened w !! fd = Some i → locks w !! i = Some fd →
  Release (MkLock (Some fd) path) w = (MkLock None path, dropped fd i w).
Proof.
  intros Ho Hl. unfold Release. cbn [file lock_path]. f_equal.
  unfold close, unlock. rewrite Ho, bool_decide_eq_true_2 by done. cbn [opened locks].
  rewrite Ho, lookup_delete_eq. by rewrite bool_decide_eq_false_2.
Qed.

Lemma host_ok_dropped fd i w :
  host_ok w → opened w !! fd = Some i → locks w !! i = Some fd → host_ok (dropped fd i w).
Proof.
  intros (Hin & Hlk & Hop) Ho Hl. unfold host_ok, dropped. cbn [inodes contents locks opened].
  split_and!.
  - done.
  - intros j fd' [Hne Hj]%lookup_delete_Some. apply lookup_delete_Some.
    apply Hlk in Hj as Hj'. split; [|done]. intros ->. congruence.
  - intros fd' j [_ Hj]%lookup_delete_Some. eauto.
Qed.

Lemma drop_inv w hs p l fd i :
  sys_inv (Sys w hs) → hs !! p = Some l → file l = Some fd → opened w !! fd = Some i →
  locks w !! i = Some fd → sys_inv (Sys (dropped fd i w) (delete p hs)).
Proof.
  intros (Hold & Huniq & Hw) Hp Hf Ho Hl. unfold sys_inv. cbn [host held] in *. split_and!.
  - intros q l' [Hne Hq]%lookup_delete_Some.
    destruct (Hold q l' Hq) as (fd' & i' & Hf' & Ho' & Hl' & Hi').
    assert (fd ≠ fd').
    { intros ->. apply Hne. apply (Huniq p q l l'); [done..|congruence]. }
    exists fd', i'. unfold dropped. cbn [inodes opened locks]. split_and!; try done.
    + by rewrite lookup_delete_ne.
    + rewrite lookup_delete_ne; [done|]. intros ->. congruence.
  - intros q r lq lr [_ Hq]%lookup_delete_Some [_ Hr]%lookup_delete_Some. by apply Huniq.
  - by apply host_ok_dropped.
Qed.

(** ** Preservation *)

Lemma acquire_inv w hs p dir l w' :
  sys_inv (Sys w hs) → hs !! p = None → Acquire p dir w = (Ok l, w') →
  sys_inv (Sys w' (<[p := l]> hs)).
Proof.
  intros (Hold & Huniq & Hw) Hp Ha. cbn [host held] in *.
  destruct (Acquire_ok p dir w l w' Hw Ha)
    as (fd & i & -> & Hfd & Hopened & Hnone & Hlocks & Hinodes & Hsame & Hdom & _).
  assert (Hother : ∀ q lq, hs !! q = Some lq → holder_ok w' lq ∧ file lq ≠ Some fd).
  { intros q lq Hq. destruct (Hold q lq Hq) as (fd' & i' & Hf' & Ho' & Hl' & Hi').
    assert (fd' ≠ fd) by congruence. split; [|congruence].
    exists fd', i'. rewrite Hopened, Hlocks, Hinodes. split_and!; try done.
    - by rewrite lookup_insert_ne.
    - rewrite lookup_insert_ne; [done|]. intros ->. congruence.
    - destruct (decide (lock_path lq = lockPath_of dir)) as [E|Hne].
      + rewrite E, lookup_insert_eq. rewrite E in Hi'. by rewrite (Hsame _ Hi').
      + by rewrite lookup_insert_ne. }
  unfold sys_inv. cbn [host held]. split_and!.
  - intros q lq [[<- <-]|[_ Hq]]%lookup_insert_Some; [|by apply (Hother q)].
    exists fd, i. cbn [file lock_path]. rewrite Hopened, Hlocks, Hinodes.
    by rewrite !lookup_insert_eq.
  - intros q r lq lr [[<- <-]|[? Hq]]%lookup_insert_Some [[<- <-]|[? Hr]]%lookup_insert_Some E;
      cbn [file] in E; [done|..|by eapply Huniq].
    + by destruct (Hother r lr Hr).
    + destruct (Hother q lq Hq). congruence.
  - destruct Hw as (Hin & Hlk & Hop). unfold host_ok. rewrite Hopened, Hlocks, Hinodes, Hdom.
    split_and!.
    + intros path j [[<- <-]|[_ Hj]]%lookup_insert_Some; [set_solver|]. apply Hin in Hj. set_solver.
    + intros j fd' [[<- <-]|[_ Hj]]%lookup_insert_Some; [by rewrite lookup_insert_eq|].
      rewrite lookup_insert_ne; [by apply Hlk|]. intros <-. apply Hlk in Hj. congruence.
    + intros fd' j [[<- <-]|[_ Hj]]%lookup_insert_Some; [set_solver|]. apply Hop in Hj. set_solver.
Qed.

Lemma step_inv s s' : step s s' → sys_inv s → sys_inv s'.
Proof.
  intros [w hs p dir l w' Hp Ha|w hs p dir e w' Ha|w hs p l l' w' Hp Hr|w hs p l fd Hp Hf] Hinv.
  - by eapply acquire_inv.
  - destruct Hinv as (? & ? & Hw). by rewrite (Acquire_err _ _ _ _ _ Hw Ha).
  - destruct Hinv as (Hold & ? & ?) eqn:?. destruct (Hold p l Hp) as (fd & i & Hf & Ho & Hl & _).
    destruct l as [f path]. simpl in Hf. subst f. rewrite (Release_holder fd i) in Hr by done.
    injection Hr as <- <-. by eapply drop_inv.
  - destruct Hinv as (Hold & ? & ?) eqn:?. destruct (Hold p l Hp) as (fd' & i & Hf' & Ho & Hl & _).
    simplify_eq. cbn [host] in *. rewrite (close_holder fd i) by done. by eapply drop_inv.
Qed.

Lemma reachable_inv s : rtc step system0 s → sys_inv s.
Proof.
  intros H. remember system0 as s0 eqn:E. assert (Hinv : sys_inv s0).
  { subst. unfold sys_inv, host_ok. cbn [host held system0 world0 inodes contents locks opened].
    split_and!; intros *; by rewrite lookup_empty. }
  clear E. induction H; [done|]. eauto using step_inv.
Qed.

(** ** Claims *)

(** C10.  Mutual exclusion: in every state reachable by acquiring, being
    refused, releasing and dying, two processes hold the locks of two different
    directories. *)
Theorem lock_exclusive s p q l l' :
  rtc step system0 s → held s !! p = Some l → held s !! q = Some l' → p ≠ q →
  lock_path l ≠ lock_path l'.
Proof.
  intros Hr Hp Hq Hne E. apply reachable_inv in Hr as (Hold & Huniq & _).
  destruct (Hold p l Hp) as (fd & i & Hf & _ & Hl & Hi).
  destruct (Hold q l' Hq) as (fd' & i' & Hf' & _ & Hl' & Hi').
  apply Hne. apply (Huniq p q l l'); [done..|]. congruence.
Qed.

(** While some process holds the lock of a directory, every attempt to
    acquire it, by another process or by the same one again, is refused at
    once as busy and changes nothing. *)
Theorem lock_not_reentrant s p l q dir :
  rtc step system0 s → held s !! p = Some l → lock_path l = lockPath_of dir →
  mkdirOk dir = true → openOk (lockPath_of dir) = true →
  Acquire q dir (host s) = (Err (Busy dir (lockPath_of dir)), host s).
Proof.
  intros Hr Hp Hd Hm Ho. apply reachable_inv in Hr as (Hold & _ & Hw).
  destruct (Hold p l Hp) as (fd & i & _ & _ & Hl & Hi). rewrite Hd in Hi.
  by eapply Acquire_busy.
Qed.

(** C34.  After a release the directory can be acquired again by anyone, the
    lock file then names the new holder's process, and releasing the same lock
    object twice does nothing more. *)
Theorem lock_released s p l q dir l' w :
  rtc step system0 s → held s !! p = Some l → lock_path l = lockPath_of dir →
  mkdirOk dir = true → openOk (lockPath_of dir) = true →
  Release l (host s) = (l', w) →
  Release l' w = (l', w) ∧
  ∃ l2 w2 i, Acquire q dir w = (Ok l2, w2) ∧ lock_path l2 = lockPath_of dir ∧
    inodes w2 !! lockPath_of dir = Some i ∧ contents w2 !! i = Some (dec_of_nat q ++ [NL]).
Proof.
  intros Hr Hp Hd Hm Ho Hrel. apply reachable_inv in Hr as Hinv.
  pose proof Hinv as (Hold & _ & Hw). destruct (Hold p l Hp) as (fd & i & Hf & Hop & Hl & Hi).
  destruct l as [f path]. simpl in *. subst f path.
  rewrite (Release_holder fd i) in Hrel by done. injection Hrel as <- <-. split; [done|].
  pose proof (host_ok_dropped fd i (host s) Hw Hop Hl) as Hw'.
  destruct (Acquire q dir (dropped fd i (host s))) as [[l2|e| |] w2] eqn:E.
  - apply Acquire_ok in E as (fd2 & i2 & -> & _ & _ & _ & _ & Hin & _ & _ & Hc); [|done].
    exists (MkLock (Some fd2) (lockPath_of dir)), w2, i2. split_and!; try done.
    by rewrite Hin, lookup_insert_eq.
  - exfalso. unfold Acquire, open_create, flock_ex in E. rewrite Hm, Ho in E. cbn [negb] in E.
    unfold dropped in E at 1. cbn [inodes] in E. rewrite Hi in E. cbn [opened locks] in E.
    rewrite lookup_insert_eq in E. unfold dropped in E at 1. cbn [locks] in E.
    by rewrite lookup_delete_eq in E.
  - unfold Acquire in E. repeat split_match_in E; simplify_eq.
  - unfold Acquire in E. repeat split_match_in E; simplify_eq.
Qed.
End lock.

(** ** Witnesses *)

Abbreviation yes := (λ _ : gostring, true).

Definition acquired (p : nat) (dir : gostring) (s : system) : system :=
  match Acquire yes yes p dir (host s) with
  | (Ok l, w) => Sys w (<[p := l]> (held s))
  | (_, w) => Sys w (held s)
  end.

(** Process 1 builds in /a and process 2 in /b. *)
Definition two_builds : system := acquired 2 "/b" (acquired 1 "/a" system0).

Lemma two_builds_reachable : rtc (step yes yes) system0 two_builds.
Proof.
  apply (rtc_l _ _ (acquired 1 "/a" system0)); [|apply rtc_once].
  - apply (step_acquire yes yes world0 ∅ 1 "/a"); vm_compute; reflexivity.
  - apply (step_acquire yes yes (host (acquired 1 "/a" system0))
             (held (acquired 1 "/a" system0)) 2 "/b"); vm_compute; reflexivity.
Qed.

Lemma lock_exclusive_witness :
  ∃ l l', held two_builds !! 1 = Some l ∧ held two_builds !! 2 = Some l' ∧
          lock_path l ≠ lock_path l'.
Proof.
  eexists _, _. split; [vm_compute; reflexivity|]. split; [vm_compute; reflexivity|].
  apply (lock_exclusive yes yes two_builds 1 2); [exact two_builds_reachable|
    vm_compute; reflexivity|vm_compute; reflexivity|discriminate].
Defined.

Lemma lock_not_reentrant_witness :
  Acquire yes yes 1 "/a" (host two_builds) =
    (Err (Busy "/a" "/a/.hackeros-builder.lock"), host two_builds).
Proof.
  apply (lock_not_reentrant yes yes two_builds 1
           (MkLock (Some 0) "/a/.hackeros-builder.lock") 1 "/a");
    [exact two_builds_reachable|vm_compute; reflexivity..].
Defined.

Lemma lock_released_witness :
  let w := snd (Release (MkLock (Some 0) "/a/.hackeros-builder.lock") (host two_builds)) in
  ∃ l2 w2 i, Acquire yes yes 3 "/a" w = (Ok l2, w2) ∧
    lock_path l2 = "/a/.hackeros-builder.lock" ∧
    inodes w2 !! ("/a/.hackeros-builder.lock" : gostring) = Some i ∧
    contents w2 !! i = Some ("3" ++ [NL]).
Proof.
  intros w.
  destruct (lock_released yes yes two_builds 1 (MkLock (Some 0) "/a/.hackeros-builder.lock")
              3 "/a" (MkLock None "/a/.hackeros-builder.lock") w) as [_ H];
    [exact two_builds_reachable|vm_compute; reflexivity..|exact H].
Defined.
