(* ===== verification/Sha256.v ===== *)
(** * SHA-256 (the crypto/sha256 package) and hexadecimal text

    The compression function on 32-bit words as numbers modulo 2^32, used by
    the download check; two published test vectors evaluate. *)

From Stdlib Require Import Ascii String ZArith NArith Lia.
From stdpp Require Import base list strings.
From S2P Require Import Prelude GoStrings.

#[local] Open Scope N_scope.

Definition w32 (x : N) : N := x mod 2 ^ 32.
Definition add32 (x y : N) : N := w32 (x + y).
Definition rotr (n x : N) : N := N.lor (N.shiftr x n) (w32 (N.shiftl x (32 - n))).
Definition not32 (x : N) : N := N.lxor x (2 ^ 32 - 1).

Definition ch (x y z : N) : N := N.lxor (N.land x y) (N.land (not32 x) z).
Definition maj (x y z : N) : N := N.lxor (N.lxor (N.land x y) (N.land x z)) (N.land y z).
Definition bsig0 (x : N) : N := N.lxor (N.lxor (rotr 2 x) (rotr 13 x)) (rotr 22 x).
Definition bsig1 (x : N) : N := N.lxor (N.lxor (rotr 6 x) (rotr 11 x)) (rotr 25 x).
Definition ssig0 (x : N) : N := N.lxor (N.lxor (rotr 7 x) (rotr 18 x)) (N.shiftr x 3).
Definition ssig1 (x : N) : N := N.lxor (N.lxor (rotr 17 x) (rotr 19 x)) (N.shiftr x 10).

(** The constants come from the first primes: the round constants are the
    first 32 bits of the fractional parts of the cube roots of the first 64, the
    initial state those of the square roots of the first 8. *)
Definition is_prime (n : N) : bool :=
  forallb (λ d, negb (n mod N.of_nat d =? 0)) (seq 2 (N.to_nat (N.sqrt n) - 1)).

Definition primes : list N :=
  List.filter is_prime (map N.of_nat (seq 2 310)).

(** The largest [r] of [bits] bits with [r ^ 3 <= n], above [acc]. *)
Fixpoint cube_root (bits : nat) (n acc : N) : N :=
  match bits with
  | O => acc
  | S b =>
      let r := acc + 2 ^ N.of_nat b in
      cube_root b n (if r * r * r <=? n then r else acc)
  end.

Definition round_constants : list N :=
  Eval vm_compute in map (λ p, w32 (cube_root 36 (p * 2 ^ 96) 0)) primes.

Definition initial : list N :=
  Eval vm_compute in map (λ p, w32 (N.sqrt (p * 2 ^ 64))) (take 8 primes).

(** A word in big-endian bytes, and back. *)
Definition byte_of (x : N) : ascii := ascii_of_N (x mod 256).
Definition word_bytes (x : N) : gostring :=
  [byte_of (N.shiftr x 24); byte_of (N.shiftr x 16); byte_of (N.shiftr x 8); byte_of x].

Fixpoint words_of (bs : gostring) : list N :=
  match bs with
  | a :: b :: c :: d :: bs' =>
      (N_of_ascii a * 2 ^ 24 + N_of_ascii b * 2 ^ 16 + N_of_ascii c * 2 ^ 8 + N_of_ascii d)
      :: words_of bs'
  | _ => []
  end.

(** Message schedule: [rev_w] holds the words so far, latest first. *)
Fixpoint schedule (n : nat) (rev_w : list N) : list N :=
  match n with
  | O => rev rev_w
  | S n' =>
      let w i := nth i rev_w 0 in
      schedule n' (w32 (ssig1 (w 1%nat) + w 6%nat + ssig0 (w 14%nat) + w 15%nat) :: rev_w)
  end.

Definition sha_round (st : list N) (kw : N * N) : list N :=
  match st with
  | [a; b; c; d; e; f; g; h] =>
      let t1 := w32 (h + bsig1 e + ch e f g + fst kw + snd kw) in
      let t2 := add32 (bsig0 a) (maj a b c) in
      [add32 t1 t2; a; b; c; add32 d t1; e; f; g]
  | _ => st
  end.

Definition compress (st : list N) (block : list N) : list N :=
  zip_with add32 st
    (fold_left sha_round (combine round_constants (schedule 48 (rev block))) st).

Definition padding (len : nat) : gostring :=
  let zeros := Nat.modulo (64 - Nat.modulo (len + 9) 64) 64 in
  let bits := N.of_nat len * 8 in
  [ascii_of_N 128] ++ replicate zeros (ascii_of_N 0)
  ++ word_bytes (N.shiftr bits 32) ++ word_bytes bits.

Fixpoint blocks (n : nat) (ws : list N) : list (list N) :=
  match n with
  | O => []
  | S n' => match ws with [] => [] | _ => take 16 ws :: blocks n' (drop 16 ws) end
  end.

(** [sha256.Sum256] *)
Definition Sum256 (data : gostring) : gostring :=
  let ws := words_of (data ++ padding (length data)) in
  flat_map word_bytes (fold_left compress (blocks (length ws) ws) initial).

(** [hex.EncodeToString] *)
Definition hex_digit (n : N) : ascii :=
  nth (N.to_nat n) (list_ascii_of_string "0123456789abcdef") "0"%char.

Definition EncodeToString (bs : gostring) : gostring :=
  flat_map (λ b, [hex_digit (N_of_ascii b / 16); hex_digit (N_of_ascii b mod 16)]) bs.

Example sha256_empty :
  EncodeToString (Sum256 []) =
  "e3b0c44298fc1c149afbf4c8996fb92427ae41e4649b934ca495991b7852b855".
Proof. vm_compute. reflexivity. Qed.

Example sha256_abc :
  EncodeToString (Sum256 "abc") =
  "ba7816bf8f01cfea414140de5dae2223b00361a396177a9cb410ff61f20015ad".
Proof. vm_compute. reflexivity. Qed.

Example sha256_two_blocks :
  EncodeToString (Sum256 "abcdbcdecdefdefgefghfghighijhijkijkljklmklmnlmnomnopnopq") =
  "248d6a61d20638b8e5c026930c3e6039a33ce45964ff2167f6ecedd419db06c1".
Proof. vm_compute. reflexivity. Qed.
