(* ===== verification/LiveParse.v ===== *)
(** * The project directory (internal/liveparse/project.go)

    [Parse] reads the live-build layout under config/: package lists, hooks,
    includes and archives.  The host's files are the argument [host].  What a
    list file lists is said apart from the code, by its lines ([listed]). *)

From Stdlib Require Import Ascii String Lia.
From stdpp Require Import base list gmap strings sorting.
From S2P Require Import Prelude GoStrings GoNumbers GoSort GoPath.

(** ** The host's files *)

Record DirEntry : Type := Entry { ename : gostring; eisdir : bool }.

(** [os.ReadDir]: the entries, or that the directory is missing or unreadable. *)
Inductive dir_read : Type :=
| DirMissing
| DirFailed
| DirEntries (es : list DirEntry).

Record Host : Type := MkHost {
  stat_dir : gostring → bool;
  read_dir : gostring → dir_read;
  read_file : gostring → option gostring }.

(** ** Data *)

Record HookScript : Type := Hook { hname : gostring; hpath : gostring }.

Record Project : Type := MkProject {
  RootDir : gostring;
  Packages : list gostring;
  Hooks : list HookScript;
  IncludesChroot : gostring;
  ExtraSources : list gostring;
  ExtraKeys : list gostring }.

Inductive ProjectError : Type :=
| NoConfigDir (dir : gostring)
| CannotReadDir (dir : gostring)
| CannotParseList (path : gostring)
| CannotReadFile (path : gostring).

Section parse.
Variable host : Host.

(** The lines of a list file that are neither blank nor comments, trimmed. *)
Definition list_lines (data : gostring) : list gostring :=
  filter (λ line, str_eqb line [] || HasPrefix line "#" = false)
    (map TrimSpace (split_on NL data)).

Definition readPackageListFile (path : gostring) : res ProjectError (list gostring) :=
  match read_file host path with
  | None => Err (CannotParseList path)
  | Some data => Ok (flat_map Fields (list_lines data))
  end.

Definition readLines (path : gostring) : res ProjectError (list gostring) :=
  match read_file host path with
  | None => Err (CannotReadFile path)
  | Some data => Ok (list_lines data)
  end.

(** Names not seen before, in order. *)
Fixpoint add_new (names : list gostring) (seen : gset gostring) (packages : list gostring)
    : gset gostring * list gostring :=
  match names with
  | [] => (seen, packages)
  | n :: names' =>
      if bool_decide (n ∈ seen) then add_new names' seen packages
      else add_new names' ({[ n ]} ∪ seen) (packages ++ [n])
  end.

Fixpoint read_lists (dir : gostring) (es : list DirEntry) (seen : gset gostring)
    (packages : list gostring) : res ProjectError (list gostring) :=
  match es with
  | [] => Ok packages
  | e :: es' =>
      if eisdir e || negb (HasSuffix (ename e) ".list.chroot")
      then read_lists dir es' seen packages
      else
        let? names := readPackageListFile (path_join [dir; ename e]) in
        let '(seen', packages') := add_new names seen packages in
        read_lists dir es' seen' packages'
  end.

Definition parsePackageLists (configDir : gostring) : res ProjectError (list gostring) :=
  let dir := path_join [configDir; "package-lists"] in
  match read_dir host dir with
  | DirMissing => Ok []
  | DirFailed => Err (CannotReadDir dir)
  | DirEntries es => let? packages := read_lists dir es ∅ [] in Ok (sort_strings packages)
  end.

Definition is_hook (e : DirEntry) : bool :=
  negb (eisdir e || negb (HasSuffix (ename e) ".hook.chroot")).

Definition parseHooks (configDir : gostring) : res ProjectError (list HookScript) :=
  let dir := path_join [configDir; "hooks"; "normal"] in
  match read_dir host dir with
  | DirMissing => Ok []
  | DirFailed => Err (CannotReadDir dir)
  | DirEntries es =>
      Ok (sort_by hname
            (map (λ e, Hook (ename e) (path_join [dir; ename e]))
                 (filter (λ e, is_hook e = true) es)))
  end.

Definition parseIncludesChroot (configDir : gostring) : gostring :=
  let dir := path_join [configDir; "includes.chroot"] in
  if stat_dir host dir then dir else [].

Fixpoint read_archives (dir : gostring) (es : list DirEntry)
    : res ProjectError (list gostring * list gostring) :=
  match es with
  | [] => Ok ([], [])
  | e :: es' =>
      if eisdir e then read_archives dir es'
      else
        let path := path_join [dir; ename e] in
        if HasSuffix (ename e) ".list.chroot" then
          let? lines := readLines path in
          let? more := read_archives dir es' in
          Ok (lines ++ fst more, snd more)
        else if HasSuffix (ename e) ".key.chroot" then
          let? more := read_archives dir es' in
          Ok (fst more, path :: snd more)
        else read_archives dir es'
  end.

Definition parseArchives (configDir : gostring)
    : res ProjectError (list gostring * list gostring) :=
  let dir := path_join [configDir; "archives"] in
  match read_dir host dir with
  | DirMissing => Ok ([], [])
  | DirFailed => Err (CannotReadDir dir)
  | DirEntries es => read_archives dir es
  end.

Definition Parse (root : gostring) : res ProjectError Project :=
  let configDir := path_join [root; "config"] in
  if negb (stat_dir host configDir) then Err (NoConfigDir configDir)
  else
    let? packages := parsePackageLists configDir in
    let? hooks := parseHooks configDir in
    let includes := parseIncludesChroot configDir in
    let? archives := parseArchives configDir in
    Ok (MkProject root packages hooks includes (fst archives) (snd archives)).

Definition Summary (p : Project) : gostring :=
  "Pakietow do instalacji:  " ++ dec_of_nat (length (Packages p)) ++ [NL]
  ++ "Hookow do wykonania:     " ++ dec_of_nat (length (Hooks p)) ++ [NL]
  ++ (if negb (str_eqb (IncludesChroot p) [])
      then "includes.chroot:         " ++ IncludesChroot p ++ [NL]
      else "includes.chroot:         (brak)" ++ [NL])
  ++ "Dodatkowych zrodel apt:  " ++ dec_of_nat (length (ExtraSources p)) ++ [NL]
  ++ "Dodatkowych kluczy GPG:  " ++ dec_of_nat (length (ExtraKeys p)) ++ [NL].

(** ** Lemmas *)

Lemma add_new_spec names : ∀ seen packages,
  (∀ n, n ∈ seen ↔ n ∈ packages) → NoDup packages →
  let r := add_new names seen packages in
  (∀ n, n ∈ fst r ↔ n ∈ snd r) ∧ NoDup (snd r) ∧
  ∀ n, n ∈ snd r ↔ n ∈ packages ∨ n ∈ names.
Proof.
  induction names as [|x names IH]; intros seen packages Hs Hnd; simpl.
  { split_and!; try done. intros n. rewrite elem_of_nil. naive_solver. }
  destruct (bool_decide (x ∈ seen)) eqn:E.
  - apply bool_decide_eq_true in E. destruct (IH seen packages Hs Hnd) as (H1 & H2 & H3).
    split_and!; try done. intros n. rewrite H3, elem_of_cons. apply Hs in E. naive_solver.
  - apply bool_decide_eq_false in E.
    destruct (IH ({[ x ]} ∪ seen) (packages ++ [x])) as (H1 & H2 & H3).
    + intros n. rewrite elem_of_union, elem_of_singleton, elem_of_app, list_elem_of_singleton, Hs.
      tauto.
    + apply NoDup_app. split_and!; [done| |apply NoDup_singleton].
      intros y Hy ->%list_elem_of_singleton. by apply E, Hs.
    + split_and!; try done. intros n. rewrite H3, elem_of_app, list_elem_of_singleton, elem_of_cons.
      tauto.
Qed.

(** ** The format of a list, declaratively *)

(** [line] is a line of the text: a stretch without line ends between two of
    them, or between one and the start or the end of the text. *)
Definition line_of (data line : gostring) : Prop :=
  mem NL line = false ∧
  ∃ pre post, data = pre ++ line ++ post ∧
    (pre = [] ∨ ∃ pre', pre = pre' ++ [NL]) ∧ (post = [] ∨ ∃ post', post = NL :: post').

(** The first character that is not blank is a number sign. *)
Definition is_comment (line : gostring) : Prop := ∃ rest, TrimSpace line = "#"%char :: rest.

(** The text has the word [n] on a line that is not a comment. *)
Definition lists_word (data n : gostring) : Prop :=
  ∃ line, line_of data line ∧ ¬ is_comment line ∧ n ∈ Fields (TrimSpace line).

(** [n] is listed in a package list among [es]. *)
Definition listed (dir : gostring) (es : list DirEntry) (n : gostring) : Prop :=
  ∃ e data, e ∈ es ∧ eisdir e = false ∧ HasSuffix (ename e) ".list.chroot" = true ∧
    read_file host (path_join [dir; ename e]) = Some data ∧ lists_word data n.

Lemma line_of_split data line : line ∈ split_on NL data ↔ line_of data line.
Proof.
  split.
  - intros (l1 & l2 & Hs)%list_elem_of_split. pose proof (Join_split NL data) as Hj.
    assert (Hno : ∀ l, l ∈ split_on NL data → mem NL l = false).
    { intros l Hl. exact (split_on_free NL data l Hl). }
    split; [apply Hno; rewrite Hs; set_solver|]. rewrite Hs in Hj. revert Hj. clear Hs Hno.
    intros <-. destruct l1 as [|a l1]; [|rewrite Join_app_cons by done].
    + exists [], (match l2 with [] => [] | _ => NL :: Join l2 [NL] end).
      split_and!; [|by left|destruct l2; [by left|right; eauto]].
      destruct l2; cbn [app Join]; [by rewrite app_nil_r|done].
    + exists (Join (a :: l1) [NL] ++ [NL]), (match l2 with [] => [] | _ => NL :: Join l2 [NL] end).
      split_and!; [|right; eauto|destruct l2; [by left|right; eauto]].
      destruct l2; cbn [Join]; rewrite <- !app_assoc; cbn [app]; [by rewrite app_nil_r|done].
  - intros (Hl & pre & post & -> & Hpre & Hpost).
    assert (Hp : line ∈ split_on NL (line ++ post)).
    { destruct Hpost as [->|(post' & ->)].
      - rewrite app_nil_r, split_on_notin by done. by left.
      - rewrite split_on_app by done. by left. }
    destruct Hpre as [->|(pre' & ->)]; [done|]. rewrite <- app_assoc. cbn [app].
    rewrite split_on_cat. apply elem_of_app. by right.
Qed.

(** What the loop over the lines collects is what the format lists. *)
Lemma list_words data n : In n (flat_map Fields (list_lines data)) ↔ lists_word data n.
Proof.
  unfold list_lines, lists_word. rewrite in_flat_map. split.
  - intros (l & Hl%list_elem_of_In & Hn%list_elem_of_In).
    apply list_elem_of_filter in Hl as [Hc (line & -> & Hline)%list_elem_of_fmap].
    exists line. split_and!; [by apply line_of_split| |done]. intros (rest & Hr).
    apply orb_false_iff in Hc as [_ Hc]. rewrite Hr in Hc.
    assert (Hp : HasPrefix ("#"%char :: rest) "#" = true) by (apply HasPrefix_iff; by exists rest).
    congruence.
  - intros (line & Hline & Hc & Hn). exists (TrimSpace line).
    rewrite <- !list_elem_of_In. split; [|done]. apply list_elem_of_filter. split.
    + apply orb_false_iff. split.
      * apply str_eqb_neq. intros E. rewrite E in Hn. by apply elem_of_nil in Hn.
      * destruct (HasPrefix (TrimSpace line) "#") eqn:E; [|done]. exfalso. apply Hc.
        apply HasPrefix_iff in E as [rest E]. by exists rest.
    + apply list_elem_of_fmap. exists line. split; [done|]. by apply line_of_split.
Qed.

Lemma read_lists_spec dir es : ∀ seen packages out,
  (∀ n, n ∈ seen ↔ n ∈ packages) → NoDup packages →
  read_lists dir es seen packages = Ok out →
  NoDup out ∧ ∀ n, n ∈ out ↔ n ∈ packages ∨ listed dir es n.
Proof.
  induction es as [|e es IH]; intros seen packages out Hs Hnd; cbn [read_lists].
  { intros [= <-]. split; [done|]. intros n. split; [by left|].
    intros [?|(e & _ & He & _)]; [done|by apply not_elem_of_nil in He]. }
  destruct (eisdir e || negb (HasSuffix (ename e) ".list.chroot")) eqn:Eskip.
  - intros H. destruct (IH _ _ _ Hs Hnd H) as [? Hiff]. split; [done|]. intros n. rewrite Hiff.
    split; intros [?|(e' & d & He & Hrest)]; [by left| |by left|].
    + right. exists e', d. split; [by right|done].
    + right. apply elem_of_cons in He as [->|He]; [|by exists e', d].
      destruct Hrest as (Hd & Hsuf & _). rewrite Hd, Hsuf in Eskip. done.
  - breflect. unfold readPackageListFile.
    destruct (read_file host (path_join [dir; ename e])) as [data|] eqn:Ef; [|done].
    cbn [res_bind]. pose proof (add_new_spec (flat_map Fields (list_lines data)) _ _ Hs Hnd) as Hadd.
    destruct (add_new (flat_map Fields (list_lines data)) seen packages) as [seen' packages'].
    cbn [fst snd] in Hadd. destruct Hadd as (Hs' & Hnd' & Hin). intros H'.
    destruct (IH _ _ _ Hs' Hnd' H') as [? Hiff]. split; [done|]. intros n. rewrite Hiff, Hin.
    rewrite (list_elem_of_In (flat_map Fields (list_lines data)) n), list_words. split.
    + intros [[?|Hn]|(e' & d & He & Hrest)]; [by left|right|right].
      * exists e, data. split_and!; try done. by left.
      * exists e', d. split; [by right|done].
    + intros [?|(e' & d & He & Hd & Hsuf & Hf & Hn)]; [by left; left|].
      apply elem_of_cons in He as [->|He]; [|right; by exists e', d]. left. right.
      by simplify_eq.
Qed.

(** ** Claims *)

(** C38.  The packages of a parsed project are exactly the words on the lines
    of its package lists that are not comments, a comment being a line whose
    first character that is not blank is a number sign; each package once, in
    strictly increasing order.  A number sign further in a line is a word like
    any other, and so is what follows it. *)
Theorem packages_correct root p :
  Parse root = Ok p →
  let dir := path_join [path_join [root; "config"]; "package-lists"] in
  StronglySorted (λ a b, str_ltb a b = true) (Packages p) ∧
  ∀ n, n ∈ Packages p ↔
    match read_dir host dir with DirEntries es => listed dir es n | _ => False end.
Proof.
  intros H dir. unfold Parse in H. destruct (stat_dir host (path_join [root; "config"])); [|done].
  cbn [negb] in H. apply res_bind_Ok in H as (packages & Hp & H).
  apply res_bind_Ok in H as (hooks & _ & H). apply res_bind_Ok in H as (ar & _ & [= <-]).
  cbn [Packages]. unfold parsePackageLists in Hp. fold dir in Hp.
  destruct (read_dir host dir) as [| |es]; [|done|].
  { injection Hp as <-. split; [constructor|]. intros n. by rewrite elem_of_nil. }
  apply res_bind_Ok in Hp as (out & Hout & [= <-]).
  apply read_lists_spec in Hout as [Hnd Hin]; [|intros n; set_solver|constructor].
  assert (Hperm : sort_strings out ≡ₚ out) by apply sort_by_perm.
  split.
  - assert (Hs : StronglySorted (key_le id) (sort_strings out)) by apply sort_by_sorted.
    rewrite <- Hperm in Hnd. clear -Hs Hnd.
    induction Hs as [|a l Hl IH Ha]; [constructor|]. apply NoDup_cons in Hnd as [Hni Hnd].
    constructor; [by apply IH|]. apply Forall_forall. intros b Hb.
    rewrite Forall_forall in Ha. specialize (Ha b Hb). unfold key_le, str_le, id in Ha.
    destruct (str_ltb a b) eqn:E; [done|]. exfalso. apply Hni.
    by rewrite (str_ltb_total a b E Ha).
  - intros n. rewrite Hperm, Hin, elem_of_nil. naive_solver.
Qed.

(** The hooks of a parsed project are exactly the hook scripts of
    hooks/normal, with their paths, in the order of their names. *)
Theorem hooks_correct root p :
  Parse root = Ok p →
  let dir := path_join [path_join [root; "config"]; "hooks"; "normal"] in
  StronglySorted (key_le hname) (Hooks p) ∧
  Hooks p ≡ₚ match read_dir host dir with
             | DirEntries es =>
                 map (λ e, Hook (ename e) (path_join [dir; ename e]))
                     (filter (λ e, is_hook e = true) es)
             | _ => []
             end.
Proof.
  intros H dir. unfold Parse in H. destruct (stat_dir host (path_join [root; "config"])); [|done].
  cbn [negb] in H. apply res_bind_Ok in H as (packages & _ & H).
  apply res_bind_Ok in H as (hooks & Hh & H). apply res_bind_Ok in H as (ar & _ & [= <-]).
  cbn [Hooks]. unfold parseHooks in Hh. fold dir in Hh.
  destruct (read_dir host dir) as [| |es]; [|done|]; injection Hh as <-.
  - split; [constructor|done].
  - split; [apply sort_by_sorted|apply sort_by_perm].
Qed.
End parse.

(** ** Witness: a small project *)

Definition sample_host : Host :=
  MkHost (λ d, str_eqb d "/p/config")
    (λ d, if str_eqb d "/p/config/package-lists" then
            DirEntries [Entry "a.list.chroot" false; Entry "b.list.chroot" false; Entry "note" false]
          else if str_eqb d "/p/config/hooks/normal" then
            DirEntries [Entry "0200-b.hook.chroot" false; Entry "0100-a.hook.chroot" false]
          else DirMissing)
    (λ f, if str_eqb f "/p/config/package-lists/a.list.chroot"
          then Some ("vim  curl" ++ [NL] ++ "# comment" ++ [NL])
          else if str_eqb f "/p/config/package-lists/b.list.chroot" then Some ("curl" ++ [NL] ++ "bash")
          else None).

Definition sample_project : Project :=
  MkProject "/p" ["bash" : gostring; "curl"; "vim"]
    [Hook "0100-a.hook.chroot" "/p/config/hooks/normal/0100-a.hook.chroot";
     Hook "0200-b.hook.chroot" "/p/config/hooks/normal/0200-b.hook.chroot"] [] [] [].

Lemma sample_parses : Parse sample_host "/p" = Ok sample_project.
Proof. vm_compute. reflexivity. Qed.

(** A number sign does not end a line. *)
Example comment_inside : flat_map Fields (list_lines "vim # editor") = ["vim"; "#"; "editor"] :> list gostring.
Proof. vm_compute. reflexivity. Qed.

Lemma packages_correct_witness :
  StronglySorted (λ a b, str_ltb a b = true) (Packages sample_project) ∧
  ∀ n, n ∈ Packages sample_project ↔
    match read_dir sample_host "/p/config/package-lists" with
    | DirEntries es => listed sample_host "/p/config/package-lists" es n
    | _ => False
    end.
Proof. exact (packages_correct sample_host "/p" sample_project sample_parses). Defined.

Lemma hooks_correct_witness :
  StronglySorted (key_le hname) (Hooks sample_project) ∧
  Hooks sample_project ≡ₚ
    map (λ e, Hook (ename e) (path_join ["/p/config/hooks/normal"; ename e]))
        (filter (λ e, is_hook e = true)
           [Entry "0200-b.hook.chroot" false; Entry "0100-a.hook.chroot" false]).
Proof. exact (hooks_correct sample_host "/p" sample_project sample_parses). Defined.
