(* ===== verification/GoQuote.v ===== *)
(** * Quoted strings

    [strconv.Quote], which [%q] prints, and how a POSIX shell reads a word in
    double quotes: the two agree on paths of ordinary characters. *)

From Stdlib Require Import Ascii String NArith Lia.
From stdpp Require Import base list strings.
From S2P Require Import Prelude GoStrings Sha256.

Section quote.
(** [unicode.IsPrint] of a rune beyond ASCII, given by its code point. *)
Variable IsPrint : N → bool.

Definition hex_byte (c : ascii) : gostring :=
  [hex_digit (N_of_ascii c / 16); hex_digit (N_of_ascii c mod 16)].

Fixpoint hex_fixed (width : nat) (n : N) : gostring :=
  match width with
  | O => []
  | S w => hex_fixed w (n / 16) ++ [hex_digit (n mod 16)]
  end.

Definition low6 (c : ascii) : N := N.land (N_of_ascii c) 63.

Definition rune_value (r : gostring) : N :=
  (match r with
   | [c] => N_of_ascii c
   | [c; d] => N.land (N_of_ascii c) 31 * 64 + low6 d
   | [c; d; e] => (N.land (N_of_ascii c) 15 * 64 + low6 d) * 64 + low6 e
   | [c; d; e; g] => ((N.land (N_of_ascii c) 7 * 64 + low6 d) * 64 + low6 e) * 64 + low6 g
   | _ => 0
   end)%N.

Definition quote_rune (r : gostring) : gostring :=
  let v := rune_value r in
  if IsPrint v then r
  else if (v <? 65536)%N then [BSL; "u"%char] ++ hex_fixed 4 v
  else [BSL; "U"%char] ++ hex_fixed 8 v.

Definition quote_byte (c : ascii) : gostring := [BSL; "x"%char] ++ hex_byte c.

Definition quote_ascii (c : ascii) : gostring :=
  if Ascii.eqb c DQ || Ascii.eqb c BSL then [BSL; c]
  else if between 32 126 c then [c]
  else match code c with
       | 7 => [BSL; "a"%char] | 8 => [BSL; "b"%char] | 9 => [BSL; "t"%char]
       | 10 => [BSL; "n"%char] | 11 => [BSL; "v"%char] | 12 => [BSL; "f"%char]
       | 13 => [BSL; "r"%char]
       | _ => quote_byte c
       end.

Fixpoint quote_body (s : gostring) : gostring :=
  match s with
  | [] => []
  | c :: s1 =>
      if is_ascii c then quote_ascii c ++ quote_body s1 else
      match s1 with
      | [] => quote_byte c
      | d :: s2 =>
          if between 194 223 c && cont d then quote_rune [c; d] ++ quote_body s2 else
          match s2 with
          | [] => quote_byte c ++ quote_body s1
          | e :: s3 =>
              if between 224 239 c && second_ok c d && cont e
              then quote_rune [c; d; e] ++ quote_body s3 else
              match s3 with
              | [] => quote_byte c ++ quote_body s1
              | g :: s4 =>
                  if between 240 244 c && second_ok c d && cont e && cont g
                  then quote_rune [c; d; e; g] ++ quote_body s4
                  else quote_byte c ++ quote_body s1
              end
          end
      end
  end.

Definition Quote (s : gostring) : gostring := [DQ] ++ quote_body s ++ [DQ].

(** ** Double quotes in a shell *)

(** After the opening quote: the word up to the closing one and what follows.
    A backslash quotes only a dollar, a backquote, a quote, a backslash or a
    newline, which it removes; a dollar or backquote starts an expansion, which
    is not followed here. *)
Fixpoint sh_dquoted (s : gostring) : option (gostring * gostring) :=
  let grow c r := match r with Some (w, rest) => Some (c :: w, rest) | None => None end in
  match s with
  | [] => None
  | c :: s1 =>
      if Ascii.eqb c DQ then Some ([], s1)
      else if Ascii.eqb c "$" || Ascii.eqb c "`" then None
      else if Ascii.eqb c BSL then
        match s1 with
        | [] => None
        | d :: s2 =>
            if Ascii.eqb d "$" || Ascii.eqb d "`" || Ascii.eqb d DQ || Ascii.eqb d BSL
            then grow d (sh_dquoted s2)
            else if Ascii.eqb d NL then sh_dquoted s2
            else grow c (sh_dquoted s1)
        end
      else grow c (sh_dquoted s1)
  end.

(** Characters that mean themselves to both. *)
Definition shell_plain (c : ascii) : bool :=
  between 32 126 c && negb (Ascii.eqb c "$") && negb (Ascii.eqb c "`").

Lemma sh_dquoted_plain c s :
  shell_plain c = true →
  sh_dquoted (quote_ascii c ++ s) =
    match sh_dquoted s with Some (w, rest) => Some (c :: w, rest) | None => None end.
Proof.
  unfold shell_plain, quote_ascii. intros H. breflect.
  destruct (Ascii.eqb c DQ) eqn:Edq; cbn [orb].
  { apply Ascii.eqb_eq in Edq as ->. reflexivity. }
  destruct (Ascii.eqb c BSL) eqn:Ebs.
  { apply Ascii.eqb_eq in Ebs as ->. reflexivity. }
  rewrite H. cbn [app sh_dquoted].
  rewrite Edq, Ebs.
  by rewrite (proj2 (Ascii.eqb_neq c "$")), (proj2 (Ascii.eqb_neq c "`")).
Qed.

(** A quoted path of such characters reads back as itself. *)
Lemma sh_dquoted_Quote s rest :
  forallb shell_plain s = true → sh_dquoted (quote_body s ++ DQ :: rest) = Some (s, rest).
Proof.
  induction s as [|c s IH]; intros Hs; [reflexivity|]. simpl in Hs. breflect.
  assert (Ha : is_ascii c = true).
  { unfold shell_plain in H. breflect. unfold between, is_ascii in *. breflect.
    apply Nat.ltb_lt. lia. }
  cbn [quote_body]. rewrite Ha, <- app_assoc, sh_dquoted_plain by done. by rewrite IH.
Qed.
End quote.
