(* ===== verification/Fs.v ===== *)
(** * Files of the host

    A file system as the build sees it: paths lead through directories and
    symbolic links to directory entries; regular files are inodes that several
    entries may share.  The operations are those of the os package on Linux,
    run by root on a disk that does not fill up: what fails is what the
    structure of the tree forbids. *)

From Stdlib Require Import Ascii String Lia.
From stdpp Require Import base list gmap strings.
From S2P Require Import Prelude GoStrings GoSort GoPath.

(** ** State *)

(** The elements of an absolute path; the root is the empty list. *)
Abbreviation path := (list gostring).

Inductive special : Type := CharDevice | BlockDevice | Fifo | Socket.

(** Directory entries; permission bits are the low twelve bits of a mode. *)
Inductive dent : Type :=
| DDir (mode : N) (owner : nat)
| DFile (ino : nat)
| DSym (target : gostring)
| DSpecial (k : special) (mode : N).

Record inode : Type := Inode { idata : gostring; imode : N; iowner : nat }.

Record fsys : Type := Fs { dents : gmap path dent; files : gmap nat inode }.

Inductive errno : Type := ENOENT | ENOTDIR | EEXIST | EISDIR | ELOOP | ENOTEMPTY | EPERM | ENXIO | EINVAL.

#[export] Instance errno_eq_dec : EqDecision errno.
Proof. solve_decision. Defined.
#[export] Instance special_eq_dec : EqDecision special.
Proof. solve_decision. Defined.
#[export] Instance dent_eq_dec : EqDecision dent.
Proof. solve_decision. Defined.

Abbreviation FsM := (ST fsys errno).

Definition set_dents (d : gmap path dent) (s : fsys) : fsys := Fs d (files s).

Definition is_dir (d : dent) : bool := match d with DDir _ _ => true | _ => false end.

(** ** Path resolution *)

(** Linux gives up after forty symbolic links. *)
Definition max_links : nat := 40.

(** Follow [todo] from the directory [cur]; the last element is followed when
    it is a link only if [follow] is set.  The result may not exist, but its
    parent is a directory. *)
Fixpoint resolve_from (links : nat) (s : fsys) (follow : bool)
    : path → list gostring → res errno path :=
  fix go (cur : path) (todo : list gostring) : res errno path :=
    match todo with
    | [] => Ok cur
    | c :: todo' =>
        if str_eqb c [] || str_eqb c "." then go cur todo'
        else if str_eqb c ".." then go (removelast cur) todo'
        else
          let p := cur ++ [c] in
          let last := match todo' with [] => true | _ => false end in
          match dents s !! p with
          | Some (DDir _ _) => go p todo'
          | Some (DSym t) =>
              if last && negb follow then Ok p
              else
                match links with
                | O => Err ELOOP
                | S links' =>
                    resolve_from links' s follow (if HasPrefix t "/" then [] else cur)
                      (split_on "/" t ++ todo')
                end
          | Some _ => if last then Ok p else Err ENOTDIR
          | None => if last then Ok p else Err ENOENT
          end
    end.

Definition resolve (s : fsys) (follow : bool) (name : gostring) : res errno path :=
  resolve_from max_links s follow [] (split_on "/" name).

(** ** Operations *)

(** The entry at a path: none is ENOENT. *)
Definition lookup_at (s : fsys) (follow : bool) (name : gostring) : res errno dent :=
  let? p := resolve s follow name in
  match p with
  | [] => Ok (DDir 493 0)
  | _ => match dents s !! p with Some d => Ok d | None => Err ENOENT end
  end.

Definition Stat (s : fsys) (name : gostring) : res errno dent := lookup_at s true name.
Definition Lstat (s : fsys) (name : gostring) : res errno dent := lookup_at s false name.

(** Whether [q] lies strictly below [p]. *)
Definition below (p q : path) : Prop := ∃ c r, q = p ++ c :: r.

#[export] Instance below_dec p q : Decision (below p q).
Proof.
  refine (cast_if (decide (take (length p) q = p ∧ drop (length p) q ≠ []))).
  - destruct a as [E Hd]. destruct (drop (length p) q) as [|c r] eqn:Er; [done|].
    exists c, r. by rewrite <- (take_drop (length p) q), E, Er at 1.
  - intros (c & r & ->). apply n. by rewrite take_app_length, drop_app_length.
Defined.

(** Permission bits of a new file and of a new directory: those that were asked
    for and the umask has not; mkdir(2) drops set-user-id and set-group-id. *)
Definition file_mode (umask perm : N) : N := N.ldiff (N.land perm 4095) umask.
Definition dir_mode (umask perm : N) : N := N.ldiff (N.land perm 1023) umask.

Section operations.
Variable umask : N.

Definition insert_new (p : path) (d : dent) (s : fsys) : res errno fsys :=
  match p with
  | [] => Err EEXIST
  | _ => match dents s !! p with
         | Some _ => Err EEXIST
         | None => Ok (set_dents (<[p := d]> (dents s)) s)
         end
  end.

Definition lift_fs (f : fsys → res errno fsys) : FsM unit :=
  λ s, match f s with
       | Ok s' => (Ok tt, s')
       | Err e => (Err e, s)
       | Panic => (Panic, s)
       | OutOfFuel => (OutOfFuel, s)
       end.

Definition Mkdir (name : gostring) (perm : N) : FsM unit :=
  lift_fs (λ s, let? p := resolve s false name in
                insert_new p (DDir (dir_mode umask perm) 0) s).

(** [os.MkdirAll] of the elements [rp], last first, of an absolute path. *)
Fixpoint mkdir_all (rp : list gostring) (perm : N) : FsM unit :=
  λ s,
    let name := "/" ++ Join (rev rp) "/" in
    match Stat s name with
    | Ok d => if is_dir d then (Ok tt, s) else (Err ENOTDIR, s)
    | Err e =>
        match rp with
        | [] => (Err e, s)
        | _ :: rp' =>
            (mkdir_all rp' perm ;;
             λ s1, match Mkdir name perm s1 with
                   | (Err e', s2) =>
                       match Lstat s2 name with
                       | Ok (DDir _ _) => (Ok tt, s2)
                       | _ => (Err e', s2)
                       end
                   | r => r
                   end) s
        end
    | Panic => (Panic, s)
    | OutOfFuel => (OutOfFuel, s)
    end.

(** The elements of a clean absolute path. *)
Definition elems (name : gostring) : path := filter (λ e : gostring, e ≠ []) (split_on "/" name).

Definition MkdirAll (name : gostring) (perm : N) : FsM unit := mkdir_all (rev (elems name)) perm.

(** [os.OpenFile(name, O_CREATE|O_TRUNC|O_WRONLY, perm)], [io.Copy] and
    [Close]. *)
Definition write_new (name data : gostring) (perm : N) : FsM unit :=
  lift_fs (λ s,
    let? p := resolve s true name in
    match p with
    | [] => Err EISDIR
    | _ =>
        match dents s !! p with
        | Some (DFile i) =>
            match files s !! i with
            | Some n => Ok (Fs (dents s) (<[i := Inode data (imode n) (iowner n)]> (files s)))
            | None => Panic
            end
        | Some (DDir _ _) => Err EISDIR
        | Some (DSym _) => Err ELOOP
        | Some (DSpecial Socket _) => Err ENXIO
        | Some (DSpecial Fifo _) => OutOfFuel     (* waits for a reader *)
        | Some (DSpecial _ _) => Ok s             (* the data go to the device *)
        | None =>
            let i := fresh (dom (files s)) in
            Ok (Fs (<[p := DFile i]> (dents s)) (<[i := Inode data (file_mode umask perm) 0]> (files s)))
        end
    end).

Definition Symlink (target name : gostring) : FsM unit :=
  lift_fs (λ s, let? p := resolve s false name in insert_new p (DSym target) s).

(** [os.Link]: another entry for what the old name names, links not followed. *)
Definition Link (old name : gostring) : FsM unit :=
  lift_fs (λ s,
    let? d := Lstat s old in
    if is_dir d then Err EPERM
    else let? p := resolve s false name in insert_new p d s).

(** [os.Remove] *)
Definition Remove (name : gostring) : FsM unit :=
  lift_fs (λ s,
    let? p := resolve s false name in
    match dents s !! p with
    | None => Err ENOENT
    | Some d =>
        if is_dir d && bool_decide (map_Exists (λ q _, below p q) (dents s)) then Err ENOTEMPTY
        else Ok (set_dents (delete p (dents s)) s)
    end).

(** Remove [p] and everything below it. *)
Definition prune (p : path) (s : fsys) : fsys :=
  set_dents (filter (λ e, e.1 ≠ p ∧ ¬ below p e.1) (dents s)) s.

(** [os.RemoveAll]: a missing path is not an error. *)
Definition RemoveAll (name : gostring) : FsM unit :=
  lift_fs (λ s,
    match resolve s false name with
    | Ok [] => Err EPERM
    | Ok p => Ok (prune p s)
    | Err ENOENT => Ok s
    | Err e => Err e
    | Panic => Panic
    | OutOfFuel => OutOfFuel
    end).

(** The names in a directory, in any order; [os.ReadDir] fails on anything else. *)
Definition child_names (p : path) (s : fsys) : list gostring :=
  omap (λ e, match drop (length p) e.1 with
             | [c] => if bool_decide (take (length p) e.1 = p) then Some c else None
             | _ => None
             end) (map_to_list (dents s)).

Definition ReadDir (s : fsys) (name : gostring) : res errno (list gostring) :=
  let? p := resolve s true name in
  match p, dents s !! p with
  | [], _ | _, Some (DDir _ _) => Ok (child_names p s)
  | _, Some _ => Err ENOTDIR
  | _, None => Err ENOENT
  end.

(** [os.ReadDir] with the kind and the permission bits of each entry, links not
    followed, sorted by name. *)
Definition dent_mode (s : fsys) (d : dent) : N :=
  match d with
  | DDir m _ => m
  | DFile i => match files s !! i with Some n => imode n | None => 0%N end
  | DSym _ => 511
  | DSpecial _ m => m
  end.

Definition ReadDirEntries (s : fsys) (name : gostring) : res errno (list (gostring * dent)) :=
  let? names := ReadDir s name in
  let? p := resolve s true name in
  Ok (omap (λ c, match dents s !! (p ++ [c]) with Some d => Some (c, d) | None => None end)
        (sort_strings names)).

(** [os.ReadFile].  Reading a pipe waits for a writer and reading a device need
    not end. *)
Definition ReadFile (s : fsys) (name : gostring) : res errno gostring :=
  let? d := Stat s name in
  match d with
  | DFile i => match files s !! i with Some n => Ok (idata n) | None => Panic end
  | DDir _ _ => Err EISDIR
  | DSym _ => Err ELOOP
  | DSpecial Socket _ => Err ENXIO
  | DSpecial _ _ => OutOfFuel
  end.

Definition Readlink (s : fsys) (name : gostring) : res errno gostring :=
  let? d := Lstat s name in
  match d with DSym t => Ok t | _ => Err EINVAL end.

(** [os.Chmod], which follows links. *)
Definition Chmod (name : gostring) (mode : N) : FsM unit :=
  lift_fs (λ s,
    let? p := resolve s true name in
    match p with
    | [] => Ok s
    | _ =>
        match dents s !! p with
        | Some (DDir _ o) => Ok (set_dents (<[p := DDir mode o]> (dents s)) s)
        | Some (DFile i) =>
            match files s !! i with
            | Some n => Ok (Fs (dents s) (<[i := Inode (idata n) mode (iowner n)]> (files s)))
            | None => Panic
            end
        | Some (DSpecial k _) => Ok (set_dents (<[p := DSpecial k mode]> (dents s)) s)
        | Some (DSym _) => Err ELOOP
        | None => Err ENOENT
        end
    end).

(** Move the entry [p] and all below it to [q]. *)
Definition moved (p q : path) (d : gmap path dent) : gmap path dent :=
  let here := filter (λ e, e.1 = p ∨ below p e.1) d in
  let rest := filter (λ e, ¬ (e.1 = p ∨ below p e.1) ∧ e.1 ≠ q) d in
  list_to_map (map (λ e, (q ++ drop (length p) e.1, e.2)) (map_to_list here)) ∪ rest.

(** [os.Rename]: a file replaces a file, a directory an empty directory. *)
Definition Rename (old new : gostring) : FsM unit :=
  lift_fs (λ s,
    let? p := resolve s false old in
    let? q := resolve s false new in
    match dents s !! p with
    | None => Err ENOENT
    | Some d =>
        if bool_decide (p = q) then Ok s
        else if bool_decide (below p q) then Err EINVAL
        else
          match dents s !! q with
          | None => Ok (set_dents (moved p q (dents s)) s)
          | Some e =>
              if is_dir e && negb (is_dir d) then Err EISDIR
              else if is_dir d && negb (is_dir e) then Err ENOTDIR
              else if is_dir e && bool_decide (map_Exists (λ x _, below q x) (dents s))
                   then Err ENOTEMPTY
              else Ok (set_dents (moved p q (dents s)) s)
          end
    end).
(** ** Open files *)

(** What an open file refers to. *)
Inductive handle : Type :=
| HFile (ino : nat)
| HDir
| HDevice (p : path).

(** [os.Open].  Opening a pipe waits for a writer. *)
Definition Open (s : fsys) (name : gostring) : res errno handle :=
  let? p := resolve s true name in
  match p, dents s !! p with
  | [], _ | _, Some (DDir _ _) => Ok HDir
  | _, Some (DFile i) => Ok (HFile i)
  | _, Some (DSym _) => Err ELOOP
  | _, Some (DSpecial Socket _) => Err ENXIO
  | _, Some (DSpecial Fifo _) => OutOfFuel
  | _, Some (DSpecial _ _) => Ok (HDevice p)
  | _, None => Err ENOENT
  end.

(** [os.OpenFile(name, O_CREATE|O_TRUNC|O_WRONLY, perm)] *)
Definition OpenFile (name : gostring) (perm : N) : FsM handle := λ s,
  match write_new name [] perm s with
  | (Ok _, s') => (Open s' name, s')
  | (Err e, s') => (Err e, s')
  | (Panic, s') => (Panic, s')
  | (OutOfFuel, s') => (OutOfFuel, s')
  end.

(** All of a file that was just opened.  Reading a device need not end. *)
Definition read_handle (h : handle) (s : fsys) : res errno gostring :=
  match h with
  | HFile i => match files s !! i with Some n => Ok (idata n) | None => Panic end
  | HDir => Err EISDIR
  | HDevice _ => OutOfFuel
  end.

(** Write to a file that was just truncated. *)
Definition write_handle (h : handle) (data : gostring) : FsM unit :=
  lift_fs (λ s,
    match h with
    | HFile i =>
        match files s !! i with
        | Some n => Ok (Fs (dents s) (<[i := Inode data (imode n) (iowner n)]> (files s)))
        | None => Panic
        end
    | HDir => Err EISDIR
    | HDevice _ => Ok s
    end).

(** [File.Chmod] *)
Definition chmod_handle (h : handle) (mode : N) : FsM unit :=
  lift_fs (λ s,
    match h with
    | HFile i =>
        match files s !! i with
        | Some n => Ok (Fs (dents s) (<[i := Inode (idata n) mode (iowner n)]> (files s)))
        | None => Panic
        end
    | HDir => Err EISDIR
    | HDevice p =>
        match dents s !! p with
        | Some (DSpecial k _) => Ok (set_dents (<[p := DSpecial k mode]> (dents s)) s)
        | _ => Panic
        end
    end).

(** [io.Copy(out, in)] *)
Definition copy_handle (out inp : handle) : FsM unit := λ s,
  match read_handle inp s with
  | Ok data => write_handle out data s
  | Err e => (Err e, s)
  | Panic => (Panic, s)
  | OutOfFuel => (OutOfFuel, s)
  end.
End operations.

(** ** Paths without links *)

(** [p] is a directory, reached through directories only. *)
Definition real_dir (s : fsys) (p : path) : Prop :=
  ∀ q, q ≠ [] → q `prefix_of` p → ∃ m o, dents s !! q = Some (DDir m o).

Lemma resolve_cons n s f cur c todo :
  resolve_from n s f cur (c :: todo) =
    if str_eqb c [] || str_eqb c "." then resolve_from n s f cur todo
    else if str_eqb c ".." then resolve_from n s f (removelast cur) todo
    else
      let p := cur ++ [c] in
      let last := match todo with [] => true | _ => false end in
      match dents s !! p with
      | Some (DDir _ _) => resolve_from n s f p todo
      | Some (DSym t) =>
          if last && negb f then Ok p
          else match n with
               | O => Err ELOOP
               | S n' => resolve_from n' s f (if HasPrefix t "/" then [] else cur)
                           (split_on "/" t ++ todo)
               end
      | Some _ => if last then Ok p else Err ENOTDIR
      | None => if last then Ok p else Err ENOENT
      end.
Proof. by destruct n. Qed.

Lemma resolve_name n s f cur c todo :
  name_ok c →
  resolve_from n s f cur (c :: todo) =
    let p := cur ++ [c] in
    let last := match todo with [] => true | _ => false end in
    match dents s !! p with
    | Some (DDir _ _) => resolve_from n s f p todo
    | Some (DSym t) =>
        if last && negb f then Ok p
        else match n with
             | O => Err ELOOP
             | S n' => resolve_from n' s f (if HasPrefix t "/" then [] else cur)
                         (split_on "/" t ++ todo)
             end
    | Some _ => if last then Ok p else Err ENOTDIR
    | None => if last then Ok p else Err ENOENT
    end.
Proof.
  intros (H1 & H2 & H3 & _). rewrite resolve_cons.
  by rewrite (proj2 (str_eqb_neq c [])), (proj2 (str_eqb_neq c ".")),
    (proj2 (str_eqb_neq c "..")).
Qed.

Lemma resolve_through n s f cur p todo :
  Forall name_ok p → real_dir s (cur ++ p) →
  resolve_from n s f cur (p ++ todo) = resolve_from n s f (cur ++ p) todo.
Proof.
  intros Hp. revert cur. induction Hp as [|c p Hc Hp IH]; intros cur Hr; cbn [app].
  { by rewrite app_nil_r. }
  rewrite resolve_name by done. cbv zeta.
  destruct (Hr (cur ++ [c])) as (m & o & ->).
  - by destruct cur.
  - exists p. by rewrite <- app_assoc.
  - rewrite IH by by rewrite <- app_assoc. by rewrite <- app_assoc.
Qed.

Lemma resolve_dir s f p :
  Forall name_ok p → real_dir s p → resolve s f (abs_path p) = Ok p.
Proof.
  intros Hp Hr. unfold resolve. rewrite split_abs_path by done. rewrite resolve_cons.
  cbn [str_eqb orb]. destruct p as [|c p]; [done|].
  rewrite <- (app_nil_r (c :: p)) at 1. by rewrite (resolve_through _ _ _ [] (c :: p)).
Qed.

Lemma resolve_child s f p c :
  Forall name_ok p → name_ok c → real_dir s p →
  f = false ∨ (∀ t, dents s !! (p ++ [c]) ≠ Some (DSym t)) →
  resolve s f (abs_path (p ++ [c])) = Ok (p ++ [c]).
Proof.
  intros Hp Hc Hr Hl. unfold resolve.
  rewrite split_abs_path by by apply Forall_app, conj, Forall_singleton.
  rewrite resolve_cons. cbn [str_eqb orb].
  replace (match p ++ [c] with [] => [[]] | _ => p ++ [c] end) with (p ++ [c]) by by destruct p.
  rewrite (resolve_through _ _ _ [] p) by done. rewrite resolve_name by done. cbn [app].
  destruct (dents s !! (p ++ [c])) as [[]|] eqn:E; try done.
  destruct Hl as [->|Hl]; [done|]. by destruct (Hl target).
Qed.

Lemma real_dir_prefix s p q : real_dir s p → q `prefix_of` p → real_dir s q.
Proof. intros H Hq x Hx Hxq. apply H; [done|]. by etrans. Qed.

Lemma real_dir_snoc s p c m o :
  real_dir s p → dents s !! (p ++ [c]) = Some (DDir m o) → real_dir s (p ++ [c]).
Proof.
  intros H Hd q Hq [r Hr]. destruct r as [|x r _] using rev_ind.
  - rewrite app_nil_r in Hr. subst q. eauto.
  - rewrite app_assoc in Hr. apply app_inj_tail in Hr as [-> ->]. apply H; [done|]. by exists r.
Qed.

Lemma real_dir_mono s s' p :
  real_dir s p → (∀ q, q `prefix_of` p → dents s' !! q = dents s !! q) → real_dir s' p.
Proof. intros H E q Hq Hp. rewrite E by done. by apply H. Qed.

Lemma elems_abs p : Forall name_ok p → elems (abs_path p) = p.
Proof.
  intros Hp. unfold elems. rewrite split_abs_path by done. rewrite filter_cons_False by auto.
  destruct p; [done|by apply filter_names].
Qed.

Lemma Stat_dir s p :
  Forall name_ok p → real_dir s p → ∃ m o, Stat s (abs_path p) = Ok (DDir m o).
Proof.
  intros Hp Hr. unfold Stat, lookup_at. rewrite resolve_dir by done. simpl.
  destruct p as [|c p]; [by eexists _, _|]. destruct (Hr (c :: p)) as (m & o & ->); eauto.
Qed.

Lemma Stat_missing s p c :
  Forall name_ok p → name_ok c → real_dir s p → dents s !! (p ++ [c]) = None →
  Stat s (abs_path (p ++ [c])) = Err ENOENT.
Proof.
  intros Hp Hc Hr Hn. unfold Stat, lookup_at.
  rewrite resolve_child by (try done; right; congruence). cbn [res_bind]. rewrite Hn.
  by destruct p.
Qed.

Section plain_operations.
Variable umask : N.

Lemma mkdir_all_dir s p perm :
  Forall name_ok p → real_dir s p → mkdir_all umask (rev p) perm s = (Ok tt, s).
Proof.
  intros Hp Hr. destruct (Stat_dir s p Hp Hr) as (m & o & Hs). unfold abs_path in Hs.
  destruct (rev p) eqn:Erev; cbn [mkdir_all]; rewrite <- Erev, rev_involutive, Hs; done.
Qed.

Lemma MkdirAll_there s p perm :
  Forall name_ok p → real_dir s p → MkdirAll umask (abs_path p) perm s = (Ok tt, s).
Proof. intros Hp Hr. unfold MkdirAll. rewrite elems_abs by done. by apply mkdir_all_dir. Qed.

Lemma MkdirAll_new s p c perm :
  Forall name_ok p → name_ok c → real_dir s p → dents s !! (p ++ [c]) = None →
  MkdirAll umask (abs_path (p ++ [c])) perm s =
    (Ok tt, set_dents (<[p ++ [c] := DDir (dir_mode umask perm) 0]> (dents s)) s).
Proof.
  intros Hp Hc Hr Hn. unfold MkdirAll.
  assert (Hpc : Forall name_ok (p ++ [c])) by by apply Forall_app, conj, Forall_singleton.
  rewrite elems_abs, rev_app_distr by done. cbn [rev app].
  pose proof (Stat_missing s p c Hp Hc Hr Hn) as Hs.
  assert (Em : "/" ++ Join (rev (c :: rev p)) "/" = abs_path (p ++ [c])).
  { simpl. by rewrite rev_involutive. }
  cbn [mkdir_all]. rewrite Em, Hs. unfold st_bind.
  rewrite mkdir_all_dir by done. unfold Mkdir, lift_fs.
  rewrite resolve_child by (try done; by left). cbn [res_bind]. unfold insert_new.
  rewrite Hn. by destruct p.
Qed.
End plain_operations.
