(* ===== verification/FsProps.v ===== *)
(** * Facts about the file operations

    What holds of the operations on any tree: which paths still lead where they
    led after entries come and go, what is read after it was written, and what
    is gone after it was removed.  Nothing is assumed of the paths, so symbolic
    links anywhere are covered. *)

From Stdlib Require Import Ascii String Lia.
From stdpp Require Import base list gmap strings.
From S2P Require Import Prelude GoStrings GoSort GoPath Fs.

(** ** Resolution on another tree *)

(** Entries that are gone: a path leads where it led, or to one of them. *)
Lemma resolve_shrunk (s s' : fsys) n f cur todo q :
  dents s' ⊆ dents s → resolve_from n s' f cur todo = Ok q →
  resolve_from n s f cur todo = Ok q ∨ q ≠ [] ∧ dents s' !! q = None.
Proof.
  intros Hsub. revert cur todo. induction n as [n IHn] using lt_wf_ind. intros cur todo.
  revert cur. induction todo as [|c todo IH]; intros cur; [by destruct n; intros [= <-]; left|].
  rewrite !resolve_cons. destruct (str_eqb c [] || str_eqb c "."); [apply IH|].
  destruct (str_eqb c ".."); [apply IH|]. cbv zeta.
  destruct (dents s' !! (cur ++ [c])) as [d|] eqn:E.
  - rewrite (lookup_weaken _ _ _ _ E Hsub). destruct d; [apply IH|auto| |auto].
    destruct (_ && _); [auto|]. destruct n; [done|]. apply IHn. lia.
  - destruct todo; [|done]. intros [= <-]. right. split; [by destruct cur|done].
Qed.

(** New entries that are no links leave every path that led somewhere. *)
Lemma resolve_grown (s s' : fsys) n f cur todo q :
  dents s ⊆ dents s' →
  (∀ p t, dents s' !! p = Some (DSym t) → is_Some (dents s !! p)) →
  resolve_from n s f cur todo = Ok q → resolve_from n s' f cur todo = Ok q.
Proof.
  intros Hsup Hsym. revert cur todo. induction n as [n IHn] using lt_wf_ind. intros cur todo.
  revert cur. induction todo as [|c todo IH]; intros cur; [by destruct n|].
  rewrite !resolve_cons. destruct (str_eqb c [] || str_eqb c "."); [apply IH|].
  destruct (str_eqb c ".."); [apply IH|]. cbv zeta.
  destruct (dents s !! (cur ++ [c])) as [d|] eqn:E.
  - rewrite (lookup_weaken _ _ _ _ E Hsup). destruct d; [apply IH|auto| |auto].
    destruct (_ && _); [auto|]. destruct n; [done|]. apply IHn. lia.
  - destruct todo; [|done]. intros [= <-].
    destruct (dents s' !! (cur ++ [c])) as [[]|] eqn:E'; try done; [by destruct n|].
    apply Hsym in E'. rewrite E in E'. by destruct E'.
Qed.

(** Where the last link is not followed, new entries of any kind do. *)
Lemma resolve_grown_last (s s' : fsys) n cur todo q :
  dents s ⊆ dents s' → resolve_from n s false cur todo = Ok q → resolve_from n s' false cur todo = Ok q.
Proof.
  intros Hsup. revert cur todo. induction n as [n IHn] using lt_wf_ind. intros cur todo.
  revert cur. induction todo as [|c todo IH]; intros cur; [by destruct n|].
  rewrite !resolve_cons. destruct (str_eqb c [] || str_eqb c "."); [apply IH|].
  destruct (str_eqb c ".."); [apply IH|]. cbv zeta.
  destruct (dents s !! (cur ++ [c])) as [d|] eqn:E.
  - rewrite (lookup_weaken _ _ _ _ E Hsup). destruct d; [apply IH|auto| |auto].
    destruct (_ && _); [auto|]. destruct n; [done|]. apply IHn. lia.
  - destruct todo; [|done]. intros [= <-].
    destruct (dents s' !! (cur ++ [c])) as [[]|]; try done. by destruct n.
Qed.

(** Following a path ends, with a path or an error. *)
Lemma resolve_ends s n f cur todo :
  (∃ q, resolve_from n s f cur todo = Ok q) ∨ ∃ e, resolve_from n s f cur todo = Err e.
Proof.
  revert cur todo. induction n as [n IHn] using lt_wf_ind. intros cur todo.
  revert cur. induction todo as [|c todo IH]; intros cur; [destruct n; eauto|].
  rewrite !resolve_cons. destruct (str_eqb c [] || str_eqb c "."); [apply IH|].
  destruct (str_eqb c ".."); [apply IH|]. cbv zeta.
  destruct (dents s !! (cur ++ [c])) as [[]|]; [apply IH| | |..]; try (destruct todo; eauto; done).
  destruct (_ && _); [eauto|]. destruct n; [eauto|]. apply IHn. lia.
Qed.

Lemma lookup_ends s f name :
  (∃ d, lookup_at s f name = Ok d) ∨ ∃ e, lookup_at s f name = Err e.
Proof.
  unfold lookup_at, resolve.
  destruct (resolve_ends s max_links f [] (split_on "/" name)) as [[q ->]|[e ->]];
    cbn [res_bind]; [|by eauto].
  destruct q; [by eauto|]. destruct (dents s !! _); eauto.
Qed.

(** Of an entry only its kind matters. *)
Inductive kind : Type := KNone | KDir | KSym (target : gostring) | KOther.

Definition kind_of (d : option dent) : kind :=
  match d with
  | None => KNone
  | Some (DDir _ _) => KDir
  | Some (DSym t) => KSym t
  | Some _ => KOther
  end.

Lemma resolve_kinds (s s' : fsys) f name :
  (∀ p, kind_of (dents s' !! p) = kind_of (dents s !! p)) → resolve s' f name = resolve s f name.
Proof.
  intros E. unfold resolve. generalize (split_on "/" name) max_links ([] : path).
  intros todo n cur. revert cur todo.
  induction n as [n IHn] using lt_wf_ind. intros cur todo.
  revert cur. induction todo as [|c todo IH]; intros cur; [by destruct n|].
  rewrite !resolve_cons. destruct (str_eqb c [] || str_eqb c "."); [apply IH|].
  destruct (str_eqb c ".."); [apply IH|]. cbv zeta. specialize (E (cur ++ [c])).
  destruct (dents s' !! (cur ++ [c])) as [[]|], (dents s !! (cur ++ [c])) as [[]|];
    simplify_eq/=; try done; try apply IH.
  destruct (_ && _); [done|]. destruct n; [done|]. apply IHn. lia.
Qed.

Lemma resolve_dents (s s' : fsys) f name :
  dents s' = dents s → resolve s' f name = resolve s f name.
Proof. intros E. apply resolve_kinds. by rewrite E. Qed.

(** What a name leads to, in one step. *)
Lemma lookup_at_Ok s f name d :
  lookup_at s f name = Ok d →
  ∃ p, resolve s f name = Ok p ∧ (p = [] ∧ d = DDir 493 0 ∨ p ≠ [] ∧ dents s !! p = Some d).
Proof.
  unfold lookup_at. intros (p & Hp & H)%res_bind_Ok. exists p. split; [done|].
  destruct p as [|c p]; [injection H as <-; by left|right]. split; [done|].
  by destruct (dents s !! (c :: p)); simplify_eq.
Qed.

(** ** Removing *)

(** What was found on a smaller tree was found on the larger one. *)
Lemma lookup_shrunk s s' f name d :
  dents s' ⊆ dents s → lookup_at s' f name = Ok d →
  ∃ p, resolve s f name = Ok p ∧ (p = [] ∧ d = DDir 493 0 ∨ p ≠ [] ∧ dents s' !! p = Some d).
Proof.
  intros Hsub (q & Hq & H)%lookup_at_Ok. exists q. split; [|done].
  apply (resolve_shrunk s) in Hq as [Hq|[Hq1 Hq2]]; [done| |done].
  destruct H as [[-> _]|[_ H]]; [done|congruence].
Qed.

(** After [os.Remove], whatever it returned, nothing of that name is left, or it
    is a directory that was not empty (or the root). *)
Lemma Remove_gone name s d :
  Lstat (snd (Remove name s)) name = Ok d → is_dir d = true.
Proof.
  unfold Remove, lift_fs. destruct (resolve s false name) as [p|e| |] eqn:Ep; cbn [res_bind].
  2-4: (cbn [snd]; intros (q & Hq & _)%lookup_at_Ok; congruence).
  destruct (dents s !! p) as [d0|] eqn:Ed; [destruct (is_dir d0 && _) eqn:Eb|]; cbn [snd].
  - intros (q & Hq & [[_ ->]|[_ H]])%lookup_at_Ok; [done|]. apply andb_true_iff in Eb as [? _].
    congruence.
  - intros (q & Hq & [[_ ->]|[_ H]])%(lookup_shrunk s); [done| |apply delete_subseteq].
    rewrite Ep in Hq. injection Hq as <-. cbn [dents set_dents] in H.
    by rewrite lookup_delete_eq in H.
  - intros (q & Hq & [[_ ->]|[_ H]])%lookup_at_Ok; [done|congruence].
Qed.

Lemma prune_lookup p s q :
  dents (prune p s) !! q = if decide (q = p ∨ below p q) then None else dents s !! q.
Proof.
  unfold prune. cbn [dents set_dents]. destruct (decide _) as [H|H].
  - apply map_lookup_filter_None. right. intros d _. cbn. tauto.
  - destruct (dents s !! q) as [d|] eqn:E.
    + apply map_lookup_filter_Some. split; [done|]. cbn. tauto.
    + apply map_lookup_filter_None. by left.
Qed.

(** A successful [os.RemoveAll] leaves nothing of that name. *)
Lemma RemoveAll_gone name s s' :
  RemoveAll name s = (Ok tt, s') → ∃ e, Lstat s' name = Err e.
Proof.
  unfold RemoveAll, lift_fs. destruct (resolve s false name) as [[|c p]|e| |] eqn:Ep; try done.
  - intros [= <-].
    destruct (lookup_ends (prune (c :: p) s) false name) as [[d H]|?]; [exfalso|done].
    apply (lookup_shrunk s) in H as (q & Hq & [[-> _]|[_ H]]); [congruence| |apply map_filter_subseteq].
    rewrite Ep in Hq. injection Hq as <-. rewrite prune_lookup, decide_True in H by tauto. done.
  - destruct e; try done. intros [= <-]. exists ENOENT. unfold Lstat, lookup_at. by rewrite Ep.
Qed.

(** After [os.RemoveAll], whatever it returned, nothing of that name is left
    unless it is the root. *)
Lemma RemoveAll_leaves name s d :
  Lstat (snd (RemoveAll name s)) name = Ok d → resolve s false name = Ok [].
Proof.
  destruct (RemoveAll name s) as [[[]|e| |] s'] eqn:E; cbn [snd].
  - apply RemoveAll_gone in E as [e ->]. done.
  - unfold RemoveAll, lift_fs in E.
    destruct (resolve s false name) as [[|c p]|e'| |] eqn:Ep; try done.
    destruct e'; try done; injection E as <- <-; unfold Lstat, lookup_at; by rewrite Ep.
  - unfold RemoveAll, lift_fs in E. destruct (resolve s false name) as [[|c p]|[]| |] eqn:Ep;
      try done. injection E as <-. unfold Lstat, lookup_at. by rewrite Ep.
  - unfold RemoveAll, lift_fs in E. destruct (resolve s false name) as [[|c p]|[]| |] eqn:Ep;
      try done. injection E as <-. unfold Lstat, lookup_at. by rewrite Ep.
Qed.

(** ** Making and writing *)

Section writing.
Variable umask : N.

(** [s'] is [s] with new directories. *)
Definition new_dirs (s s' : fsys) : Prop :=
  files s' = files s ∧ dents s ⊆ dents s' ∧
  ∀ p d, dents s' !! p = Some d → dents s !! p = Some d ∨ is_dir d = true.

Lemma new_dirs_refl s : new_dirs s s.
Proof. split_and!; auto. Qed.

Lemma new_dirs_trans s1 s2 s3 : new_dirs s1 s2 → new_dirs s2 s3 → new_dirs s1 s3.
Proof.
  intros (F1 & D1 & N1) (F2 & D2 & N2). split_and!; [congruence|by etrans|].
  intros p d [H|H]%N2; [by apply N1|by right].
Qed.

Lemma Mkdir_new_dirs name perm s : new_dirs s (snd (Mkdir umask name perm s)).
Proof.
  unfold Mkdir, lift_fs. destruct (resolve s false name) as [p|e| |]; cbn [res_bind];
    try apply new_dirs_refl.
  unfold insert_new. destruct p as [|c p]; [apply new_dirs_refl|].
  destruct (dents s !! (c :: p)) eqn:E; [apply new_dirs_refl|]. cbn [snd].
  split_and!; [done|by apply insert_subseteq|]. intros q d. cbn [dents set_dents].
  intros [[<- <-]|[_ H]]%lookup_insert_Some; [by right|by left].
Qed.

Lemma mkdir_all_new_dirs rp perm s : new_dirs s (snd (mkdir_all umask rp perm s)).
Proof.
  revert s. induction rp as [|c rp IH]; intros s; cbn [mkdir_all].
  - destruct (Stat s _) as [d|e| |]; [destruct (is_dir d)|..]; apply new_dirs_refl.
  - destruct (Stat s _) as [d|e| |]; [destruct (is_dir d)|..]; try apply new_dirs_refl.
    unfold st_bind. specialize (IH s). destruct (mkdir_all umask rp perm s) as [[u|e'| |] s1];
      try done. cbn [fst snd] in IH.
    pose proof (Mkdir_new_dirs ("/" ++ Join (rev (c :: rp)) "/") perm s1) as Hm.
    destruct (Mkdir umask _ perm s1) as [[u'|e'| |] s2]; cbn [snd] in Hm |- *;
      try by eapply new_dirs_trans.
    destruct (Lstat s2 _) as [[]|e''| |]; by eapply new_dirs_trans.
Qed.

Lemma MkdirAll_new_dirs name perm s : new_dirs s (snd (MkdirAll umask name perm s)).
Proof. apply mkdir_all_new_dirs. Qed.

(** What a successful write leaves: a file with these data, or the device the
    name leads to; nothing else changes. *)
Lemma write_new_Ok name data perm s s' :
  write_new umask name data perm s = (Ok tt, s') →
  ∃ p, resolve s' true name = Ok p ∧ p ≠ [] ∧ dents s ⊆ dents s' ∧
    (∀ q, q ≠ p → dents s' !! q = dents s !! q) ∧
    ((∃ i n, dents s' !! p = Some (DFile i) ∧ files s' !! i = Some n ∧ idata n = data ∧
        (∀ j, j ≠ i → files s' !! j = files s !! j)) ∨
     ∃ k m, dents s' !! p = Some (DSpecial k m) ∧ k ≠ Fifo ∧ k ≠ Socket ∧ s' = s).
Proof.
  unfold write_new, lift_fs. destruct (resolve s true name) as [p|e| |] eqn:Ep; try done.
  cbn [res_bind]. destruct p as [|c p]; [done|].
  destruct (dents s !! (c :: p)) as [[m o|i|t|k m]|] eqn:Ed; try done.
  - destruct (files s !! i) as [n|] eqn:Ei; [|done]. intros [= <-]. exists (c :: p).
    split_and!; [by rewrite <- Ep; apply resolve_dents|done..|].
    left. eexists i, _. split_and!; [done|cbn; apply lookup_insert_eq|done|].
    intros j Hj. cbn. by rewrite lookup_insert_ne.
  - destruct k; try done; intros [= <-]; exists (c :: p); split_and!; try done; right; eauto 10.
  - intros [= <-]. exists (c :: p). set (i := fresh (dom (files s))).
    split_and!; [|done|by apply insert_subseteq|..].
    + apply (resolve_grown s); [by apply insert_subseteq| |done].
      intros q t. cbn [dents]. intros [[_ ?]|[_ ?]]%lookup_insert_Some; [done|eauto].
    + intros q Hq. cbn [dents]. by rewrite lookup_insert_ne.
    + left. eexists i, _. cbn [dents files]. rewrite !lookup_insert_eq. split_and!; try done.
      intros j Hj. by rewrite lookup_insert_ne.
Qed.

(** A successful write touches the file at one path and files that are new. *)
Lemma write_new_only name data perm s s' :
  write_new umask name data perm s = (Ok tt, s') →
  ∃ p, resolve s' true name = Ok p ∧ (∀ q, q ≠ p → dents s' !! q = dents s !! q) ∧
    ∀ j, is_Some (files s !! j) → dents s !! p ≠ Some (DFile j) → files s' !! j = files s !! j.
Proof.
  intros Hw. destruct (write_new_Ok _ _ _ _ _ Hw) as (p & Hp & _ & _ & Hq & _).
  exists p. split_and!; [done..|]. unfold write_new, lift_fs in Hw.
  destruct (resolve s true name) as [r|e| |] eqn:Er; try done. cbn [res_bind] in Hw.
  destruct r as [|c r]; [done|]. destruct (dents s !! (c :: r)) as [[m o|i|t|k m]|] eqn:Ed; try done.
  - destruct (files s !! i) as [n|] eqn:Ei; [|done]. injection Hw as <-. intros j _ Hj. cbn [files].
    rewrite (resolve_dents s) in Hp by done. rewrite Er in Hp. injection Hp as <-.
    rewrite lookup_insert_ne; [done|]. congruence.
  - destruct k; try done; by injection Hw as <-.
  - injection Hw as <-. intros j Hj _. cbn [files]. apply lookup_insert_ne. intros <-.
    apply elem_of_dom in Hj. by apply is_fresh in Hj.
Qed.

(** Reading back. *)
Lemma ReadFile_written name data perm s s' data' :
  write_new umask name data perm s = (Ok tt, s') → ReadFile s' name = Ok data' → data' = data.
Proof.
  intros (p & Hp & Hne & _ & _ & H)%write_new_Ok. unfold ReadFile, Stat, lookup_at. rewrite Hp.
  cbn [res_bind]. destruct p as [|c p]; [done|].
  destruct H as [(i & n & -> & Hi & <- & _)|(k & m & -> & ? & ? & _)]; cbn [res_bind].
  - rewrite Hi. by intros [= <-].
  - by destruct k.
Qed.

(** A new link reads back. *)
Lemma Readlink_new target name s s' :
  Symlink target name s = (Ok tt, s') → Readlink s' name = Ok target.
Proof.
  unfold Symlink, lift_fs. destruct (resolve s false name) as [p|e| |] eqn:Ep; try done.
  cbn [res_bind]. unfold insert_new. destruct p as [|c p]; [done|].
  destruct (dents s !! (c :: p)) eqn:Ed; [done|]. intros [= <-].
  unfold Readlink, Lstat, lookup_at, resolve in *.
  rewrite (resolve_grown_last s _ _ _ _ (c :: p)); [|by apply insert_subseteq|done].
  cbn [res_bind dents set_dents]. by rewrite lookup_insert_eq.
Qed.

(** The two ways to write a file agree. *)
Lemma write_new_open name data perm s :
  write_new umask name data perm s =
    (let! h := OpenFile umask name perm in write_handle h data) s.
Proof.
  unfold st_bind, OpenFile.
  unfold write_new, lift_fs. destruct (resolve s true name) as [p|e| |] eqn:Ep; try done.
  cbn [res_bind]. destruct p as [|c p]; [done|].
  assert (Hopen : ∀ s', resolve s' true name = Ok (c :: p) →
    Open s' name = match dents s' !! (c :: p) with
      | Some (DDir _ _) => Ok HDir | Some (DFile i) => Ok (HFile i)
      | Some (DSym _) => Err ELOOP | Some (DSpecial Socket _) => Err ENXIO
      | Some (DSpecial Fifo _) => OutOfFuel | Some (DSpecial _ _) => Ok (HDevice (c :: p))
      | None => Err ENOENT end).
  { intros s' H. unfold Open. by rewrite H. }
  destruct (dents s !! (c :: p)) as [[m o|i|t|k m]|] eqn:Ed; try done.
  - destruct (files s !! i) as [n|] eqn:Ei; [|done].
    rewrite Hopen by (rewrite <- Ep; by apply resolve_dents). cbn [dents]. rewrite Ed.
    unfold write_handle, lift_fs. cbn [dents files]. rewrite lookup_insert_eq. cbn [imode iowner].
    by rewrite insert_insert_eq.
  - by destruct k; try done; rewrite Hopen, Ed by done.
  - rewrite Hopen.
    + cbn [dents]. rewrite lookup_insert_eq. unfold write_handle, lift_fs. cbn [dents files].
      rewrite lookup_insert_eq. cbn [imode iowner]. by rewrite insert_insert_eq.
    + apply (resolve_grown s); [by apply insert_subseteq| |done].
      intros q t. cbn [dents]. intros [[_ ?]|[_ ?]]%lookup_insert_Some; [done|eauto].
Qed.
End writing.

(** ** Operations that end *)

(** Neither a panic nor a wait: an answer. *)
Definition answers {E A} (r : res E A) : Prop :=
  match r with Ok _ | Err _ => True | _ => False end.

Lemma resolve_answers s f name : answers (resolve s f name).
Proof. unfold resolve. destruct (resolve_ends s max_links f [] (split_on "/" name)) as [[? ->]|[? ->]]; done. Qed.

Lemma lookup_answers s f name : answers (lookup_at s f name).
Proof. destruct (lookup_ends s f name) as [[? ->]|[? ->]]; done. Qed.

Lemma Mkdir_answers umask name perm s : answers (fst (Mkdir umask name perm s)).
Proof.
  unfold Mkdir, lift_fs. pose proof (resolve_answers s false name).
  destruct (resolve s false name) as [p|e| |]; try done. cbn [res_bind]. unfold insert_new.
  destruct p; [done|]. by destruct (dents s !! _).
Qed.

Lemma mkdir_all_answers umask rp perm s : answers (fst (mkdir_all umask rp perm s)).
Proof.
  revert s. induction rp as [|c rp IH]; intros s; cbn [mkdir_all];
    (pose proof (lookup_answers s true ("/" ++ Join (rev []) "/")) as H0;
     match goal with |- context [Stat s ?n] => pose proof (lookup_answers s true n) as Hs;
       fold (Stat s n) in Hs; destruct (Stat s n) as [d|e| |] end); try done;
    try (by destruct (is_dir d)).
  unfold st_bind. specialize (IH s). destruct (mkdir_all umask rp perm s) as [[u|e'| |] s1]; try done.
  match goal with |- context [Mkdir umask ?n perm s1] =>
    pose proof (Mkdir_answers umask n perm s1) as Hm;
    destruct (Mkdir umask n perm s1) as [[u'|e'| |] s2]; try done;
    destruct (Lstat s2 n) as [[]|e''| |] end; done.
Qed.

Lemma MkdirAll_answers umask name perm s : answers (fst (MkdirAll umask name perm s)).
Proof. apply mkdir_all_answers. Qed.

Lemma Remove_answers name s : answers (fst (Remove name s)).
Proof.
  unfold Remove, lift_fs. pose proof (resolve_answers s false name).
  destruct (resolve s false name) as [p|e| |]; try done. cbn [res_bind].
  destruct (dents s !! p) as [d|]; [|done]. by destruct (is_dir d && _).
Qed.

Lemma RemoveAll_answers name s : answers (fst (RemoveAll name s)).
Proof.
  unfold RemoveAll, lift_fs. pose proof (resolve_answers s false name).
  destruct (resolve s false name) as [[|]|[]| |]; done.
Qed.

(** ** Well-formed trees *)

Record wf_fs (s : fsys) : Prop := {
  wf_parent : ∀ p c, is_Some (dents s !! (p ++ [c])) →
    p = [] ∨ ∃ m o, dents s !! p = Some (DDir m o);
  wf_names : ∀ p, is_Some (dents s !! p) → Forall name_ok p;
  wf_inode : ∀ p i, dents s !! p = Some (DFile i) → is_Some (files s !! i);
  wf_root : dents s !! [] = None }.

(** The same, checked entry by entry. *)
#[export] Instance name_ok_dec e : Decision (name_ok e).
Proof. unfold name_ok. apply _. Defined.

Definition wf_entry (f : fsys) (p : path) (d : dent) : Prop :=
  p ≠ [] ∧ Forall name_ok p ∧
  (removelast p = [] ∨ (is_dir <$> dents f !! removelast p) = Some true) ∧
  match d with DFile i => is_Some (files f !! i) | _ => True end.

#[export] Instance wf_entry_dec f p d : Decision (wf_entry f p d).
Proof. unfold wf_entry. destruct d; apply _. Defined.

Lemma wf_entries f : map_Forall (wf_entry f) (dents f) → wf_fs f.
Proof.
  intros Hf. split.
  - intros p c [d Hd]. destruct (Hf _ _ Hd) as (_ & _ & Hp & _). rewrite removelast_last in Hp.
    destruct Hp as [|Hp]; [by left|right].
    destruct (dents f !! p) as [[]|]; simplify_eq/=; eauto.
  - intros p [d Hd]. by destruct (Hf _ _ Hd) as (_ & ? & _).
  - intros p i Hd. by destruct (Hf _ _ Hd) as (_ & _ & _ & ?).
  - destruct (dents f !! []) as [d|] eqn:E; [|done]. by destruct (Hf _ _ E) as (? & _).
Qed.

Lemma elem_of_child_names p c s : c ∈ child_names p s ↔ is_Some (dents s !! (p ++ [c])).
Proof.
  unfold child_names. rewrite list_elem_of_omap. split.
  - intros ([q d] & Hq & E). apply elem_of_map_to_list in Hq. simpl in E.
    destruct (drop (length p) q) as [|x [|? ?]] eqn:Ed; try done.
    case_bool_decide as Et; [|done]. injection E as ->.
    rewrite <- (take_drop (length p) q), Et, Ed in Hq. eauto.
  - intros [d Hd]. exists (p ++ [c], d). split; [by apply elem_of_map_to_list|]. simpl.
    rewrite drop_app_length, take_app_length. by rewrite bool_decide_eq_true_2.
Qed.

Lemma child_names_NoDup p s : NoDup (child_names p s).
Proof.
  unfold child_names. pose proof (NoDup_fst_map_to_list (dents s)) as Hnd.
  induction (map_to_list (dents s)) as [|[q d] l IH]; [constructor|].
  simpl in Hnd. apply NoDup_cons in Hnd as [Hq Hnd]. specialize (IH Hnd).
  simpl. destruct (drop (length p) q) as [|x [|? ?]] eqn:Ed; try done.
  case_bool_decide as Et; [|done]. apply NoDup_cons. split; [|done].
  intros ([q' d'] & Hq' & E')%list_elem_of_omap. simpl in E'.
  destruct (drop (length p) q') as [|x' [|? ?]] eqn:Ed'; try done.
  case_bool_decide as Et'; [|done]. injection E' as ->. apply Hq.
  assert (q = q') as ->.
  { by rewrite <- (take_drop (length p) q), <- (take_drop (length p) q'), Et, Et', Ed, Ed'. }
  apply list_elem_of_fmap. by exists (q', d').
Qed.

(** ** Children of real directories *)

Lemma real_dir_sub s s' p : dents s ⊆ dents s' → real_dir s p → real_dir s' p.
Proof.
  intros Hs H q Hq Hp. destruct (H q Hq Hp) as (m & o & E). exists m, o. by eapply lookup_weaken.
Qed.

Lemma insert_new_none p x s :
  p ≠ [] → dents s !! p = None → insert_new p x s = Ok (set_dents (<[p := x]> (dents s)) s).
Proof. intros Hp E. unfold insert_new. destruct p; [done|]. by rewrite E. Qed.

Lemma wf_real_dir s p m o : wf_fs s → dents s !! p = Some (DDir m o) → real_dir s p.
Proof.
  intros Hwf. revert m o. induction p as [|c p IH] using rev_ind; intros m o Hd.
  { intros q Hq [r Hr]. by destruct q. }
  destruct (wf_parent s Hwf p c) as [->|(m' & o' & Hp)]; [by rewrite Hd| |].
  - apply (real_dir_snoc s [] c m o); [|done]. intros q Hq [r Hr]. by destruct q.
  - apply (real_dir_snoc s p c m o); [by eapply IH|done].
Qed.

(** Writing a file that was not there. *)
(** An entry added to a well-formed tree. *)
Lemma wf_add s s' w c x :
  wf_fs s → Forall name_ok w → name_ok c → real_dir s w → dents s !! (w ++ [c]) = None →
  dents s' = <[w ++ [c] := x]> (dents s) → files s ⊆ files s' →
  (∀ i, x = DFile i → is_Some (files s' !! i)) → wf_fs s'.
Proof.
  intros Hwf Hw Hc Hwd Hnone Hds Hfs Hx.
  assert (Hsub : dents s ⊆ dents s') by (rewrite Hds; by apply insert_subseteq).
  assert (Hother : ∀ q, q ≠ w ++ [c] → dents s' !! q = dents s !! q).
  { intros q Hq. rewrite Hds. by apply lookup_insert_ne. }
  split.
  - intros p c' Hs. destruct (decide (p ++ [c'] = w ++ [c])) as [E|Hne].
    + apply app_inj_tail in E as [-> _]. destruct w as [|y w'] eqn:Ew; [by left|right].
      destruct (Hwd (y :: w')) as (m & o & E); [done..|]. exists m, o. by eapply lookup_weaken.
    + rewrite Hother in Hs by done. apply (wf_parent s Hwf) in Hs as [->|(m & o & E)]; [by left|right].
      exists m, o. by eapply lookup_weaken.
  - intros p Hs. destruct (decide (p = w ++ [c])) as [->|Hne].
    + by apply Forall_app, conj, Forall_singleton.
    + rewrite Hother in Hs by done. by apply (wf_names s Hwf).
  - intros p j Hs. destruct (decide (p = w ++ [c])) as [->|Hne].
    + rewrite Hds, lookup_insert_eq in Hs. injection Hs as ->. by apply Hx.
    + rewrite Hother in Hs by done. destruct (wf_inode s Hwf _ _ Hs) as [m E]. exists m.
      by eapply lookup_weaken.
  - rewrite Hother by by destruct w. apply Hwf.
Qed.

Lemma write_new_child umask s p c data perm :
  Forall name_ok p → name_ok c → real_dir s p → dents s !! (p ++ [c]) = None →
  write_new umask (abs_path (p ++ [c])) data perm s =
    let i := fresh (dom (files s)) in
    (Ok tt, Fs (<[p ++ [c] := DFile i]> (dents s))
              (<[i := Inode data (file_mode umask perm) 0]> (files s))).
Proof.
  intros Hp Hc Hr Hn. unfold write_new, lift_fs.
  rewrite resolve_child by (try done; right; congruence). cbn [res_bind]. rewrite Hn.
  by destruct p.
Qed.

(** A path through something that is not there. *)
Lemma resolve_missing s f p c r :
  Forall name_ok (p ++ c :: r) → real_dir s p → dents s !! (p ++ [c]) = None → r ≠ [] →
  resolve s f (abs_path (p ++ c :: r)) = Err ENOENT.
Proof.
  intros Hn Hr Hc Hne. unfold resolve. rewrite split_abs_path, resolve_cons by done. cbn [str_eqb orb].
  replace (match p ++ c :: r with [] => [[]] | _ => p ++ c :: r end) with (p ++ c :: r) by by destruct p.
  apply Forall_app in Hn as [Hp [Hcn _]%Forall_cons_1].
  rewrite (resolve_through _ _ _ [] p), resolve_name by done. cbn [app]. rewrite Hc. by destruct r.
Qed.

Lemma Stat_err_missing s p c r :
  Forall name_ok (p ++ c :: r) → real_dir s p → dents s !! (p ++ [c]) = None →
  Stat s (abs_path (p ++ c :: r)) = Err ENOENT.
Proof.
  intros Hn Hr Hc. destruct r as [|x r].
  - apply Forall_app in Hn as [Hp [Hcn _]%Forall_cons_1]. by apply Stat_missing.
  - unfold Stat, lookup_at. by rewrite resolve_missing.
Qed.

(** [os.MkdirAll] one level further. *)
Lemma MkdirAll_step umask s s1 p c perm e :
  Forall name_ok p → name_ok c → Stat s (abs_path (p ++ [c])) = Err e →
  MkdirAll umask (abs_path p) perm s = (Ok tt, s1) → real_dir s1 p → dents s1 !! (p ++ [c]) = None →
  MkdirAll umask (abs_path (p ++ [c])) perm s =
    (Ok tt, set_dents (<[p ++ [c] := DDir (dir_mode umask perm) 0]> (dents s1)) s1).
Proof.
  intros Hp Hc Hst Hrun Hr Hn. unfold MkdirAll in *.
  assert (Hpc : Forall name_ok (p ++ [c])) by by apply Forall_app, conj, Forall_singleton.
  rewrite elems_abs in Hrun |- * by done. rewrite rev_app_distr. cbn [rev app].
  assert (Em : "/" ++ Join (rev (c :: rev p)) "/" = abs_path (p ++ [c])).
  { simpl. by rewrite rev_involutive. }
  cbn [mkdir_all]. rewrite Em, Hst. unfold st_bind. rewrite Hrun. unfold Mkdir, lift_fs.
  rewrite resolve_child by (try done; by left). cbn [res_bind]. unfold insert_new.
  rewrite Hn. by destruct p.
Qed.

(** The same over a file that is there. *)
Lemma write_over_child umask s p c i n data perm :
  Forall name_ok p → name_ok c → real_dir s p →
  dents s !! (p ++ [c]) = Some (DFile i) → files s !! i = Some n →
  write_new umask (abs_path (p ++ [c])) data perm s =
    (Ok tt, Fs (dents s) (<[i := Inode data (imode n) (iowner n)]> (files s))).
Proof.
  intros Hp Hc Hr Hd Hn. unfold write_new, lift_fs.
  rewrite resolve_child by (try done; right; congruence). cbn [res_bind]. rewrite Hd, Hn.
  by destruct p.
Qed.

Lemma lookup_at_child s f p c d :
  Forall name_ok p → name_ok c → real_dir s p → dents s !! (p ++ [c]) = Some d →
  (∀ t, d ≠ DSym t) → lookup_at s f (abs_path (p ++ [c])) = Ok d.
Proof.
  intros Hp Hc Hr Hd Hl. unfold lookup_at.
  rewrite resolve_child by (try done; right; congruence). cbn [res_bind]. rewrite Hd. by destruct p.
Qed.

Lemma Remove_child s p c d :
  Forall name_ok p → name_ok c → real_dir s p → dents s !! (p ++ [c]) = Some d → is_dir d = false →
  Remove (abs_path (p ++ [c])) s = (Ok tt, set_dents (delete (p ++ [c]) (dents s)) s).
Proof.
  intros Hp Hc Hr Hd Hnd. unfold Remove, lift_fs. rewrite resolve_child by (try done; by left).
  cbn [res_bind]. by rewrite Hd, Hnd.
Qed.

Lemma ReadFile_child s p c i n :
  Forall name_ok p → name_ok c → real_dir s p →
  dents s !! (p ++ [c]) = Some (DFile i) → files s !! i = Some n →
  ReadFile s (abs_path (p ++ [c])) = Ok (idata n).
Proof.
  intros Hp Hc Hr Hd Hn. unfold ReadFile, Stat, lookup_at.
  rewrite resolve_child by (try done; right; congruence). cbn [res_bind].
  destruct (p ++ [c]) eqn:E; [by destruct p|]. by rewrite Hd; cbn [res_bind]; rewrite Hn.
Qed.

Lemma Open_child f p c :
  Forall name_ok p → name_ok c → real_dir f p →
  (∃ j, dents f !! (p ++ [c]) = Some (DFile j)) →
  Open f (abs_path (p ++ [c])) =
    match dents f !! (p ++ [c]) with Some (DFile j) => Ok (HFile j) | _ => Err ENOENT end.
Proof.
  intros Hp Hc Hr (j & Hj). unfold Open. rewrite resolve_child by (try done; right; congruence).
  cbn [res_bind]. destruct (p ++ [c]) as [|x l] eqn:E; [by destruct p|]. by rewrite Hj.
Qed.

Lemma Lstat_child s p c :
  Forall name_ok p → name_ok c → real_dir s p →
  Lstat s (abs_path (p ++ [c])) =
    match dents s !! (p ++ [c]) with Some d => Ok d | None => Err ENOENT end.
Proof.
  intros Hp Hc Hr. unfold Lstat, lookup_at. rewrite resolve_child by (try done; by left).
  cbn [res_bind]. by destruct p.
Qed.

(** The entries of a directory, sorted by name. *)
Lemma ReadDirEntries_dir s p :
  Forall name_ok p → real_dir s p →
  ∃ es, ReadDirEntries s (abs_path p) = Ok es ∧ NoDup es.*1 ∧
    ∀ c d, (c, d) ∈ es ↔ dents s !! (p ++ [c]) = Some d.
Proof.
  intros Hp Hr.
  assert (E : ReadDir s (abs_path p) = Ok (child_names p s)).
  { unfold ReadDir. rewrite resolve_dir by done. cbn [res_bind].
    destruct p as [|c p]; [done|]. by destruct (Hr (c :: p)) as (m & o & ->). }
  unfold ReadDirEntries. rewrite E, resolve_dir by done. cbn [res_bind].
  eexists. split; [reflexivity|]. clear E.
  set (names := sort_strings (child_names p s)).
  assert (Hnd : NoDup names).
  { unfold names, sort_strings. rewrite sort_by_perm. apply child_names_NoDup. }
  split.
  - induction Hnd as [|c names' Hc Hnd IH]; [constructor|]. simpl.
    destruct (dents s !! (p ++ [c])); [|done]. simpl. constructor; [|done].
    intros ([c' d'] & -> & Hin)%list_elem_of_fmap. apply list_elem_of_omap in Hin as (x & Hx & E).
    destruct (dents s !! (p ++ [x])); simplify_eq/=. done.
  - intros c d. rewrite list_elem_of_omap. split.
    + intros (x & _ & E'). destruct (dents s !! (p ++ [x])) eqn:Ex; by simplify_eq/=.
    + intros Hd. exists c. split; [|by rewrite Hd]. unfold names, sort_strings.
      rewrite sort_by_perm. apply elem_of_child_names. eauto.
Qed.
