(* ===== verification/FsWalk.v ===== *)
(** * Walking a tree

    The paths [filepath.Walk] visits below a directory, in its order: every
    path once, each after its parent. *)

From Stdlib Require Import Ascii String Lia.
From stdpp Require Import base list gmap strings.
From S2P Require Import Prelude GoStrings GoSort GoPath Fs FsProps.

(** Long enough for every path of the file system. *)
Definition depth_bound (s : fsys) : nat := S (max_list (map (λ e, length e.1) (map_to_list (dents s)))).

(** [filepath.Walk] below the directory [p], as paths relative to the root of
    the walk; [rel] is the path of [p] itself. *)
Fixpoint walk (depth : nat) (s : fsys) (root rel : path) : list path :=
  match depth with
  | O => []
  | S depth' =>
      flat_map (λ c, let rel' := rel ++ [c] in
                     rel' :: match dents s !! (root ++ rel') with
                             | Some (DDir _ _) => walk depth' s root rel'
                             | _ => []
                             end)
        (sort_strings (child_names (root ++ rel) s))
  end.

Lemma depth_bound_spec s p : is_Some (dents s !! p) → length p < depth_bound s.
Proof.
  intros [d Hd]. unfold depth_bound.
  assert (Hin : length p ∈ map (λ e, length e.1) (map_to_list (dents s))).
  { apply list_elem_of_fmap. exists (p, d). split; [done|]. by apply elem_of_map_to_list. }
  apply max_list_elem_of_le in Hin. lia.
Qed.

Section walk.
Context (s : fsys) (root : path) (Hwf : wf_fs s).

(** A block of the walk: a child and what is below it. *)
Definition block (depth : nat) (rel : path) (c : gostring) : list path :=
  (rel ++ [c]) :: match dents s !! (root ++ rel ++ [c]) with
                  | Some (DDir _ _) => walk depth s root (rel ++ [c])
                  | _ => []
                  end.

Lemma walk_unfold depth rel :
  walk (S depth) s root rel =
    flat_map (block depth rel) (sort_strings (child_names (root ++ rel) s)).
Proof. done. Qed.

Lemma child_sorted rel c :
  c ∈ sort_strings (child_names (root ++ rel) s) ↔ is_Some (dents s !! (root ++ rel ++ [c])).
Proof.
  unfold sort_strings. rewrite sort_by_perm, elem_of_child_names. by rewrite app_assoc.
Qed.

Lemma walk_below depth rel p :
  p ∈ walk depth s root rel → below rel p ∧ is_Some (dents s !! (root ++ p)).
Proof.
  revert rel. induction depth as [|depth IH]; intros rel; [by intros ?%not_elem_of_nil|].
  rewrite walk_unfold. rewrite list_elem_of_In, in_flat_map. setoid_rewrite <- list_elem_of_In.
  intros (c & Hc%child_sorted & Hp). unfold block in Hp. apply elem_of_cons in Hp as [->|Hp].
  - split; [by exists c, []|done].
  - destruct (dents s !! (root ++ rel ++ [c])) as [[]|]; try by apply not_elem_of_nil in Hp.
    apply IH in Hp as [(x & r & ->) Hp]. split; [|done]. exists c, (x :: r). by rewrite <- app_assoc.
Qed.

Lemma is_dir_above p c r :
  is_Some (dents s !! (p ++ c :: r)) → r ≠ [] → ∃ m o, dents s !! (p ++ [c]) = Some (DDir m o).
Proof.
  revert c. induction r as [|x r IH] using rev_ind; [done|]. intros c Hs _.
  change (c :: r ++ [x]) with ((c :: r) ++ [x]) in Hs. rewrite app_assoc in Hs.
  apply (wf_parent s Hwf) in Hs as [Hs|(m & o & Hs)]; [by destruct p|].
  destruct r as [|y r]; [eauto|]. apply IH; [|done]. rewrite Hs. eauto.
Qed.

Lemma walk_complete depth rel p :
  below rel p → is_Some (dents s !! (root ++ p)) → length p < length rel + S depth →
  p ∈ walk (S depth) s root rel.
Proof.
  revert rel. induction depth as [|depth IH]; intros rel (c & r & ->) Hs Hlen;
    rewrite walk_unfold, list_elem_of_In, in_flat_map; setoid_rewrite <- list_elem_of_In;
    exists c; rewrite length_app in Hlen; simpl in Hlen.
  - destruct r; [|simpl in Hlen; lia]. split; [by apply child_sorted|by left].
  - destruct r as [|x r].
    { split; [by apply child_sorted|by left]. }
    destruct (is_dir_above (root ++ rel) c (x :: r)) as (m & o & Hd); [|done|].
    { by rewrite <- app_assoc. }
    rewrite <- app_assoc in Hd. split; [apply child_sorted; rewrite Hd; eauto|].
    unfold block. rewrite Hd. right. apply IH.
    + exists x, r. by rewrite <- app_assoc.
    + done.
    + rewrite !length_app. simpl in *. lia.
Qed.

Lemma block_below depth rel c p : p ∈ block depth rel c → ∃ r, p = rel ++ c :: r.
Proof.
  unfold block. intros [->|Hp]%elem_of_cons; [by exists []|].
  destruct (dents s !! (root ++ rel ++ [c])) as [[]|]; try by apply not_elem_of_nil in Hp.
  apply walk_below in Hp as [(x & r & ->) _]. exists (x :: r). by rewrite <- app_assoc.
Qed.

Lemma walk_NoDup depth rel : NoDup (walk depth s root rel).
Proof.
  revert rel. induction depth as [|depth IH]; intros rel; [constructor|]. rewrite walk_unfold.
  assert (Hnd : NoDup (sort_strings (child_names (root ++ rel) s))).
  { unfold sort_strings. rewrite sort_by_perm. apply child_names_NoDup. }
  induction Hnd as [|c cs Hc Hcs IHc]; [constructor|]. cbn [flat_map]. apply NoDup_app.
  split_and!; [| |done].
  - unfold block. apply NoDup_cons. split.
    + destruct (dents s !! (root ++ rel ++ [c])) as [[]|]; try apply not_elem_of_nil.
      intros [(x & r & E) _]%walk_below. apply (f_equal length) in E.
      rewrite !length_app in E. simpl in E. lia.
    + destruct (dents s !! (root ++ rel ++ [c])) as [[]|]; [apply IH|constructor..].
  - intros p Hp Hp'. apply block_below in Hp as [r ->].
    rewrite list_elem_of_In, in_flat_map in Hp'. destruct Hp' as (c' & Hc' & Hp').
    apply list_elem_of_In in Hc', Hp'. apply block_below in Hp' as [r' E].
    apply app_inv_head in E. injection E as -> _. done.
Qed.

(** Each path comes after its parent. *)
Fixpoint parents_first (seen l : list path) : Prop :=
  match l with
  | [] => True
  | p :: l' => (∃ q c, p = q ++ [c] ∧ (q = [] ∨ q ∈ seen)) ∧ parents_first (seen ++ [p]) l'
  end.

Lemma parents_first_app seen l1 l2 :
  parents_first seen l1 → parents_first (seen ++ l1) l2 → parents_first seen (l1 ++ l2).
Proof.
  revert seen. induction l1 as [|p l1 IH]; intros seen; simpl; [by rewrite app_nil_r|].
  intros [Hp H1] H2. split; [done|]. apply IH; [done|]. by rewrite <- app_assoc.
Qed.

Lemma walk_parents_first depth rel seen :
  rel = [] ∨ rel ∈ seen → parents_first seen (walk depth s root rel).
Proof.
  revert rel seen. induction depth as [|depth IH]; intros rel seen Hrel; [done|].
  rewrite walk_unfold. revert seen Hrel.
  induction (sort_strings (child_names (root ++ rel) s)) as [|c cs IHc]; intros seen Hrel; [done|].
  cbn [flat_map]. apply (parents_first_app _ (block depth rel c)).
  - unfold block. split; [by exists rel, c|].
    destruct (dents s !! (root ++ rel ++ [c])) as [[]|]; try done.
    apply IH. right. apply elem_of_app. right. by left.
  - apply IHc. destruct Hrel; [by left|right]. apply elem_of_app. by left.
Qed.

Lemma walk_all rel :
  rel ∈ walk (depth_bound s) s root [] ↔ rel ≠ [] ∧ is_Some (dents s !! (root ++ rel)).
Proof.
  split.
  - intros [(c & r & ->) Hs]%walk_below. by split.
  - intros [Hne Hs]. unfold depth_bound. apply walk_complete; [|done|].
    + destruct rel as [|c r]; [done|by exists c, r].
    + apply depth_bound_spec in Hs. unfold depth_bound in Hs. rewrite length_app in Hs. simpl. lia.
Qed.

End walk.
