(* ===== verification/Host.v ===== *)
(** * The machine a build runs on

    Files, the environment of the builder, and the external commands it has
    started.  What an external command does is not the builder's code: it is an
    operation of the class [External], which may change the files in any way
    and answer differently each time. *)

From Stdlib Require Import Ascii String ZArith Lia.
From stdpp Require Import base list gmap strings.
From S2P Require Import Prelude GoStrings GoNumbers GoSort GoPath Fs.

(** ** Commands *)

Record Cmd : Type := MkCmd {
  argv : list gostring;
  cmd_dir : gostring;
  cmd_env : list gostring;
  cmd_stdin : option gostring }.

Inductive exited : Type :=
| Exited (code : Z) (out err : gostring)
| NotStarted.

(** What is not the builder: the process's umask and working directory, the
    commands it runs, given those run before, [filepath.Glob] where the
    directory itself has pattern characters, and the tables of
    [unicode.IsPrint]. *)
Class External : Type := {
  umask : N;
  cwd : gostring;
  exec_ext : list Cmd → Cmd → fsys → exited * fsys;
  glob_meta : fsys → gostring → list gostring;
  IsPrint : N → bool }.

Record machine : Type := Machine {
  mfs : fsys;
  menv : gmap gostring gostring;
  mlog : list Cmd }.

(** Errors with the context the code wraps around them. *)
Inductive HostError : Type :=
| FsError (e : errno)
| CmdFailed (command : list gostring)
| HostMsg (what : gostring)
| ECtx (context : gostring) (e : HostError).

Abbreviation HM := (ST machine HostError).

(** [os.Getenv], [os.Setenv], [os.Environ] *)
Definition env_value (E : gmap gostring gostring) (k : gostring) : gostring := default [] (E !! k).

Definition Getenv (k : gostring) (s : machine) : gostring := env_value (menv s) k.

Definition Setenv (k v : gostring) : HM unit :=
  λ s, if mem (chr 0) v then (Err (FsError EINVAL), s)
       else (Ok tt, Machine (mfs s) (<[k := v]> (menv s)) (mlog s)).

Definition environ (E : gmap gostring gostring) : list gostring :=
  map (λ e, e.1 ++ "=" ++ e.2) (map_to_list E).

Definition Environ (s : machine) : list gostring := environ (menv s).

(** A file operation as a step of the machine. *)
Definition on_files {A} (m : FsM A) : HM A :=
  λ s, let '(r, f) := m (mfs s) in
       (match r with
        | Ok a => Ok a
        | Err e => Err (FsError e)
        | Panic => Panic
        | OutOfFuel => OutOfFuel
        end, Machine f (menv s) (mlog s)).

(** A question about the files. *)
Definition ask_files {A} (q : fsys → res errno A) : HM A :=
  on_files (λ f, (q f, f)).

(** Code that depends on the state it starts in. *)
Definition looking {A} (m : machine → HM A) : HM A := λ s, m s s.

(** [fmt.Errorf("context: %w", err)] *)
Definition ctx {A} (context : gostring) (m : HM A) : HM A :=
  λ s, match m s with
       | (Err e, s') => (Err (ECtx context e), s')
       | r => r
       end.

(** Go on whether or not [m] fails; panics and waiting are no errors. *)
Definition try {A} (m : HM A) : HM (A + HostError) :=
  λ s, match m s with
       | (Ok a, s') => (Ok (inl a), s')
       | (Err e, s') => (Ok (inr e), s')
       | (Panic, s') => (Panic, s')
       | (OutOfFuel, s') => (OutOfFuel, s')
       end.

(** [defer after()] around [m]: the outcome is that of [m]. *)
Definition deferring {A} (after : HM unit) (m : HM A) : HM A :=
  λ s, let '(r, s1) := m s in
       match after s1 with
       | (Panic, s2) => (Panic, s2)
       | (OutOfFuel, s2) => (OutOfFuel, s2)
       | (_, s2) => (r, s2)
       end.

(** A loop over a list. *)
Fixpoint for_each {A} (f : A → HM unit) (l : list A) : HM unit :=
  match l with
  | [] => st_ret tt
  | a :: l' => f a ;; for_each f l'
  end.

Section machine.
Context `{External}.

(** ** Finding and running programs *)

Definition absolute (name : gostring) : gostring :=
  if HasPrefix name "/" then name else path_join [cwd; name].

(** A file that is no directory and has an execute bit. *)
Definition findExecutable (f : fsys) (file : gostring) : bool :=
  match Stat f (absolute file) with
  | Ok (DDir _ _) => false
  | Ok d => negb (N.eqb (N.land (dent_mode f d) 73) 0)
  | _ => false
  end.

(** The loop over $PATH; a program found by a relative directory is an error. *)
Fixpoint look_in (dirs : list gostring) (f : fsys) (file : gostring) : option gostring :=
  match dirs with
  | [] => None
  | d :: dirs' =>
      let p := path_join [if str_eqb d [] then "." else d; file] in
      if findExecutable f p then if HasPrefix p "/" then Some p else None
      else look_in dirs' f file
  end.

(** [exec.LookPath] *)
Definition LookPath (file : gostring) (s : machine) : option gostring :=
  if mem "/" file then if findExecutable (mfs s) file then Some file else None
  else
    let path := Getenv "PATH" s in
    look_in (if str_eqb path [] then [] else split_on ":" path) (mfs s) file.

(** [exec.Command] and [Run]: a name that is not found is not started.  The log
    has every command, started or not. *)
Definition run_cmd (c : Cmd) (s : machine) : exited * machine :=
  let logged f := Machine f (menv s) (mlog s ++ [c]) in
  match argv c with
  | [] => (NotStarted, logged (mfs s))
  | name :: _ =>
      if negb (mem "/" name) && match LookPath name s with None => true | Some _ => false end
      then (NotStarted, logged (mfs s))
      else let '(r, f) := exec_ext (mlog s) c (mfs s) in (r, logged f)
  end.

(** Run it and fail unless it exits with status zero. *)
Definition must_run (c : Cmd) : HM unit :=
  λ s, match run_cmd c s with
       | (Exited 0 _ _, s') => (Ok tt, s')
       | (_, s') => (Err (CmdFailed (argv c)), s')
       end.

(** A command with the builder's environment. *)
Definition plain_cmd (dir : gostring) (words : list gostring) (s : machine) : Cmd :=
  MkCmd words dir (Environ s) None.

Definition run_plain (dir : gostring) (words : list gostring) : HM unit :=
  looking (λ s, must_run (plain_cmd dir words s)).

(** ** Patterns *)

(** [filepath.Match] for a pattern of literals and stars, within one element. *)
Fixpoint match_star (pattern name : gostring) {struct pattern} : bool :=
  match pattern with
  | [] => str_eqb name []
  | c :: pattern' =>
      if Ascii.eqb c "*" then
        (fix from (rest : gostring) : bool :=
           match_star pattern' rest ||
           match rest with
           | [] => false
           | d :: rest' => negb (Ascii.eqb d "/") && from rest'
           end) name
      else
        match name with
        | d :: name' => Ascii.eqb c d && match_star pattern' name'
        | [] => false
        end
  end.

Definition hasMeta (s : gostring) : bool := ContainsAny s ["*"; "?"; "["; BSL]%char.

(** [filepath.Glob(filepath.Join(dir, pattern))]: the matches in order; a
    directory that cannot be read has none. *)
Definition Glob (f : fsys) (dir pattern : gostring) : list gostring :=
  if hasMeta dir then glob_meta f (path_join [dir; pattern])
  else
    match ReadDir f (absolute dir) with
    | Ok names =>
        map (λ n, path_join [dir; n])
          (List.filter (match_star pattern) (sort_strings names))
    | _ => []
    end.
End machine.

(** A quiet host for the examples: commands succeed and change nothing. *)
Definition quiet_external : External := {|
  umask := 18; cwd := "/"; exec_ext := λ _ _ f, (Exited 0 [] [], f);
  glob_meta := λ _ _, []; IsPrint := λ _, false |}.
