(* ===== verification/Plan.v ===== *)
(** * Plans of commands

    A logic for code that runs external commands.  [plans E E' m p]: started
    with the environment [E], the code [m] starts the commands of the plan [p],
    in its order and with the directory, environment and input the plan says;
    if [m] succeeds it has started them all and the environment is [E'], if it
    fails it has stopped somewhere on the way.  What the commands do to the
    files is left open. *)

From Stdlib Require Import Ascii String ZArith Lia.
From stdpp Require Import base list gmap strings.
From S2P Require Import Prelude GoStrings Fs Host.

Inductive step : Type :=
| Start (c : Cmd)                       (* this command *)
| Maybe (c : Cmd)                       (* this command or nothing *)
| AnyOf (P : Cmd → Prop).               (* any commands of a kind *)

Inductive runs : list step → list Cmd → Prop :=
| runs_nil : runs [] []
| runs_start c p l : runs p l → runs (Start c :: p) (c :: l)
| runs_maybe c p l : runs p l → runs (Maybe c :: p) (c :: l)
| runs_skip c p l : runs p l → runs (Maybe c :: p) l
| runs_any (P : Cmd → Prop) p l1 l2 : Forall P l1 → runs p l2 → runs (AnyOf P :: p) (l1 ++ l2).

(** Stopped within the plan. *)
Definition stops (p : list step) (l : list Cmd) : Prop :=
  ∃ p1, p1 `prefix_of` p ∧ runs p1 l.

Lemma runs_app p q l1 l2 : runs p l1 → runs q l2 → runs (p ++ q) (l1 ++ l2).
Proof.
  induction 1; intros; cbn [app]; try (constructor; by auto); [done|].
  rewrite <- app_assoc. constructor; auto.
Qed.

Lemma runs_stops p l : runs p l → stops p l.
Proof. by exists p. Qed.

Lemma stops_app_l p q l : stops p l → stops (p ++ q) l.
Proof. intros (p1 & Hp & Hr). exists p1. split; [|done]. by apply prefix_app_r. Qed.

Lemma stops_app_r p q l1 l2 : runs p l1 → stops q l2 → stops (p ++ q) (l1 ++ l2).
Proof.
  intros Hp (q1 & Hq & Hr). exists (p ++ q1). split; [by apply prefix_app|by apply runs_app].
Qed.

Lemma stops_nil p : stops p [].
Proof. exists []. split; [apply prefix_nil|constructor]. Qed.

(** In a plan without open steps the log is determined. *)
Lemma runs_starts cs l : runs (Start <$> cs) l → l = cs.
Proof.
  revert l. induction cs as [|c cs IH]; intros l H; inversion H; subst; [done|]. f_equal. auto.
Qed.

Lemma stops_starts cs l : stops (Start <$> cs) l → l `prefix_of` cs.
Proof.
  intros (p1 & [p2 Hp] & Hr). apply fmap_app_inv in Hp as (l1 & l2 & -> & -> & ->).
  apply runs_starts in Hr as ->. by apply prefix_app_r.
Qed.

Abbreviation envmap := (gmap gostring gostring).

Definition plans {A : Type} (E E' : envmap) (m : HM A) (p : list step) : Prop :=
  ∀ s, menv s = E →
    let r := m s in
    ∃ cs, mlog (snd r) = mlog s ++ cs ∧
      match fst r with
      | Ok _ => menv (snd r) = E' ∧ runs p cs
      | _ => stops p cs
      end.

(** Code that leaves the environment as it is, whatever its outcome. *)
Definition keeps {A : Type} (m : HM A) : Prop := ∀ s, menv (snd (m s)) = menv s.

Lemma keeps_pure {A : Type} (r : res HostError A) : keeps (λ s, (r, s)).
Proof. by intros s. Qed.

Lemma keeps_bind {A B : Type} (m : HM A) (k : A → HM B) :
  keeps m → (∀ a, keeps (k a)) → keeps (st_bind m k).
Proof.
  intros Hm Hk s. unfold st_bind. specialize (Hm s).
  destruct (m s) as [[a|e| |] s1]; try done. rewrite Hk. apply Hm.
Qed.

Lemma keeps_files {A : Type} (m : FsM A) : keeps (on_files m).
Proof. intros s. unfold on_files. by destruct (m (mfs s)) as [r f]. Qed.

Lemma keeps_ctx {A : Type} c (m : HM A) : keeps m → keeps (ctx c m).
Proof. intros Hm s. specialize (Hm s). unfold ctx. by destruct (m s) as [[] s1]. Qed.

Lemma keeps_for {A : Type} (f : A → HM unit) l : (∀ a, keeps (f a)) → keeps (for_each f l).
Proof. intros Hf. induction l as [|a l IH]; [apply keeps_pure|by apply keeps_bind]. Qed.

(** ** Rules *)

Lemma plans_ret {A : Type} E (a : A) : plans E E (st_ret a) [].
Proof. intros s Hs. exists []. cbn. rewrite app_nil_r. split_and!; try done. constructor. Qed.

Lemma plans_err {A : Type} E E' e p : plans E E' (st_err e : HM A) p.
Proof. intros s Hs. exists []. cbn. rewrite app_nil_r. split; [done|]. apply stops_nil. Qed.

Lemma plans_panic {A : Type} E E' p : plans E E' (st_panic : HM A) p.
Proof. intros s Hs. exists []. cbn. rewrite app_nil_r. split; [done|]. apply stops_nil. Qed.

Lemma plans_lift {A : Type} E (r : res HostError A) : plans E E (st_lift r) [].
Proof.
  intros s Hs. exists []. cbn. rewrite app_nil_r. split; [done|].
  destruct r; try apply stops_nil. split; [done|constructor].
Qed.

Lemma plans_bind {A B : Type} E1 E2 E3 (m : HM A) (k : A → HM B) p q :
  plans E1 E2 m p → (∀ a, plans E2 E3 (k a) q) → plans E1 E3 (st_bind m k) (p ++ q).
Proof.
  intros Hm Hk s Hs. unfold st_bind. destruct (Hm s Hs) as (cs & Hl & Hr).
  destruct (m s) as [[a|e| |] s1]; cbn [fst snd] in *;
    [|exists cs; split; [done|by apply stops_app_l]..].
  destruct Hr as [He Hr]. destruct (Hk a s1 He) as (cs' & Hl' & Hr'). exists (cs ++ cs').
  rewrite app_assoc, <- Hl. split; [done|].
  destruct (fst (k a s1)); [|by apply stops_app_r..].
  destruct Hr'. split; [done|by apply runs_app].
Qed.

(** As above, when what the first part returns matters. *)
Lemma plans_bind_post {A B : Type} E1 E2 E3 (Q : A → Prop) (m : HM A) (k : A → HM B) p q :
  plans E1 E2 m p → (∀ s a s', menv s = E1 → m s = (Ok a, s') → Q a) →
  (∀ a, Q a → plans E2 E3 (k a) q) → plans E1 E3 (st_bind m k) (p ++ q).
Proof.
  intros Hm HQ Hk s Hs. unfold st_bind. destruct (Hm s Hs) as (cs & Hl & Hr).
  destruct (m s) as [[a|e| |] s1] eqn:E; cbn [fst snd] in *;
    [|exists cs; split; [done|by apply stops_app_l]..].
  destruct Hr as [He Hr]. destruct (Hk a (HQ s a s1 Hs E) s1 He) as (cs' & Hl' & Hr').
  exists (cs ++ cs'). rewrite app_assoc, <- Hl. split; [done|].
  destruct (fst (k a s1)); [|by apply stops_app_r..].
  destruct Hr'. split; [done|by apply runs_app].
Qed.

(** A step with nothing to run before or after. *)
Lemma plans_seq {A B : Type} E1 E2 E3 (m : HM A) (k : A → HM B) p :
  plans E1 E2 m [] → (∀ a, plans E2 E3 (k a) p) → plans E1 E3 (st_bind m k) p.
Proof. intros Hm Hk. by apply (plans_bind E1 E2 E3 m k []). Qed.

Lemma plans_files {A : Type} E (m : FsM A) : plans E E (on_files m) [].
Proof.
  intros s Hs. unfold on_files. destruct (m (mfs s)) as [r f]. exists [].
  cbn [fst snd mlog menv]. rewrite app_nil_r. split; [done|].
  destruct r; try apply stops_nil. split; [done|constructor].
Qed.

Lemma plans_ask {A : Type} E (q : fsys → res errno A) : plans E E (ask_files q) [].
Proof. apply plans_files. Qed.

(** Code that looks at the state before it goes on. *)
Lemma plans_look {A : Type} E E' (m : machine → HM A) p :
  (∀ s, menv s = E → plans E E' (m s) p) → plans E E' (looking m) p.
Proof. intros Hm s Hs. exact (Hm s Hs s Hs). Qed.

Lemma plans_ctx {A : Type} E E' c (m : HM A) p : plans E E' m p → plans E E' (ctx c m) p.
Proof.
  intros Hm s Hs. destruct (Hm s Hs) as (cs & Hl & Hr). exists cs. unfold ctx.
  by destruct (m s) as [[] s1].
Qed.

Lemma plans_defer {A : Type} E E' (after : HM unit) (m : HM A) p :
  (∀ s, menv (snd (after s)) = menv s ∧ mlog (snd (after s)) = mlog s) →
  plans E E' m p → plans E E' (deferring after m) p.
Proof.
  intros Ha Hm s Hs. destruct (Hm s Hs) as (cs & Hl & Hr). exists cs. unfold deferring.
  destruct (m s) as [r s1]; cbn [fst snd] in *. destruct (Ha s1) as [Hae Hal].
  destruct (after s1) as [[u|e| |] s2]; cbn [fst snd] in *; rewrite Hal;
    (split; [done|]); rewrite ?Hae; try done; destruct r; try done; by apply runs_stops, Hr.
Qed.

Lemma plans_try {A : Type} E (m : HM A) c :
  plans E E m [Start c] → keeps m → plans E E (try m) [Maybe c].
Proof.
  intros Hm He s Hs. destruct (Hm s Hs) as (cs & Hl & Hr). exists cs. unfold try. specialize (He s).
  assert (Hmay : ∀ l, stops [Start c] l → runs [Maybe c] l).
  { intros l (p1 & Hp & Hrun). inversion Hrun; subst; [repeat constructor|..];
      apply prefix_cons_inv_1 in Hp as Hc; simplify_eq.
    apply prefix_cons_inv_2, prefix_nil_inv in Hp as ->. inversion H; subst. repeat constructor. }
  destruct (m s) as [[a|e| |] s1]; cbn [fst snd] in *; (split; [done|]).
  - destruct Hr as [? Hr]. split; [done|]. apply Hmay. by apply runs_stops.
  - split; [congruence|by apply Hmay].
  - apply runs_stops. by apply Hmay.
  - apply runs_stops. by apply Hmay.
Qed.

Lemma plans_try_files {A : Type} E (m : HM A) :
  plans E E m [] → keeps m → plans E E (try m) [].
Proof.
  intros Hm He s Hs. destruct (Hm s Hs) as (cs & Hl & Hr). exists cs. unfold try. specialize (He s).
  assert (Hnil : ∀ l, stops [] l → runs [] l).
  { intros l (p1 & Hp & Hrun). by apply prefix_nil_inv in Hp as ->. }
  destruct (m s) as [[a|e| |] s1]; cbn [fst snd] in *; (split; [done|]); try done.
  split; [congruence|by apply Hnil].
Qed.

(** Code that fails and runs nothing. *)
Definition fails {A : Type} (m : HM A) : Prop :=
  ∀ s, mlog (snd (m s)) = mlog s ∧ ∀ a, fst (m s) ≠ Ok a.

(** [if err := m; err != nil { clean up; return err }] and then the rest. *)
Lemma plans_try_then {A B : Type} E E' (m : HM A) (k : A + HostError → HM B) p q :
  plans E E m p → keeps m → (∀ a, plans E E' (k (inl a)) q) → (∀ e, fails (k (inr e))) →
  plans E E' (st_bind (try m) k) (p ++ q).
Proof.
  intros Hm He Hk Hf s Hs. destruct (Hm s Hs) as (cs & Hl & Hr). unfold st_bind, try.
  destruct (m s) as [[a|e| |] s1]; cbn [fst snd] in *.
  - destruct Hr as [He1 Hr]. destruct (Hk a s1 He1) as (cs' & Hl' & Hr'). exists (cs ++ cs').
    rewrite app_assoc, <- Hl. split; [done|].
    destruct (fst (k (inl a) s1)); [|by apply stops_app_r..].
    destruct Hr'. split; [done|by apply runs_app].
  - destruct (Hf e s1) as [Hl1 Hok]. exists cs. rewrite Hl1. split; [done|].
    destruct (fst (k (inr e) s1)) as [b| | |]; [by destruct (Hok b)|by apply stops_app_l..].
  - exists cs. split; [done|by apply stops_app_l].
  - exists cs. split; [done|by apply stops_app_l].
Qed.

Lemma plans_for {A : Type} E (f : A → HM unit) (g : A → list step) l :
  (∀ a, a ∈ l → plans E E (f a) (g a)) → plans E E (for_each f l) (l ≫= g).
Proof.
  induction l as [|a l IH]; intros Hf; [apply plans_ret|]. cbn [for_each].
  change ((a :: l) ≫= g) with (g a ++ (l ≫= g)).
  apply plans_bind with E; [apply Hf; by left|intros _]. apply IH. intros b Hb. apply Hf. by right.
Qed.

Lemma plans_for_quiet {A : Type} E (f : A → HM unit) l :
  (∀ a, a ∈ l → plans E E (f a) []) → plans E E (for_each f l) [].
Proof.
  intros Hf. replace (@nil step) with (l ≫= λ _, @nil step); [by apply plans_for|].
  clear. by induction l.
Qed.

Lemma plans_weaken {A : Type} E E' (m : HM A) p q :
  plans E E' m p → (∀ l, runs p l → runs q l) → (∀ l, stops p l → stops q l) → plans E E' m q.
Proof.
  intros Hm H1 H2 s Hs. destruct (Hm s Hs) as (cs & Hl & Hr). exists cs. split; [done|].
  destruct (fst (m s)); [|by apply H2..]. destruct Hr. split; [done|by apply H1].
Qed.

Section running.
Context `{External}.

Lemma run_cmd_log c s : mlog (snd (run_cmd c s)) = mlog s ++ [c].
Proof.
  unfold run_cmd. destruct (argv c); [done|]. case_match; [done|].
  by destruct (exec_ext (mlog s) c (mfs s)).
Qed.

Lemma run_cmd_env c s : menv (snd (run_cmd c s)) = menv s.
Proof.
  unfold run_cmd. destruct (argv c); [done|]. case_match; [done|].
  by destruct (exec_ext (mlog s) c (mfs s)).
Qed.

Lemma must_run_state c s : snd (must_run c s) = snd (run_cmd c s).
Proof. unfold must_run. by destruct (run_cmd c s) as [[[]|] ?]. Qed.

Lemma plans_must E c : plans E E (must_run c) [Start c].
Proof.
  intros s Hs. exists [c]. rewrite must_run_state, run_cmd_log, run_cmd_env. split; [done|].
  assert (Hr : runs [Start c] [c]) by repeat constructor.
  destruct (fst (must_run c s)); [done|by apply runs_stops..].
Qed.

Lemma plans_plain E dir words :
  plans E E (run_plain dir words) [Start (MkCmd words dir (environ E) None)].
Proof.
  apply plans_look. intros s Hs. unfold plain_cmd, Environ. rewrite Hs. apply plans_must.
Qed.

Lemma plans_setenv E k v : plans E (<[k := v]> E) (Setenv k v) [].
Proof.
  intros s Hs. exists []. unfold Setenv. destruct (mem (chr 0) v); cbn; rewrite app_nil_r.
  - split; [done|apply stops_nil].
  - rewrite Hs. split_and!; try done. constructor.
Qed.
End running.

Create HintDb plans.
#[export] Hint Resolve plans_ret plans_err plans_panic plans_lift plans_files plans_ask : plans.

(** Code that runs nothing. *)
Ltac quiet :=
  repeat match goal with
  | |- plans _ _ (st_bind _ _) [] => eapply plans_seq; [|intros ?]
  | |- plans _ _ (looking _) [] => apply plans_look; intros ? ?
  | |- plans _ _ (ctx _ _) [] => apply plans_ctx
  | |- plans _ _ (for_each _ _) [] => apply plans_for_quiet; intros ? ?
  | |- plans _ _ (try _) [] => apply plans_try_files; [|by apply keeps_files]
  | |- plans _ _ (match ?x with _ => _ end) [] => destruct x eqn:?
  | |- plans _ _ _ [] => progress (cbv zeta)
  | |- plans _ _ _ [] => solve [auto 1 with plans]
  end.

(** ** Commands of a kind *)

(** Code that runs only commands of a kind. *)
Definition confined {A : Type} (E : envmap) (P : Cmd → Prop) (m : HM A) : Prop :=
  plans E E m [AnyOf P].

Lemma confined_quiet {A : Type} E P (m : HM A) : plans E E m [] → confined E P m.
Proof.
  intros Hm. eapply plans_weaken; [exact Hm|..].
  - intros l Hl. inversion Hl; subst. change (@nil Cmd) with (@nil Cmd ++ []).
    repeat constructor.
  - intros l (p1 & ->%prefix_nil_inv & Hl). inversion Hl; subst. apply stops_nil.
Qed.

Lemma confined_runs P l : runs [AnyOf P] l ↔ Forall P l.
Proof.
  split.
  - intros Hl. inversion Hl as [| | | |P' p l1 l2 HP Hr]; subst. inversion Hr; subst.
    by rewrite app_nil_r.
  - intros Hl. rewrite <- (app_nil_r l). by repeat constructor.
Qed.

Lemma confined_stops P l : stops [AnyOf P] l → Forall P l.
Proof.
  intros (p1 & Hp & Hr). destruct p1 as [|x p1]; [inversion Hr; constructor|].
  apply prefix_cons_inv_1 in Hp as Hx. apply prefix_cons_inv_2, prefix_nil_inv in Hp. subst.
  by apply confined_runs.
Qed.

Lemma confined_bind {A B : Type} E P (m : HM A) (k : A → HM B) :
  confined E P m → (∀ a, confined E P (k a)) → confined E P (st_bind m k).
Proof.
  intros Hm Hk. unfold confined.
  eapply plans_weaken; [eapply (plans_bind E E E m k); [exact Hm|exact Hk]|..]; cbn [app].
  - intros l Hl. apply confined_runs.
    inversion Hl as [| | | |P' p l1 l2 HP Hr]; subst. apply Forall_app. split; [done|].
    by apply confined_runs.
  - intros l (p1 & Hp & Hr). apply runs_stops, confined_runs.
    destruct p1 as [|x [|y [|z p1]]].
    + inversion Hr. constructor.
    + apply prefix_cons_inv_1 in Hp as ->. by apply confined_runs.
    + apply prefix_cons_inv_1 in Hp as Hx. apply prefix_cons_inv_2 in Hp.
      apply prefix_cons_inv_1 in Hp as Hy. subst.
      inversion Hr as [| | | |P' p l1 l2 HP Hr']; subst. apply Forall_app. split; [done|].
      by apply confined_runs.
    + apply prefix_length in Hp. simpl in Hp. lia.
Qed.

Lemma confined_look {A : Type} E P (m : machine → HM A) :
  (∀ s, menv s = E → confined E P (m s)) → confined E P (looking m).
Proof. apply plans_look. Qed.

Lemma confined_ctx {A : Type} E P c (m : HM A) : confined E P m → confined E P (ctx c m).
Proof. apply plans_ctx. Qed.

Lemma confined_for {A : Type} E P (f : A → HM unit) l :
  (∀ a, a ∈ l → confined E P (f a)) → confined E P (for_each f l).
Proof.
  induction l as [|a l IH]; intros Hf; [apply confined_quiet, plans_ret|]. cbn [for_each].
  apply confined_bind; [apply Hf; by left|intros _]. apply IH. intros b Hb. apply Hf. by right.
Qed.

Lemma confined_plain `{External} E (P : Cmd → Prop) dir words :
  P (MkCmd words dir (environ E) None) → confined E P (run_plain dir words).
Proof.
  intros HP. eapply plans_weaken; [apply plans_plain|..].
  - intros l Hl. apply (runs_starts [_]) in Hl as ->. apply confined_runs. by repeat constructor.
  - intros l Hl. apply (stops_starts [_]) in Hl. apply runs_stops, confined_runs.
    destruct l as [|c l]; [constructor|]. apply prefix_cons_inv_1 in Hl as Hc.
    apply prefix_cons_inv_2, prefix_nil_inv in Hl. subst. by repeat constructor.
Qed.

Lemma confined_defer {A : Type} E P (after : HM unit) (m : HM A) :
  (∀ s, menv (snd (after s)) = menv s ∧ mlog (snd (after s)) = mlog s) →
  confined E P m → confined E P (deferring after m).
Proof. apply plans_defer. Qed.

Lemma confined_weaken {A : Type} E (P Q : Cmd → Prop) (m : HM A) :
  confined E P m → (∀ c, P c → Q c) → confined E Q m.
Proof.
  intros Hm HPQ. eapply plans_weaken; [exact Hm|..].
  - intros l Hl%confined_runs. apply confined_runs. by eapply Forall_impl.
  - intros l Hl%confined_stops. apply runs_stops, confined_runs. by eapply Forall_impl.
Qed.

(** Automation: walk down the code, leave the commands. *)
Ltac confine :=
  repeat match goal with
  | |- confined _ _ (st_bind _ _) => apply confined_bind; [|intros ?]
  | |- confined _ _ (looking _) => apply confined_look; intros ? ?
  | |- confined _ _ (ctx _ _) => apply confined_ctx
  | |- confined _ _ (for_each _ _) => apply confined_for; intros ? ?
  | |- confined _ _ (match ?x with _ => _ end) => destruct x eqn:?
  | |- confined _ _ (run_plain _ _) => apply confined_plain
  | |- confined _ _ _ => progress (cbv zeta)
  | |- confined _ _ _ => solve [apply confined_quiet; auto 1 with plans]
  end.
