(* ===== verification/Util.v ===== *)
(** * Processes, logging and HTTP clients (internal/util, internal/httpclient)

    Running a program and reading its result, the lines of the log with and
    without colours, and the limits of the two HTTP clients. *)

From Stdlib Require Import Ascii String ZArith Lia.
From stdpp Require Import base list gmap strings.
From S2P Require Import Prelude GoStrings GoNumbers Fs Host Plan.

(** ** Texts *)

(** Lines, with a quote for each backquote. *)
Definition text (ls : list gostring) : gostring :=
  concat (map (λ l, map (λ c, if Ascii.eqb c "`" then DQ else c) l ++ [NL]) ls).

(** ** util/process.go *)

Record RunResult : Type := MkRunResult { ExitCode : Z; Stdout : gostring; Stderr : gostring }.

(** The method [Ok] of a result. *)
Definition RunResult_Ok (r : RunResult) : bool := (ExitCode r =? 0)%Z.

Section process.
Context `{External}.

(** A program that exits with a failure is a result, one that does not start is
    an error. *)
Definition RunInDir (dir name : gostring) (args : list gostring) : HM RunResult :=
  looking (λ s s0,
    match run_cmd (plain_cmd dir (name :: args) s) s0 with
    | (Exited code out err, s') => (Ok (MkRunResult code out err), s')
    | (NotStarted, s') => (Err (ECtx name (CmdFailed (name :: args))), s')
    end).

Definition Run (name : gostring) (args : list gostring) : HM RunResult := RunInDir [] name args.

Definition RunOrError (name : gostring) (args : list gostring) : HM RunResult :=
  let! res := Run name args in
  if negb (RunResult_Ok res) then st_err (CmdFailed (name :: args)) else st_ret res.

(** [env] is appended to the environment of the builder, so it wins over it. *)
Definition RunStreamingEnv (dir : gostring) (env : list gostring) (name : gostring)
    (args : list gostring) : HM unit :=
  looking (λ s, must_run (MkCmd (name :: args) dir
    (if negb (length env =? 0)%nat then Environ s ++ env else Environ s) None)).

Definition RunStreaming (dir name : gostring) (args : list gostring) : HM unit :=
  RunStreamingEnv dir [] name args.

Definition RunWithStdin (dir stdinData name : gostring) (args : list gostring) : HM unit :=
  looking (λ s, must_run (MkCmd (name :: args) dir (Environ s) (Some stdinData))).

Lemma RunStreamingEnv_cmd dir env name args s :
  RunStreamingEnv dir env name args s =
    must_run (MkCmd (name :: args) dir (Environ s ++ env) None) s.
Proof. unfold RunStreamingEnv, looking. destruct env; [by rewrite app_nil_r|done]. Qed.

Lemma plans_RunStreaming E dir name args :
  plans E E (RunStreaming dir name args) [Start (MkCmd (name :: args) dir (environ E) None)].
Proof.
  apply plans_look. intros s Hs. cbn [length Nat.eqb negb]. unfold Environ. rewrite Hs.
  apply plans_must.
Qed.

(** The three ways to run a program agree: [RunOrError] succeeds exactly when
    [Run] gives a result that is [Ok], and then exactly when [RunStreaming]
    would succeed from the same state; the state afterwards is the same. *)
Lemma RunOrError_spec name args s :
  snd (RunOrError name args s) = snd (Run name args s) ∧
  snd (RunStreaming [] name args s) = snd (Run name args s) ∧
  match fst (Run name args s), fst (RunOrError name args s), fst (RunStreaming [] name args s) with
  | Ok r, Ok r', Ok _ => r' = r ∧ ExitCode r = 0%Z
  | Ok r, Err _, Err _ => ExitCode r ≠ 0%Z
  | Err _, Err _, Err _ => True
  | _, _, _ => False
  end.
Proof.
  unfold RunStreaming, RunOrError, Run. rewrite RunStreamingEnv_cmd, app_nil_r.
  unfold RunInDir, looking, st_bind, must_run, plain_cmd.
  destruct (run_cmd (MkCmd (name :: args) [] (Environ s) None) s) as [[code out err|] s'];
    cbn [fst snd]; [|done].
  unfold RunResult_Ok. cbn [ExitCode]. by destruct code.
Qed.
End process.

(** ** util/logging.go *)

Inductive stream : Type := StdoutStream | StderrStream.

(** A terminal is told by the kind of the file behind standard output. *)
Definition detectTerminal (stdout : option dent) : bool :=
  match stdout with Some (DSpecial CharDevice _) => true | _ => false end.

Definition ESC : ascii := chr 27.

Definition colorReset : gostring := ESC :: "[0m".
Definition colorBold : gostring := ESC :: "[1m".
Definition colorDim : gostring := ESC :: "[2m".
Definition ColorCyan : gostring := ESC :: "[36m".
Definition ColorYellow : gostring := ESC :: "[33m".
Definition ColorRed : gostring := ESC :: "[1;31m".
Definition ColorGreen : gostring := ESC :: "[1;32m".

Section logging.
Variables (isTerminal verbose : bool).

Definition Colorize (colorCode text : gostring) : gostring :=
  if negb isTerminal then text else colorCode ++ text ++ colorReset.

Definition Bold (text : gostring) : gostring := Colorize colorBold text.

Definition colorPrefix (code : gostring) : gostring := if negb isTerminal then [] else code.

Definition resetSuffix : gostring := if negb isTerminal then [] else colorReset.

(** A line of the log for the message [msg], already formatted. *)
Definition Debugf (msg : gostring) : option (stream * gostring) :=
  if negb verbose then None
  else Some (StdoutStream, colorPrefix colorDim ++ "[DEBUG] " ++ msg ++ resetSuffix ++ [NL]).

Definition Infof (msg : gostring) : option (stream * gostring) :=
  Some (StdoutStream, colorPrefix ColorCyan ++ "[INFO ]" ++ resetSuffix ++ " " ++ msg ++ [NL]).

Definition Warnf (msg : gostring) : option (stream * gostring) :=
  Some (StderrStream, colorPrefix ColorYellow ++ "[WARN ]" ++ resetSuffix ++ " " ++ msg ++ [NL]).

Definition Errorf (msg : gostring) : option (stream * gostring) :=
  Some (StderrStream, colorPrefix ColorRed ++ "[ERROR]" ++ resetSuffix ++ " " ++ msg ++ [NL]).
End logging.

(** Text without its colour codes: an escape, a bracket, digits and semicolons
    and the letter m are dropped. *)
Inductive ansi_mode : Type := InText | AfterEscape | InCode.

Fixpoint strip_ansi (mode : ansi_mode) (s : gostring) : gostring :=
  match s with
  | [] => match mode with AfterEscape => [ESC] | _ => [] end
  | c :: s' =>
      match mode with
      | InText => if Ascii.eqb c ESC then strip_ansi AfterEscape s' else c :: strip_ansi InText s'
      | AfterEscape =>
          if Ascii.eqb c "[" then strip_ansi InCode s' else ESC :: c :: strip_ansi InText s'
      | InCode =>
          if Ascii.eqb c "m" then strip_ansi InText s'
          else if is_digit c || Ascii.eqb c ";" then strip_ansi InCode s'
          else c :: strip_ansi InText s'
      end
  end.

Lemma strip_text s rest :
  mem ESC s = false → strip_ansi InText (s ++ rest) = s ++ strip_ansi InText rest.
Proof.
  rewrite mem_false. induction s as [|c s IH]; intros Hm; [done|].
  apply not_elem_of_cons in Hm as [Hc Hm]. cbn [app strip_ansi].
  rewrite (proj2 (Ascii.eqb_neq c ESC)) by congruence. by rewrite IH.
Qed.

Definition text_of (l : option (stream * gostring)) : gostring :=
  match l with Some (_, t) => t | None => [] end.

Lemma strip_code code rest :
  code ∈ [colorReset; colorBold; colorDim; ColorCyan; ColorYellow; ColorRed; ColorGreen] →
  strip_ansi InText (code ++ rest) = strip_ansi InText rest.
Proof.
  intros Hc. repeat (apply elem_of_cons in Hc as [->|Hc]; [reflexivity|]).
  by apply not_elem_of_nil in Hc.
Qed.

(** A line on a terminal is the line elsewhere with colour codes added: without
    them the two are the same, and the latter has no escape of its own. *)
Lemma log_lines_plain verbose msg f :
  f ∈ [λ t, Debugf t verbose; Infof; Warnf; Errorf] → mem ESC msg = false →
  strip_ansi InText (text_of (f true msg)) = text_of (f false msg) ∧
  mem ESC (text_of (f false msg)) = false.
Proof.
  intros Hf Hm.
  repeat (apply elem_of_cons in Hf as [->|Hf]); [..|by apply not_elem_of_nil in Hf];
    unfold Debugf, Infof, Warnf, Errorf, text_of, colorPrefix, resetSuffix;
    try (destruct verbose; [|done]); cbn [negb]; rewrite ?mem_app, ?Hm;
    (split; [|reflexivity]);
    rewrite ?strip_code by (repeat first [by left|right]);
    rewrite strip_text by reflexivity;
    rewrite ?strip_code by (repeat first [by left|right]);
    rewrite ?(strip_text " ") by reflexivity; by rewrite strip_text.
Qed.

(** ** internal/httpclient *)

Module HttpClient.
(** [time.Duration], in nanoseconds; zero is no limit. *)
Definition Second : Z := 1000000000.
Definition Minute : Z := 60 * Second.

Record Transport : Type := MkTransport {
  DialTimeout : Z; KeepAlive : Z; TLSHandshakeTimeout : Z; ResponseHeaderTimeout : Z;
  IdleConnTimeout : Z; InsecureSkipVerify : bool }.

(** [None] is the default transport. *)
Record Client : Type := MkClient { Timeout : Z; transport : option Transport }.

Definition DefaultTimeout : Z := 30 * Second.
Definition RegistryTimeout : Z := 5 * Minute.

Definition New : Client := MkClient DefaultTimeout None.

Definition NewForRegistry (insecureSkipVerify : bool) : Client :=
  MkClient 0
    (Some (MkTransport (10 * Second) (30 * Second) (10 * Second) RegistryTimeout (90 * Second)
             (if insecureSkipVerify then true else false))).
End HttpClient.
