(* ===== verification/Sandbox.v ===== *)
(** * The build sandbox (internal/sandbox/sandbox.go)

    Every command inside the image runs as [unshare ... sh -e -c script].  The
    script quotes its arguments for the shell; a small model of how sh splits
    words shows that the command and its arguments reach chroot unchanged,
    whatever bytes they contain. *)

From Stdlib Require Import Ascii String Lia.
From stdpp Require Import base list gmap strings.
From S2P Require Import Prelude GoStrings GoNumbers GoPath Fs Host Plan.

Definition SQ : ascii := "'"%char.

Definition noninteractiveEnv : list gostring :=
  ["DEBIAN_FRONTEND=noninteractive";
   "DEBCONF_NONINTERACTIVE_SEEN=true";
   "DEBCONF_NOWARNINGS=yes";
   "LC_ALL=C";
   "LANG=C";
   "LANGUAGE=C";
   "PATH=/usr/local/sbin:/usr/local/bin:/usr/sbin:/usr/bin:/sbin:/bin"].

(** ** The script *)

(** [strings.ReplaceAll(s, "'", `'\''`)] between apostrophes. *)
Definition escape_sq (c : ascii) : option gostring :=
  if Ascii.eqb c SQ then Some [SQ; BSL; SQ; SQ] else None.

Definition quot (s : gostring) : gostring := [SQ] ++ replace_bytes escape_sq s ++ [SQ].

Fixpoint quot_args (args : list gostring) : gostring :=
  match args with
  | [] => []
  | [a] => quot a
  | a :: args' => quot a ++ " " ++ quot_args args'
  end.

Definition rootfs_var (suffix : gostring) : gostring := [DQ] ++ "$ROOTFS" ++ suffix ++ [DQ].

(** The mounts inside the image and the trap that undoes them. *)
Definition script_mounts : gostring :=
  "mount -t proc    proc       " ++ rootfs_var "/proc" ++ [NL]
  ++ "mount -t sysfs   sysfs      " ++ rootfs_var "/sys" ++ [NL]
  ++ "mount --bind     /dev       " ++ rootfs_var "/dev" ++ [NL]
  ++ "mount --bind     /dev/pts   " ++ rootfs_var "/dev/pts" ++ [NL]
  ++ "_cleanup() {" ++ [NL]
  ++ "    umount -l " ++ rootfs_var "/dev/pts" ++ " 2>/dev/null || true" ++ [NL]
  ++ "    umount -l " ++ rootfs_var "/dev" ++ "     2>/dev/null || true" ++ [NL]
  ++ "    umount -l " ++ rootfs_var "/sys" ++ "     2>/dev/null || true" ++ [NL]
  ++ "    umount -l " ++ rootfs_var "/proc" ++ "    2>/dev/null || true" ++ [NL]
  ++ "}" ++ [NL]
  ++ "trap _cleanup EXIT" ++ [NL].

(** The words of the chroot command after the image directory. *)
Definition chroot_words (command : gostring) (args : list gostring) : gostring :=
  quot command ++ " " ++ quot_args args ++ [NL].

Definition buildMountAndChrootScript (rootfsDir command : gostring) (args : list gostring)
    : gostring :=
  "set -e" ++ [NL] ++ "ROOTFS=" ++ quot rootfsDir ++ [NL]
  ++ script_mounts
  ++ "exec chroot " ++ rootfs_var [] ++ " " ++ chroot_words command args.

(** ** Running it *)

Definition mount_points : list gostring := ["proc"; "sys"; "dev"; "dev/pts"].

(** The command for an environment [E] of the builder. *)
Definition sandbox_cmd (E : list gostring) (rootfsDir : gostring) (extraEnv : list gostring)
    (stdin : option gostring) (command : gostring) (args : list gostring) : Cmd :=
  MkCmd (["unshare"; "--mount"; "--pid"; "--fork"; "--uts"; "--kill-child"; "sh"; "-e"; "-c"]
         ++ [buildMountAndChrootScript rootfsDir command args])
        [] ((E ++ noninteractiveEnv) ++ extraEnv) stdin.

Section run.
Context `{External}.

Definition execInternal (rootfsDir : gostring) (extraEnv : list gostring)
    (stdin : option gostring) (command : gostring) (args : list gostring) : HM unit :=
  for_each (λ sub, ctx ("sandbox: mkdir " ++ sub)
              (on_files (MkdirAll umask (path_join [rootfsDir; sub]) 493))) mount_points ;;
  ctx ("sandbox: exec " ++ command)
    (looking (λ s, must_run (sandbox_cmd (Environ s) rootfsDir extraEnv stdin command args))).

Definition Exec (rootfsDir command : gostring) (args : list gostring) : HM unit :=
  execInternal rootfsDir [] None command args.

Definition ExecEnv (rootfsDir : gostring) (extraEnv : list gostring) (command : gostring)
    (args : list gostring) : HM unit :=
  execInternal rootfsDir extraEnv None command args.

Definition ExecWithStdin (rootfsDir stdinData command : gostring) (args : list gostring) : HM unit :=
  execInternal rootfsDir [] (Some stdinData) command args.

(** ** Plans *)

Lemma plans_execInternal E rootfsDir extraEnv stdin command args :
  plans E E (execInternal rootfsDir extraEnv stdin command args)
    [Start (sandbox_cmd (environ E) rootfsDir extraEnv stdin command args)].
Proof.
  apply plans_seq with E.
  - change (@nil step) with (mount_points ≫= λ _, @nil step). apply plans_for. intros sub _.
    apply plans_ctx, plans_files.
  - intros _. apply plans_ctx, plans_look. intros s Hs. unfold Environ. rewrite Hs.
    apply plans_must.
Qed.

Lemma execInternal_env rootfsDir extraEnv stdin command args s :
  menv (snd (execInternal rootfsDir extraEnv stdin command args s)) = menv s.
Proof.
  unfold execInternal. apply keeps_bind.
  - apply keeps_for. intros sub. apply keeps_ctx, keeps_files.
  - intros _. apply keeps_ctx. intros s0. unfold looking. by rewrite must_run_state, run_cmd_env.
Qed.
End run.

(** ** How sh reads the words *)

(** Words of a simple command as POSIX sh splits them: blanks separate words,
    apostrophes quote everything up to the next one, a backslash outside quotes
    quotes one byte, a newline ends the command.  [None] for syntax outside
    this fragment.  [cur] is the word being read, if one has started. *)
Inductive sh_mode : Type := Plain | Quoted | Escaped.

Definition sh_special (c : ascii) : bool :=
  mem c ([DQ] ++ "$`;&|<>()*?[]#~=%!{}") .

Fixpoint sh_split (s : gostring) (mode : sh_mode) (cur : option gostring)
    : option (list gostring * gostring) :=
  let grow c := match cur with Some w => Some (w ++ [c]) | None => Some [c] end in
  let done rest := match cur with Some w => Some ([w], rest) | None => Some ([], rest) end in
  match s with
  | [] => match mode with Plain => done [] | _ => None end
  | c :: s' =>
      match mode with
      | Quoted =>
          if Ascii.eqb c SQ then sh_split s' Plain (Some (match cur with Some w => w | None => [] end))
          else sh_split s' Quoted (grow c)
      | Escaped => sh_split s' Plain (grow c)
      | Plain =>
          if Ascii.eqb c NL then done s'
          else if Ascii.eqb c " " || Ascii.eqb c TAB then
            match cur with
            | Some w =>
                match sh_split s' Plain None with
                | Some (ws, rest) => Some (w :: ws, rest)
                | None => None
                end
            | None => sh_split s' Plain None
            end
          else if Ascii.eqb c SQ then
            sh_split s' Quoted (Some (match cur with Some w => w | None => [] end))
          else if Ascii.eqb c BSL then sh_split s' Escaped cur
          else if sh_special c then None
          else sh_split s' Plain (grow c)
      end
  end.

Definition sh_words (s : gostring) : option (list gostring) := fst <$> sh_split s Plain None.

Example sh_words_1 : sh_words ("chroot " ++ quot "it's" ++ "  a\ b") =
  Some ["chroot" : gostring; "it's"; "a b"].
Proof. reflexivity. Qed.

(** Inside quotes: the escaped text of [s] adds exactly [s] to the word. *)
Lemma sh_split_quoted s w rest :
  sh_split (replace_bytes escape_sq s ++ [SQ] ++ rest) Quoted (Some w) =
  sh_split rest Plain (Some (w ++ s)).
Proof.
  revert w. induction s as [|c s IH]; intros w.
  { by rewrite app_nil_r. }
  change (replace_bytes escape_sq (c :: s)) with
    ((match escape_sq c with Some r => r | None => [c] end) ++ replace_bytes escape_sq s).
  rewrite <- app_assoc. unfold escape_sq at 1. destruct (Ascii.eqb_spec c SQ) as [->|Hc].
  - change (sh_split (replace_bytes escape_sq s ++ [SQ] ++ rest) Quoted (Some (w ++ [SQ])) =
            sh_split rest Plain (Some (w ++ SQ :: s))).
    by rewrite IH, <- app_assoc.
  - change ([c] ++ replace_bytes escape_sq s ++ [SQ] ++ rest) with
      (c :: replace_bytes escape_sq s ++ [SQ] ++ rest).
    cbn [sh_split]. rewrite (proj2 (Ascii.eqb_neq c SQ) Hc), IH. by rewrite <- app_assoc.
Qed.

Lemma sh_split_quot s cur rest :
  sh_split (quot s ++ rest) Plain cur =
  sh_split rest Plain (Some (match cur with Some w => w | None => [] end ++ s)).
Proof.
  unfold quot. rewrite <- !app_assoc. cbn [app sh_split].
  change (Ascii.eqb SQ NL) with false. change (Ascii.eqb SQ " ") with false.
  change (Ascii.eqb SQ TAB) with false. change (Ascii.eqb SQ SQ) with true. cbn [orb].
  apply (sh_split_quoted s _ rest).
Qed.

Lemma sh_split_args args rest :
  args ≠ [] →
  sh_split (quot_args args ++ [NL] ++ rest) Plain None = Some (args, rest).
Proof.
  induction args as [|a args IH]; intros Hne; [done|]. destruct args as [|b args].
  - cbn [quot_args]. rewrite sh_split_quot. cbn [app sh_split].
    change (Ascii.eqb NL NL) with true. done.
  - change (quot_args (a :: b :: args)) with (quot a ++ " " ++ quot_args (b :: args)).
    rewrite <- !app_assoc, sh_split_quot. cbn [app].
    change (sh_split (" "%char :: quot_args (b :: args) ++ NL :: rest) Plain (Some a)) with
      (match sh_split (quot_args (b :: args) ++ NL :: rest) Plain None with
       | Some (ws, rest') => Some (a :: ws, rest')
       | None => None
       end).
    change (NL :: rest) with ([NL] ++ rest). by rewrite IH.
Qed.

Lemma chroot_words_split command args :
  sh_split (chroot_words command args) Plain None = Some (command :: args, []).
Proof.
  unfold chroot_words. rewrite sh_split_quot. cbn [app].
  destruct args as [|a args].
  - reflexivity.
  - change (sh_split (" "%char :: quot_args (a :: args) ++ [NL]) Plain (Some command)) with
      (match sh_split (quot_args (a :: args) ++ [NL] ++ []) Plain None with
       | Some (ws, rest') => Some (command :: ws, rest')
       | None => None
       end).
    by rewrite sh_split_args.
Qed.

(** ** The environment *)

(** The value of a variable in an environment list: the last entry counts. *)
Definition env_get (env : list gostring) (k : gostring) : option gostring :=
  last (omap (λ e, if HasPrefix e (k ++ "=") then Some (drop (length k + 1) e) else None) env).

Lemma env_get_app env env' k :
  env_get (env ++ env') k =
  match env_get env' k with Some v => Some v | None => env_get env k end.
Proof.
  unfold env_get. rewrite omap_app, last_app. by destruct (last (omap _ env')).
Qed.

(** ** Claims *)

(** C12.  The shell passes the command and its arguments to chroot byte for
    byte: the script ends in one simple command whose words after the image
    directory are exactly the command and the arguments, and the assignment
    before it gives the variable exactly the directory, whatever characters
    they contain. *)
Theorem sandbox_words rootfsDir command args :
  buildMountAndChrootScript rootfsDir command args =
    "set -e" ++ [NL] ++ "ROOTFS=" ++ quot rootfsDir ++ [NL] ++ script_mounts
    ++ "exec chroot " ++ rootfs_var [] ++ " " ++ chroot_words command args ∧
  sh_words (chroot_words command args) = Some (command :: args) ∧
  ∀ rest, sh_split (quot rootfsDir ++ [NL] ++ rest) Plain None = Some ([rootfsDir], rest).
Proof.
  split_and!.
  - reflexivity.
  - unfold sh_words. by rewrite chroot_words_split.
  - intros rest. apply (sh_split_args [rootfsDir]). done.
Qed.

(** Every sandboxed command runs non-interactively with the fixed locale
    and search path, whatever the builder's own environment says; only the
    extra variables of the call can override them. *)
Theorem sandbox_env E rootfsDir extraEnv stdin command args k v :
  env_get noninteractiveEnv k = Some v → env_get extraEnv k = None →
  env_get (cmd_env (sandbox_cmd E rootfsDir extraEnv stdin command args)) k = Some v.
Proof.
  intros Hn He. unfold sandbox_cmd. cbn [cmd_env]. by rewrite !env_get_app, He, Hn.
Qed.

Lemma sandbox_env_witness :
  env_get (cmd_env (sandbox_cmd ["DEBIAN_FRONTEND=dialog" : gostring; "HOME=/root"] "/r"
             ["A=b" : gostring] None "apt-get" ["update" : gostring])) "DEBIAN_FRONTEND" =
  Some ("noninteractive" : gostring).
Proof. apply sandbox_env; vm_compute; reflexivity. Defined.
