(* ===== verification/Download.v ===== *)
(** * Fetching deb-ostree (internal/download/debostree.go)

    The network is a function from URLs to responses.  The download is
    installed only after the SHA-256 check; the check is skipped exactly when
    the release publishes no checksum for the binary. *)

From Stdlib Require Import Ascii String ZArith Lia.
From stdpp Require Import base list gmap strings.
From S2P Require Import Prelude GoStrings GoNumbers GoPath Sha256 Fs FsProps.

Definition releasesPageURL : gostring :=
  "https://github.com/HackerOS-Linux-System/deb-ostree/releases".
Definition releaseAssetName : gostring := "deb-ostree".
Definition checksumsAssetName : gostring := "checksums.txt".
Definition fallbackVersion : gostring := "v0.0.1".

(** ** The release page *)

(** The expression [reReleaseTag]: this prefix, then a captured group of a v, a
    digit and all following characters that are neither quotes nor blanks. *)
Definition tag_prefix : gostring := "/HackerOS-Linux-System/deb-ostree/releases/tag/".

Definition tag_char (c : ascii) : bool :=
  negb (mem c ([DQ; "'"%char; " "%char; TAB; NL; chr 12; CR])).

Fixpoint take_while (f : ascii → bool) (s : gostring) : gostring :=
  match s with
  | c :: s' => if f c then c :: take_while f s' else []
  | [] => []
  end.

(** The captured group of a match that starts here. *)
Definition tag_at (s : gostring) : option gostring :=
  if HasPrefix s tag_prefix then
    match drop (length tag_prefix) s with
    | v :: d :: rest =>
        if Ascii.eqb v "v" && is_digit d then Some (v :: d :: take_while tag_char rest) else None
    | _ => None
    end
  else None.

(** [FindSubmatch]: the leftmost match. *)
Fixpoint find_tag (s : gostring) : option gostring :=
  match tag_at s with
  | Some t => Some t
  | None => match s with [] => None | _ :: s' => find_tag s' end
  end.

(** ** Fetching *)

Inductive response : Type :=
| NoResponse
| Response (status : Z) (body : gostring).

Inductive DownloadError : Type :=
| FetchFailed (url : gostring)
| BadStatus (status : Z) (url : gostring)
| NoTag
| ChecksumMismatch (expected actual : gostring)
| MkdirError (e : errno)
| WriteError (path : gostring) (e : errno)
| ChmodError (path : gostring) (e : errno).

Definition releaseAssetURL (version assetName : gostring) : gostring :=
  "https://github.com/HackerOS-Linux-System/deb-ostree/releases/download/"
  ++ version ++ "/" ++ assetName.

Section net.
Variable http : gostring → response.

Definition fetchBytes (url : gostring) : res DownloadError gostring :=
  match http url with
  | NoResponse => Err (FetchFailed url)
  | Response status body => if (status =? 200)%Z then Ok body else Err (BadStatus status url)
  end.

Definition scrapLatestTag : res DownloadError gostring :=
  let? body := fetchBytes releasesPageURL in
  match find_tag body with
  | None => Err NoTag
  | Some tag => Ok tag
  end.

(** The error is reported as a warning and the fallback used. *)
Definition LatestDebOstreeVersion : res DownloadError gostring :=
  match scrapLatestTag with
  | Err _ => Ok fallbackVersion
  | r => r
  end.

(** ** Checksums *)

Fixpoint find_checksum (lines : list gostring) (wantedFileName : gostring) : option gostring :=
  match lines with
  | [] => None
  | raw :: lines' =>
      let line := TrimSpace raw in
      if str_eqb line [] then find_checksum lines' wantedFileName
      else
        match Fields line with
        | [hash; f1] =>
            if str_eqb (TrimPrefix f1 "*") wantedFileName then Some hash
            else find_checksum lines' wantedFileName
        | _ => find_checksum lines' wantedFileName
        end
  end.

Definition parseChecksumsFile (content wantedFileName : gostring) : option gostring :=
  find_checksum (split_on NL content) wantedFileName.

(** [strings.EqualFold(a, b)] for an [a] of hexadecimal digits: no other rune
    folds to one of them. *)
Definition EqualFold (a b : gostring) : bool := str_eqb (map lower_byte a) (map lower_byte b).

Definition verifyChecksum (version binaryData : gostring) : res DownloadError unit :=
  match fetchBytes (releaseAssetURL version checksumsAssetName) with
  | Ok checksumsData =>
      match parseChecksumsFile checksumsData releaseAssetName with
      | None => Ok tt
      | Some expectedHex =>
          let actualHex := EncodeToString (Sum256 binaryData) in
          if negb (EqualFold actualHex expectedHex)
          then Err (ChecksumMismatch expectedHex actualHex)
          else Ok tt
      end
  | _ => Ok tt
  end.

(** ** Installing *)

Variable umask : N.

(** A file operation with the error the code wraps around it. *)
Definition wrapping {A} (wrap : errno → DownloadError) (m : FsM A) : ST fsys DownloadError A := λ s,
  match m s with
  | (Ok a, s') => (Ok a, s')
  | (Err e, s') => (Err (wrap e), s')
  | (Panic, s') => (Panic, s')
  | (OutOfFuel, s') => (OutOfFuel, s')
  end.

Definition DownloadDebOstree (version destPath : gostring) : ST fsys DownloadError unit :=
  let! data := st_lift (fetchBytes (releaseAssetURL version releaseAssetName)) in
  st_lift (verifyChecksum version data) ;;
  wrapping MkdirError (MkdirAll umask (Dir destPath) 493) ;;
  wrapping (WriteError destPath) (write_new umask destPath data 493) ;;
  wrapping (ChmodError destPath) (Chmod destPath 493).
End net.

(** ** Words of a checksum line *)

Definition word_ok (w : gostring) : bool := negb (str_eqb w []) && forallb solid w.

Lemma fields_aux_solid w rest cur :
  forallb solid w = true → fields_aux (w ++ rest) cur = fields_aux rest (rev w ++ cur).
Proof.
  revert cur. induction w as [|c w IH]; intros cur H; [done|]. simpl in H. breflect.
  assert (Hc : is_ascii c = true ∧ space1 c = false) by (unfold solid in H; by breflect).
  destruct Hc as [Ha Hs]. cbn [app]. cbn [rev]. rewrite <- app_assoc. cbn [app].
  rewrite <- IH by done. cbn [fields_aux]. rewrite Hs.
  destruct (w ++ rest) as [|d [|e r]] eqn:E; [done|..].
  - by rewrite ascii_not_space2_l.
  - rewrite ascii_not_space2_l by done. rewrite ascii_not_space3; [done|]. by rewrite Ha.
Qed.

Lemma Fields_two a b :
  word_ok a = true → word_ok b = true → Fields (a ++ "  " ++ b) = [a; b].
Proof.
  unfold word_ok, Fields. intros Ha Hb. breflect.
  rewrite fields_aux_solid by done. rewrite app_nil_r.
  change (fields_aux ("  " ++ b) (rev a)) with (flush (rev a) (fields_aux b [])).
  rewrite <- (app_nil_r b). rewrite fields_aux_solid by done. rewrite !app_nil_r.
  unfold flush. cbn [fields_aux flush].
  apply str_eqb_neq in H, H1.
  destruct (rev a) as [|x l] eqn:Ea.
  { apply (f_equal (@rev _)) in Ea. by rewrite rev_involutive in Ea. }
  rewrite <- Ea, rev_involutive. unfold flush.
  destruct (rev b) as [|y m] eqn:Eb.
  { apply (f_equal (@rev _)) in Eb. by rewrite rev_involutive in Eb. }
  by rewrite <- Eb, rev_involutive.
Qed.

(** A line of sha256sum for one file, in text or binary mode. *)
Definition checksum_line (e : gostring * gostring) : gostring := e.1 ++ "  " ++ e.2.

Definition entry_ok (e : gostring * gostring) : bool :=
  word_ok e.1 && word_ok e.2 && negb (HasPrefix e.2 "*").

Lemma word_trimmed a b :
  word_ok a = true → word_ok b = true → TrimSpace (a ++ "  " ++ b) = a ++ "  " ++ b.
Proof.
  unfold word_ok. intros Ha Hb. breflect. apply str_eqb_neq in H, H1.
  assert (Hfix : ∀ w, w ≠ [] → forallb solid w = true → TrimSpace w = w).
  { intros w Hw Hs. apply TrimSpace_fixed. split.
    - destruct w as [|c w]; [done|]. simpl in Hs. breflect. by apply starts_left_solid.
    - destruct w as [|c w _] using rev_ind; [done|]. rewrite rev_app_distr. simpl.
      rewrite forallb_app in Hs. simpl in Hs. breflect. by apply starts_rev_solid. }
  apply (TrimSpace_words a " " [] " " b); try done; auto.
Qed.

Lemma find_checksum_lines es wanted rest :
  forallb entry_ok es = true →
  find_checksum (map checksum_line es ++ rest) wanted =
  match list_find (λ e, e.2 = wanted) es with
  | Some (_, e) => Some e.1
  | None => find_checksum rest wanted
  end.
Proof.
  induction es as [|[h n] es IH]; intros Hok; [done|]. cbn [forallb] in Hok.
  unfold entry_ok at 1 in Hok. cbn [fst snd] in Hok. breflect.
  cbn [map app find_checksum]. change (checksum_line (h, n)) with (h ++ "  " ++ n).
  rewrite word_trimmed by done.
  rewrite (proj2 (str_eqb_neq (h ++ "  " ++ n) [])) by (by destruct h).
  rewrite Fields_two by done.
  assert (Ht : TrimPrefix n "*" = n) by (unfold TrimPrefix; by rewrite H1).
  rewrite Ht. cbn [list_find]. destruct (str_eqb_spec n wanted) as [->|Hne].
  - by rewrite decide_True.
  - rewrite decide_False by done. rewrite IH by done.
    by destruct (list_find (λ e, e.2 = wanted) es) as [[i e]|].
Qed.

(** ** The tag *)

Lemma take_while_all f s : forallb f (take_while f s) = true.
Proof.
  induction s as [|c s IH]; [done|]. simpl. destruct (f c) eqn:E; [|done]. simpl. by rewrite E.
Qed.

Definition is_tag (t : gostring) : bool :=
  match t with
  | v :: d :: rest => Ascii.eqb v "v" && is_digit d && forallb tag_char rest
  | _ => false
  end.

Lemma tag_at_is_tag s t : tag_at s = Some t → is_tag t = true.
Proof.
  unfold tag_at. destruct (HasPrefix s tag_prefix); [|done].
  destruct (drop (length tag_prefix) s) as [|v [|d rest]]; [done..|].
  destruct (Ascii.eqb v "v" && is_digit d) eqn:E; [|done]. intros [= <-].
  cbn [is_tag]. by rewrite E, take_while_all.
Qed.

Lemma find_tag_spec s :
  match find_tag s with
  | Some t => ∃ pre post, s = pre ++ post ∧ tag_at post = Some t ∧
      ∀ pre' post', s = pre' ++ post' → length pre' < length pre → tag_at post' = None
  | None => ∀ pre post, s = pre ++ post → tag_at post = None
  end.
Proof.
  induction s as [|c s IH].
  { simpl. intros [|] post; by intros; simplify_eq/=. }
  cbn [find_tag]. destruct (tag_at (c :: s)) as [t|] eqn:E.
  { exists [], (c :: s). split_and!; [done..|]. simpl. lia. }
  destruct (find_tag s) as [t|].
  - destruct IH as (pre & post & -> & Hp & Hmin). exists (c :: pre), post.
    split_and!; [done..|]. intros [|c' pre'] post' Heq Hlen; simplify_eq/=; [done|].
    apply (Hmin pre'); [done|lia].
  - intros [|c' pre'] post' Heq; simplify_eq/=; [done|]. by eapply IH.
Qed.

(** ** Claims *)

(** The file a checksum line is about: the name alone, or marked as binary. *)
Definition sum_line (line hash name : gostring) : Prop :=
  Fields (TrimSpace line) = [hash; name] ∨ Fields (TrimSpace line) = [hash; "*" ++ name].

(** The sum a checksum file publishes for a file: that of the first line of two
    words whose second is the name of the file. *)
Definition published (sums name hash : gostring) : Prop :=
  ∃ before line after, split_on NL sums = before ++ line :: after ∧ sum_line line hash name ∧
    ∀ l h, l ∈ before → ¬ sum_line l h name.

Lemma sum_line_iff line hash name :
  HasPrefix name "*" = false →
  sum_line line hash name ↔
  ∃ f1, Fields (TrimSpace line) = [hash; f1] ∧ str_eqb (TrimPrefix f1 "*") name = true.
Proof.
  intros Hn. assert (Hstar : ∀ w, HasPrefix ("*" ++ w) "*" = true)
    by (intros w; apply HasPrefix_iff; by exists w).
  split.
  - intros [H|H]; [exists name|exists ("*" ++ name)]; (split; [done|]); unfold TrimPrefix.
    + rewrite Hn. by apply str_eqb_eq.
    + rewrite Hstar. by apply str_eqb_eq.
  - intros (f1 & H & E%str_eqb_eq). unfold TrimPrefix in E.
    destruct (HasPrefix f1 "*") eqn:Ep; [|left; by rewrite <- E]. right.
    apply HasPrefix_iff in Ep as [r ->]. rewrite H. repeat f_equal. exact E.
Qed.

Lemma sum_line_unique line h h' name : sum_line line h name → sum_line line h' name → h = h'.
Proof. intros [E|E] [E'|E']; congruence. Qed.

Lemma find_checksum_step raw lines name :
  HasPrefix name "*" = false →
  (∃ h, sum_line raw h name ∧ find_checksum (raw :: lines) name = Some h) ∨
  (∀ h, ¬ sum_line raw h name) ∧ find_checksum (raw :: lines) name = find_checksum lines name.
Proof.
  intros Hn. cbn [find_checksum]. destruct (str_eqb_spec (TrimSpace raw) []) as [E|_].
  { right. split; [|done]. unfold sum_line. rewrite E. by intros h [?|?]. }
  destruct (Fields (TrimSpace raw)) as [|h [|f1 [|? ?]]] eqn:Ef;
    try (right; split; [|done]; intros h' H; unfold sum_line in H; rewrite Ef in H; by destruct H).
  destruct (str_eqb (TrimPrefix f1 "*") name) eqn:En; [left|right].
  - exists h. split; [|done]. apply sum_line_iff; [done|]. by exists f1.
  - split; [|done]. intros h' (f' & H & E)%sum_line_iff; [|done]. congruence.
Qed.

Lemma find_checksum_iff lines name hash :
  HasPrefix name "*" = false →
  find_checksum lines name = Some hash ↔
  ∃ before line after, lines = before ++ line :: after ∧ sum_line line hash name ∧
    ∀ l h, l ∈ before → ¬ sum_line l h name.
Proof.
  intros Hn. induction lines as [|raw lines IH].
  { split; [done|]. by intros ([|] & line & after & [=] & _). }
  destruct (find_checksum_step raw lines name Hn) as [(h & Hs & ->)|[Hno ->]].
  - split.
    + intros [= <-]. exists [], raw, lines. split_and!; [done..|]. by intros l h' ?%elem_of_nil.
    + intros ([|b before] & line & after & [= <- ->] & Hl & Hb).
      * by rewrite (sum_line_unique _ _ _ _ Hs Hl).
      * exfalso. apply (Hb raw h); [by left|done].
  - rewrite IH. split.
    + intros (before & line & after & -> & Hl & Hb). exists (raw :: before), line, after.
      split_and!; [done..|]. intros l h [->|Hin]%elem_of_cons; [apply Hno|by apply Hb].
    + intros ([|b before] & line & after & [= <- ->] & Hl & Hb); [by apply Hno in Hl|].
      exists before, line, after. split_and!; [done..|]. intros l h Hin. apply Hb. by right.
Qed.

(** What the check of a download decides. *)
Lemma verifyChecksum_spec http version data :
  match verifyChecksum http version data with
  | Ok _ => ∀ sums expected,
      http (releaseAssetURL version checksumsAssetName) = Response 200 sums →
      published sums releaseAssetName expected →
      EqualFold (EncodeToString (Sum256 data)) expected = true
  | Err (ChecksumMismatch expected actual) =>
      actual = EncodeToString (Sum256 data) ∧ EqualFold actual expected = false ∧
      ∃ sums, http (releaseAssetURL version checksumsAssetName) = Response 200 sums ∧
        published sums releaseAssetName expected
  | _ => False
  end.
Proof.
  unfold verifyChecksum, fetchBytes.
  destruct (http (releaseAssetURL version checksumsAssetName)) as [|st sums]; [done|].
  destruct (Z.eqb_spec st 200) as [->|Hne]; [|intros ? ? E; by simplify_eq].
  assert (Hp : ∀ e, published sums releaseAssetName e ↔
                 parseChecksumsFile sums releaseAssetName = Some e)
    by (intros e; symmetry; by apply find_checksum_iff).
  destruct (parseChecksumsFile sums releaseAssetName) as [e|].
  - destruct (EqualFold (EncodeToString (Sum256 data)) e) eqn:Ee; cbn [negb].
    + intros s' e' [= <-] Hpe%Hp. congruence.
    + split_and!; [done..|]. exists sums. split; [done|by apply Hp].
  - intros s' e' [= <-] Hpe%Hp. congruence.
Qed.

(** What the installed file is afterwards: these bytes, executable, and every
    other file as it was; or the device the path leads to. *)
Definition installed (dest data : gostring) (s s' : fsys) : Prop :=
  ∃ p, resolve s' true dest = Ok p ∧
    (∀ q d, q ≠ p → dents s !! q = Some d → dents s' !! q = Some d) ∧
    ((∃ i o, dents s' !! p = Some (DFile i) ∧ files s' !! i = Some (Inode data 493 o) ∧
        ∀ j, j ≠ i → files s' !! j = files s !! j) ∨
     ∃ k, dents s' !! p = Some (DSpecial k 493) ∧ files s' = files s).

Lemma install_spec umask dest data s s' :
  (wrapping MkdirError (MkdirAll umask (Dir dest) 493) ;;
   wrapping (WriteError dest) (write_new umask dest data 493) ;;
   wrapping (ChmodError dest) (Chmod dest 493)) s = (Ok tt, s') →
  installed dest data s s'.
Proof.
  unfold st_bind, wrapping. pose proof (MkdirAll_new_dirs umask (Dir dest) 493 s) as (Hf & Hd & _).
  destruct (MkdirAll umask (Dir dest) 493 s) as [[[]|e| |] s1]; try done. cbn [snd] in *.
  destruct (write_new umask dest data 493 s1) as [[[]|e| |] s2] eqn:Ew; try done.
  apply write_new_Ok in Ew as (p & Hp & Hne & Hd2 & Hq & H).
  unfold Chmod, lift_fs. rewrite Hp. cbn [res_bind]. destruct p as [|c p]; [done|].
  destruct H as [(i & n & Hi & Hn & <- & Hj)|(k & m & Hi & _ & _ & ->)]; rewrite Hi.
  - rewrite Hn. intros [= <-]. exists (c :: p). split_and!.
    + rewrite <- Hp. by apply resolve_dents.
    + intros q d Hqp Hqd. cbn [dents]. rewrite Hq by done. by eapply lookup_weaken.
    + left. exists i, (iowner n). cbn [dents files]. rewrite lookup_insert_eq. split_and!; try done.
      intros j Hji. by rewrite lookup_insert_ne, Hj, Hf.
  - intros [= <-]. exists (c :: p). split_and!.
    + rewrite <- Hp. apply resolve_kinds. intros q. cbn [dents set_dents].
      destruct (decide (c :: p = q)) as [<-|]; [by rewrite lookup_insert_eq, Hi|].
      by rewrite lookup_insert_ne.
    + intros q d Hqp Hqd. cbn [dents set_dents]. rewrite lookup_insert_ne by done.
      by eapply lookup_weaken.
    + right. exists k. cbn [dents set_dents]. by rewrite lookup_insert_eq.
Qed.

(** The bytes served for the release, with the sum the release publishes for
    them when it answers with a checksum file that lists one. *)
Definition passed (http : gostring → response) (version data : gostring) : Prop :=
  http (releaseAssetURL version releaseAssetName) = Response 200 data ∧
  ∀ sums expected,
    http (releaseAssetURL version checksumsAssetName) = Response 200 sums →
    published sums releaseAssetName expected →
    EqualFold (EncodeToString (Sum256 data)) expected = true.

Lemma lift_fs_Err f s e s' : lift_fs f s = (Err e, s') → s' = s.
Proof. unfold lift_fs. destruct (f s); naive_solver. Qed.

Lemma install_fails umask dest data s e s' :
  (wrapping MkdirError (MkdirAll umask (Dir dest) 493) ;;
   wrapping (WriteError dest) (write_new umask dest data 493) ;;
   wrapping (ChmodError dest) (Chmod dest 493)) s = (Err e, s') →
  match e with
  | MkdirError _ => new_dirs s s'
  | WriteError path _ => path = dest ∧ new_dirs s s'
  | ChmodError path _ => path = dest
  | _ => False
  end.
Proof.
  unfold st_bind, wrapping. pose proof (MkdirAll_new_dirs umask (Dir dest) 493 s) as Hd.
  destruct (MkdirAll umask (Dir dest) 493 s) as [[[]|e1| |] s1]; cbn [snd] in Hd; try done.
  2:{ by intros [= <- <-]. }
  destruct (write_new umask dest data 493 s1) as [[[]|e1| |] s2] eqn:Ew; try done.
  - destruct (Chmod dest 493 s2) as [[[]|e1| |] s3]; try done. by intros [= <- <-].
  - unfold write_new in Ew. apply lift_fs_Err in Ew as ->. by intros [= <- <-].
Qed.

(** C11.  A successful download installs exactly the bytes served for the
    release asset, with mode 0755, and leaves every other file with its content
    and every other entry in place; if the release answers with a checksum file
    that lists the binary, those bytes have the sum of its first line for it.
    A failed request and a wrong sum are reported as what they are and leave the
    file system as it was; a later failure, or a wait for the reader of a
    pipe, happens only after the check, and until the file is written only
    directories were made. *)
Theorem download_verified http umask version dest s :
  let '(r, s') := DownloadDebOstree http umask version dest s in
  let url := releaseAssetURL version releaseAssetName in
  match r with
  | Ok _ => ∃ data, passed http version data ∧ installed dest data s s'
  | Err (FetchFailed u) => s' = s ∧ u = url ∧ http url = NoResponse
  | Err (BadStatus st u) => s' = s ∧ u = url ∧ st ≠ 200%Z ∧ ∃ body, http url = Response st body
  | Err NoTag => False
  | Err (ChecksumMismatch expected actual) =>
      s' = s ∧ ∃ data sums, http url = Response 200 data ∧
        http (releaseAssetURL version checksumsAssetName) = Response 200 sums ∧
        published sums releaseAssetName expected ∧
        actual = EncodeToString (Sum256 data) ∧ EqualFold actual expected = false
  | Err (MkdirError _) => (∃ data, passed http version data) ∧ new_dirs s s'
  | Err (WriteError path _) => path = dest ∧ (∃ data, passed http version data) ∧ new_dirs s s'
  | Err (ChmodError path _) => path = dest ∧ ∃ data, passed http version data
  | Panic | OutOfFuel => ∃ data, passed http version data
  end.
Proof.
  unfold DownloadDebOstree, fetchBytes. unfold st_bind at 1. cbn [st_lift].
  destruct (http (releaseAssetURL version releaseAssetName)) as [|status data] eqn:Eu; [done|].
  destruct (Z.eqb_spec status 200) as [->|Hne]; [|by eauto].
  unfold st_bind at 1. cbn [st_lift]. pose proof (verifyChecksum_spec http version data) as Hv.
  destruct (verifyChecksum http version data) as [[]|[]| |]; try done.
  2:{ destruct Hv as (Ha & He & sums & Hs & Hp). split; [done|]. by exists data, sums. }
  assert (Hpass : passed http version data) by done.
  match goal with |- context [?m s] => destruct (m s) as [[[]|e| |] s'] eqn:E end;
    [|apply install_fails in E; destruct e; naive_solver|by exists data..].
  exists data. split; [done|]. by eapply install_spec.
Qed.

(** Reading a list in the format of sha256sum gives the sum of the first
    entry for the wanted file, and nothing when there is none, whatever other
    files are listed. *)
Theorem parse_checksums es wanted :
  forallb entry_ok es = true →
  parseChecksumsFile (concat (map (λ e, checksum_line e ++ [NL]) es)) wanted =
  (λ p, p.2.1) <$> list_find (λ e, e.2 = wanted) es.
Proof.
  intros Hok. unfold parseChecksumsFile.
  assert (Hlines : Forall (λ l, mem NL l = false) (map checksum_line es)).
  { apply Forall_forall. intros l (e & <- & He)%list_elem_of_In%in_map_iff.
    rewrite forallb_forall in Hok. specialize (Hok e He). unfold entry_ok, word_ok in Hok. breflect.
    assert (Hs : ∀ w, forallb solid w = true → mem NL w = false).
    { intros w Hw. destruct (mem NL w) eqn:E; [|done]. apply mem_true, list_elem_of_In in E.
      rewrite forallb_forall in Hw. by specialize (Hw _ E). }
    unfold checksum_line. by rewrite !mem_app, (Hs e.1), (Hs e.2). }
  replace (concat _) with (concat (map (λ l, l ++ [NL]) (map checksum_line es)) ++ [])
    by (by rewrite app_nil_r, map_map).
  rewrite split_on_lines by done. rewrite find_checksum_lines by done.
  by destruct (list_find (λ e, e.2 = wanted) es) as [[i e]|].
Qed.

Lemma parse_checksums_witness :
  parseChecksumsFile
    (concat (map (λ e, checksum_line e ++ [NL])
       [("aa" : gostring, "other" : gostring); ("bb", "deb-ostree"); ("cc", "deb-ostree")]))
    "deb-ostree" = Some ("bb" : gostring).
Proof. apply parse_checksums. vm_compute. reflexivity. Defined.

(** Detecting the version never fails: it gives the fallback, or the tag of
    the leftmost release link of the page, which is a v, a digit and further
    characters none of which is a quote or a blank, so it stays inside one URL
    segment's quoting. *)
Theorem latest_version http :
  ∃ tag, LatestDebOstreeVersion http = Ok tag ∧ is_tag tag = true ∧
    (tag = fallbackVersion ∨
     ∃ body pre post, http releasesPageURL = Response 200 body ∧ body = pre ++ post ∧
       tag_at post = Some tag ∧
       ∀ pre' post', body = pre' ++ post' → length pre' < length pre → tag_at post' = None).
Proof.
  unfold LatestDebOstreeVersion, scrapLatestTag, fetchBytes.
  destruct (http releasesPageURL) as [|status body]; [exists fallbackVersion; split_and!; [done|done|by left]|].
  destruct (Z.eqb_spec status 200) as [->|]; [|exists fallbackVersion; split_and!; [done|done|by left]].
  cbn [res_bind]. pose proof (find_tag_spec body) as Ht.
  destruct (find_tag body) as [tag|]; [|exists fallbackVersion; split_and!; [done|done|by left]].
  destruct Ht as (pre & post & Hb & Htag & Hmin). exists tag. split_and!; [done|by eapply tag_at_is_tag|].
  right. by exists body, pre, post.
Qed.
