(* ===== verification/Toolchain.v ===== *)
(** * Build-time tools (internal/toolchain/toolchain.go, internal/toolchain.go)

    Tools that are not on the host are fetched as Debian packages and unpacked
    into a directory of the working directory, which then heads the search
    path.  The two source files are the same program text. *)

From Stdlib Require Import Ascii String ZArith Lia.
From stdpp Require Import base list gmap strings.
From S2P Require Import Prelude GoStrings GoNumbers GoSort GoPath GoQuote Fs FsProps Host Plan Util.

Record Tool : Type := MkTool {
  Binary : gostring; AptPackages : list gostring; UsedBy : gostring }.

Definition buildTools : list Tool :=
  [MkTool "debootstrap" ["debootstrap"] "build cloud: tworzenie bazowego rootfs Debiana";
   MkTool "mksquashfs" ["squashfs-tools"] "build iso: pakowanie rootfs do filesystem.squashfs";
   MkTool "grub-mkrescue" ["grub-common"; "grub-pc-bin"; "grub-efi-amd64-bin"]
     "build iso: budowa hybrydowego ISO BIOS+UEFI";
   MkTool "xorriso" ["xorriso"]
     "build iso: tworzenie obrazu ISO (uzywane przez grub-mkrescue)"].

Definition toolchainBinDir : gostring := "toolchain-bin".

Record Manager : Type := MkManager {
  tcWorkDir : gostring; binDir : gostring; preparedPath : gostring }.

Definition New (workDir : gostring) : Manager :=
  MkManager workDir (path_join [workDir; toolchainBinDir]) [].

(** The wrapper that stands in for debootstrap. *)
Definition wrapper_comment : gostring :=
  "# Wrapper debootstrap wygenerowany przez hackeros-builder toolchain." ++ [NL]
  ++ "# Ustawia DEBOOTSTRAP_DIR tak by debootstrap znalazl skrypty suite" ++ [NL]
  ++ "# (scripts/bookworm, scripts/trixie itp.) rozpakowane do katalogu roboczego" ++ [NL]
  ++ "# buildu, NIE szukal ich w /usr/share/debootstrap (ktory moze nie istniec" ++ [NL]
  ++ "# jesli debootstrap nie jest zainstalowany na hoscie)." ++ [NL].

Definition debootstrap_wrapper (IsPrint : N → bool) (shareDir realPath : gostring) : gostring :=
  "#!/bin/sh" ++ [NL] ++ wrapper_comment
  ++ "export DEBOOTSTRAP_DIR=" ++ Quote IsPrint shareDir ++ [NL]
  ++ "exec " ++ Quote IsPrint realPath ++ " " ++ [DQ] ++ "$@" ++ [DQ] ++ [NL].

Section toolchain.
Context `{External}.

Definition stat_ok (s : machine) (name : gostring) : bool :=
  match Stat (mfs s) name with Ok _ => true | _ => false end.

Definition toolAvailable (m : Manager) (binary : gostring) (s : machine) : bool :=
  if stat_ok s (path_join [binDir m; binary]) then true
  else match LookPath binary s with Some _ => true | None => false end.

(** ** Copying programs *)

(** One round of the loop of [copyBinaries]: whether a file was copied.  The
    entry's kind is that of the listing, its mode that of [Info], at once. *)
Definition copy_binary (srcDir dstDir : gostring) (e : gostring * dent) : HM bool :=
  looking (λ s,
    let src := path_join [srcDir; e.1] in
    let dst := path_join [dstDir; e.1] in
    if is_dir e.2 then st_ret false
    else
      match Lstat (mfs s) src with
      | Ok info =>
          let mode := dent_mode (mfs s) info in
          if N.eqb (N.land mode 73) 0 then st_ret false
          else
            let! data := ctx ("odczyt " ++ src) (ask_files (λ f, ReadFile f src)) in
            ctx ("zapis " ++ dst) (on_files (write_new umask dst data mode)) ;;
            st_ret true
      | _ => st_ret false
      end).

Fixpoint copy_entries (srcDir dstDir : gostring) (es : list (gostring * dent)) (n : nat) : HM nat :=
  match es with
  | [] => st_ret n
  | e :: es' =>
      let! copied := copy_binary srcDir dstDir e in
      copy_entries srcDir dstDir es' (if copied then S n else n)
  end.

Definition copyBinaries (srcDir dstDir : gostring) : HM nat :=
  looking (λ s,
    match ReadDirEntries (mfs s) srcDir with
    | Err ENOENT => st_ret 0
    | Err e => st_err (FsError e)
    | Ok entries => copy_entries srcDir dstDir entries 0
    | Panic => st_panic
    | OutOfFuel => st_lift OutOfFuel
    end).

(** The loop over the directories programs live in. *)
Fixpoint copy_dirs (dstDir : gostring) (dirs : list gostring) (copied : nat) : HM nat :=
  match dirs with
  | [] => st_ret copied
  | src :: dirs' =>
      let! n := ctx ("kopiowanie binarek z " ++ src) (copyBinaries src dstDir) in
      copy_dirs dstDir dirs' (copied + n)
  end.

(** ** Fetching a tool *)

Definition installDebootstrapData (m : Manager) (extractDir : gostring) : HM unit :=
  let shareDir := path_join [tcWorkDir m; "toolchain-share"; "debootstrap"] in
  on_files (MkdirAll umask shareDir 493) ;;
  let srcShare := path_join [extractDir; "usr"; "share"; "debootstrap"] in
  looking (λ s,
    if negb (stat_ok s srcShare)
    then st_err (HostMsg ("brak " ++ srcShare ++ " w rozpakowanym debootstrap"))
    else st_ret tt) ;;
  ctx "kopiowanie debootstrap share" (run_plain [] ["cp"; "-a"; srcShare ++ "/."; shareDir]) ;;
  let origPath := path_join [binDir m; "debootstrap"] in
  let realPath := path_join [binDir m; "debootstrap.real"] in
  ctx "rename debootstrap -> debootstrap.real" (on_files (Rename origPath realPath)) ;;
  ctx "zapis wrappera debootstrap"
    (on_files (write_new umask origPath (debootstrap_wrapper IsPrint shareDir realPath) 493)).

(** [downloadAndExtract] after its temporary directory exists. *)
Definition fetch_tool (m : Manager) (t : Tool) (tmpDir : gostring) : HM unit :=
  ctx "apt-get download" (run_plain tmpDir ("apt-get" :: "download" :: AptPackages t)) ;;
  let extractDir := path_join [tmpDir; "extracted"] in
  looking (λ s,
    let debs := Glob (mfs s) tmpDir "*.deb" in
    match debs with
    | [] => st_err (HostMsg ("brak pobranych plikow .deb w " ++ tmpDir))
    | _ =>
        on_files (MkdirAll umask extractDir 493) ;;
        for_each (λ deb, ctx ("dpkg-deb --extract " ++ Base deb)
                    (run_plain [] ["dpkg-deb"; "--extract"; deb; extractDir])) debs
    end) ;;
  let! copied := copy_dirs (binDir m)
    [path_join [extractDir; "usr"; "bin"]; path_join [extractDir; "usr"; "sbin"];
     path_join [extractDir; "bin"]; path_join [extractDir; "sbin"];
     path_join [extractDir; "usr"; "lib"; "grub"]] 0 in
  (if str_eqb (Binary t) "debootstrap"
   then ctx "debootstrap data" (installDebootstrapData m extractDir) else st_ret tt) ;;
  if (copied =? 0)%nat
  then st_err (HostMsg ("nie skopiowano zadnych binarek dla " ++ Binary t
                        ++ " -- sprawdz nazwy pakietow apt"))
  else
    looking (λ s,
      if negb (stat_ok s (path_join [binDir m; Binary t]))
      then st_err (HostMsg ("binarka " ++ Quote IsPrint (Binary t)
                            ++ " nie znaleziona w toolchain-bin/ po rozpakowaniu"))
      else st_ret tt).

Definition downloadAndExtract (m : Manager) (t : Tool) : HM unit :=
  let tmpDir := path_join [binDir m; ".tmp-" ++ Binary t] in
  ctx ("mkdir " ++ tmpDir) (on_files (MkdirAll umask tmpDir 493)) ;;
  deferring (on_files (RemoveAll tmpDir)) (fetch_tool m t tmpDir).

(** ** All tools *)

(** The manager afterwards, with its search path. *)
Definition PrepareAll (m : Manager) : HM Manager :=
  ctx ("toolchain: tworzenie " ++ binDir m) (on_files (MkdirAll umask (binDir m) 493)) ;;
  looking (λ s,
    let m' := MkManager (tcWorkDir m) (binDir m) (binDir m ++ ":" ++ Getenv "PATH" s) in
    let missing := List.filter (λ t, negb (toolAvailable m' (Binary t) s)) buildTools in
    for_each (λ t, ctx ("toolchain: nie mozna przygotowac narzedzia " ++ Quote IsPrint (Binary t))
                (downloadAndExtract m' t)) missing ;;
    st_ret m').

(** The variables for child processes, and the manager with its search path. *)
Definition Env (m : Manager) (s : machine) : list gostring * Manager :=
  let m' := if str_eqb (preparedPath m) []
            then MkManager (tcWorkDir m) (binDir m) (binDir m ++ ":" ++ Getenv "PATH" s)
            else m in
  (["PATH=" ++ preparedPath m'], m').

Definition BinPath (m : Manager) (binary : gostring) (s : machine) : gostring :=
  let p := path_join [binDir m; binary] in
  if stat_ok s p then p else [].
End toolchain.

(** ** Copying the programs of a package *)

(** A listed entry that is no directory and has an execute bit of its own: an
    executable file, or any link. *)
Definition exec_of (f : fsys) (e : gostring * dent) : bool :=
  negb (is_dir e.2) && negb (N.eqb (N.land (dent_mode f e.2) 73) 0).

(** What leads to a file leads to it when files and directories are added. *)
Lemma ReadFile_grown (f f' : fsys) name data :
  dents f ⊆ dents f' → files f ⊆ files f' →
  (∀ p t, dents f' !! p = Some (DSym t) → is_Some (dents f !! p)) →
  ReadFile f name = Ok data → ReadFile f' name = Ok data.
Proof.
  intros Hd Hf Hs. unfold ReadFile, Stat, lookup_at, resolve.
  destruct (resolve_from _ f true _ _) as [p|e| |] eqn:E; try done. cbn [res_bind].
  eapply resolve_grown in E; [|done..]. rewrite E. cbn [res_bind].
  destruct p as [|c p]; [done|]. destruct (dents f !! (c :: p)) as [d|] eqn:Ed; [|done].
  rewrite (lookup_weaken _ _ _ _ Ed Hd). cbn [res_bind]. destruct d as [| i | |k ?]; try done.
  destruct (files f !! i) as [n|] eqn:Ei; [|done]. by rewrite (lookup_weaken _ _ _ _ Ei Hf).
Qed.

Section copying.
Context `{External} (f0 : fsys) (src dst : path).
Context (Hsrc : Forall name_ok src) (Hdst : Forall name_ok dst).
Context (Rsrc : real_dir f0 src) (Rdst : real_dir f0 dst).
(** What is executable in the package's directory can be read: its links lead
    to files. *)
Context (Hplain : ∀ c d, dents f0 !! (src ++ [c]) = Some d →
  name_ok c ∧ (∀ i, d = DFile i → is_Some (files f0 !! i)) ∧
  (exec_of f0 (c, d) = true → ∃ data, ReadFile f0 (abs_path (src ++ [c])) = Ok data)).

(** [c] was copied: a file with the data read through it, the mode of the entry
    without the umask. *)
Definition copied_to (f : fsys) (c : gostring) : Prop :=
  ∃ d data j, dents f0 !! (src ++ [c]) = Some d ∧ ReadFile f0 (abs_path (src ++ [c])) = Ok data ∧
    dents f !! (dst ++ [c]) = Some (DFile j) ∧
    files f !! j = Some (Inode data (file_mode umask (dent_mode f0 d)) 0).

(** [f2] is [f1] with the executables among [es] copied, and nothing else. *)
Record copies (es : list (gostring * dent)) (f1 f2 : fsys) : Prop := {
  cp_dents : dents f1 ⊆ dents f2;
  cp_files : files f1 ⊆ files f2;
  cp_all : ∀ e, e ∈ es → exec_of f0 e = true → copied_to f2 e.1;
  cp_only : ∀ q, dents f2 !! q ≠ dents f1 !! q → ∃ e, e ∈ es ∧ exec_of f0 e = true ∧ q = dst ++ [e.1] }.

(** No links are made. *)
Lemma copies_links es f1 f2 p t :
  copies es f1 f2 → dents f2 !! p = Some (DSym t) → is_Some (dents f1 !! p).
Proof.
  intros [Hd Hf Ha Ho] Hp. destruct (decide (dents f2 !! p = dents f1 !! p)) as [E|E].
  - rewrite <- E. eauto.
  - apply Ho in E as (e & He & Hx & ->). destruct (Ha e He Hx) as (d & data & j & _ & _ & Hj & _).
    congruence.
Qed.

Lemma copied_to_mono f1 f2 c :
  dents f1 ⊆ dents f2 → files f1 ⊆ files f2 → copied_to f1 c → copied_to f2 c.
Proof.
  intros Hd Hf (d & data & j & ? & ? & ? & ?). exists d, data, j.
  split_and!; [done..| |]; by eapply lookup_weaken.
Qed.

Lemma copy_binary_ok e s :
  dents f0 !! (src ++ [e.1]) = Some e.2 → dents f0 ⊆ dents (mfs s) → files f0 ⊆ files (mfs s) →
  (∀ p t, dents (mfs s) !! p = Some (DSym t) → is_Some (dents f0 !! p)) →
  (exec_of f0 e = true → dents (mfs s) !! (dst ++ [e.1]) = None) →
  ∃ f', copy_binary (abs_path src) (abs_path dst) e s =
      (Ok (exec_of f0 e), Machine f' (menv s) (mlog s)) ∧ copies [e] (mfs s) f'.
Proof.
  destruct e as [c d]. cbn [fst snd]. intros He Hd Hf Hl Hnew.
  destruct (Hplain c d He) as (Hc & Hi & Hread).
  assert (Rs : real_dir (mfs s) src) by by apply (real_dir_sub f0).
  assert (Rd : real_dir (mfs s) dst) by by apply (real_dir_sub f0).
  assert (Hmode : dent_mode (mfs s) d = dent_mode f0 d).
  { destruct d as [|i| |]; try done. destruct (Hi i eq_refl) as [n Hn]. cbn [dent_mode].
    by rewrite Hn, (lookup_weaken _ _ _ _ Hn Hf). }
  assert (Hnone : exec_of f0 (c, d) = false → copies [(c, d)] (mfs s) (mfs s)).
  { intros E. split; try done. intros e ->%list_elem_of_singleton. congruence. }
  unfold copy_binary, looking. cbn [fst snd].
  assert (Hcs : Forall name_ok [c]) by (constructor; [done|constructor]).
  rewrite !join_names by done. rewrite Lstat_child by done. rewrite (lookup_weaken _ _ _ _ He Hd), Hmode.
  assert (Hx : exec_of f0 (c, d) = negb (is_dir d) && negb (N.eqb (N.land (dent_mode f0 d) 73) 0)) by done.
  destruct (is_dir d); [exists (mfs s); rewrite Hx; split; [by destruct s|by apply Hnone]|].
  destruct (N.eqb (N.land (dent_mode f0 d) 73) 0);
    [exists (mfs s); rewrite Hx; split; [by destruct s|by apply Hnone]|].
  cbn [negb andb] in Hx. specialize (Hnew Hx). destruct (Hread Hx) as [data Hdata].
  unfold st_bind, ctx, ask_files, on_files.
  rewrite (ReadFile_grown f0 (mfs s) _ data) by done. cbn [mfs menv mlog].
  rewrite write_new_child by done. cbv zeta. rewrite Hx. eexists. split; [reflexivity|].
  set (j := fresh (dom (files (mfs s)))).
  assert (Hj : files (mfs s) !! j = None) by apply not_elem_of_dom, is_fresh.
  split; cbn [dents files].
  - by apply insert_subseteq.
  - by apply insert_subseteq.
  - intros e ->%list_elem_of_singleton _. exists d, data, j. cbn [dents files fst].
    by rewrite !lookup_insert_eq.
  - intros q Hq. exists (c, d). split; [by left|]. split; [done|]. cbn [fst].
    destruct (decide (q = dst ++ [c])) as [->|]; [done|by rewrite lookup_insert_ne in Hq].
Qed.

Lemma copies_app es1 es2 f1 f2 f3 :
  copies es1 f1 f2 → copies es2 f2 f3 → copies (es1 ++ es2) f1 f3.
Proof.
  intros [D1 F1 A1 O1] [D2 F2 A2 O2]. split; [by etrans..| |].
  - intros e [He|He]%elem_of_app Hx; [|by apply A2].
    eapply copied_to_mono; [done|done|]. by apply A1.
  - intros q Hq. destruct (decide (dents f3 !! q = dents f2 !! q)) as [E|E].
    + rewrite E in Hq. apply O1 in Hq as (e & ? & ?). exists e. rewrite elem_of_app. auto.
    + apply O2 in E as (e & ? & ?). exists e. rewrite elem_of_app. auto.
Qed.

Lemma copy_entries_ok es k s :
  NoDup es.*1 → (∀ e, e ∈ es → dents f0 !! (src ++ [e.1]) = Some e.2) →
  dents f0 ⊆ dents (mfs s) → files f0 ⊆ files (mfs s) →
  (∀ p t, dents (mfs s) !! p = Some (DSym t) → is_Some (dents f0 !! p)) →
  (∀ e, e ∈ es → exec_of f0 e = true → dents (mfs s) !! (dst ++ [e.1]) = None) →
  ∃ f', copy_entries (abs_path src) (abs_path dst) es k s =
      (Ok (k + length (List.filter (exec_of f0) es)), Machine f' (menv s) (mlog s)) ∧
    copies es (mfs s) f'.
Proof.
  revert k s. induction es as [|e es IH]; intros k s Hnd He Hd Hf Hl Hnew; cbn [copy_entries].
  { exists (mfs s). cbn [List.filter length]. rewrite Nat.add_0_r. destruct s. split; [done|].
    split; try done. by intros e ?%not_elem_of_nil. }
  cbn [fmap list_fmap] in Hnd. apply NoDup_cons in Hnd as [Hne Hnd].
  destruct (copy_binary_ok e s) as (f1 & E1 & C1); [apply He; by left|done..|apply Hnew; by left|].
  unfold st_bind. rewrite E1. pose proof C1 as [D1 F1 _ O1].
  destruct (IH (if exec_of f0 e then S k else k) (Machine f1 (menv s) (mlog s)))
    as (f2 & E2 & C2); cbn [mfs menv mlog] in *.
  - done.
  - intros e' He'. apply He. by right.
  - by etrans.
  - by etrans.
  - intros p t Hp. destruct (copies_links _ _ _ _ _ C1 Hp) as [d Hd1].
    pose proof (lookup_weaken _ _ _ _ Hd1 D1). simplify_eq. by eapply Hl.
  - intros e' He' Hx. destruct (decide (dents f1 !! (dst ++ [e'.1]) = dents (mfs s) !! (dst ++ [e'.1])))
      as [->|E]; [apply Hnew; [by right|done]|].
    apply O1 in E as (e'' & ->%list_elem_of_singleton & _ & E). apply app_inj_tail in E as [_ E].
    destruct Hne. rewrite <- E. by apply list_elem_of_fmap_2.
  - exists f2. rewrite E2. split; [|by apply (copies_app [e] es (mfs s) f1 f2)]. do 2 f_equal. cbn [List.filter].
    destruct (exec_of f0 e); cbn [length]; lia.
Qed.
End copying.

(** ** Commands *)

Section commands.
Context `{External}.

(** A package of the directory: by its name, unless the directory's own name
    has the characters of a pattern. *)
Definition deb_in (tmpDir deb : gostring) : Prop :=
  hasMeta tmpDir = false →
  ∃ n, deb = path_join [tmpDir; n] ∧ HasSuffix n ".deb" = true ∧ mem "/" n = false.

(** What fetching the tool [t] may run, for an environment [E]: a download of
    its packages into its temporary directory, their extraction there, and for
    debootstrap a copy of its data into the working directory. *)
Definition tool_cmd (m : Manager) (E : envmap) (t : Tool) (c : Cmd) : Prop :=
  let tmpDir := path_join [binDir m; ".tmp-" ++ Binary t] in
  let extractDir := path_join [tmpDir; "extracted"] in
  c = MkCmd ("apt-get" :: "download" :: AptPackages t) tmpDir (environ E) None ∨
  (∃ deb, deb_in tmpDir deb ∧
     c = MkCmd ["dpkg-deb"; "--extract"; deb; extractDir] [] (environ E) None) ∨
  (Binary t = "debootstrap" ∧
   c = MkCmd ["cp"; "-a"; path_join [extractDir; "usr"; "share"; "debootstrap"] ++ "/.";
              path_join [tcWorkDir m; "toolchain-share"; "debootstrap"]] [] (environ E) None).

(** The same as a plan: the download, the extractions, the copy. *)
Definition tool_plan (m : Manager) (E : envmap) (t : Tool) : list step :=
  let tmpDir := path_join [binDir m; ".tmp-" ++ Binary t] in
  let extractDir := path_join [tmpDir; "extracted"] in
  [Start (MkCmd ("apt-get" :: "download" :: AptPackages t) tmpDir (environ E) None);
   AnyOf (λ c, ∃ deb, deb_in tmpDir deb ∧
     c = MkCmd ["dpkg-deb"; "--extract"; deb; extractDir] [] (environ E) None)]
  ++ (if bool_decide (Binary t = "debootstrap") then
        [Start (MkCmd ["cp"; "-a"; path_join [extractDir; "usr"; "share"; "debootstrap"] ++ "/.";
                 path_join [tcWorkDir m; "toolchain-share"; "debootstrap"]] [] (environ E) None)]
      else []).

(** A program: something other than a directory that someone may execute. *)
Definition is_program (f : fsys) (file : gostring) : Prop :=
  ∃ d bit, Stat f (absolute file) = Ok d ∧ is_dir d = false ∧
    (bit = 0 ∨ bit = 3 ∨ bit = 6)%N ∧ N.testbit (dent_mode f d) bit = true.

(** The program of a name in a directory of the search path. *)
Definition in_dir (dir name : gostring) : gostring :=
  path_join [if str_eqb dir [] then "." else dir; name].

(** The first directory of the search path with this program is absolute. *)
Definition on_path (s : machine) (name : gostring) : Prop :=
  ∃ before dir after, Getenv "PATH" s ≠ [] ∧
    split_on ":" (Getenv "PATH" s) = before ++ dir :: after ∧
    is_program (mfs s) (in_dir dir name) ∧ HasPrefix (in_dir dir name) "/" = true ∧
    ∀ d, d ∈ before → ¬ is_program (mfs s) (in_dir d name).

(** The tool need not be fetched. *)
Definition provided (m : Manager) (s : machine) (t : Tool) : Prop :=
  (∃ d, Stat (mfs s) (path_join [binDir m; Binary t]) = Ok d) ∨ on_path s (Binary t).

Lemma is_program_iff f file : findExecutable f file = true ↔ is_program f file.
Proof.
  assert (Hbits : ∀ n, negb (N.eqb (N.land n 73) 0) = true ↔
    ∃ bit, (bit = 0 ∨ bit = 3 ∨ bit = 6)%N ∧ N.testbit n bit = true).
  { intros n. rewrite negb_true_iff, N.eqb_neq. split.
    - intros Hne. destruct (N.testbit n 0) eqn:E0; [eauto|]. destruct (N.testbit n 3) eqn:E3; [eauto|].
      destruct (N.testbit n 6) eqn:E6; [eauto|]. destruct Hne. apply N.bits_inj_0. intros k.
      rewrite N.land_spec. destruct (N.testbit 73 k) eqn:Ek; [|by rewrite andb_false_r].
      assert (Hk : (k = 0 ∨ k = 3 ∨ k = 6)%N).
      { destruct (N.lt_ge_cases k 7) as [Hk|Hk].
        - destruct k as [|[[[]|[]|]|[[]|[]|]|]]; auto; by vm_compute in Ek || by vm_compute in Hk.
        - rewrite N.bits_above_log2 in Ek; [done|]. apply (N.lt_le_trans _ 7); [|done].
          vm_compute. reflexivity. }
      destruct Hk as [->|[->| ->]]; by rewrite ?E0, ?E3, ?E6.
    - intros (bit & Hb & Ht) E0. apply (f_equal (λ x, N.testbit x bit)) in E0.
      rewrite N.land_spec, Ht, N.bits_0 in E0. destruct Hb as [->|[->| ->]]; by vm_compute in E0. }
  unfold findExecutable, is_program. destruct (Stat f (absolute file)) as [d|e| |];
    [|split; [done|by intros (? & ? & [=] & _)]..].
  destruct d; [split; [done|]; by intros (d & ? & [= <-] & [=] & _)|..];
    rewrite Hbits; split; try (intros (bit & ? & ?); by eexists _, bit);
    intros (d & bit & [= <-] & _ & ? & ?); by exists bit.
Qed.

Lemma look_in_iff dirs f name :
  is_Some (look_in dirs f name) ↔
  ∃ before dir after, dirs = before ++ dir :: after ∧
    is_program f (in_dir dir name) ∧ HasPrefix (in_dir dir name) "/" = true ∧
    ∀ d, d ∈ before → ¬ is_program f (in_dir d name).
Proof.
  induction dirs as [|d dirs IH]; cbn [look_in].
  { split; [by intros [? [=]]|]. by intros ([|] & ? & ? & [=] & _). }
  change (path_join [if str_eqb d [] then "." else d; name]) with (in_dir d name).
  destruct (findExecutable f (in_dir d name)) eqn:Ex.
  - apply is_program_iff in Ex. destruct (HasPrefix (in_dir d name) "/") eqn:Ep.
    + split; [|by eauto]. intros _. exists [], d, dirs. split_and!; try done.
      by intros d' ?%elem_of_nil.
    + split; [by intros [? [=]]|].
      intros ([|b before] & dir & after & [= <- ->] & Hx & Hp & Hb); [congruence|].
      destruct (Hb d); [by left|done].
  - rewrite IH. assert (Hno : ¬ is_program f (in_dir d name)).
    { rewrite <- is_program_iff. congruence. }
    split.
    + intros (before & dir & after & -> & Hx & Hp & Hb). exists (d :: before), dir, after.
      split_and!; try done. intros d' [->|Hd]%elem_of_cons; [done|by apply Hb].
    + intros ([|b before] & dir & after & [= <- ->] & Hx & Hp & Hb); [done|].
      exists before, dir, after. split_and!; try done. intros d' Hd. apply Hb. by right.
Qed.

Lemma toolAvailable_iff m s t :
  t ∈ buildTools → toolAvailable m (Binary t) s = true ↔ provided m s t.
Proof.
  intros Ht. assert (Hs : mem "/" (Binary t) = false).
  { unfold buildTools in Ht. set_unfold. by destruct Ht as [->|[->|[->|[->|[]]]]]. }
  assert (Hp : is_Some (LookPath (Binary t) s) ↔ on_path s (Binary t)).
  { unfold LookPath, on_path. rewrite Hs, look_in_iff.
    destruct (str_eqb_spec (Getenv "PATH" s) []) as [E|E].
    - split; [by intros ([|] & ? & ? & [=] & _)|]. by intros (? & ? & ? & ? & _).
    - split; intros (b & d & a & Hrest); exists b, d, a; [done|apply Hrest]. }
  unfold toolAvailable, stat_ok, provided. rewrite <- Hp.
  destruct (Stat (mfs s) (path_join [binDir m; Binary t])) as [d|e| |];
    [split; [by left; eauto|done]|..];
    (destruct (LookPath (Binary t) s) as [p|]; split; [by eauto|done|done|]);
    by intros [[? [=]]|[? [=]]].
Qed.

Lemma copy_binary_confined E P srcDir dstDir e : confined E P (copy_binary srcDir dstDir e).
Proof. unfold copy_binary. confine. Qed.

Lemma copy_entries_confined E P srcDir dstDir es n :
  confined E P (copy_entries srcDir dstDir es n).
Proof.
  revert n. induction es as [|e es IH]; intros n; cbn [copy_entries]; [confine|].
  apply confined_bind; [apply copy_binary_confined|intros ?; apply IH].
Qed.

Lemma copy_dirs_confined E P dstDir dirs n : confined E P (copy_dirs dstDir dirs n).
Proof.
  revert n. induction dirs as [|d dirs IH]; intros n; cbn [copy_dirs]; [confine|].
  apply confined_bind; [|intros ?; apply IH]. unfold copyBinaries. confine.
  apply copy_entries_confined.
Qed.

Lemma star_deb n : match_star "*.deb" n = true → HasSuffix n ".deb" = true ∧ mem "/" n = false.
Proof.
  induction n as [|c n IH]; [done|].
  change (match_star "*.deb" (c :: n)) with
    (match_star ".deb" (c :: n) || (negb (Ascii.eqb c "/") && match_star "*.deb" n)).
  intros [Hd|[Hc Hn]%andb_true_iff]%orb_true_iff.
  - assert (Hlit : ∀ p x, forallb (λ c, negb (Ascii.eqb c "*")) p = true → match_star p x = true → x = p).
    { clear. induction p as [|a p IH]; intros x Hp Hm; cbn [match_star] in Hm.
      - by apply str_eqb_eq in Hm.
      - cbn [forallb] in Hp. apply andb_true_iff in Hp as [Ha Hp]. apply negb_true_iff in Ha.
        rewrite Ha in Hm. destruct x as [|b x]; [done|]. apply andb_true_iff in Hm as [Hab Hm].
        apply Ascii.eqb_eq in Hab as ->. by rewrite (IH x Hp Hm). }
    apply Hlit in Hd as ->; [|done]. by vm_compute.
  - destruct (IH Hn) as [Hs Hm]. apply HasSuffix_iff in Hs as [r ->].
    split; [apply HasSuffix_iff; by exists (c :: r)|]. cbn [app mem existsb].
    apply negb_true_iff in Hc. unfold mem in *. cbn [existsb].
    rewrite Hm, orb_false_r, Ascii.eqb_sym. exact Hc.
Qed.

Lemma Glob_debs f tmpDir deb : deb ∈ Glob f tmpDir "*.deb" → deb_in tmpDir deb.
Proof.
  intros Hd Hm. unfold Glob in Hd. rewrite Hm in Hd.
  destruct (ReadDir f (absolute tmpDir)) as [names|e| |]; try by apply elem_of_nil in Hd.
  apply list_elem_of_In, in_map_iff in Hd as (n & <- & [_ Hn]%List.filter_In).
  exists n. split; [done|by apply star_deb].
Qed.

Lemma downloadAndExtract_confined E m t : confined E (tool_cmd m E t) (downloadAndExtract m t).
Proof.
  unfold downloadAndExtract, fetch_tool. cbv zeta. apply confined_bind; [confine|intros _].
  apply confined_defer; [intros s; unfold on_files; by destruct (RemoveAll _ _)|].
  apply confined_bind; [confine; by left|intros _]. apply confined_bind.
  - apply confined_look. intros s _. destruct (Glob (mfs s) _ "*.deb") as [|d ds] eqn:Eg; [confine|].
    confine. right; left. eexists. split; [|reflexivity]. eapply Glob_debs. by rewrite Eg.
  - intros _. confine; try apply copy_dirs_confined.
    unfold installDebootstrapData. confine. right; right. split; [|done]. by apply str_eqb_eq.
Qed.

(** Nothing else runs on the way, and the download comes first. *)
Lemma downloadAndExtract_plan E m t : plans E E (downloadAndExtract m t) (tool_plan m E t).
Proof.
  assert (Hq : ∀ dst dirs n, plans E E (copy_dirs dst dirs n) []).
  { intros dst dirs n.
    assert (Hnone : ∀ l : list Cmd, Forall (λ _, False) l → l = []).
    { by intros [|c l] Hl; [|inversion Hl]. }
    eapply plans_weaken; [exact (copy_dirs_confined E (λ _, False) dst dirs n)|..].
    - intros l ->%confined_runs%Hnone. constructor.
    - intros l ->%confined_stops%Hnone. apply stops_nil. }
  unfold downloadAndExtract, fetch_tool, tool_plan. cbv zeta. eapply plans_seq; [quiet|intros _].
  apply plans_defer; [intros s; unfold on_files; by destruct (RemoveAll _ _)|].
  cbn [app]. apply (plans_bind E E E _ _ [_]); [apply plans_ctx, plans_plain|intros _].
  apply (plans_bind E E E _ _ [_]).
  { apply plans_look. intros s _. destruct (Glob (mfs s) _ "*.deb") as [|d ds] eqn:Eg;
      [apply plans_err|]. apply confined_bind; [confine|intros _].
    apply confined_for. intros deb Hdeb. apply confined_ctx, confined_plain.
    exists deb. split; [|done]. eapply Glob_debs. by rewrite Eg. }
  intros _. eapply plans_seq; [apply Hq|intros copied].
  assert (Hend : ∀ b : bool, plans E E (if b then st_err (HostMsg ("nie skopiowano zadnych binarek dla "
      ++ Binary t ++ " -- sprawdz nazwy pakietow apt")) else
    looking (λ s, if negb (stat_ok s (path_join [binDir m; Binary t]))
      then st_err (HostMsg ("binarka " ++ Quote IsPrint (Binary t)
                            ++ " nie znaleziona w toolchain-bin/ po rozpakowaniu"))
      else st_ret tt)) []) by (intros []; quiet).
  destruct (str_eqb_spec (Binary t) "debootstrap") as [Eb|Eb].
  - rewrite bool_decide_true by done. apply (plans_bind E E E _ _ [_] []); [|intros _; apply Hend].
    apply plans_ctx. unfold installDebootstrapData. cbv zeta. eapply plans_seq; [quiet|intros _].
    eapply plans_seq; [quiet|intros _].
    apply (plans_bind E E E _ _ [_] []); [apply plans_ctx, plans_plain|intros _]. quiet.
  - rewrite bool_decide_false by done. eapply plans_seq; [quiet|intros _; apply Hend].
Qed.

Lemma PrepareAll_confined E m :
  confined E (λ c, ∃ t, t ∈ buildTools ∧ tool_cmd m E t c) (PrepareAll m).
Proof.
  unfold PrepareAll. confine.
  eapply confined_weaken; [apply downloadAndExtract_confined|].
  match goal with H : ?t ∈ List.filter _ _ |- _ =>
    intros c Hc; exists t; apply list_elem_of_In, List.filter_In in H as [H _] end.
  split; [by apply list_elem_of_In|exact Hc].
Qed.

(** The manager that is returned. *)
Lemma PrepareAll_result m s m' s' :
  PrepareAll m s = (Ok m', s') →
  m' = MkManager (tcWorkDir m) (binDir m) (binDir m ++ ":" ++ Getenv "PATH" s).
Proof.
  unfold PrepareAll. unfold st_bind at 1, ctx at 1.
  pose proof (keeps_files (MkdirAll umask (binDir m) 493) s) as He.
  destruct (on_files (MkdirAll umask (binDir m) 493) s) as [[u|e| |] s1]; try done.
  cbn [snd] in He. unfold looking, st_bind. destruct (for_each _ _ s1) as [[u'|e| |] s2]; try done.
  intros [= <- <-]. unfold Getenv. by rewrite He.
Qed.

Lemma filter_sublist {A : Type} (P : A → bool) l : List.filter P l `sublist_of` l.
Proof. induction l as [|a l IH]; cbn [List.filter]; [done|]. destruct (P a); by constructor. Qed.

(** *** Claims *)

(** C14.  Preparing the tools fetches exactly those that are neither in
    the toolchain directory nor a program on the search path, in the order of
    the table: for each it runs the download of its packages in its temporary
    directory, extractions of packages of that directory into a directory
    there, and for debootstrap the copy of its data; no other command.  A
    failing run has stopped on the way.  If it succeeds, the environment is
    unchanged and the manager's search path is the toolchain directory followed
    by the builder's. *)
Theorem PrepareAll_commands m s :
  let s1 := snd (on_files (MkdirAll umask (binDir m) 493) s) in
  let '(r, s') := PrepareAll m s in
  ∃ missing cs, missing `sublist_of` buildTools ∧
    (∀ t, t ∈ buildTools → t ∈ missing ↔ ¬ provided m s1 t) ∧
    mlog s' = mlog s ++ cs ∧
    match r with
    | Ok m' => runs (missing ≫= tool_plan m (menv s)) cs ∧ menv s' = menv s ∧
        m' = MkManager (tcWorkDir m) (binDir m) (binDir m ++ ":" ++ Getenv "PATH" s)
    | _ => stops (missing ≫= tool_plan m (menv s)) cs
    end.
Proof.
  cbv zeta. unfold PrepareAll. unfold st_bind at 1, ctx at 1.
  assert (He : menv (snd (on_files (MkdirAll umask (binDir m) 493) s)) = menv s)
    by apply keeps_files.
  assert (Hl : mlog (snd (on_files (MkdirAll umask (binDir m) 493) s)) = mlog s).
  { unfold on_files. by destruct (MkdirAll _ _ _ _). }
  destruct (on_files (MkdirAll umask (binDir m) 493) s) as [r0 s1]; cbn [snd] in *.
  set (missing := List.filter (λ t, negb (toolAvailable m (Binary t) s1)) buildTools).
  assert (Hmiss : missing `sublist_of` buildTools ∧
    ∀ t, t ∈ buildTools → t ∈ missing ↔ ¬ provided m s1 t).
  { split; [apply filter_sublist|]. intros t Ht. rewrite <- toolAvailable_iff by done.
    unfold missing. rewrite list_elem_of_In, List.filter_In, negb_true_iff, not_true_iff_false.
    apply list_elem_of_In in Ht. tauto. }
  destruct r0 as [u|e| |]; cbn [fst snd].
  2-4: (exists missing, []; rewrite app_nil_r, Hl; split_and!; [apply Hmiss..|done|apply stops_nil]).
  unfold looking. set (m' := MkManager (tcWorkDir m) (binDir m) _).
  destruct (plans_for (menv s) (λ t, ctx ("toolchain: nie mozna przygotowac narzedzia "
    ++ Quote IsPrint (Binary t)) (downloadAndExtract m' t)) (tool_plan m (menv s)) missing
    (λ t _, plans_ctx _ _ _ _ _ (downloadAndExtract_plan (menv s) m' t)) s1 He)
    as (cs & Hcs & Hr).
  change (List.filter (λ t, negb (toolAvailable m' (Binary t) s1)) buildTools) with missing.
  unfold st_bind. destruct (for_each _ missing s1) as [r s2]; cbn [fst snd] in Hcs, Hr.
  rewrite Hl in Hcs. destruct r as [u'|e| |]; cbn [st_ret]; exists missing, cs;
    (split; [apply Hmiss|split; [apply Hmiss|split; [exact Hcs|]]]); try exact Hr.
  destruct Hr. split_and!; [done..|]. unfold m', Getenv. by rewrite He.
Qed.

(** Fetching a tool cleans up after itself: once its temporary
    directory could be made, then however the download ends, nothing of that
    name is left. *)
Theorem download_cleans m t s s1 d :
  let tmpDir := path_join [binDir m; ".tmp-" ++ Binary t] in
  on_files (MkdirAll umask tmpDir 493) s = (Ok tt, s1) →
  Lstat (mfs (snd (downloadAndExtract m t s))) tmpDir = Ok d →
  resolve (mfs (snd (fetch_tool m t tmpDir s1))) false tmpDir = Ok [].
Proof.
  cbv zeta. intros E. unfold downloadAndExtract. cbv zeta. unfold st_bind, ctx. rewrite E.
  unfold deferring. destruct (fetch_tool m t _ s1) as [r s2]. cbn [snd].
  unfold on_files. pose proof (RemoveAll_leaves (path_join [binDir m; ".tmp-" ++ Binary t]) (mfs s2) d)
    as Hl.
  destruct (RemoveAll _ (mfs s2)) as [[[]|e| |] f]; cbn [snd mfs] in *; exact Hl.
Qed.

(** With the search path of a prepared manager, a program in the
    toolchain directory is the one that is found, whatever else the path has. *)
Theorem toolchain_first m name s rest :
  HasPrefix (binDir m) "/" = true → mem ":" (binDir m) = false → mem "/" name = false →
  Getenv "PATH" s = binDir m ++ ":" ++ rest →
  HasPrefix (path_join [binDir m; name]) "/" = true →
  findExecutable (mfs s) (path_join [binDir m; name]) = true →
  LookPath name s = Some (path_join [binDir m; name]).
Proof.
  intros Habs Hcol Hname Hpath Hjoin Hex. unfold LookPath. rewrite Hname, Hpath.
  assert (Hne : binDir m ≠ []) by (by intros E; rewrite E in Habs).
  rewrite (proj2 (str_eqb_neq (binDir m ++ ":" ++ rest) [])) by (by destruct (binDir m)).
  change (binDir m ++ ":" ++ rest) with (binDir m ++ ":"%char :: rest).
  rewrite split_on_app by done. cbn [look_in].
  rewrite (proj2 (str_eqb_neq (binDir m) [])) by done. by rewrite Hex, Hjoin.
Qed.

(** A shell that reads the generated debootstrap wrapper sets
    DEBOOTSTRAP_DIR to exactly the data directory and runs exactly the real
    script with the arguments of the wrapper, if the two paths are of printable
    ASCII characters other than the dollar sign and the backquote. *)
Theorem wrapper_reads shareDir realPath :
  forallb shell_plain shareDir = true → forallb shell_plain realPath = true →
  ∃ rest1 rest2,
    debootstrap_wrapper IsPrint shareDir realPath =
      "#!/bin/sh" ++ [NL] ++ wrapper_comment ++ "export DEBOOTSTRAP_DIR=" ++ DQ :: rest1 ∧
    sh_dquoted rest1 = Some (shareDir, NL :: "exec " ++ DQ :: rest2) ∧
    sh_dquoted rest2 = Some (realPath, " " ++ [DQ] ++ "$@" ++ [DQ] ++ [NL]) ∧
    Forall (λ l, l = [] ∨ HasPrefix l "#" = true) (split_on NL wrapper_comment).
Proof.
  intros Hs Hr.
  exists (quote_body IsPrint shareDir ++ DQ :: NL :: "exec " ++ DQ ::
            (quote_body IsPrint realPath ++ DQ :: " " ++ [DQ] ++ "$@" ++ [DQ] ++ [NL])),
         (quote_body IsPrint realPath ++ DQ :: " " ++ [DQ] ++ "$@" ++ [DQ] ++ [NL]).
  split_and!.
  - unfold debootstrap_wrapper, Quote. do 4 f_equal. rewrite <- !app_assoc. cbn [app].
    reflexivity.
  - by rewrite sh_dquoted_Quote.
  - by rewrite sh_dquoted_Quote.
  - vm_compute. repeat (constructor; [first [by right|by left]|]). constructor.
Qed.
End commands.

(** C17.  From a directory whose executable entries can all be read and have
    free names in the toolchain directory, those entries, all of them and
    nothing else, are copied there as regular files with the content read
    through them and their permissions without the umask; nothing else changes,
    and the number returned is theirs.  Links count as executable and arrive as
    copies of what they lead to. *)
Theorem copyBinaries_correct `{External} src dst s :
  Forall name_ok src → Forall name_ok dst → real_dir (mfs s) src → real_dir (mfs s) dst →
  (∀ c d, dents (mfs s) !! (src ++ [c]) = Some d →
     name_ok c ∧ (∀ i, d = DFile i → is_Some (files (mfs s) !! i)) ∧
     (exec_of (mfs s) (c, d) = true →
        (∃ data, ReadFile (mfs s) (abs_path (src ++ [c])) = Ok data) ∧
        dents (mfs s) !! (dst ++ [c]) = None)) →
  ∃ es f', NoDup es.*1 ∧ (∀ c d, (c, d) ∈ es ↔ dents (mfs s) !! (src ++ [c]) = Some d) ∧
    copyBinaries (abs_path src) (abs_path dst) s =
      (Ok (length (List.filter (exec_of (mfs s)) es)), Machine f' (menv s) (mlog s)) ∧
    copies (mfs s) src dst es (mfs s) f'.
Proof.
  intros Hs Hd Rs Rd Hplain.
  destruct (ReadDirEntries_dir (mfs s) src Hs Rs) as (es & E & Hnd & Hes).
  assert (Hp : ∀ c d, dents (mfs s) !! (src ++ [c]) = Some d →
    name_ok c ∧ (∀ i, d = DFile i → is_Some (files (mfs s) !! i)) ∧
    (exec_of (mfs s) (c, d) = true → ∃ data, ReadFile (mfs s) (abs_path (src ++ [c])) = Ok data)).
  { intros c d Hc. destruct (Hplain c d Hc) as (? & ? & Hx). split; [done|]. split; [done|].
    intros E0. by apply Hx. }
  destruct (copy_entries_ok (mfs s) src dst Hs Hd Rs Rd Hp es 0 s) as (f' & E' & C); try done.
  - intros [c d] He. by apply Hes.
  - intros [c d] He Hx. apply Hes in He. destruct (Hplain c d He) as (_ & _ & Hfree).
    exact (proj2 (Hfree Hx)).
  - exists es, f'. split_and!; try done. unfold copyBinaries, looking. by rewrite E.
Qed.

(** ** Examples *)

#[local] Existing Instance quiet_external.

Lemma wrapper_reads_witness :
  ∃ rest, sh_dquoted rest = Some (("/w/toolchain-share/debootstrap" : gostring),
    NL :: "exec " ++ Quote (λ _, false) "/w/toolchain-bin/debootstrap.real" ++ " " ++ [DQ] ++ "$@" ++ [DQ] ++ [NL]).
Proof.
  destruct (wrapper_reads "/w/toolchain-share/debootstrap" "/w/toolchain-bin/debootstrap.real"
              eq_refl eq_refl) as (rest1 & rest2 & E & H1 & _).
  exists rest1. rewrite H1. do 2 f_equal. f_equal. f_equal.
  vm_compute in E. injection E as E. subst rest1. vm_compute in H1. injection H1 as <-. 
  vm_compute. reflexivity.
Defined.

(** A package with two programs, a link to one, a document and a directory. *)
Definition package_fs : fsys :=
  Fs (list_to_map
        [(["p"], DDir 493 0); (["p"; "x"], DFile 1); (["p"; "y"], DFile 2); (["p"; "l"], DSym "x");
         (["p"; "doc"], DFile 3); (["p"; "d"], DDir 493 0); (["b"], DDir 493 0)])
     (list_to_map [(1, Inode "xx" 493 0); (2, Inode "yy" 448 0); (3, Inode "text" 420 0)]).

Definition package_machine : machine := Machine package_fs ∅ [].

Lemma package_entries c d :
  dents package_fs !! (["p"] ++ [c]) = Some d →
  (c, d) ∈ [("x" : gostring, DFile 1); ("y" : gostring, DFile 2); ("l" : gostring, DSym "x");
            ("doc" : gostring, DFile 3); ("d" : gostring, DDir 493 0)].
Proof.
  intros Hd%elem_of_list_to_map_2. set_unfold. naive_solver.
Qed.

Lemma package_real p : p = ["p"] ∨ p = ["b"] → real_dir package_fs p.
Proof.
  intros Hp. apply (wf_real_dir _ _ 493 0).
  - apply wf_entries, (bool_decide_unpack _). vm_compute. exact I.
  - destruct Hp as [-> | ->]; vm_compute; reflexivity.
Qed.

Lemma copyBinaries_correct_witness :
  ∃ es f', copyBinaries "/p" "/b" package_machine =
      (Ok (length (List.filter (exec_of package_fs) es)), Machine f' ∅ []) ∧
    copied_to package_fs ["p"] ["b"] f' "y" ∧ copied_to package_fs ["p"] ["b"] f' "l".
Proof.
  destruct (copyBinaries_correct ["p"] ["b"] package_machine) as (es & f' & _ & Hes & E & C).
  - by repeat constructor.
  - by repeat constructor.
  - apply package_real. by left.
  - apply package_real. by right.
  - intros c d Hd. apply package_entries in Hd. set_unfold.
    destruct Hd as [[= -> ->]|[[= -> ->]|[[= -> ->]|[[= -> ->]|[[= -> ->]|[]]]]]];
      (split; [done|split; [intros i [= <-]; vm_compute; eexists; reflexivity|]]);
      (intros Hx; first [discriminate Hx|split; [eexists|]; vm_compute; reflexivity]).
  - exists es, f'. split; [exact E|]. split.
    + refine (cp_all _ _ _ _ _ _ C (("y" : gostring), DFile 2) _ _); [|vm_compute; reflexivity].
      apply Hes. vm_compute. reflexivity.
    + refine (cp_all _ _ _ _ _ _ C (("l" : gostring), DSym "x") _ _); [|vm_compute; reflexivity].
      apply Hes. vm_compute. reflexivity.
Defined.
