(* ===== verification/HkFile.v ===== *)
(** * Writing configuration files (hk/serialize.go, hkgen/debostree_config.go)

    The part of the two packages that touches the disk. *)

From Stdlib Require Import Ascii String ZArith Lia.
From stdpp Require Import base list gmap strings.
From S2P Require Import Prelude GoStrings HkValue HkHeap HkTree HkSerialize HkRoundTrip HkBuilder.
From S2P Require Import Fs FsProps Host Plan.

Section writing.
Context `{External}.

(** [hk.WriteFile], for the serialized text. *)
Definition WriteFile (path content : gostring) : HM unit :=
  ctx ("hk: nie mozna zapisac " ++ path) (on_files (write_new umask path content 420)).

Definition WriteDebOstreeConfig (destPath : gostring) (p : DebOstreeConfigParams) : HM unit :=
  match fst (debostree_hk p ∅) with
  | Ok content => WriteFile destPath content
  | _ => st_panic
  end.

Lemma debostree_hk_content p h :
  fst (debostree_hk p h) = Ok (spec_serialize (debostree_tree p)).
Proof.
  destruct (Generate_holds p h) as (c & h' & Hrun & Hc). unfold debostree_hk, st_bind.
  rewrite Hrun. by rewrite (Serialize_holds _ _ _ Hc).
Qed.

Lemma WriteDebOstreeConfig_text destPath p :
  WriteDebOstreeConfig destPath p = WriteFile destPath (spec_serialize (debostree_tree p)).
Proof. unfold WriteDebOstreeConfig. by rewrite debostree_hk_content. Qed.

Lemma plans_WriteDebOstreeConfig E destPath p : plans E E (WriteDebOstreeConfig destPath p) [].
Proof. rewrite WriteDebOstreeConfig_text. apply plans_ctx, plans_files. Qed.

(** What is read there afterwards. *)
Lemma WriteDebOstreeConfig_reads destPath p s s' data :
  WriteDebOstreeConfig destPath p s = (Ok tt, s') → ReadFile (mfs s') destPath = Ok data →
  data = spec_serialize (debostree_tree p).
Proof.
  rewrite WriteDebOstreeConfig_text. unfold WriteFile, ctx, on_files.
  destruct (write_new _ _ _ _ _) as [[[]|e| |] f] eqn:E; try done. intros [= <-]. cbn [mfs].
  by eapply ReadFile_written.
Qed.
End writing.
