(* ===== verification/Rootfs.v ===== *)
(** * The root file system builder (internal/rootfs/{builder,debostree_deps}.go)

    [Build] makes the image's tree: tools, debootstrap, packages, the project's
    files and hooks, and deb-ostree with its configuration.  Programs run in
    the sandbox; files are written through the model of the disk. *)

From Stdlib Require Import Ascii String ZArith Lia.
From stdpp Require Import base list gmap strings.
From S2P Require Import Prelude GoStrings GoNumbers GoSort GoPath HkBuilder Config LiveParse.
From S2P Require Import Fs FsProps FsWalk Host Plan Util Sandbox Download Toolchain HkFile.

Definition defaultMirror : gostring := "http://deb.debian.org/debian".

Record Builder : Type := MkBuilder {
  bProject : LiveParse.Project;
  bConfig : Config.Config;
  RootfsDir : gostring;
  WorkDir : gostring;
  bOriginRefspec : gostring }.

Definition New (project : LiveParse.Project) (cfg : Config.Config) (rootfsDir workDir : gostring)
    : Builder :=
  MkBuilder project cfg rootfsDir workDir [].

(** ** Data *)

Definition macPackages (b : Builder) : list gostring :=
  if bool_decide (MAC (Project_ (bConfig b)) = MACSELinux)
  then ["selinux-basics"; "selinux-policy-default"; "policycoreutils";
        "policycoreutils-python-utils"; "auditd"]
  else ["apparmor"; "apparmor-profiles"; "apparmor-utils"].

Definition macName (b : Builder) : gostring :=
  if bool_decide (MAC (Project_ (bConfig b)) = MACSELinux) then "SELinux" else "AppArmor".

Definition debOstreeDeps : list gostring :=
  ["libsolv1"; "libostree-1-1"; "libarchive13t64"; "libcurl3t64-gnutls"; "libglib2.0-0t64";
   "libgpgme11t64"; "libselinux1"; "libsystemd0"; "liblzma5"; "zlib1g"].

(** The arguments of apt-get install before the packages. *)
Definition install_args : list gostring :=
  ["install"; "-y"; "--no-install-recommends";
   "-o"; "Dpkg::Options::=--force-confdef"; "-o"; "Dpkg::Options::=--force-confold"].

Definition sudo_stub : gostring :=
  "#!/bin/sh" ++ [NL]
  ++ "# sudo-stub wygenerowany przez hackeros-builder." ++ [NL]
  ++ "# Hooki pisane z myslą o normalnej maszynie uzywaja 'sudo <cmd>' -- wewnatrz" ++ [NL]
  ++ "# kontenera nspawn build jest rootem, wiec sudo jest zbedne. Ten stub" ++ [NL]
  ++ "# po prostu odpala komende bezposrednio, eliminujac " ++ [DQ] ++ "sudo: not found" ++ [DQ]
  ++ "." ++ [NL]
  ++ "exec " ++ [DQ] ++ "$@" ++ [DQ] ++ [NL].

(** A line of debconf-set-selections: package, question, type, value. *)
Definition selection (package question type value : gostring) : gostring :=
  Join [package; package ++ "/" ++ question; type; value] [TAB] ++ [NL].

Definition preseed : gostring :=
  selection "keyboard-configuration" "layout" "select" "English (US)"
  ++ selection "keyboard-configuration" "layoutcode" "string" "us"
  ++ selection "keyboard-configuration" "variant" "select" "English (US)"
  ++ selection "keyboard-configuration" "modelcode" "string" "pc105"
  ++ selection "keyboard-configuration" "model" "select" "Generic 105-key PC (intl.)"
  ++ selection "keyboard-configuration" "altgr" "select" "The default for the keyboard layout"
  ++ selection "keyboard-configuration" "unsupported_layout" "boolean" "true"
  ++ selection "keyboard-configuration" "unsupported_options" "boolean" "true"
  ++ selection "tzdata" "Areas" "select" "Etc"
  ++ selection "tzdata" "Zones/Etc" "select" "UTC"
  ++ selection "locales" "default_environment_locale" "select" "C.UTF-8"
  ++ selection "locales" "locales_to_be_generated" "multiselect" "en_US.UTF-8 UTF-8"
  ++ selection "debconf" "frontend" "select" "Noninteractive"
  ++ selection "debconf" "priority" "select" "critical"
  ++ selection "man-db" "auto-update" "boolean" "false".

(** [filepath.Rel] *)
Fixpoint strip_common (b t : list gostring) : list gostring * list gostring :=
  match b, t with
  | x :: b', y :: t' => if str_eqb x y then strip_common b' t' else (b, t)
  | _, _ => (b, t)
  end.

Definition Rel (base targ : gostring) : option gostring :=
  let b := Clean base in
  let t := Clean targ in
  if str_eqb b t then Some "."
  else
    let b := if str_eqb b "." then [] else b in
    if negb (Bool.eqb (HasPrefix b "/") (HasPrefix t "/")) then None
    else
      let '(bs, ts) := strip_common (elems b) (elems t) in
      if existsb (str_eqb "..") bs then None
      else Some (Join (map (λ _, "..") bs ++ ts) "/").

Example rel_1 : Rel "/a/b" "/a/b/c/d" = Some ("c/d" : gostring). Proof. reflexivity. Qed.
Example rel_2 : Rel "/a/b" "/a/b" = Some ("." : gostring). Proof. reflexivity. Qed.
Example rel_3 : Rel "/a/b" "/a/c" = Some ("../c" : gostring). Proof. reflexivity. Qed.

(** The errors of a download as the builder passes them on. *)
Definition download_error (e : DownloadError) : HostError :=
  match e with
  | FetchFailed url => HostMsg ("zadanie HTTP nie powiodlo sie: " ++ url)
  | BadStatus status url => HostMsg ("status HTTP " ++ dec_of_Z status ++ " (URL: " ++ url ++ ")")
  | NoTag => HostMsg "nie znaleziono zadnego tagu wydania"
  | ChecksumMismatch expected actual =>
      HostMsg ("SUMA KONTROLNA SIE NIE ZGADZA: " ++ expected ++ ", " ++ actual)
  | MkdirError e => ECtx "tworzenie katalogu docelowego" (FsError e)
  | WriteError path e => ECtx ("zapis pobranego pliku do " ++ path) (FsError e)
  | ChmodError path e => ECtx ("chmod a+x na " ++ path) (FsError e)
  end.

Definition on_download {A} (m : ST fsys DownloadError A) : HM A :=
  λ s, let '(r, f) := m (mfs s) in
       (match r with
        | Ok a => Ok a
        | Err e => Err (download_error e)
        | Panic => Panic
        | OutOfFuel => OutOfFuel
        end, Machine f (menv s) (mlog s)).

Section builder.
Context `{External} (http : gostring → response).

(** ** Files *)

(** The source is opened before the target is truncated and read after. *)
Definition copyFile (src dst : gostring) (mode : N) : HM unit :=
  on_files (MkdirAll umask (Dir dst) 493) ;;
  let! inp := ask_files (λ f, Open f src) in
  let! out := on_files (OpenFile umask dst mode) in
  on_files (copy_handle out inp) ;;
  on_files (chmod_handle out mode).

(** [filepath.Walk] with a callback that passes on every error: the callback
    sees each path with its [Lstat], directories before their entries, entries
    in the order of their names. *)
Fixpoint walk_files (depth : nat) (visit : gostring → dent → N → HM unit)
    (path : gostring) (info : dent) (mode : N) : HM unit :=
  if negb (is_dir info) then visit path info mode
  else
    match depth with
    | O => st_lift OutOfFuel
    | S depth' =>
        let! names := ask_files (λ f, ReadDir f path) in
        visit path info mode ;;
        for_each (λ name,
          let filename := path_join [path; name] in
          let! info' := ask_files (λ f, let? d := Lstat f filename in Ok (d, dent_mode f d)) in
          walk_files depth' visit filename info'.1 info'.2) (sort_strings names)
    end.

Definition Walk (visit : gostring → dent → N → HM unit) (root : gostring) : HM unit :=
  looking (λ s,
    let depth := depth_bound (mfs s) in
    let! info := ask_files (λ f, let? d := Lstat f root in Ok (d, dent_mode f d)) in
    walk_files depth visit root info.1 info.2).

(** ** Steps *)

Definition prepareDir (b : Builder) : HM unit :=
  ctx ("czyszczenie " ++ RootfsDir b) (on_files (RemoveAll (RootfsDir b))) ;;
  ctx ("tworzenie " ++ RootfsDir b) (on_files (MkdirAll umask (RootfsDir b) 493)).

Definition sandboxExec (b : Builder) (command : gostring) (args : list gostring) : HM unit :=
  Exec (RootfsDir b) command args.

Definition sandboxExecWithStdin (b : Builder) (data command : gostring) (args : list gostring)
    : HM unit :=
  ExecWithStdin (RootfsDir b) data command args.

Definition runDebootstrap (b : Builder) : HM unit :=
  RunStreaming [] "debootstrap"
    ["--arch=amd64"; Config.Release (bConfig b); RootfsDir b; defaultMirror].

Definition seedDebconf (b : Builder) : HM unit :=
  sandboxExecWithStdin b preseed "debconf-set-selections" [].

Definition installSudoStub (b : Builder) : HM unit :=
  let stubDir := path_join [RootfsDir b; "usr"; "local"; "sbin"] in
  on_files (MkdirAll umask stubDir 493) ;;
  ctx "zapis sudo-stub" (on_files (write_new umask (path_join [stubDir; "sudo"]) sudo_stub 493)).

Definition stub_path (b : Builder) : gostring :=
  path_join [RootfsDir b; "usr"; "local"; "sbin"; "sudo"].

(** A failure is only a warning. *)
Definition removeSudoStub (b : Builder) : HM unit :=
  try (on_files (Remove (stub_path b))) ;; st_ret tt.

Definition applyExtraSources (b : Builder) : HM unit :=
  let sourcesDir := path_join [RootfsDir b; "etc"; "apt"; "sources.list.d"] in
  on_files (MkdirAll umask sourcesDir 493) ;;
  let listPath := path_join [sourcesDir; "hackeros-extra.list"] in
  ctx ("tworzenie " ++ listPath)
    (on_files (write_new umask listPath
                 (concat (map (λ line, line ++ [NL]) (ExtraSources (bProject b)))) 438)) ;;
  for_each (λ keyPath,
    let destPath := path_join [RootfsDir b; "etc"; "apt"; "trusted.gpg.d"; Base keyPath] in
    ctx ("kopiowanie klucza GPG " ++ keyPath) (copyFile keyPath destPath 420))
    (ExtraKeys (bProject b)).

Definition installMACPackages (b : Builder) : HM unit :=
  ctx ("instalacja pakietow " ++ macName b)
    (sandboxExec b "apt-get" (install_args ++ macPackages b)).

Definition installPackages (b : Builder) : HM unit :=
  ctx "apt-get update" (sandboxExec b "apt-get" ["update"]) ;;
  if (length (Packages (bProject b)) =? 0)%nat then st_ret tt
  else ctx "apt-get install"
         (sandboxExec b "apt-get"
            ((install_args ++ ["-o"; "APT::Get::Assume-Yes=true"]) ++ Packages (bProject b))).

(** The callback of [copyIncludesChroot]. *)
Definition copy_include (b : Builder) (path : gostring) (info : dent) (mode : N) : HM unit :=
  match Rel (IncludesChroot (bProject b)) path with
  | None => st_err (HostMsg ("Rel: " ++ path))
  | Some rel =>
      if str_eqb rel "." then st_ret tt
      else
        let dest := path_join [RootfsDir b; rel] in
        match info with
        | DDir _ _ => on_files (MkdirAll umask dest mode)
        | DSym _ =>
            let! target := ask_files (λ f, Readlink f path) in
            on_files (Symlink target dest)
        | _ => copyFile path dest mode
        end
  end.

Definition copyIncludesChroot (b : Builder) : HM unit :=
  Walk (copy_include b) (IncludesChroot (bProject b)).

Definition hook_name (h : HookScript) : gostring := "/tmp-hackeros-hook-" ++ hname h.

(** One round of the loop of [runHooks]. *)
Definition run_hook (b : Builder) (h : HookScript) : HM unit :=
  let tmpName := hook_name h in
  let destOnHost := path_join [RootfsDir b; tmpName] in
  ctx ("kopiowanie hooka " ++ hname h) (copyFile (hpath h) destOnHost 493) ;;
  let! r := try (sandboxExec b tmpName []) in
  match r with
  | inr e =>
      try (on_files (Remove destOnHost)) ;; st_err (ECtx ("wykonanie hooka " ++ hname h) e)
  | inl _ => try (on_files (Remove destOnHost)) ;; st_ret tt
  end.

Definition runHooks (b : Builder) : HM unit :=
  deferring (removeSudoStub b) (for_each (run_hook b) (Hooks (bProject b))).

Definition injectDebOstree (b : Builder) : HM unit :=
  looking (λ s,
    let pinned := Getenv "DEBOSTREE_VERSION" s in
    let! version := if str_eqb pinned []
                    then ctx "wykrywanie najnowszej wersji deb-ostree"
                           (on_download (st_lift (LatestDebOstreeVersion http)))
                    else st_ret pinned in
    on_download (DownloadDebOstree http umask version
                   (path_join [RootfsDir b; "usr"; "bin"; "deb-ostree"]))).

Definition installDebOstreeDeps (b : Builder) : HM unit :=
  ctx "apt-get update przed instalacja deb-ostree deps" (sandboxExec b "apt-get" ["update"]) ;;
  ctx "instalacja bibliotek deb-ostree"
    (sandboxExec b "apt-get" (install_args ++ debOstreeDeps)) ;;
  try (sandboxExec b "ldd" ["/usr/bin/deb-ostree"]) ;; st_ret tt.

Definition config_path (b : Builder) : gostring :=
  path_join [RootfsDir b; "etc"; "deb-ostree"; "deb-ostree.hk"].

Definition generateDebOstreeConfig (b : Builder) : HM unit :=
  let destPath := config_path b in
  ctx ("tworzenie katalogu " ++ Dir destPath) (on_files (MkdirAll umask (Dir destPath) 493)) ;;
  ctx ("zapis " ++ destPath)
    (WriteDebOstreeConfig destPath (Params [] [] "debian" [] [] (bOriginRefspec b))).

(** ** The whole build *)

Definition Build (b : Builder) : HM unit :=
  prepareDir b ;;
  let! tc := ctx "toolchain" (PrepareAll (Toolchain.New (WorkDir b))) in
  ctx "ustawienie PATH toolchain"
    (looking (λ s, Setenv "PATH" (drop (length ("PATH=" : gostring)) (hd [] (fst (Env tc s)))))) ;;
  ctx "debootstrap" (runDebootstrap b) ;;
  ctx "preseed debconf" (seedDebconf b) ;;
  ctx "sudo stub" (installSudoStub b) ;;
  (if (0 <? length (ExtraSources (bProject b)))%nat
   then ctx "extra sources" (applyExtraSources b) else st_ret tt) ;;
  ctx "instalacja MAC" (installMACPackages b) ;;
  ctx "instalacja pakietow" (installPackages b) ;;
  (if negb (str_eqb (IncludesChroot (bProject b)) [])
   then ctx "includes.chroot" (copyIncludesChroot b) else st_ret tt) ;;
  ctx "hooks" (runHooks b) ;;
  ctx "deb-ostree injection" (injectDebOstree b) ;;
  ctx "deb-ostree biblioteki dynamiczne" (installDebOstreeDeps b) ;;
  ctx "generowanie deb-ostree.hk" (generateDebOstreeConfig b).
End builder.
