(* ===== verification/RootfsProps.v ===== *)
(** * What the root file system builder does

    The commands of a build, in their order; what is left and what is not left
    in the tree; the copy of the project's files. *)

From Stdlib Require Import Ascii String ZArith Lia.
From stdpp Require Import base list gmap strings.
From S2P Require Import Prelude GoStrings GoNumbers GoSort GoPath HkTree HkSerialize HkBuilder Config LiveParse.
From S2P Require Import Fs FsProps Host Plan Util Sandbox Download Toolchain HkFile Rootfs.

Section plans_of_steps.
Context `{External} (http : gostring → response).
Implicit Types (b : Builder) (E : envmap).

(** ** The plan *)

(** A command in the image, for an environment of the builder. *)
Definition inside (E : envmap) b (command : gostring) (args : list gostring) : step :=
  Start (sandbox_cmd (environ E) (RootfsDir b) [] None command args).

Definition update_step E b : step := inside E b "apt-get" ["update"].

Definition install_step E b (packages : list gostring) : step :=
  inside E b "apt-get" (install_args ++ packages).

(** The environment once the tools are prepared. *)
Definition tools_env E b : envmap :=
  <["PATH" := binDir (Toolchain.New (WorkDir b)) ++ ":" ++ env_value E "PATH"]> E.

Definition build_plan E b : list step :=
  let E' := tools_env E b in
  [AnyOf (λ c, ∃ t, t ∈ buildTools ∧ tool_cmd (Toolchain.New (WorkDir b)) E t c)]
  ++ [Start (MkCmd ["debootstrap"; "--arch=amd64"; Config.Release (bConfig b); RootfsDir b;
                    defaultMirror] [] (environ E') None);
      Start (sandbox_cmd (environ E') (RootfsDir b) [] (Some preseed) "debconf-set-selections" []);
      install_step E' b (macPackages b);
      update_step E' b]
  ++ (if (length (Packages (bProject b)) =? 0)%nat then []
      else [install_step E' b (["-o"; "APT::Get::Assume-Yes=true"] ++ Packages (bProject b))])
  ++ map (λ h, inside E' b (hook_name h) []) (Hooks (bProject b))
  ++ [update_step E' b; install_step E' b debOstreeDeps;
      Maybe (sandbox_cmd (environ E') (RootfsDir b) [] None "ldd" ["/usr/bin/deb-ostree"])].

(** ** Steps that run nothing *)

Lemma plans_copyFile E src dst mode : plans E E (copyFile src dst mode) [].
Proof. unfold copyFile. quiet. Qed.

Lemma plans_walk_files E depth visit path info mode :
  (∀ p i m, plans E E (visit p i m) []) → plans E E (walk_files depth visit path info mode) [].
Proof.
  intros Hv. revert path info mode. induction depth as [|depth IH]; intros path info mode;
    cbn [walk_files]; quiet; by try apply Hv.
Qed.

Lemma plans_copyIncludes E b : plans E E (copyIncludesChroot b) [].
Proof.
  unfold copyIncludesChroot, Walk. quiet. apply plans_walk_files. intros p i m.
  unfold copy_include. quiet; apply plans_copyFile.
Qed.

Lemma plans_applyExtraSources E b : plans E E (applyExtraSources b) [].
Proof. unfold applyExtraSources. quiet. apply plans_copyFile. Qed.

Lemma plans_download {A : Type} E (m : ST fsys DownloadError A) : plans E E (on_download m) [].
Proof.
  intros s Hs. unfold on_download. destruct (m (mfs s)) as [r f]. exists [].
  cbn [fst snd mlog menv]. rewrite app_nil_r. split; [done|].
  destruct r; try apply stops_nil. split; [done|constructor].
Qed.

Lemma plans_inject E b : plans E E (injectDebOstree http b) [].
Proof. unfold injectDebOstree. quiet; apply plans_download. Qed.

Lemma plans_config E b : plans E E (generateDebOstreeConfig b) [].
Proof. unfold generateDebOstreeConfig. quiet. apply plans_WriteDebOstreeConfig. Qed.

(** ** Steps that run commands *)

Lemma plans_inside E b command args : plans E E (sandboxExec b command args) [inside E b command args].
Proof. unfold sandboxExec, Exec, inside. apply plans_execInternal. Qed.

Lemma keeps_inside b command args : keeps (sandboxExec b command args).
Proof. intros s. unfold sandboxExec, Exec. apply execInternal_env. Qed.

Lemma plans_hook E b h : plans E E (run_hook b h) [inside E b (hook_name h) []].
Proof.
  unfold run_hook. cbv zeta. apply plans_seq with E; [apply plans_ctx, plans_copyFile|intros _].
  apply (plans_try_then E E _ _ [_] []); [apply plans_inside|apply keeps_inside|intros _; quiet|].
  intros e s. unfold st_bind, try, on_files.
  by destruct (Remove (path_join [RootfsDir b; hook_name h]) (mfs s)) as [[[]|e'| |] f].
Qed.

Lemma plans_hooks E b :
  plans E E (runHooks b) (map (λ h, inside E b (hook_name h) []) (Hooks (bProject b))).
Proof.
  unfold runHooks. apply plans_defer.
  - intros s. unfold removeSudoStub, st_bind, try, on_files.
    by destruct (Remove (stub_path b) (mfs s)) as [[[]|e| |] f].
  - replace (map _ _) with (Hooks (bProject b) ≫= λ h, [inside E b (hook_name h) []]).
    + apply plans_for. intros h _. apply plans_hook.
    + induction (Hooks (bProject b)) as [|h hs IH]; [done|]. cbn. by f_equal.
Qed.

Lemma plans_packages E b :
  plans E E (installPackages b)
    ([update_step E b] ++
     if (length (Packages (bProject b)) =? 0)%nat then []
     else [install_step E b (["-o"; "APT::Get::Assume-Yes=true"] ++ Packages (bProject b))]).
Proof.
  apply plans_bind with E; [apply plans_ctx, plans_inside|intros _].
  destruct (_ =? 0)%nat; [apply plans_ret|]. unfold install_step. rewrite app_assoc.
  apply plans_ctx, plans_inside.
Qed.

Lemma plans_deps E b :
  plans E E (installDebOstreeDeps b)
    [update_step E b; install_step E b debOstreeDeps;
     Maybe (sandbox_cmd (environ E) (RootfsDir b) [] None "ldd" ["/usr/bin/deb-ostree"])].
Proof.
  apply (plans_bind E E E _ _ [_]); [apply plans_ctx, plans_inside|intros _].
  apply (plans_bind E E E _ _ [_]); [apply plans_ctx, plans_inside|intros _].
  apply (plans_bind E E E _ _ [_] []); [|intros _; apply plans_ret].
  apply plans_try; [apply plans_inside|apply keeps_inside].
Qed.

Lemma plans_Build E b : plans E (tools_env E b) (Build http b) (build_plan E b).
Proof.
  unfold Build, build_plan. cbv zeta. set (E' := tools_env E b).
  apply plans_seq with E; [unfold prepareDir; quiet|intros _].
  apply plans_bind_post with E (λ tc, preparedPath tc =
    binDir (Toolchain.New (WorkDir b)) ++ ":" ++ env_value E "PATH").
  { apply plans_ctx, PrepareAll_confined. }
  { intros s tc s' Hs Hp. unfold ctx in Hp.
    destruct (PrepareAll _ s) as [[tc'|e| |] s1] eqn:Ep; try done. injection Hp as <- <-.
    apply PrepareAll_result in Ep as ->. cbn [preparedPath]. unfold Getenv. by rewrite Hs. }
  intros tc Htc. apply plans_seq with E'.
  { apply plans_ctx, plans_look. intros s Hs. unfold Env.
    assert (Hne : str_eqb (preparedPath tc) [] = false).
    { apply str_eqb_neq. rewrite Htc. intros E0%(f_equal length).
      rewrite !length_app in E0. simpl in E0. lia. }
    rewrite Hne. cbn [fst hd]. change (drop (length ("PATH=" : gostring)) ("PATH=" ++ preparedPath tc))
      with (preparedPath tc). rewrite Htc. apply plans_setenv. }
  intros _. apply (plans_bind E' E' E' _ _ [_]); [apply plans_ctx, plans_RunStreaming|intros _].
  apply (plans_bind E' E' E' _ _ [_]).
  { apply plans_ctx. unfold seedDebconf, sandboxExecWithStdin, ExecWithStdin.
    apply plans_execInternal. }
  intros _.
  apply plans_seq with E'; [unfold installSudoStub; quiet|intros _].
  apply plans_seq with E'; [quiet; apply plans_applyExtraSources|intros _].
  apply (plans_bind E' E' E' _ _ [_]); [apply plans_ctx, plans_ctx, plans_inside|intros _].
  set (rest := map (λ h, inside E' b (hook_name h) []) (Hooks (bProject b)) ++ _).
  match goal with |- plans _ _ _ ?p => change p with
    ([update_step E' b] ++ (if (length (Packages (bProject b)) =? 0)%nat then []
       else [install_step E' b (["-o"; "APT::Get::Assume-Yes=true"] ++ Packages (bProject b))])
     ++ rest) end.
  rewrite app_assoc.
  apply plans_bind with E'; [apply plans_ctx, plans_packages|intros _].
  apply plans_seq with E'; [quiet; apply plans_copyIncludes|intros _].
  apply plans_bind with E'; [apply plans_ctx, plans_hooks|intros _].
  apply plans_seq with E'; [apply plans_ctx, plans_inject|intros _].
  apply (plans_bind E' E' E' _ _ [_; _; _] []);
    [apply plans_ctx, plans_deps|intros _; apply plans_ctx, plans_config].
Qed.

(** C7.  A build of the root file system runs exactly these commands,
    in this order: what missing tools need, debootstrap of the configured
    release, the debconf answers, the packages of the access control system,
    apt-get update and the project's packages if there are any, the hooks in
    their order, and the libraries of deb-ostree.  From debootstrap on all run
    with the toolchain directory first on the search path.  A build that fails
    has stopped somewhere on the way; one that succeeds has run them all, ldd
    perhaps excepted. *)
Theorem Build_plan E b : plans E (tools_env E b) (Build http b) (build_plan E b).
Proof. apply plans_Build. Qed.
End plans_of_steps.

(** ** What is left in the tree *)

Section leftovers.
Context `{External} (http : gostring → response).

Lemma must_run_answers c s : answers (fst (must_run c s)).
Proof. unfold must_run. by destruct (run_cmd c s) as [[[]|] ?]. Qed.

Lemma execInternal_answers dir env stdin command args s :
  answers (fst (execInternal dir env stdin command args s)).
Proof.
  unfold execInternal. unfold st_bind at 1.
  assert (Hf : ∀ subs s0, answers (fst (for_each (λ sub, ctx ("sandbox: mkdir " ++ sub)
    (on_files (MkdirAll umask (path_join [dir; sub]) 493))) subs s0))).
  { intros subs. induction subs as [|sub subs IH]; intros s0; [done|]. cbn [for_each].
    unfold st_bind, ctx at 1, on_files. pose proof (MkdirAll_answers umask (path_join [dir; sub]) 493 (mfs s0)) as Hm.
    destruct (MkdirAll umask (path_join [dir; sub]) 493 (mfs s0)) as [[u|e| |] f]; try done;
      apply IH. }
  specialize (Hf mount_points s).
  destruct (for_each _ mount_points s) as [[u|e| |] s1]; try done.
  unfold ctx, looking. pose proof (must_run_answers (sandbox_cmd (Environ s1) dir env stdin command args) s1) as Hm.
  by destruct (must_run _ s1) as [[u'|e| |] s2].
Qed.

(** Nothing but a directory is left under a name. *)
Definition cleared (f : fsys) (name : gostring) : Prop :=
  match Lstat f name with Ok d => is_dir d = true | _ => True end.

Lemma try_Remove_clears name s :
  ∃ r s', try (on_files (Remove name)) s = (Ok r, s') ∧ cleared (mfs s') name ∧
    menv s' = menv s ∧ mlog s' = mlog s.
Proof.
  unfold try, on_files. pose proof (Remove_answers name (mfs s)) as Ha.
  pose proof (Remove_gone name (mfs s)) as Hg.
  destruct (Remove name (mfs s)) as [[u|e| |] f]; try done; eexists _, _; (split; [reflexivity|]);
    cbn [mfs menv mlog snd] in *; split_and!; try done; unfold cleared;
    destruct (Lstat f name) as [d| | |]; try done; by apply Hg.
Qed.

(** C16.  However a hook ends, its temporary script is gone from the
    image afterwards, and when the hooks are over, in success or failure, the
    stub for sudo is gone too, whatever the hooks did (a directory that a hook
    put in their place may remain). *)
Theorem hooks_leave_nothing b :
  (∀ s, cleared (mfs (snd (runHooks b s))) (stub_path b)) ∧
  ∀ h s s1, ctx ("kopiowanie hooka " ++ hname h)
      (copyFile (hpath h) (path_join [RootfsDir b; hook_name h]) 493) s = (Ok tt, s1) →
    cleared (mfs (snd (run_hook b h s))) (path_join [RootfsDir b; hook_name h]).
Proof.
  split.
  - intros s. unfold runHooks, deferring. destruct (for_each _ _ s) as [r s1].
    destruct (try_Remove_clears (stub_path b) s1) as (r' & s2 & E & Hc & _).
    unfold removeSudoStub, st_bind. by rewrite E.
  - intros h s s1 E. unfold run_hook. cbv zeta. unfold st_bind at 1. rewrite E.
    unfold st_bind at 1, try at 1.
    pose proof (execInternal_answers (RootfsDir b) [] None (hook_name h) [] s1) as Ha.
    unfold sandboxExec, Exec.
    destruct (execInternal _ _ _ _ _ s1) as [[u|e| |] s2]; try done;
      destruct (try_Remove_clears (path_join [RootfsDir b; hook_name h]) s2) as (r' & s3 & E' & Hc & _);
      unfold st_bind; rewrite E'; exact Hc.
Qed.

(** C25.  The configuration of deb-ostree in a finished image is the
    generated one, with the origin the builder was given. *)
Theorem Build_config b s s' data :
  Build http b s = (Ok tt, s') → ReadFile (mfs s') (config_path b) = Ok data →
  data = spec_serialize (debostree_tree (Params [] [] "debian" [] [] (bOriginRefspec b))).
Proof.
  unfold Build. intros Hb Hr.
  repeat (apply st_bind_Ok in Hb as (? & ? & _ & Hb)).
  unfold ctx in Hb. destruct (generateDebOstreeConfig b _) as [[[]|e| |] s2] eqn:E; try done.
  injection Hb as <-. unfold generateDebOstreeConfig in E. cbv zeta in E.
  apply st_bind_Ok in E as (? & ? & _ & E). unfold ctx in E.
  destruct (WriteDebOstreeConfig _ _ _) as [[[]|e| |] s3] eqn:E'; try done. injection E as <-.
  by eapply WriteDebOstreeConfig_reads.
Qed.
End leftovers.

(** ** A small build *)

Definition host_fs : fsys :=
  Fs (list_to_map
        [(["bin"], DDir 493 0); (["bin"; "debootstrap"], DFile 1); (["bin"; "mksquashfs"], DFile 1);
         (["bin"; "grub-mkrescue"], DFile 1); (["bin"; "xorriso"], DFile 1);
         (["bin"; "unshare"], DFile 1); (["p"], DDir 493 0); (["p"; "h"], DFile 2);
         (["w"], DDir 493 0)])
     {[ 1 := Inode "elf" 493 0; 2 := Inode "#!/bin/sh" 420 0 ]}.

Definition small_http (url : gostring) : response :=
  if str_eqb url (releaseAssetURL fallbackVersion releaseAssetName) then Response 200 "deb-ostree elf"
  else NoResponse.

Definition small_builder : Builder :=
  Rootfs.New
    (MkProject "/p" ["vim"] [Hook "a.hook.chroot" "/p/h"] [] [] [])
    (MkConfig "user" "m" "t" "trixie" defaultProjectConfig) "/w/rootfs" "/w".

Definition small_machine : machine := Machine host_fs {["PATH" := ("/bin" : gostring)]} [].

#[local] Existing Instance quiet_external.

Definition small_result : machine := snd (Build small_http small_builder small_machine).

Example small_build_ok : fst (Build small_http small_builder small_machine) = Ok tt.
Proof. vm_compute. reflexivity. Qed.

Example small_build_log :
  map argv (filter (λ c, cmd_dir c = [] ∧ length (argv c) = 5) (mlog small_result)) =
    [["debootstrap" : gostring; "--arch=amd64"; "trixie"; "/w/rootfs";
      "http://deb.debian.org/debian"]].
Proof. vm_compute. reflexivity. Qed.

Lemma small_build_run : Build small_http small_builder small_machine = (Ok tt, small_result).
Proof.
  unfold small_result. pose proof small_build_ok as E.
  destruct (Build small_http small_builder small_machine) as [r s']. cbn [fst snd] in *. congruence.
Qed.

Example small_config :
  match ReadFile (mfs small_result) (config_path small_builder) with Ok _ => True | _ => False end.
Proof. vm_compute. exact I. Qed.

Lemma Build_config_witness :
  ReadFile (mfs small_result) (config_path small_builder) =
    Ok (spec_serialize (debostree_tree (Params [] [] "debian" [] [] []))).
Proof.
  pose proof small_config as Hok.
  destruct (ReadFile (mfs small_result) (config_path small_builder)) as [data|e| |] eqn:E;
    try contradiction.
  f_equal. exact (Build_config small_http small_builder small_machine small_result data small_build_run E).
Defined.

Definition small_hook : HookScript := Hook "a.hook.chroot" "/p/h".

Definition small_copied : res HostError unit * machine :=
  ctx ("kopiowanie hooka " ++ hname small_hook)
    (copyFile (hpath small_hook) (path_join [RootfsDir small_builder; hook_name small_hook]) 493)
    small_machine.

Example small_copied_ok : fst small_copied = Ok tt.
Proof. vm_compute. reflexivity. Qed.

Lemma hooks_leave_nothing_witness :
  cleared (mfs (snd (run_hook small_builder small_hook small_machine)))
    (path_join [RootfsDir small_builder; hook_name small_hook]).
Proof.
  destruct (hooks_leave_nothing small_builder) as [_ Hh].
  apply (Hh small_hook small_machine (snd small_copied)).
  change (small_copied = (Ok tt, snd small_copied)).
  rewrite <- small_copied_ok. apply surjective_pairing.
Defined.
