(* ===== verification/Includes.v ===== *)
(** * The project's own files in the image

    [copyIncludesChroot] copies config/includes.chroot over the image.  For a
    tree of directories, files and links that meets nothing in the image but
    directories under its directories and files under its files, the result is
    exactly the union: every path of the tree with its content, permissions and
    link target, and nothing else changed. *)

From Stdlib Require Import Ascii String ZArith Lia.
From stdpp Require Import base list gmap strings.
From S2P Require Import Prelude GoStrings GoSort GoPath LiveParse Fs FsProps FsWalk Host Plan Rootfs.

(** ** Names *)

Lemma Clean_abs_path p : Forall name_ok p → Clean (abs_path p) = abs_path p.
Proof.
  intros Hp. apply Clean_abs; [apply HasPrefix_iff; by eexists|..]; rewrite split_abs_path by done.
  - constructor; [by left|]. destruct p; [by repeat constructor; left|by apply names_or_empty].
  - rewrite filter_cons_False by auto. destruct p; [done|by apply filter_names].
Qed.

Lemma strip_common_prefix p r : strip_common p (p ++ r) = ([], r).
Proof. induction p as [|c p IH]; [by destruct r|]. cbn [app strip_common]. by rewrite str_eqb_refl. Qed.

Lemma Rel_abs p r :
  Forall name_ok (p ++ r) →
  Rel (abs_path p) (abs_path (p ++ r)) = Some (if decide (r = []) then "." else Join r "/").
Proof.
  intros Hpr. assert (Hp : Forall name_ok p) by by apply Forall_app in Hpr as [? _].
  unfold Rel. rewrite !Clean_abs_path by done.
  destruct (decide (r = [])) as [->|Hr].
  { by rewrite app_nil_r, str_eqb_refl. }
  rewrite (proj2 (str_eqb_neq (abs_path p) (abs_path (p ++ r)))).
  2:{ intros E%(f_equal elems). rewrite !elems_abs in E by done.
      apply (f_equal length) in E. rewrite length_app in E. destruct r; [done|simpl in E; lia]. }
  rewrite (proj2 (str_eqb_neq (abs_path p) ".")) by done.
  assert (Hs : ∀ q, HasPrefix (abs_path q) "/" = true) by (intros; apply HasPrefix_iff; by eexists).
  rewrite !Hs. cbn [Bool.eqb negb]. rewrite !elems_abs by done. by rewrite strip_common_prefix.
Qed.

Lemma target_path R r :
  Forall name_ok R → Forall name_ok r → r ≠ [] →
  path_join [abs_path R; Join r "/"] = abs_path (R ++ r).
Proof.
  intros HR Hr Hne. rewrite <- (app_nil_r (Join r "/")). by apply (join_abs R r false).
Qed.

Lemma Join_not_dot r : r ≠ [] → Forall name_ok r → str_eqb (Join r "/") "." = false.
Proof.
  intros Hne Hr. apply str_eqb_neq. intros E. apply (f_equal (split_on "/")) in E.
  rewrite split_Join_slash in E by done. subst. by apply Forall_cons_1 in Hr as [(_ & Hd & _) _].
Qed.

(** ** The walk *)

Section walking.
Context `{External} (visit : gostring → dent → N → HM unit) (f0 : fsys) (inc : path).
Context (Hwf : wf_fs f0) (Hinc : Forall name_ok inc) (Rinc : real_dir f0 inc) (Hne : inc ≠ []).

(** The source tree and the way to it are as they were. *)
Definition same_src (f : fsys) : Prop :=
  (∀ q, q `prefix_of` inc ∨ inc `prefix_of` q → dents f !! q = dents f0 !! q) ∧
  ∀ q d, inc `prefix_of` q → dents f0 !! q = Some d → dent_mode f d = dent_mode f0 d.

Definition visit_at (r : path) : HM unit :=
  let d := default (DDir 0 0) (dents f0 !! (inc ++ r)) in
  visit (abs_path (inc ++ r)) d (dent_mode f0 d).

(** The visits of [l] one after the other, the source staying as it is. *)
Inductive steady : list path → machine → machine → Prop :=
| steady_nil s : same_src (mfs s) → steady [] s s
| steady_cons r l s s1 s' :
    same_src (mfs s) → visit_at r s = (Ok tt, s1) → steady l s1 s' → steady (r :: l) s s'.

Lemma steady_app l1 l2 s s' :
  steady (l1 ++ l2) s s' → ∃ s1, steady l1 s s1 ∧ steady l2 s1 s'.
Proof.
  revert s. induction l1 as [|r l1 IH]; intros s; cbn [app].
  - intros Hs. exists s. split; [|done]. constructor. by inversion Hs.
  - inversion 1 as [|? ? ? s1 ? Hsrc Hv Hs]; subst. destruct (IH _ Hs) as (s2 & H1 & H2).
    exists s2. split; [by econstructor|done].
Qed.

Lemma steady_src l s s' : steady l s s' → same_src (mfs s).
Proof. by inversion 1. Qed.

Lemma same_children f r :
  same_src f → sort_strings (child_names (inc ++ r) f) = sort_strings (child_names (inc ++ r) f0).
Proof.
  intros [Hs _]. apply (sorted_unique id); [apply sort_by_sorted..| |].
  - unfold sort_strings. rewrite !sort_by_perm. apply NoDup_Permutation; [apply child_names_NoDup..|].
    intros c. rewrite !elem_of_child_names. rewrite Hs; [done|]. right.
    rewrite <- app_assoc. by apply prefix_app_r.
  - rewrite map_id. unfold sort_strings. rewrite sort_by_perm. apply child_names_NoDup.
Qed.

Lemma src_dir f r m o :
  same_src f → dents f0 !! (inc ++ r) = Some (DDir m o) → real_dir f (inc ++ r).
Proof.
  intros [Hs _] Hd. apply real_dir_mono with f0; [by eapply wf_real_dir|].
  intros q Hq. apply Hs. apply (prefix_weak_total q inc (inc ++ r)); [done|by apply prefix_app_r].
Qed.

Lemma src_names r d : dents f0 !! (inc ++ r) = Some d → Forall name_ok (inc ++ r).
Proof. intros Hd. apply (wf_names f0 Hwf). by rewrite Hd. Qed.

Lemma steady_children depth r names s s' :
  (∀ c d s s', dents f0 !! (inc ++ r ++ [c]) = Some d → c ∈ names →
     steady ((r ++ [c]) :: if is_dir d then walk depth f0 inc (r ++ [c]) else []) s s' →
     walk_files depth visit (abs_path (inc ++ r ++ [c])) d (dent_mode f0 d) s = (Ok tt, s')) →
  (∀ c, c ∈ names → is_Some (dents f0 !! (inc ++ r ++ [c]))) →
  (∃ m o, dents f0 !! (inc ++ r) = Some (DDir m o)) →
  steady (flat_map (block f0 inc depth r) names) s s' →
  for_each (λ name,
    let filename := path_join [abs_path (inc ++ r); name] in
    let! info' := ask_files (λ f, let? d := Lstat f filename in Ok (d, dent_mode f d)) in
    walk_files depth visit filename info'.1 info'.2) names s = (Ok tt, s').
Proof.
  intros IH Hin (m & o & Hd).
  match goal with |- _ → for_each ?f _ _ = _ => set (body := f) end.
  assert (Hbody : ∀ c d s, same_src (mfs s) → dents f0 !! (inc ++ r ++ [c]) = Some d →
    body c s = walk_files depth visit (abs_path (inc ++ r ++ [c])) d (dent_mode f0 d) s).
  { intros c d s0 Hsrc Hc. pose proof Hsrc as [Hsd Hsm].
    pose proof (src_names _ _ Hc) as Hnames. rewrite app_assoc in Hnames.
    apply Forall_app in Hnames as [Hn1 Hn2]. pose proof (Forall_cons_1 _ _ _ Hn2) as [Hcn _].
    unfold body. cbv zeta. rewrite join_names by done. unfold st_bind, ask_files, on_files.
    rewrite Lstat_child by (try done; by apply (src_dir _ _ m o)).
    rewrite Hsd by (right; rewrite <- app_assoc; by apply prefix_app_r).
    rewrite <- app_assoc, Hc. cbn [res_bind fst snd].
    rewrite (Hsm (inc ++ r ++ [c]) d) by (done || by apply prefix_app_r). by destruct s0. }
  clearbody body. revert s. induction names as [|c names IHn]; intros s Hs.
  { by inversion Hs. }
  cbn [flat_map] in Hs. apply steady_app in Hs as (s1 & H1 & H2).
  pose proof (steady_src _ _ _ H1) as Hsrc. destruct (Hin c) as [d Hc]; [by left|].
  cbn [for_each]. unfold st_bind. rewrite (Hbody c d s Hsrc Hc), (IH c d s s1).
  - apply IHn; [intros; apply IH; [done|by right|done]|intros; apply Hin; by right|done].
  - done.
  - by left.
  - unfold block in H1. rewrite Hc in H1. by destruct d.
Qed.

Lemma walk_files_steady depth r d s s' :
  dents f0 !! (inc ++ r) = Some d →
  (∀ p, is_Some (dents f0 !! (inc ++ r ++ p)) → length p < depth) →
  steady (r :: if is_dir d then walk depth f0 inc r else []) s s' →
  walk_files depth visit (abs_path (inc ++ r)) d (dent_mode f0 d) s = (Ok tt, s').
Proof.
  revert r d s s'. induction depth as [|depth IH]; intros r d s s' Hd Hfuel Hs.
  { assert (Hf : length ([] : path) < 0) by (apply Hfuel; rewrite app_nil_r, Hd; by eexists).
    simpl in Hf. lia. }
  inversion Hs as [|? ? ? s1 ? Hsrc Hv Hrest]; subst. unfold visit_at in Hv. rewrite Hd in Hv.
  cbn [from_option id] in Hv. unfold id in Hv. cbn [walk_files].
  destruct (is_dir d) eqn:Edir; cbn [negb].
  2:{ inversion Hrest; subst. exact Hv. }
  destruct d as [m o| | |]; try done. pose proof (src_names _ _ Hd) as Hn.
  pose proof (src_dir _ _ _ _ Hsrc Hd) as Hr.
  assert (Hread : ReadDir (mfs s) (abs_path (inc ++ r)) = Ok (child_names (inc ++ r) (mfs s))).
  { unfold ReadDir. rewrite resolve_dir by done. cbn [res_bind].
    destruct (inc ++ r) as [|c l] eqn:E; [done|]. destruct (Hr (c :: l)) as (m' & o' & ->); done. }
  unfold st_bind at 1, ask_files, on_files. rewrite Hread.
  replace (Machine (mfs s) (menv s) (mlog s)) with s by by destruct s.
  unfold st_bind at 1. rewrite Hv. rewrite same_children by done.
  refine (steady_children depth r _ s1 s' _ _ (ex_intro _ m (ex_intro _ o Hd)) Hrest).
  - intros c d s2 s3 Hc Hin Hst. rewrite app_assoc in Hc |- *.
    rewrite <- app_assoc in Hc |- *. apply IH; [done| |done].
    intros p Hp. specialize (Hfuel (c :: p)). rewrite <- app_assoc in Hp. cbn [app] in Hp.
    apply Hfuel in Hp. simpl in Hp. lia.
  - intros c Hc. by apply (child_sorted f0 inc).
Qed.
End walking.

(** ** One file *)

Section one_file.
Context `{External} (s : machine) (sp dp : path) (sc dc : gostring) (i : nat) (n : inode) (mode : N).
Context (Hsp : Forall name_ok sp) (Hsc : name_ok sc) (Hdp : Forall name_ok dp) (Hdc : name_ok dc).
Context (Rs : real_dir (mfs s) sp) (Rd : real_dir (mfs s) dp).
Context (Hi : dents (mfs s) !! (sp ++ [sc]) = Some (DFile i)) (Hn : files (mfs s) !! i = Some n).

(** The part of [copyFile] after its files are open. *)
Lemma copy_open j m :
  files (mfs s) !! j = Some m → i ≠ j →
  (on_files (copy_handle (HFile j) (HFile i)) ;; on_files (chmod_handle (HFile j) mode)) s =
    (Ok tt, Machine (Fs (dents (mfs s)) (<[j := Inode (idata n) mode (iowner m)]> (files (mfs s))))
              (menv s) (mlog s)).
Proof.
  intros Hj Hij. unfold st_bind, on_files, copy_handle, read_handle. rewrite Hn.
  unfold write_handle, chmod_handle, lift_fs. rewrite Hj. cbn [mfs menv mlog dents files].
  rewrite lookup_insert_eq. cbn [idata iowner]. by rewrite insert_insert_eq.
Qed.
End one_file.

Section copy_file.
Context `{External} (s : machine) (sp dp : path) (sc dc : gostring) (i : nat) (n : inode) (mode : N).
Context (Hsp : Forall name_ok sp) (Hsc : name_ok sc) (Hdp : Forall name_ok dp) (Hdc : name_ok dc).
Context (Rs : real_dir (mfs s) sp) (Rd : real_dir (mfs s) dp).
Context (Hi : dents (mfs s) !! (sp ++ [sc]) = Some (DFile i)) (Hn : files (mfs s) !! i = Some n).

Lemma copyFile_prefix :
  copyFile (abs_path (sp ++ [sc])) (abs_path (dp ++ [dc])) mode s =
    (let! out := on_files (OpenFile umask (abs_path (dp ++ [dc])) mode) in
     on_files (copy_handle out (HFile i)) ;; on_files (chmod_handle out mode)) s.
Proof.
  unfold copyFile. unfold st_bind at 1, on_files at 1. rewrite Dir_abs, MkdirAll_there by done.
  replace (Machine (mfs s) (menv s) (mlog s)) with s by by destruct s.
  unfold st_bind at 1, ask_files, on_files at 1. rewrite Open_child by eauto. rewrite Hi.
  by replace (Machine (mfs s) (menv s) (mlog s)) with s by by destruct s.
Qed.

Lemma copyFile_new :
  dents (mfs s) !! (dp ++ [dc]) = None →
  let j := fresh (dom (files (mfs s))) in
  copyFile (abs_path (sp ++ [sc])) (abs_path (dp ++ [dc])) mode s =
    (Ok tt, Machine (Fs (<[dp ++ [dc] := DFile j]> (dents (mfs s)))
                        (<[j := Inode (idata n) mode 0]> (files (mfs s)))) (menv s) (mlog s)).
Proof.
  intros Hnone j. rewrite copyFile_prefix. unfold st_bind at 1, on_files at 1, OpenFile.
  rewrite write_new_child by done. cbv zeta. fold j.
  assert (Hj : files (mfs s) !! j = None) by apply not_elem_of_dom, is_fresh.
  assert (Hij : i ≠ j) by congruence.
  cbv beta iota. rewrite Open_child; [|done|done| |].
  2:{ apply (real_dir_sub (mfs s)); [by apply insert_subseteq|done]. }
  2:{ cbn [dents]. rewrite lookup_insert_eq. eauto. }
  cbn [dents]. rewrite lookup_insert_eq.
  rewrite (copy_open _ i n mode) with (m := Inode [] (file_mode umask mode) 0); cbn [mfs menv mlog dents files iowner].
  - by rewrite insert_insert_eq.
  - by rewrite lookup_insert_ne.
  - by rewrite lookup_insert_eq.
  - done.
Qed.

Lemma copyFile_over j m :
  dents (mfs s) !! (dp ++ [dc]) = Some (DFile j) → files (mfs s) !! j = Some m → i ≠ j →
  copyFile (abs_path (sp ++ [sc])) (abs_path (dp ++ [dc])) mode s =
    (Ok tt, Machine (Fs (dents (mfs s)) (<[j := Inode (idata n) mode (iowner m)]> (files (mfs s))))
              (menv s) (mlog s)).
Proof.
  intros Hd Hj Hij. rewrite copyFile_prefix. unfold st_bind at 1, on_files at 1, OpenFile.
  unfold write_new, lift_fs. rewrite resolve_child by (try done; right; congruence).
  cbn [res_bind]. rewrite Hd, Hj. destruct (dp ++ [dc]) as [|x l] eqn:El; [by destruct dp|].
  rewrite <- El.
  cbv beta iota. rewrite Open_child; [|done|done|by apply (real_dir_mono (mfs s))|cbn [dents]; rewrite El; eauto].
  cbn [dents]. rewrite El, Hd.
  rewrite (copy_open _ i n mode) with (m := Inode [] (imode m) (iowner m));
    cbn [mfs menv mlog dents files iowner].
  - by rewrite insert_insert_eq.
  - by rewrite lookup_insert_ne.
  - by rewrite lookup_insert_eq.
  - done.
Qed.
End copy_file.

(** ** Copying *)

Section copying.
Context `{External} (b : Builder) (f0 : fsys) (inc R : path).
Context (Hwf : wf_fs f0) (Hinc : Forall name_ok inc) (Rinc : real_dir f0 inc) (Hne : inc ≠ []).
Context (HR : Forall name_ok R) (RR : real_dir f0 R).
Context (Hb1 : IncludesChroot (bProject b) = abs_path inc) (Hb2 : RootfsDir b = abs_path R).
(** The two trees are apart. *)
Context (Happart : ∀ p q, R ++ p ≠ inc ++ q) (Hbelow : ¬ R `prefix_of` inc).

(** What may be where a path of the tree goes. *)
Definition fits (rel : path) (d : dent) : Prop :=
  match d, dents f0 !! (R ++ rel) with
  | DDir _ _, (None | Some (DDir _ _)) => True
  | DFile i, None => is_Some (files f0 !! i)
  | DFile i, Some (DFile j) =>
      is_Some (files f0 !! i) ∧ is_Some (files f0 !! j) ∧
      map_Forall (λ q e, e = DFile j → q = R ++ rel) (dents f0)
  | DSym _, None => True
  | _, _ => False
  end.

Context (Hfits : ∀ rel d, rel ≠ [] → dents f0 !! (inc ++ rel) = Some d → fits rel d).

(** What is there afterwards, on the file system [f]. *)
Definition placed (f : fsys) (rel : path) : Prop :=
  match dents f0 !! (inc ++ rel) with
  | Some (DDir m _) =>
      dents f !! (R ++ rel) =
        Some match dents f0 !! (R ++ rel) with Some d => d | None => DDir (dir_mode umask m) 0 end
  | Some (DFile i) =>
      ∃ n j o, files f0 !! i = Some n ∧ dents f !! (R ++ rel) = Some (DFile j) ∧
        (dents f0 !! (R ++ rel) = Some (DFile j) ∨ files f0 !! j = None) ∧
        files f !! j = Some (Inode (idata n) (imode n) o)
  | Some (DSym t) => dents f !! (R ++ rel) = Some (DSym t)
  | _ => True
  end.

(** The state after the paths of [seen]. *)
Record included (seen : list path) (f : fsys) : Prop := {
  in_dirs : ∀ rel, rel = [] ∨ rel ∈ seen ∧ (∃ m o, dents f0 !! (inc ++ rel) = Some (DDir m o)) →
    real_dir f (R ++ rel);
  in_tree : ∀ rel, rel ∈ seen → rel ≠ [] ∧ is_Some (dents f0 !! (inc ++ rel));
  in_placed : ∀ rel, rel ∈ seen → placed f rel;
  in_rest : ∀ q, (∀ rel, rel ∈ seen → q ≠ R ++ rel) → dents f !! q = dents f0 !! q;
  in_files : ∀ j, is_Some (files f0 !! j) →
    (∀ rel, rel ∈ seen → dents f0 !! (R ++ rel) ≠ Some (DFile j)) → files f !! j = files f0 !! j;
  in_dom : dom (files f0) ⊆ dom (files f) }.

(** A file of the image that gets overwritten is under one name only. *)
Lemma overwritten rel j q :
  rel ≠ [] → is_Some (dents f0 !! (inc ++ rel)) → dents f0 !! (R ++ rel) = Some (DFile j) →
  is_Some (files f0 !! j) ∧ (dents f0 !! q = Some (DFile j) → q = R ++ rel).
Proof.
  intros Hr [d Hd] Hj. pose proof (Hfits rel d Hr Hd) as Hf. unfold fits in Hf. rewrite Hj in Hf.
  destruct d; try done. destruct Hf as (? & ? & Hu). split; [done|]. intros Hq.
  by apply (Hu q (DFile j)).
Qed.

Lemma included_src seen f : included seen f → same_src f0 inc f.
Proof.
  intros Hi. split.
  - intros q [Hq|[r ->]]; apply (in_rest _ _ Hi); intros rel Hrel.
    + intros ->. apply Hbelow. destruct Hq as [r E]. exists (rel ++ r). by rewrite app_assoc.
    + intros E. by apply (Happart rel r).
  - intros q d [r ->] Hd. destruct d as [m o|i|t|k m]; try done. cbn [dent_mode].
    rewrite (in_files _ _ Hi); [done| |].
    + apply (wf_inode f0 Hwf (inc ++ r)). done.
    + intros rel Hrel Hj. destruct (in_tree _ _ Hi rel Hrel) as [Hr Hs].
      destruct (overwritten rel i (inc ++ r) Hr Hs Hj) as [_ Hq]. by apply (Happart rel r), eq_sym, Hq.
Qed.

(** One more path: only its entry and the file under it change. *)
Lemma included_add seen f f' q c d :
  included seen f → (q ++ [c]) ∉ seen → dents f0 !! (inc ++ q ++ [c]) = Some d →
  q = [] ∨ q ∈ seen →
  dents f ⊆ dents f' → (∀ p, p ≠ R ++ q ++ [c] → dents f' !! p = dents f !! p) →
  dom (files f) ⊆ dom (files f') →
  (∀ j, is_Some (files f !! j) → dents f0 !! (R ++ q ++ [c]) ≠ Some (DFile j) →
     files f' !! j = files f !! j) →
  placed f' (q ++ [c]) → included (seen ++ [q ++ [c]]) f'.
Proof.
  intros Hi Hns Hd Hq Hsub Hother Hdom Hfiles Hpl.
  assert (Hrne : q ++ [c] ≠ []) by by destruct q.
  assert (Hrd : ∀ p, real_dir f p → real_dir f' p) by (intros p; by apply real_dir_sub).
  split.
  - intros rel [->|[Hrel Hdir]]; [apply Hrd, (in_dirs _ _ Hi); by left|].
    apply elem_of_app in Hrel as [Hrel|Hrel]; [apply Hrd, (in_dirs _ _ Hi); by right|].
    apply list_elem_of_singleton in Hrel as ->. destruct Hdir as (m & o & Hdir).
    unfold placed in Hpl. rewrite Hdir in Hpl.
    assert (∃ m' o', dents f' !! (R ++ q ++ [c]) = Some (DDir m' o')) as (m' & o' & Hd').
    { pose proof (Hfits _ _ Hrne Hdir) as Hf. unfold fits in Hf. rewrite Hpl.
      destruct (dents f0 !! (R ++ q ++ [c])) as [[]|]; by eauto. }
    rewrite app_assoc in Hd' |- *. eapply real_dir_snoc; [|exact Hd']. apply Hrd, (in_dirs _ _ Hi).
    destruct Hq as [->|Hq]; [by left|right]. split; [done|].
    destruct (wf_parent f0 Hwf (inc ++ q) c) as [E|(? & ? & ?)]; [by rewrite <- app_assoc, Hd| |eauto].
    by apply app_nil in E as [E _].
  - intros rel [Hrel| ->%list_elem_of_singleton]%elem_of_app; [by apply (in_tree _ _ Hi)|].
    rewrite Hd. eauto.
  - intros rel [Hrel| ->%list_elem_of_singleton]%elem_of_app; [|done].
    assert (Hneq : R ++ rel ≠ R ++ q ++ [c]) by (intros E%app_inv_head; by subst).
    pose proof (in_placed _ _ Hi rel Hrel) as Hp. unfold placed in *.
    rewrite Hother by done. destruct (dents f0 !! (inc ++ rel)) as [[m o|i|t|k m]|]; try done.
    destruct Hp as (n & j & o & Hn & Hj & Hwhich & Hf). exists n, j, o. split_and!; try done.
    rewrite Hfiles; [done|by rewrite Hf|]. intros E.
    destruct (overwritten (q ++ [c]) j (R ++ rel) Hrne) as [Hs Hu]; [by rewrite Hd|done|].
    destruct Hwhich as [Hw|Hw]; [by apply Hneq, Hu|]. rewrite Hw in Hs. by destruct Hs.
  - intros p Hp. rewrite Hother by (apply Hp; set_solver). apply (in_rest _ _ Hi). set_solver.
  - intros j Hs Hj. rewrite Hfiles.
    + apply (in_files _ _ Hi); [done|]. set_solver.
    + apply elem_of_dom, (in_dom _ _ Hi), elem_of_dom. done.
    + apply Hj. set_solver.
  - etrans; [apply (in_dom _ _ Hi)|done].
Qed.

(** *** One visit *)

Section one_visit.
Context (seen : list path) (s : machine) (q : path) (c : gostring) (d : dent).
Context (Hi : included seen (mfs s)) (Hns : (q ++ [c]) ∉ seen) (Hq : q = [] ∨ q ∈ seen).
Context (Hd : dents f0 !! (inc ++ q ++ [c]) = Some d).

(** Both parents are directories and both entries are still as they were. *)
Record ready : Prop := {
  rd_names : Forall name_ok (q ++ [c]);
  rd_src : real_dir (mfs s) (inc ++ q);
  rd_dst : real_dir (mfs s) (R ++ q);
  rd_from : dents (mfs s) !! (inc ++ q ++ [c]) = Some d;
  rd_at : dents (mfs s) !! (R ++ q ++ [c]) = dents f0 !! (R ++ q ++ [c]) }.

Lemma visit_ready : ready.
Proof.
  pose proof (included_src _ _ Hi) as Hsrc. pose proof Hsrc as [Hsd _].
  assert (Hparent : q = [] ∨ ∃ m o, dents f0 !! (inc ++ q) = Some (DDir m o)).
  { destruct (wf_parent f0 Hwf (inc ++ q) c) as [E|?]; [by rewrite <- app_assoc, Hd| |by right].
    by apply app_nil in E as [E _]. }
  split.
  - pose proof (src_names f0 inc Hwf _ _ Hd) as Hn. by apply Forall_app in Hn as [_ ?].
  - destruct Hparent as [->|(m & o & Hp)]; [|by apply (src_dir f0 inc Hwf _ _ m o)].
    rewrite app_nil_r. apply (real_dir_mono f0); [done|]. intros x Hx. apply Hsd. by left.
  - apply (in_dirs _ _ Hi). destruct Hq as [->|Hqs]; [by left|]. destruct Hparent; [by left|by right].
  - rewrite Hsd; [done|]. right. by apply prefix_app_r.
  - apply (in_rest _ _ Hi). intros r Hr E%app_inv_head. by subst.
Qed.

(** What the visit does, by the kind of the entry. *)
Definition visit_body : HM unit :=
  match d with
  | DDir m _ => on_files (MkdirAll umask (abs_path ((R ++ q) ++ [c])) m)
  | DSym _ =>
      let! target := ask_files (λ f, Readlink f (abs_path ((inc ++ q) ++ [c]))) in
      on_files (Symlink target (abs_path ((R ++ q) ++ [c])))
  | _ => copyFile (abs_path ((inc ++ q) ++ [c])) (abs_path ((R ++ q) ++ [c])) (dent_mode f0 d)
  end.

Lemma visit_at_body : visit_at (copy_include b) f0 inc (q ++ [c]) = visit_body.
Proof.
  assert (Hr : q ++ [c] ≠ []) by by destruct q.
  pose proof (src_names f0 inc Hwf _ _ Hd) as Hn. pose proof (rd_names visit_ready) as Hnr.
  unfold visit_at. rewrite Hd. cbn [from_option id]. unfold id, copy_include.
  rewrite Hb1, Rel_abs, decide_False by done. rewrite Join_not_dot by done.
  rewrite Hb2, target_path, !app_assoc by done. unfold visit_body. by destruct d.
Qed.

Lemma ready_names :
  Forall name_ok (inc ++ q) ∧ Forall name_ok (R ++ q) ∧ name_ok c.
Proof.
  pose proof (rd_names visit_ready) as [Hnq [Hnc _]%Forall_cons_1]%Forall_app.
  split_and!; [by apply Forall_app..|done].
Qed.

(** A new entry in the image. *)
Lemma included_new f' x :
  dents f0 !! (R ++ q ++ [c]) = None → dents f' = <[R ++ q ++ [c] := x]> (dents (mfs s)) →
  files (mfs s) ⊆ files f' → placed f' (q ++ [c]) → included (seen ++ [q ++ [c]]) f'.
Proof.
  intros Hnone Hds Hfs Hp.
  eapply (included_add seen (mfs s)); try done.
  - rewrite Hds. apply insert_subseteq. by rewrite (rd_at visit_ready).
  - intros p Hne'. rewrite Hds. by rewrite lookup_insert_ne.
  - by apply subseteq_dom.
  - intros j [n Hj] _. rewrite Hj. by eapply lookup_weaken.
Qed.

Lemma visit_dir m o :
  d = DDir m o →
  ∃ f', visit_body s = (Ok tt, Machine f' (menv s) (mlog s)) ∧ included (seen ++ [q ++ [c]]) f'.
Proof.
  intros E. pose proof (rd_at visit_ready) as Hat. pose proof (rd_dst visit_ready) as Hr.
  destruct ready_names as (_ & HnR & Hnc).
  pose proof (Hfits (q ++ [c]) d ltac:(by destruct q) Hd) as Hfit. unfold fits in Hfit.
  pose proof Hd as Hd'. unfold visit_body. rewrite E in Hfit, Hd' |- *. unfold on_files.
  destruct (dents f0 !! (R ++ q ++ [c])) as [[m' o'| | |]|] eqn:Et; try done.
  - rewrite MkdirAll_there; [|by apply Forall_app, conj, Forall_singleton|].
    2:{ eapply real_dir_snoc; [done|]. rewrite <- app_assoc. exact Hat. }
    exists (mfs s). split; [done|]. eapply (included_add seen (mfs s)); try done.
    unfold placed. by rewrite Hd', Et.
  - rewrite MkdirAll_new by (done || by rewrite <- app_assoc).
    eexists. split; [reflexivity|]. apply included_new with (DDir (dir_mode umask m) 0); try done.
    + cbn [dents set_dents]. by rewrite <- app_assoc.
    + unfold placed. rewrite Hd', Et, <- app_assoc. cbn [dents set_dents]. by rewrite lookup_insert_eq.
Qed.

Lemma visit_link t :
  d = DSym t →
  ∃ f', visit_body s = (Ok tt, Machine f' (menv s) (mlog s)) ∧ included (seen ++ [q ++ [c]]) f'.
Proof.
  intros E. pose proof visit_ready as [_ Hsr Hr Hfrom Hat]. destruct ready_names as (HnI & HnR & Hnc).
  pose proof (Hfits (q ++ [c]) d ltac:(by destruct q) Hd) as Hfit. unfold fits in Hfit.
  pose proof Hd as Hd'. unfold visit_body. rewrite E in Hfit, Hd', Hfrom |- *.
  destruct (dents f0 !! (R ++ q ++ [c])) eqn:Et; [done|].
  unfold st_bind, ask_files, on_files, Readlink. rewrite Lstat_child by done.
  rewrite <- (app_assoc inc), Hfrom. cbn [res_bind mfs].
  unfold Symlink, lift_fs. rewrite resolve_child by (try done; by left).
  cbn [res_bind]. rewrite insert_new_none; [|by destruct R, q|by rewrite <- app_assoc].
  eexists. split; [reflexivity|]. apply included_new with (DSym t); try done.
  - cbn [dents set_dents]. by rewrite <- app_assoc.
  - unfold placed. rewrite Hd', <- app_assoc. cbn [dents set_dents]. by rewrite lookup_insert_eq.
Qed.

Lemma visit_file i :
  d = DFile i →
  ∃ f', visit_body s = (Ok tt, Machine f' (menv s) (mlog s)) ∧ included (seen ++ [q ++ [c]]) f'.
Proof.
  intros E. pose proof visit_ready as [_ Hsr Hr Hfrom Hat]. destruct ready_names as (HnI & HnR & Hnc).
  assert (Hrne : q ++ [c] ≠ []) by by destruct q.
  pose proof (Hfits (q ++ [c]) d Hrne Hd) as Hfit. unfold fits in Hfit.
  pose proof Hd as Hd'. unfold visit_body. rewrite E in Hfit, Hd', Hfrom |- *. cbn [dent_mode].
  assert (Hunder : ∀ r, r ≠ [] → is_Some (dents f0 !! (inc ++ r)) → dents f0 !! (R ++ r) ≠ Some (DFile i)).
  { intros r Hr1 Hr2 Hj. destruct (overwritten r i (inc ++ q ++ [c]) Hr1 Hr2 Hj) as [_ Hu].
    by apply (Happart r (q ++ [c])), eq_sym, Hu. }
  destruct (wf_inode f0 Hwf _ _ Hd') as [n Hn].
  assert (Hin : files (mfs s) !! i = Some n).
  { rewrite (in_files _ _ Hi); [done|by rewrite Hn|]. intros r Hr'. by apply Hunder; apply (in_tree _ _ Hi). }
  rewrite Hn. destruct (dents f0 !! (R ++ q ++ [c])) as [[| j | |]|] eqn:Et; try done.
  - destruct Hfit as (_ & Hjs & _).
    assert (is_Some (files (mfs s) !! j)) as [nj Hnj].
    { apply elem_of_dom, (in_dom _ _ Hi), elem_of_dom. done. }
    rewrite (copyFile_over s (inc ++ q) (R ++ q) c c i n (imode n)) with (j := j) (m := nj);
      [|done..|by rewrite <- app_assoc|done|by rewrite <- app_assoc|done|].
    2:{ intros ->. apply (Hunder (q ++ [c])); [done|by rewrite Hd|done]. }
    eexists. split; [reflexivity|]. eapply (included_add seen (mfs s)); try done.
    + cbn [files]. rewrite dom_insert. set_solver.
    + intros j' _ Hj'. cbn [files]. rewrite lookup_insert_ne; congruence.
    + unfold placed. rewrite Hd', Et. cbn [dents files]. exists n, j, (iowner nj).
      rewrite lookup_insert_eq, Hat. auto.
  - rewrite (copyFile_new s (inc ++ q) (R ++ q) c c i n (imode n));
      [|done..|by rewrite <- app_assoc|done|by rewrite <- app_assoc].
    set (j := fresh (dom (files (mfs s)))).
    assert (Hj : files (mfs s) !! j = None) by apply not_elem_of_dom, is_fresh.
    eexists. split; [reflexivity|]. rewrite <- !app_assoc.
    apply included_new with (DFile j); try done; [by apply insert_subseteq|].
    unfold placed. rewrite Hd'. cbn [dents files]. exists n, j, 0. rewrite !lookup_insert_eq.
    split_and!; try done. right. apply not_elem_of_dom. intros Hj0%(in_dom _ _ Hi)%elem_of_dom.
    rewrite Hj in Hj0. by destruct Hj0.
Qed.

Lemma visit_step :
  ∃ f', visit_at (copy_include b) f0 inc (q ++ [c]) s = (Ok tt, Machine f' (menv s) (mlog s)) ∧
    included (seen ++ [q ++ [c]]) f'.
Proof.
  rewrite visit_at_body. assert (∃ x, d = x) as [[m o|i|t|k m] E] by eauto.
  - by apply visit_dir with m o.
  - by apply visit_file with i.
  - by apply visit_link with t.
  - pose proof (Hfits (q ++ [c]) _ ltac:(by destruct q) Hd) as Hfit. by rewrite E in Hfit.
Qed.
End one_visit.

Lemma visit_run l seen s :
  parents_first seen l → NoDup (seen ++ l) →
  (∀ r, r ∈ l → is_Some (dents f0 !! (inc ++ r))) → included seen (mfs s) →
  ∃ f', steady (copy_include b) f0 inc l s (Machine f' (menv s) (mlog s)) ∧ included (seen ++ l) f'.
Proof.
  revert seen s. induction l as [|r l IH]; intros seen s Hpf Hnd Hin Hi.
  { exists (mfs s). rewrite app_nil_r. split; [|done]. destruct s. constructor.
    by eapply included_src. }
  destruct Hpf as [(q & c & -> & Hq) Hpf]. destruct (Hin (q ++ [c])) as [d Hd]; [by left|].
  assert (Hns : (q ++ [c]) ∉ seen).
  { apply NoDup_app in Hnd as (_ & Hnd & _). intros Hs. apply (Hnd _ Hs). by left. }
  destruct (visit_step seen s q c d Hi Hns Hq Hd) as (f1 & Hv & Hi1).
  change ((q ++ [c]) :: l) with ([q ++ [c]] ++ l) in Hnd |- *.
  destruct (IH (seen ++ [q ++ [c]]) (Machine f1 (menv s) (mlog s))) as (f2 & Hs & Hi2).
  - done.
  - by rewrite <- app_assoc.
  - intros r Hr. apply Hin. by right.
  - done.
  - exists f2. rewrite <- app_assoc in Hi2. split; [|done].
    econstructor; [by eapply included_src|exact Hv|exact Hs].
Qed.

Lemma included_start : included [] f0.
Proof.
  split; try done; try by intros ? ?%not_elem_of_nil.
  intros rel [->|[?%not_elem_of_nil _]]; [by rewrite app_nil_r|done].
Qed.

Lemma visit_root s : visit_at (copy_include b) f0 inc [] s = (Ok tt, s).
Proof.
  unfold visit_at, copy_include. rewrite Hb1, Rel_abs by by rewrite app_nil_r.
  by rewrite decide_True.
Qed.

Lemma copyIncludes_run s :
  mfs s = f0 →
  ∃ f', copyIncludesChroot b s = (Ok tt, Machine f' (menv s) (mlog s)) ∧
    included (walk (depth_bound f0) f0 inc []) f'.
Proof.
  intros Hs. destruct (Rinc inc Hne) as (m & o & Hd); [done|].
  destruct (visit_run (walk (depth_bound f0) f0 inc []) [] s) as (f' & Hst & Hi).
  { apply walk_parents_first. by left. }
  { apply walk_NoDup. }
  { intros r [_ Hr]%(walk_below f0 inc). done. }
  { rewrite Hs. apply included_start. }
  exists f'. split; [|done].
  unfold copyIncludesChroot, Walk, looking. rewrite Hb1, Hs. unfold st_bind, ask_files, on_files.
  assert (HL : Lstat f0 (abs_path inc) = Ok (DDir m o)).
  { destruct (exists_last Hne) as (l & x & E). rewrite E in Hd |- *.
    assert (Hnl : Forall name_ok (l ++ [x])) by (by rewrite <- E).
    apply Forall_app in Hnl as [Hl [Hx _]%Forall_cons_1]. rewrite Lstat_child, Hd; try done.
    apply (real_dir_prefix f0 inc); [done|]. rewrite E. by apply prefix_app_r. }
  rewrite Hs, HL.
  cbn [res_bind fst snd].
  rewrite <- (app_nil_r inc) at 1. apply (walk_files_steady (copy_include b) f0 inc); try done.
  - by rewrite app_nil_r.
  - intros p Hp. apply depth_bound_spec in Hp. rewrite !length_app in Hp. lia.
  - replace (Machine f0 (menv s) (mlog s)) with s by (rewrite <- Hs; by destruct s). cbn [is_dir].
    apply steady_cons with s; [|by apply visit_root|exact Hst].
    rewrite Hs. by eapply included_src, included_start.
Qed.
End copying.

(** ** Claims *)

(** A tree of directories, files and links, apart from the image, that meets
    only directories under its directories and files, of one name each, under
    its files. *)
Record includes_ok (b : Builder) (f0 : fsys) (inc R : path) : Prop := {
  ok_wf : wf_fs f0;
  ok_inc : Forall name_ok inc ∧ real_dir f0 inc ∧ inc ≠ [];
  ok_root : Forall name_ok R ∧ real_dir f0 R;
  ok_dirs : IncludesChroot (bProject b) = abs_path inc ∧ RootfsDir b = abs_path R;
  ok_apart : ¬ R `prefix_of` inc ∧ ¬ inc `prefix_of` R;
  ok_fits : ∀ rel d, rel ≠ [] → dents f0 !! (inc ++ rel) = Some d → fits f0 R rel d }.

(** C8.  Copying a tree of real directories, files and links, apart from the
    image, that meets in the image only directories under its directories,
    files of a single name under its files and nothing under its links, succeeds
    and gives the union: files arrive with their content and exact permissions,
    links with their target, new directories with their permissions less the
    umask; directories that were there keep their own; no other entry and no
    other file changes, and no command runs. *)
Theorem includes_copied `{External} b s inc R :
  includes_ok b (mfs s) inc R →
  ∃ f', copyIncludesChroot b s = (Ok tt, Machine f' (menv s) (mlog s)) ∧
    (∀ rel, rel ≠ [] → is_Some (dents (mfs s) !! (inc ++ rel)) → placed (mfs s) inc R f' rel) ∧
    (∀ q, (∀ rel, rel ≠ [] → is_Some (dents (mfs s) !! (inc ++ rel)) → q ≠ R ++ rel) →
       dents f' !! q = dents (mfs s) !! q) ∧
    ∀ j, is_Some (files (mfs s) !! j) →
      (∀ rel, rel ≠ [] → is_Some (dents (mfs s) !! (inc ++ rel)) →
         dents (mfs s) !! (R ++ rel) ≠ Some (DFile j)) →
      files f' !! j = files (mfs s) !! j.
Proof.
  intros [Hwf (Hi1 & Hi2 & Hi3) (HR1 & HR2) (Hd1 & Hd2) [Ha1 Ha2] Hf].
  destruct (copyIncludes_run b (mfs s) inc R Hwf Hi1 Hi2 Hi3 HR1 HR2 Hd1 Hd2) with s
    as (f' & Hrun & Hin); try done.
  { intros p q E. assert (R `prefix_of` R ++ p) by by apply prefix_app_r.
    assert (inc `prefix_of` R ++ p) by (rewrite E; by apply prefix_app_r).
    by destruct (prefix_weak_total R inc (R ++ p)). }
  assert (Hwalk : ∀ rel, rel ∈ walk (depth_bound (mfs s)) (mfs s) inc [] ↔
    rel ≠ [] ∧ is_Some (dents (mfs s) !! (inc ++ rel))) by (intros; by apply walk_all).
  exists f'. split_and!; [done|..].
  - intros rel Hr Hs. apply (in_placed _ _ _ _ _ Hin). by apply Hwalk.
  - intros q Hq. apply (in_rest _ _ _ _ _ Hin). intros rel [? ?]%Hwalk. by apply Hq.
  - intros j Hj Hq. apply (in_files _ _ _ _ _ Hin); [done|]. intros rel [? ?]%Hwalk. by apply Hq.
Qed.

(** A link of the project's tree does not replace what the
    image has under its name, a link or a file of a package for instance: the
    build fails. *)
Theorem link_conflict `{External} b s path t mode rel target d :
  Rel (IncludesChroot (bProject b)) path = Some rel → rel ≠ "." →
  Readlink (mfs s) path = Ok target → Lstat (mfs s) (path_join [RootfsDir b; rel]) = Ok d →
  copy_include b path (DSym t) mode s = (Err (FsError EEXIST), s).
Proof.
  intros Hrel Hdot Hread (p & Hp & Hd)%lookup_at_Ok. unfold copy_include.
  rewrite Hrel, (proj2 (str_eqb_neq rel ".")) by done.
  unfold st_bind, ask_files, on_files. rewrite Hread. cbn [mfs]. unfold Symlink, lift_fs.
  rewrite Hp. cbn [res_bind]. unfold insert_new.
  destruct Hd as [[-> _]|[Hne Hd]]; [by destruct s|].
  destruct p; [done|]. rewrite Hd. by destruct s.
Qed.

(** A tree that is itself a link, which the parser of the project follows, is
    not followed here: nothing is copied, without an error. *)
Lemma linked_tree_ignored `{External} b s t :
  Lstat (mfs s) (IncludesChroot (bProject b)) = Ok (DSym t) →
  copyIncludesChroot b s = (Ok tt, s).
Proof.
  intros Hl. unfold copyIncludesChroot, Walk, looking, st_bind, ask_files, on_files. rewrite Hl.
  cbn [res_bind fst snd dent_mode].
  assert (Hw : ∀ n m s0, walk_files n (copy_include b) (IncludesChroot (bProject b)) (DSym t) m s0 = (Ok tt, s0)).
  { intros n m s0. destruct n; cbn [walk_files is_dir negb]; unfold copy_include, Rel;
      rewrite str_eqb_refl; reflexivity. }
  rewrite Hw. by destruct s.
Qed.

(** ** Witnesses *)

Definition tree_fs : fsys :=
  Fs (list_to_map
        [(["i"], DDir 493 0); (["i"; "etc"], DDir 493 0); (["i"; "etc"; "motd"], DFile 1);
         (["i"; "link"], DSym "etc"); (["r"], DDir 493 0); (["r"; "etc"], DDir 448 0);
         (["r"; "etc"; "motd"], DFile 2); (["r"; "etc"; "host"], DFile 3)])
     {[ 1 := Inode "hi" 420 1000; 2 := Inode "old" 384 0; 3 := Inode "h" 420 0 ]}.

Definition tree_builder : Builder :=
  MkBuilder (MkProject "/p" [] [] "/i" [] [])
    (Config.MkConfig [] [] [] [] Config.defaultProjectConfig) "/r" "/w" [].

Definition tree_machine : machine := Machine tree_fs ∅ [].

Lemma tree_real p : p = ["i"] ∨ p = ["r"] → real_dir tree_fs p.
Proof.
  intros Hp q Hq [r Hr]. destruct q as [|x [|y q]]; [done| |].
  - destruct Hp as [-> | ->]; injection Hr as <- _; eexists _, _; vm_compute; reflexivity.
  - by destruct Hp as [-> | ->].
Qed.

(** The condition on the tree, checked entry by entry. *)
Lemma fits_entries f0 inc R :
  map_Forall (λ p d, take (length inc) p = inc → drop (length inc) p ≠ [] →
                     fits f0 R (drop (length inc) p) d) (dents f0) →
  ∀ rel d, rel ≠ [] → dents f0 !! (inc ++ rel) = Some d → fits f0 R rel d.
Proof.
  intros Hf rel d Hr Hd. specialize (Hf _ _ Hd). cbn in Hf.
  rewrite take_app_length, drop_app_length in Hf. auto.
Qed.

#[local] Instance fits_dec f0 R rel d : Decision (fits f0 R rel d).
Proof.
  unfold fits. destruct d as [| | |], (dents f0 !! (R ++ rel)) as [[| | |]|]; try apply _.
Defined.

Lemma tree_ok : includes_ok tree_builder tree_fs ["i"] ["r"].
Proof.
  split.
  - apply wf_entries, (bool_decide_unpack _). vm_compute. exact I.
  - split_and!; [by repeat constructor|apply tree_real; by left|done].
  - split; [by repeat constructor|apply tree_real; by right].
  - done.
  - split; by intros [? ?].
  - apply fits_entries, (bool_decide_unpack _). vm_compute. exact I.
Qed.

#[local] Existing Instance quiet_external.

Lemma includes_copied_witness :
  ∃ f', copyIncludesChroot tree_builder tree_machine = (Ok tt, Machine f' ∅ []) ∧
    dents f' !! ["r"; "link"] = Some (DSym "etc") ∧
    dents f' !! ["r"; "etc"; "host"] = Some (DFile 3).
Proof.
  destruct (includes_copied tree_builder tree_machine ["i"] ["r"] tree_ok) as (f' & Hrun & Hp & Hq & _).
  exists f'. split; [exact Hrun|]. split.
  - apply (Hp ["link"]); [discriminate|]. exists (DSym "etc"). vm_compute. reflexivity.
  - rewrite Hq; [vm_compute; reflexivity|]. intros rel _ Hs E.
    injection E as <-. revert Hs. vm_compute. intros [? ?]. discriminate.
Defined.

Lemma link_conflict_witness :
  copy_include tree_builder "/i/etc/motd" (DSym "x") 511
    (Machine (Fs (list_to_map [(["i"], DDir 493 0); (["i"; "etc"], DDir 493 0);
                               (["i"; "etc"; "motd"], DSym "x"); (["r"], DDir 493 0);
                               (["r"; "etc"], DDir 493 0); (["r"; "etc"; "motd"], DSym "y")]) ∅) ∅ []) =
  (Err (FsError EEXIST),
   Machine (Fs (list_to_map [(["i"], DDir 493 0); (["i"; "etc"], DDir 493 0);
                             (["i"; "etc"; "motd"], DSym "x"); (["r"], DDir 493 0);
                             (["r"; "etc"], DDir 493 0); (["r"; "etc"; "motd"], DSym "y")]) ∅) ∅ []).
Proof.
  apply (link_conflict _ _ _ _ _ "etc/motd" "x" (DSym "y"));
    first [vm_compute; reflexivity|discriminate].
Defined.
