(* ===== verification/IsoBuild.v ===== *)
(** * ISO images (internal/isobuild/{builder,installer}.go)

    [Build] turns an unpacked image into a bootable ISO: the graphical installer
    and its configuration inside the tree, a squashfs of it, kernel and initrd,
    the boot menu, grub-mkrescue. *)

From Stdlib Require Import Ascii String ZArith Lia.
From stdpp Require Import base list gmap strings.
From S2P Require Import Prelude GoStrings GoNumbers GoSort GoPath Fs FsProps Host Plan Util Sandbox.
From S2P Require Import Toolchain.

(** ** Parameters *)

Record IsoParams : Type := MkIso {
  iso_rootfs : gostring; iso_output : gostring; iso_workDir : gostring;
  iso_volume : gostring; iso_skipInstaller : bool }.

Definition excludeFromSquash : list gostring := ["proc"; "sys"; "dev"; "tmp"; "run"].

Definition installerPackages : list gostring :=
  ["calamares"; "xserver-xorg"; "xinit"; "openbox"; "dbus-x11"; "policykit-1"; "network-manager";
   "parted"; "gdisk"; "dosfstools"; "os-prober"].

(** The order in which a Go map is iterated: any. *)
Class MapOrder : Type := {
  shuffle : list (gostring * gostring) → list (gostring * gostring);
  shuffle_perm : ∀ l, shuffle l ≡ₚ l }.

(** ** Texts *)

Definition calamaresSettingsConf : gostring :=
  text
   ["# Wygenerowane przez hackeros-builder -- NIE edytuj recznie w obrazie,";
    "# zmiany rob w config/hooks/normal/*.hook.chroot wlasnego projektu.";
    "modules-search: [ local ]";
    "instances: []";
    "sequence:";
    "  - show:";
    "      - welcome";
    "      - locale";
    "      - keyboard";
    "      - partition";
    "      - users";
    "      - summary";
    "  - exec:";
    "      - partition";
    "      - mount";
    "      - unpackfs";
    "      - machineid";
    "      - fstab";
    "      - locale";
    "      - localecfg";
    "      - keyboard";
    "      - users";
    "      - bootloader";
    "      - shellprocess";
    "      - umount";
    "  - show:";
    "      - finished";
    "branding: hackeros";
    "prompt-install: false";
    "dont-chroot: false";
    "oem-setup: false";
    "disable-cancel: false";
    "disable-cancel-during-exec: true";
    "quit-at-end: false"].

Definition calamaresWelcomeConf : gostring :=
  text
   ["---";
    "showSupportUrl:       false";
    "showKnownIssuesUrl:   false";
    "showReleaseNotesUrl:  false";
    "requirements:";
    "  requiredStorage:    4.0";
    "  requiredRam:        1.0";
    "  internetCheckUrl:   `https://deb.debian.org`";
    "  check:";
    "    - storage";
    "    - ram";
    "    - power";
    "  required:";
    "    - storage";
    "    - ram"].

Definition calamaresLocaleConf : gostring :=
  text
   ["---";
    "region: `Etc`";
    "zone: `UTC`"].

Definition calamaresKeyboardConf : gostring :=
  text
   ["---";
    "defaultLayout: us";
    "defaultVariant: ``"].

Definition calamaresPartitionConf : gostring :=
  text
   ["---";
    "efiSystemPartition: `/boot/efi`";
    "userSwapChoices:";
    "    - none";
    "    - small";
    "    - suspend";
    "defaultFileSystemType: `ext4`";
    "availableFileSystemTypes:  [ `ext4`, `btrfs`, `xfs` ]";
    "enableLuksAutomatedPartitioning: true";
    "drawNestedPartitions: false";
    "alwaysShowPartitionLabels: true";
    "allowManualPartitioning: true"].

Definition calamaresUsersConf : gostring :=
  text
   ["---";
    "defaultGroups:";
    "    - users";
    "    - sudo";
    "    - audio";
    "    - video";
    "    - network";
    "    - storage";
    "autologinGroup:  autologin";
    "sudoersGroup:    sudo";
    "setRootPassword: true";
    "doAutologin:     false";
    "passwordRequirements:";
    "    nonempty: true"].

Definition calamaresUnpackfsConf : gostring :=
  text
   ["---";
    "unpack:";
    "    - source: `/run/live/medium/live/filesystem.squashfs`";
    "      sourcefs: `squashfs`";
    "      destination: ``"].

Definition calamaresMountConf : gostring :=
  text
   ["---";
    "extraMounts: []";
    "extraMountsEfi:";
    "    - device: `efivarfs`";
    "      fs: `efivarfs`";
    "      mountPoint: `/sys/firmware/efi/efivars`"].

Definition calamaresMachineidConf : gostring :=
  text
   ["---";
    "systemd: true";
    "dbus: true";
    "symlink: false"].

Definition calamaresFstabConf : gostring :=
  text
   ["---";
    "efiMountPoint: `/boot/efi`";
    "crypttabOptions: [ `luks`, `keyscript=/bin/cat` ]"].

Definition calamaresBootloaderConf : gostring :=
  text
   ["---";
    "efiBootLoader:        `grub`";
    "kernel: `/boot/vmlinuz`";
    "img:    `/boot/initrd.img`";
    "grubInstall:          `grub-install`";
    "grubMkconfig:         `grub-mkconfig`";
    "grubCfg:              `/boot/grub/grub.cfg`";
    "grubProbe:            `grub-probe`";
    "efiBootMgr:           `efibootmgr`";
    "installEFIFallback:   true";
    "timeout: `10`"].

Definition calamaresUmountConf : gostring :=
  text
   ["---"].

Definition calamaresShellprocessConf : gostring :=
  text
   ["---";
    "dontChroot: false";
    "timeout: 30";
    "script:";
    "    - command: `mkdir -p /etc/deb-ostree`"].

Definition calamaresBrandingDesc : gostring :=
  text
   ["---";
    "componentName:  hackeros";
    "";
    "welcomeStyleCalamares: true";
    "welcomeExpandingLogo:  true";
    "";
    "strings:";
    "    productName:         `HackerOS`";
    "    shortProductName:    `HackerOS`";
    "    version:              ``";
    "    shortVersion:         ``";
    "    versionedName:        `HackerOS`";
    "    shortVersionedName:   `HackerOS`";
    "    bootloaderEntryName:  `HackerOS`";
    "    productUrl:           `https://github.com/HackerOS-Linux-System`";
    "    supportUrl:           `https://github.com/HackerOS-Linux-System`";
    "    releaseNotesUrl:      `https://github.com/HackerOS-Linux-System`";
    "";
    "images:";
    "    productLogo:         `logo.png`";
    "    productIcon:         `logo.png`";
    "    productWelcome:      `welcome.png`";
    "";
    "slideshow: `show.qml`";
    "";
    "style:";
    "   sidebarBackground:       `#1d2023`";
    "   sidebarText:             `#ffffff`";
    "   sidebarTextSelect:       `#3daee9`";
    "   sidebarTextHighlight:    `#3daee9`"].

Definition overrideConf : gostring :=
  text
   ["[Service]";
    "ExecStart=";
    "ExecStart=-/sbin/agetty --autologin root --noclear %I $TERM"].

Definition bashProfile : gostring :=
  text
   ["# Wygenerowane przez hackeros-builder: autostart instalatora GUI na tty1.";
    "if [ -z `$DISPLAY` ] && [ `$(tty)` = `/dev/tty1` ] && [ ! -f /run/hackeros-installer-started ]; then";
    "    touch /run/hackeros-installer-started";
    "    exec startx /usr/local/sbin/hackeros-installer-xinit -- -nocursor";
    "fi"].

Definition xinitScript : gostring :=
  text
   ["#!/bin/sh";
    "# Wygenerowane przez hackeros-builder.";
    "openbox --config-file /etc/hackeros-installer/openbox-rc.xml &";
    "exec calamares -d"].

Definition openboxRC : gostring :=
  text
   ["<?xml version=`1.0` encoding=`UTF-8`?>";
    "<openbox_config xmlns=`http://openbox.org/3.4/rc`>";
    "  <theme><name>Clearlooks</name></theme>";
    "  <applications>";
    "    <application class=`*`><decor>no</decor><maximized>true</maximized><fullscreen>yes</fullscreen></application>";
    "  </applications>";
    "</openbox_config>"].

(** The files of the installer's configuration. *)
Definition calamares_files (rootfsDir : gostring) : list (gostring * gostring) :=
  let base := path_join [rootfsDir; "etc"; "calamares"] in
  let modulesDir := path_join [base; "modules"] in
  let brandingDir := path_join [base; "branding"; "hackeros"] in
  [(path_join [base; "settings.conf"], calamaresSettingsConf);
   (path_join [modulesDir; "welcome.conf"], calamaresWelcomeConf);
   (path_join [modulesDir; "locale.conf"], calamaresLocaleConf);
   (path_join [modulesDir; "keyboard.conf"], calamaresKeyboardConf);
   (path_join [modulesDir; "partition.conf"], calamaresPartitionConf);
   (path_join [modulesDir; "users.conf"], calamaresUsersConf);
   (path_join [modulesDir; "unpackfs.conf"], calamaresUnpackfsConf);
   (path_join [modulesDir; "mount.conf"], calamaresMountConf);
   (path_join [modulesDir; "machineid.conf"], calamaresMachineidConf);
   (path_join [modulesDir; "fstab.conf"], calamaresFstabConf);
   (path_join [modulesDir; "bootloader.conf"], calamaresBootloaderConf);
   (path_join [modulesDir; "umount.conf"], calamaresUmountConf);
   (path_join [modulesDir; "shellprocess.conf"], calamaresShellprocessConf);
   (path_join [brandingDir; "branding.desc"], calamaresBrandingDesc)].

(** The boot menu. *)
Definition grub_cfg (volumeName : gostring) : gostring :=
  text ["set timeout=5"; "set default=0"; []]
  ++ "menuentry " ++ [DQ] ++ volumeName ++ [DQ] ++ " {" ++ [NL]
  ++ text ["    linux /live/vmlinuz boot=live quiet splash"; "    initrd /live/initrd.img"; "}"; []]
  ++ "menuentry " ++ [DQ] ++ volumeName ++ " (safe graphics)" ++ [DQ] ++ " {" ++ [NL]
  ++ text ["    linux /live/vmlinuz boot=live quiet nomodeset"; "    initrd /live/initrd.img"; "}"].

Section iso.
Context `{External, MapOrder}.

(** [os.WriteFile] *)
Definition write_text (path content : gostring) (mode : N) : HM unit :=
  on_files (write_new umask path content mode).

Definition mkdir (dir : gostring) : HM unit := on_files (MkdirAll umask dir 493).

(** ** The installer *)

Definition writeCalamaresConfig (rootfsDir : gostring) : HM unit :=
  let base := path_join [rootfsDir; "etc"; "calamares"] in
  mkdir (path_join [base; "modules"]) ;;
  mkdir (path_join [base; "branding"; "hackeros"]) ;;
  for_each (λ file, ctx ("zapis " ++ file.1) (write_text file.1 file.2 420))
    (shuffle (calamares_files rootfsDir)).

Definition default_target (rootfsDir : gostring) : gostring :=
  path_join [path_join [rootfsDir; "etc"; "systemd"; "system"]; "default.target"].

Definition multi_user : gostring := "/lib/systemd/system/multi-user.target".

Definition writeInstallerAutostart (rootfsDir : gostring) : HM unit :=
  let overrideDir := path_join [rootfsDir; "etc"; "systemd"; "system"; "getty@tty1.service.d"] in
  mkdir overrideDir ;;
  write_text (path_join [overrideDir; "autologin.conf"]) overrideConf 420 ;;
  let profileDir := path_join [rootfsDir; "root"] in
  mkdir profileDir ;;
  write_text (path_join [profileDir; ".bash_profile"]) bashProfile 420 ;;
  let binDir := path_join [rootfsDir; "usr"; "local"; "sbin"] in
  mkdir binDir ;;
  write_text (path_join [binDir; "hackeros-installer-xinit"]) xinitScript 493 ;;
  let openboxDir := path_join [rootfsDir; "etc"; "hackeros-installer"] in
  mkdir openboxDir ;;
  write_text (path_join [openboxDir; "openbox-rc.xml"]) openboxRC 420 ;;
  let systemdDir := path_join [rootfsDir; "etc"; "systemd"; "system"] in
  mkdir systemdDir ;;
  try (on_files (Remove (default_target rootfsDir))) ;;
  ctx "ustawienie default.target" (on_files (Symlink multi_user (default_target rootfsDir))).

(** The arguments of apt-get install before the packages. *)
Definition installer_args : list gostring :=
  ["install"; "-y"; "--no-install-recommends";
   "-o"; "Dpkg::Options::=--force-confdef"; "-o"; "Dpkg::Options::=--force-confold"]
  ++ installerPackages.

Definition InjectInstaller (rootfsDir workDir : gostring) : HM unit :=
  looking (λ s,
    let tcEnv := fst (Env (Toolchain.New workDir) s) in
    ctx "apt-get update" (ExecEnv rootfsDir tcEnv "apt-get" ["update"]) ;;
    ctx "apt-get install (instalator)" (ExecEnv rootfsDir tcEnv "apt-get" installer_args) ;;
    ctx "konfiguracja calamares" (writeCalamaresConfig rootfsDir) ;;
    ctx "autostart instalatora" (writeInstallerAutostart rootfsDir)).

(** ** The ISO *)

(** The arguments of mksquashfs. *)
Definition squash_args (rootfsDir squashPath : gostring) : list gostring :=
  [rootfsDir; squashPath; "-comp"; "xz"; "-noappend"] ++ flat_map (λ ex, ["-e"; ex]) excludeFromSquash.

Definition buildSquashfs (rootfsDir isoTree : gostring) : HM unit :=
  let liveDir := path_join [isoTree; "live"] in
  mkdir liveDir ;;
  RunStreaming [] "mksquashfs"
    (squash_args rootfsDir (path_join [liveDir; "filesystem.squashfs"])).

Definition findGlob (dir pattern : gostring) : HM gostring :=
  looking (λ s,
    match last (Glob (mfs s) dir pattern) with
    | None => st_err (HostMsg ("brak plikow odpowiadajacych wzorcowi " ++ pattern))
    | Some m => st_ret m
    end).

(** The target keeps its mode when it exists. *)
Definition copyFile (src dst : gostring) : HM unit :=
  let! inp := ask_files (λ f, Open f src) in
  let! out := on_files (OpenFile umask dst 438) in
  on_files (copy_handle out inp).

Definition copyKernelAndInitrd (rootfsDir isoTree : gostring) : HM unit :=
  let bootDir := path_join [rootfsDir; "boot"] in
  let liveDir := path_join [isoTree; "live"] in
  let! kernelPath := ctx ("nie znaleziono jadra w " ++ bootDir) (findGlob bootDir "vmlinuz-*") in
  let! initrdPath := ctx ("nie znaleziono initrd w " ++ bootDir) (findGlob bootDir "initrd.img-*") in
  ctx "kopiowanie jadra" (copyFile kernelPath (path_join [liveDir; "vmlinuz"])) ;;
  ctx "kopiowanie initrd" (copyFile initrdPath (path_join [liveDir; "initrd.img"])).

Definition writeGrubConfig (isoTree volumeName : gostring) : HM unit :=
  let grubDir := path_join [isoTree; "boot"; "grub"] in
  mkdir grubDir ;;
  write_text (path_join [grubDir; "grub.cfg"]) (grub_cfg volumeName) 420.

Definition runGrubMkrescue (isoTree outputISO volumeName : gostring) : HM unit :=
  mkdir (Dir outputISO) ;;
  RunStreaming [] "grub-mkrescue" ["-o"; outputISO; isoTree; "--"; "-volid"; volumeName].

Definition Build (p : IsoParams) : HM unit :=
  let isoTree := path_join [iso_workDir p; "iso-tree"] in
  ctx ("czyszczenie " ++ isoTree) (on_files (RemoveAll isoTree)) ;;
  (if negb (iso_skipInstaller p)
   then ctx "instalator GUI" (InjectInstaller (iso_rootfs p) (iso_workDir p)) else st_ret tt) ;;
  ctx "squashfs" (buildSquashfs (iso_rootfs p) isoTree) ;;
  ctx "kernel/initrd" (copyKernelAndInitrd (iso_rootfs p) isoTree) ;;
  ctx "grub config" (writeGrubConfig isoTree (iso_volume p)) ;;
  ctx "grub-mkrescue" (runGrubMkrescue isoTree (iso_output p) (iso_volume p)).
End iso.
