(* ===== verification/IsoProps.v ===== *)
(** * What the ISO builder does

    The commands of a build, the kernel that is chosen, and the files the live
    system starts from. *)

From Stdlib Require Import Ascii String ZArith Lia.
From stdpp Require Import base list gmap strings sorting.
From S2P Require Import Prelude GoStrings GoNumbers GoSort GoPath Fs FsProps Host Plan Util Sandbox.
From S2P Require Import Toolchain IsoBuild.

(** ** Commands *)

Section plan.
Context `{External, MapOrder}.

(** The variables the installer's commands get besides those of the sandbox. *)
Definition installer_env (E : envmap) (p : IsoParams) : list gostring :=
  ["PATH=" ++ path_join [iso_workDir p; toolchainBinDir] ++ ":" ++ env_value E "PATH"].

Definition iso_plan (E : envmap) (p : IsoParams) : list step :=
  let isoTree := path_join [iso_workDir p; "iso-tree"] in
  let inside args := Start (sandbox_cmd (environ E) (iso_rootfs p) (installer_env E p) None "apt-get" args) in
  (if iso_skipInstaller p then [] else [inside ["update"]; inside installer_args])
  ++ [Start (MkCmd ["mksquashfs"; iso_rootfs p;
                    path_join [path_join [isoTree; "live"]; "filesystem.squashfs"];
                    "-comp"; "xz"; "-noappend"; "-e"; "proc"; "-e"; "sys"; "-e"; "dev";
                    "-e"; "tmp"; "-e"; "run"] [] (environ E) None);
      Start (MkCmd ["grub-mkrescue"; "-o"; iso_output p; isoTree; "--"; "-volid"; iso_volume p]
               [] (environ E) None)].

Lemma plans_calamares E rootfsDir : plans E E (writeCalamaresConfig rootfsDir) [].
Proof. unfold writeCalamaresConfig, mkdir, write_text. quiet. Qed.

Lemma plans_autostart E rootfsDir : plans E E (writeInstallerAutostart rootfsDir) [].
Proof. unfold writeInstallerAutostart, mkdir, write_text. quiet. Qed.

Lemma plans_kernel E rootfsDir isoTree : plans E E (copyKernelAndInitrd rootfsDir isoTree) [].
Proof. unfold copyKernelAndInitrd, findGlob, copyFile. quiet. Qed.

Lemma plans_installer E p :
  plans E E (InjectInstaller (iso_rootfs p) (iso_workDir p))
    [Start (sandbox_cmd (environ E) (iso_rootfs p) (installer_env E p) None "apt-get" ["update"]);
     Start (sandbox_cmd (environ E) (iso_rootfs p) (installer_env E p) None "apt-get" installer_args)].
Proof.
  unfold InjectInstaller. apply plans_look. intros s Hs. cbv zeta.
  assert (He : fst (Env (Toolchain.New (iso_workDir p)) s) = installer_env E p).
  { unfold Env, installer_env. cbn. unfold Getenv. by rewrite Hs. }
  rewrite He.
  apply (plans_bind E E E _ _ [_]); [apply plans_ctx; unfold ExecEnv; apply plans_execInternal|intros _].
  apply (plans_bind E E E _ _ [_] []).
  { apply plans_ctx; unfold ExecEnv; apply plans_execInternal. }
  intros _. apply plans_seq with E; [apply plans_ctx, plans_calamares|intros _].
  apply plans_ctx, plans_autostart.
Qed.

Lemma plans_iso_Build E p : plans E E (Build p) (iso_plan E p).
Proof.
  unfold Build, iso_plan. cbv zeta. apply plans_seq with E; [quiet|intros _].
  apply plans_bind with E.
  { destruct (iso_skipInstaller p); cbn [negb]; [apply plans_ret|apply plans_ctx, plans_installer]. }
  intros _. apply (plans_bind E E E _ _ [_]).
  { apply plans_ctx. unfold buildSquashfs, mkdir. cbv zeta.
    apply plans_seq with E; [apply plans_files|intros _; apply plans_RunStreaming]. }
  intros _. apply plans_seq with E; [apply plans_ctx, plans_kernel|intros _].
  apply plans_seq with E; [unfold writeGrubConfig, mkdir, write_text; quiet|intros _].
  apply plans_ctx. unfold runGrubMkrescue, mkdir.
  apply plans_seq with E; [apply plans_files|intros _; apply plans_RunStreaming].
Qed.

(** C13.  Building an ISO runs, in this order: unless the installer is
    skipped, apt-get update and the installation of its packages inside the
    image; mksquashfs of the image without the directories of a running system;
    grub-mkrescue.  A failure stops at the point it happens, and nothing else
    is ever run. *)
Theorem iso_Build_plan E p : plans E E (Build p) (iso_plan E p).
Proof. apply plans_iso_Build. Qed.

(** The commands of the installer do not run with the search
    path the sandbox sets for programs inside the image, but with the toolchain
    directory and the search path of the host. *)
Theorem installer_path E p args :
  env_get (cmd_env (sandbox_cmd (environ E) (iso_rootfs p) (installer_env E p) None "apt-get" args))
    "PATH" = Some (path_join [iso_workDir p; toolchainBinDir] ++ ":" ++ env_value E "PATH") ∧
  env_get noninteractiveEnv "PATH" =
    Some ("/usr/local/sbin:/usr/local/bin:/usr/sbin:/usr/bin:/sbin:/bin" : gostring).
Proof.
  split; [|vm_compute; reflexivity]. unfold sandbox_cmd. cbn [cmd_env]. rewrite env_get_app.
  assert (Hg : ∀ v : gostring, env_get ["PATH=" ++ v] "PATH" = Some v).
  { intros v. unfold env_get. cbn [omap list_omap].
    assert (Hp : HasPrefix ("PATH=" ++ v) ("PATH" ++ "=") = true).
    { apply HasPrefix_iff. by exists v. }
    by rewrite Hp. }
  unfold installer_env. by rewrite Hg.
Qed.
End plan.

(** ** The kernel *)

(** A literal prefix and a star. *)
Lemma match_star_rest s : match_star ["*"%char] s = negb (mem "/" s).
Proof.
  induction s as [|c s IH]; [done|]. cbn [match_star mem existsb] in *.
  change (Ascii.eqb "*" "*") with true in *. cbv iota in *. cbn [str_eqb orb] in *.
  rewrite IH. by rewrite Ascii.eqb_sym, negb_orb.
Qed.

Lemma match_star_prefix p s :
  mem "*" p = false →
  match_star (p ++ "*") s = true ↔ ∃ r, s = p ++ r ∧ mem "/" r = false.
Proof.
  revert s. induction p as [|c p IH]; intros s Hp.
  { cbn [app]. rewrite match_star_rest, negb_true_iff. split; [eauto|]. by intros (r & -> & ?). }
  cbn [mem existsb] in Hp. apply orb_false_iff in Hp as [Hc Hp]. cbn [app match_star].
  rewrite Ascii.eqb_sym in Hc. rewrite Hc. destruct s as [|d s].
  { split; [done|]. by intros (r & ? & _). }
  destruct (Ascii.eqb_spec c d) as [->|Hne]; cbn [andb].
  - rewrite IH by done. split.
    + intros (r & -> & Hr). exists r. done.
    + intros (r & [= ->] & Hr). eauto.
  - split; [done|]. intros (r & [= -> _] & _). done.
Qed.

(** The last of a sorted list is the largest. *)
Lemma sorted_last (l : list gostring) x :
  StronglySorted (key_le id) l → last l = Some x → x ∈ l ∧ ∀ y, y ∈ l → str_le y x.
Proof.
  intros Hs Hl. apply last_Some in Hl as [l' ->]. split; [apply elem_of_app; right; by left|].
  intros y [Hy| ->%list_elem_of_singleton]%elem_of_app; [|apply str_ltb_irrefl].
  apply (StronglySorted_app_1_elem_of _ _ _ y x Hs); [done|by left].
Qed.

Lemma sorted_filter (P : gostring → bool) l :
  StronglySorted (key_le id) l → StronglySorted (key_le id) (List.filter P l).
Proof.
  induction 1 as [|x l Hl IH Hx]; cbn [List.filter]; [constructor|].
  destruct (P x); [|done]. constructor; [done|]. apply Forall_forall. intros y Hy.
  rewrite Forall_forall in Hx. apply Hx. apply list_elem_of_In, List.filter_In in Hy as [Hy _].
  by apply list_elem_of_In.
Qed.

Section kernel.
Context `{External, MapOrder}.

(** [k] is the largest name of [dir] that matches. *)
Definition picked (f : fsys) (dir : path) (pattern k : gostring) : Prop :=
  match_star pattern k = true ∧ is_Some (dents f !! (dir ++ [k])) ∧
  ∀ k', is_Some (dents f !! (dir ++ [k'])) → match_star pattern k' = true → str_le k' k.

Lemma Glob_dir f dir pattern :
  Forall name_ok dir → real_dir f dir → hasMeta (abs_path dir) = false →
  Glob f (abs_path dir) pattern =
    map (λ n, path_join [abs_path dir; n])
      (List.filter (match_star pattern) (sort_strings (child_names dir f))).
Proof.
  intros Hd Hr Hm. unfold Glob. rewrite Hm.
  assert (Habs : absolute (abs_path dir) = abs_path dir).
  { unfold absolute. by rewrite (proj2 (HasPrefix_iff _ _)) by by eexists. }
  rewrite Habs. unfold ReadDir. rewrite resolve_dir by done. cbn [res_bind].
  destruct dir as [|c l]; [done|]. by destruct (Hr (c :: l)) as (m & o & ->).
Qed.

Lemma findGlob_picks s dir pattern k :
  Forall name_ok dir → real_dir (mfs s) dir → hasMeta (abs_path dir) = false →
  name_ok k → picked (mfs s) dir pattern k →
  findGlob (abs_path dir) pattern s = (Ok (abs_path (dir ++ [k])), s).
Proof.
  intros Hd Hr Hm Hk (Hmatch & Hin & Hmax). unfold findGlob, looking. rewrite Glob_dir by done.
  set (l := List.filter (match_star pattern) (sort_strings (child_names dir (mfs s)))).
  assert (Hl : ∀ n, n ∈ l ↔ is_Some (dents (mfs s) !! (dir ++ [n])) ∧ match_star pattern n = true).
  { intros n. unfold l. rewrite list_elem_of_In, List.filter_In, <- list_elem_of_In.
    unfold sort_strings. by rewrite sort_by_perm, elem_of_child_names. }
  assert (Hlast : last l = Some k).
  { destruct (last l) as [x|] eqn:El.
    - assert (Hs : StronglySorted (key_le id) l) by apply sorted_filter, sort_by_sorted.
      destruct (sorted_last l x Hs El) as [Hx Hle]. f_equal. apply (anti_symm str_le).
      + apply Hl in Hx as [? ?]. by apply Hmax.
      + apply Hle, Hl. done.
    - apply last_None in El. assert (k ∈ l) as Hkl by by apply Hl. rewrite El in Hkl.
      by apply not_elem_of_nil in Hkl. }
  change (map (λ n, path_join [abs_path dir; n]) l) with ((λ n, path_join [abs_path dir; n]) <$> l).
  rewrite fmap_last, Hlast. cbn [fmap option_fmap option_map].
  rewrite join_names; [done|done|by constructor].
Qed.

(** Copying a file to a name that is free. *)
Lemma iso_copyFile_new s sp dp sc dc i n :
  Forall name_ok sp → name_ok sc → Forall name_ok dp → name_ok dc →
  real_dir (mfs s) sp → real_dir (mfs s) dp →
  dents (mfs s) !! (sp ++ [sc]) = Some (DFile i) → files (mfs s) !! i = Some n →
  dents (mfs s) !! (dp ++ [dc]) = None →
  ∃ j, files (mfs s) !! j = None ∧
    copyFile (abs_path (sp ++ [sc])) (abs_path (dp ++ [dc])) s =
      (Ok tt, Machine (Fs (<[dp ++ [dc] := DFile j]> (dents (mfs s)))
                (<[j := Inode (idata n) (file_mode umask 438) 0]> (files (mfs s)))) (menv s) (mlog s)).
Proof.
  intros Hsp Hsc Hdp Hdc Rs Rd Hi Hn Hnone.
  set (j := fresh (dom (files (mfs s)))). exists j.
  assert (Hj : files (mfs s) !! j = None) by apply not_elem_of_dom, is_fresh.
  split; [done|]. assert (Hij : i ≠ j) by congruence.
  unfold copyFile. unfold st_bind at 1, ask_files, on_files at 1.
  rewrite Open_child by eauto. rewrite Hi. cbv beta iota.
  unfold st_bind, on_files, OpenFile. cbn [mfs menv mlog]. rewrite write_new_child by done.
  cbv zeta beta iota. fold j. rewrite Open_child; [|done|done| |].
  2:{ apply (real_dir_sub (mfs s)); [by apply insert_subseteq|done]. }
  2:{ cbn [dents]. rewrite lookup_insert_eq. eauto. }
  cbn [dents]. rewrite lookup_insert_eq. unfold copy_handle, read_handle, write_handle, lift_fs.
  cbn [mfs menv mlog files dents]. rewrite lookup_insert_ne, Hn by done. rewrite lookup_insert_eq.
  cbn [imode iowner]. by rewrite insert_insert_eq.
Qed.
End kernel.

(** ** Claims *)

Section claims.
Context `{External, MapOrder}.

(** C15.  With kernels and initrds in the image's boot directory, the ISO
    gets exactly one of each: the contents of the last of each kind in the order
    of names, under the fixed names the boot menu uses; nothing else in the tree
    changes. *)
Theorem copyKernel_correct s R iso k ik nk r ir nr :
  let boot := R ++ ["boot"] in
  let live := iso ++ ["live"] in
  Forall name_ok R → Forall name_ok iso → name_ok k → name_ok r →
  hasMeta (abs_path boot) = false → real_dir (mfs s) boot → real_dir (mfs s) live →
  picked (mfs s) boot "vmlinuz-*" k → picked (mfs s) boot "initrd.img-*" r →
  dents (mfs s) !! (boot ++ [k]) = Some (DFile ik) → files (mfs s) !! ik = Some nk →
  dents (mfs s) !! (boot ++ [r]) = Some (DFile ir) → files (mfs s) !! ir = Some nr →
  dents (mfs s) !! (live ++ ["vmlinuz"]) = None →
  dents (mfs s) !! (live ++ ["initrd.img"]) = None →
  ∃ f', copyKernelAndInitrd (abs_path R) (abs_path iso) s = (Ok tt, Machine f' (menv s) (mlog s)) ∧
    ReadFile f' (abs_path (live ++ ["vmlinuz"])) = Ok (idata nk) ∧
    ReadFile f' (abs_path (live ++ ["initrd.img"])) = Ok (idata nr) ∧
    files (mfs s) ⊆ files f' ∧
    ∀ q, q ≠ live ++ ["vmlinuz"] → q ≠ live ++ ["initrd.img"] → dents f' !! q = dents (mfs s) !! q.
Proof.
  intros boot live HR Hiso Hk Hr Hm Rb Rl Pk Pr Hdk Hnk Hdr Hnr Nk Nr.
  assert (Hboot : Forall name_ok boot) by by apply Forall_app, conj, Forall_singleton.
  assert (Hlive : Forall name_ok live) by by apply Forall_app, conj, Forall_singleton.
  assert (Hv : name_ok "vmlinuz") by done. assert (Hi : name_ok "initrd.img") by done.
  destruct (iso_copyFile_new s boot live k "vmlinuz" ik nk) as (j1 & Hj1 & E1); try done.
  set (s1 := Machine _ _ _) in E1.
  destruct (iso_copyFile_new s1 boot live r "initrd.img" ir nr) as (j2 & Hj2 & E2); try done.
  { apply (real_dir_sub (mfs s)); [by apply insert_subseteq|done]. }
  { apply (real_dir_sub (mfs s)); [by apply insert_subseteq|done]. }
  { cbn [mfs s1 dents]. rewrite lookup_insert_ne; [done|]. congruence. }
  { cbn [mfs s1 files]. rewrite lookup_insert_ne; [done|]. congruence. }
  { cbn [mfs s1 dents]. rewrite lookup_insert_ne; [done|]. intros E%app_inj_tail. by destruct E. }
  eexists. split.
  - unfold copyKernelAndInitrd. cbv zeta.
    rewrite (join_names R ["boot"]), (join_names iso ["live"]) by (done || by repeat constructor).
    fold boot live.
    rewrite (join_names live ["vmlinuz"]), (join_names live ["initrd.img"]) by (done || by repeat constructor).
    unfold st_bind, ctx. rewrite (findGlob_picks s boot "vmlinuz-*" k) by done.
    rewrite (findGlob_picks s boot "initrd.img-*" r) by done. rewrite E1, E2. reflexivity.
  - assert (Hne : live ++ ["vmlinuz"] ≠ live ++ ["initrd.img"]) by (intros E%app_inj_tail; by destruct E).
    assert (Hj : j1 ≠ j2).
    { intros ->. cbn [mfs s1 files] in Hj2. by rewrite lookup_insert_eq in Hj2. }
    match goal with |- ReadFile ?f _ = _ ∧ _ => set (f' := f) end.
    assert (Hsub : dents (mfs s) ⊆ dents f').
    { etrans; [apply (insert_subseteq _ _ (DFile j1) Nk)|]. apply insert_subseteq.
      cbn [mfs s1 dents]. by rewrite lookup_insert_ne. }
    assert (Rl' : real_dir f' live) by by apply (real_dir_sub (mfs s)).
    split_and!.
    + rewrite (ReadFile_child f' live "vmlinuz" j1 (Inode (idata nk) (file_mode umask 438) 0)); try done.
      * cbn [f' dents mfs s1]. by rewrite lookup_insert_ne, lookup_insert_eq.
      * cbn [f' files mfs s1]. by rewrite lookup_insert_ne, lookup_insert_eq.
    + rewrite (ReadFile_child f' live "initrd.img" j2 (Inode (idata nr) (file_mode umask 438) 0)); try done.
      * cbn [f' dents mfs s1]. by rewrite lookup_insert_eq.
      * cbn [f' files mfs s1]. by rewrite lookup_insert_eq.
    + cbn [f' files mfs s1]. etrans; [apply (insert_subseteq _ j1 (Inode (idata nk) (file_mode umask 438) 0) Hj1)|].
      by apply insert_subseteq.
    + intros q Hq1 Hq2. cbn [f' dents mfs s1]. by rewrite !lookup_insert_ne.
Qed.

(** When the autostart of the installer is written, the
    system's default target is a link to the text mode, whatever was there. *)
Theorem autostart_target rootfsDir s s' :
  writeInstallerAutostart rootfsDir s = (Ok tt, s') →
  Readlink (mfs s') (default_target rootfsDir) = Ok multi_user.
Proof.
  unfold writeInstallerAutostart. cbv zeta. intros Hw.
  repeat (apply st_bind_Ok in Hw as (? & ? & _ & Hw)). unfold ctx, on_files in Hw.
  destruct (Symlink _ _ _) as [[[]|e| |] f] eqn:E; try done. injection Hw as <-.
  by eapply Readlink_new.
Qed.
End claims.

(** ** Examples *)

Definition boot_fs (kernels : list gostring) : fsys :=
  Fs (list_to_map
        ([(["r"], DDir 493 0); (["r"; "boot"], DDir 493 0); (["t"], DDir 493 0);
          (["t"; "live"], DDir 493 0); (["r"; "boot"; "initrd.img-6.1"], DFile 1)]
         ++ imap (λ i k, (["r"; "boot"; k], DFile (2 + i))) kernels))
     (list_to_map ((1, Inode "initrd" 420 0) :: imap (λ i k, (2 + i, Inode k 420 0)) kernels)).

#[local] Existing Instance quiet_external.
#[local] Instance plain_order : MapOrder := {| shuffle := λ l, l; shuffle_perm := λ l, reflexivity l |}.

Definition kernel_machine (kernels : list gostring) : machine := Machine (boot_fs kernels) ∅ [].

(** Versions are compared as text: with 6.9 and 6.10 both installed, the ISO
    gets the older kernel. *)
Example older_kernel :
  fst (findGlob "/r/boot" "vmlinuz-*" (kernel_machine ["vmlinuz-6.10.2-amd64"; "vmlinuz-6.9.7-amd64"])) =
    Ok ("/r/boot/vmlinuz-6.9.7-amd64" : gostring).
Proof. vm_compute. reflexivity. Qed.

Lemma picked_entries f dir pattern k :
  match_star pattern k = true → is_Some (dents f !! (dir ++ [k])) →
  map_Forall (λ p _, match drop (length dir) p with
                     | [k'] => take (length dir) p = dir → match_star pattern k' = true →
                               str_ltb k k' = false
                     | _ => True
                     end) (dents f) →
  picked f dir pattern k.
Proof.
  intros Hm Hs Hf. split_and!; [done|done|]. intros k' [d Hd] Hm'. specialize (Hf _ _ Hd).
  cbn in Hf. rewrite take_app_length, drop_app_length in Hf. by apply Hf.
Qed.

Definition one_kernel : machine := kernel_machine ["vmlinuz-6.1"; "vmlinuz-5.9"].

Lemma one_kernel_real p : p = ["r"; "boot"] ∨ p = ["t"; "live"] → real_dir (mfs one_kernel) p.
Proof.
  intros Hp. apply (wf_real_dir _ _ 493 0).
  - apply wf_entries, (bool_decide_unpack _). vm_compute. exact I.
  - destruct Hp as [-> | ->]; vm_compute; reflexivity.
Qed.

#[local] Instance name_match_dec (dir : path) pattern k p :
  Decision (match drop (length dir) p with
            | [k'] => take (length dir) p = dir → match_star pattern k' = true →
                      str_ltb k k' = false
            | _ => True
            end).
Proof. destruct (drop (length dir) p) as [|? [|? ?]]; apply _. Defined.

Lemma one_kernel_picked :
  picked (mfs one_kernel) ["r"; "boot"] "vmlinuz-*" "vmlinuz-6.1" ∧
  picked (mfs one_kernel) ["r"; "boot"] "initrd.img-*" "initrd.img-6.1".
Proof.
  split; (apply picked_entries;
    [vm_compute; reflexivity|eexists; vm_compute; reflexivity|apply (bool_decide_unpack _); vm_compute; exact I]).
Qed.

Lemma copyKernel_correct_witness :
  ∃ f', copyKernelAndInitrd "/r" "/t" one_kernel = (Ok tt, Machine f' ∅ []) ∧
    ReadFile f' "/t/live/vmlinuz" = Ok ("vmlinuz-6.1" : gostring) ∧
    ReadFile f' "/t/live/initrd.img" = Ok ("initrd" : gostring).
Proof.
  destruct one_kernel_picked as [Pk Pr].
  destruct (copyKernel_correct one_kernel ["r"] ["t"] "vmlinuz-6.1" 2 (Inode "vmlinuz-6.1" 420 0)
              "initrd.img-6.1" 1 (Inode "initrd" 420 0)) as (f' & E & H1 & H2 & _).
  - by repeat constructor.
  - by repeat constructor.
  - done.
  - done.
  - reflexivity.
  - apply one_kernel_real. by left.
  - apply one_kernel_real. by right.
  - exact Pk.
  - exact Pr.
  - vm_compute. reflexivity.
  - vm_compute. reflexivity.
  - vm_compute. reflexivity.
  - vm_compute. reflexivity.
  - vm_compute. reflexivity.
  - vm_compute. reflexivity.
  - exists f'. split; [exact E|]. split; [exact H1|exact H2].
Defined.

Lemma autostart_target_witness :
  Readlink (mfs (snd (writeInstallerAutostart "/r" one_kernel))) (default_target "/r") = Ok multi_user.
Proof.
  apply (autostart_target "/r" one_kernel).
  assert (E : fst (writeInstallerAutostart "/r" one_kernel) = Ok tt) by (vm_compute; reflexivity).
  rewrite <- E. apply surjective_pairing.
Defined.
