(* ===== verification/Oci.v ===== *)
(** * OCI images (internal/ociimage/{push,pull}.go)

    [BuildAndPush] packs a directory into one tar layer and pushes it;
    [PullAndUnpack] fetches the layers of an image and unpacks them, whiteouts
    included.  Archives are lists of headers with contents; compression and the
    registry are the classes [TarGz] and [Registry].  A pulled image may fail to
    list its layers, and a layer to open or to be read to its end: by then the
    target has been cleared and the entries read so far are unpacked. *)

From Stdlib Require Import Ascii String Lia.
From stdpp Require Import base list gmap strings.
From S2P Require Import Prelude GoStrings GoNumbers GoSort GoPath Fs FsWalk.

(** ** Archives *)

Inductive Typeflag : Type :=
| TypeReg | TypeDir | TypeSymlink | TypeLink | TypeChar | TypeBlock | TypeFifo.

Record Header : Type := MkHeader {
  hName : gostring; hType : Typeflag; hMode : N; hLinkname : gostring; hUid : nat }.

(** An archive: each header with the content that follows it. *)
Abbreviation tar := (list (Header * gostring)).

(** Writing an archive through gzip and reading it back. *)
Class TarGz : Type := {
  gz : tar → gostring;
  ungz : gostring → option tar;
  ungz_gz : ∀ t, ungz (gz t) = Some t }.

(** What a client reads of a layer: nothing if it cannot be fetched, otherwise
    entries, and whether they end with the archive or where reading it failed,
    the content of the last one then perhaps cut short. *)
Abbreviation stream := (option (tar * bool)).

(** What a client gets of an image: no layers if their list cannot be read. *)
Abbreviation image := (option (list stream)).

(** An image that is read to its end. *)
Definition whole_layer (t : tar) : stream := Some (t, true).
Definition whole (layers : list tar) : image := Some (map whole_layer layers).

(** The registry as go-containerregistry presents it: a tag names the layers
    last written under it, and what is read to its end is what was written,
    which the digests ensure. *)
Class Registry : Type := {
  registry : Type;
  ParseReference : gostring → bool;
  remote_Write : gostring → gostring → bool → list tar → registry → option registry;
  remote_Image : gostring → gostring → bool → registry → option image;
  remote_last : ∀ ref token token' insecure insecure' img img' r r',
    remote_Write ref token insecure img r = Some r' →
    remote_Image ref token' insecure' r' = Some (whole img') → img' = img }.

Inductive OciError : Type :=
| TarError (e : errno)
| SocketUnsupported (rel : gostring)
| BadReference (ref : gostring)
| BadLayer
| RemoteFailed (ref : gostring)
| LayersFailed
| LayerFailed
| LayerReadFailed
| UnpackError (e : errno).

(** ** Packing *)

(** [tar.FileInfoHeader] with the name the walk sets, and the content. *)
Definition header_of (s : fsys) (rel : path) (d : dent) : res OciError (Header * gostring) :=
  let name := Join rel "/" in
  match d with
  | DDir m o => Ok (MkHeader (name ++ "/") TypeDir m [] o, [])
  | DFile i =>
      match files s !! i with
      | Some n => Ok (MkHeader name TypeReg (imode n) [] (iowner n), idata n)
      | None => Panic
      end
  | DSym t => Ok (MkHeader name TypeSymlink 511 t 0, [])
  | DSpecial CharDevice m => Ok (MkHeader name TypeChar m [] 0, [])
  | DSpecial BlockDevice m => Ok (MkHeader name TypeBlock m [] 0, [])
  | DSpecial Fifo m => Ok (MkHeader name TypeFifo m [] 0, [])
  | DSpecial Socket _ => Err (SocketUnsupported name)
  end.

(** The headers of [rels] up to the first error. *)
Fixpoint pack (s : fsys) (root : path) (rels : list path) : tar * res OciError unit :=
  match rels with
  | [] => ([], Ok tt)
  | rel :: rels' =>
      match dents s !! (root ++ rel) with
      | None => ([], Err (TarError ENOENT))
      | Some d =>
          match header_of s rel d with
          | Ok e => let '(t, r) := pack s root rels' in (e :: t, r)
          | Err e => ([], Err e)
          | Panic => ([], Panic)
          | OutOfFuel => ([], OutOfFuel)
          end
      end
  end.

(** The archive of a directory; [filepath.Walk] on anything else visits only
    the root, which is skipped. *)
Definition pack_dir (s : fsys) (rootfsDir : gostring) : tar * res OciError unit :=
  match resolve s false rootfsDir with
  | Err e => ([], Err (TarError e))
  | Ok p =>
      match p, dents s !! p with
      | [], _ | _, Some (DDir _ _) => pack s p (walk (depth_bound s) s p [])
      | _, Some _ => ([], Ok tt)
      | _, None => ([], Err (TarError ENOENT))
      end
  | Panic => ([], Panic)
  | OutOfFuel => ([], OutOfFuel)
  end.

Section oci.
Context `{TarGz, Registry}.
Variable umask : N.

Record ostate : Type := OState { ofs : fsys; oreg : registry }.

Abbreviation OM := (ST ostate OciError).

(** Run a file operation and wrap its error. *)
Definition on_fs {A} (wrap : errno → OciError) (m : FsM A) : OM A :=
  λ s, let '(r, f) := m (ofs s) in
       (match r with
        | Ok a => Ok a
        | Err e => Err (wrap e)
        | Panic => Panic
        | OutOfFuel => OutOfFuel
        end, OState f (oreg s)).

(** Run a file operation and ignore its error. *)
Definition ignoring {A} (m : FsM A) : FsM unit :=
  λ s, match m s with
       | (Panic, s') => (Panic, s')
       | (OutOfFuel, s') => (OutOfFuel, s')
       | (_, s') => (Ok tt, s')
       end.

(** The archive is written as the walk goes, so an error leaves a part of it. *)
Definition createLayerTarball (rootfsDir destTarGz : gostring) : OM unit :=
  on_fs TarError (write_new umask destTarGz [] 438) ;;
  λ s, let '(t, r) := pack_dir (ofs s) rootfsDir in
       (on_fs TarError (write_new umask destTarGz (gz t) 438) ;; st_lift r) s.

(** [tarball.LayerFromFile] and [mutate.AppendLayers(empty.Image, layer)] *)
Definition buildImageFromLayer (layerTarGzPath : gostring) : OM (list tar) :=
  λ s, match lookup_at (ofs s) true layerTarGzPath with
       | Ok (DFile i) =>
           match (files (ofs s) !! i) ≫= (λ n, ungz (idata n)) with
           | Some t => (Ok [t], s)
           | None => (Err BadLayer, s)
           end
       | _ => (Err BadLayer, s)
       end.

Record BuildParams : Type := MkBuildParams {
  bpRootfsDir : gostring; bpRepository : gostring; bpTag : gostring; bpToken : gostring;
  bpWorkDir : gostring; bpInsecure : bool }.

(** [defer os.Remove(layerTarPath)] around [m]. *)
Definition removing {A} (name : gostring) (m : OM A) : OM A :=
  λ s, let '(r, s') := m s in
       (r, OState (snd (ignoring (Remove name) (ofs s'))) (oreg s')).

Definition BuildAndPush (p : BuildParams) : OM gostring :=
  let layerTarPath := path_join [bpWorkDir p; "layer.tar.gz"] in
  createLayerTarball (bpRootfsDir p) layerTarPath ;;
  removing layerTarPath
    (let! img := buildImageFromLayer layerTarPath in
     let refStr := bpRepository p ++ ":" ++ bpTag p in
     if negb (ParseReference refStr) then st_err (BadReference refStr)
     else λ s,
       match remote_Write refStr (bpToken p) (bpInsecure p) img (oreg s) with
       | Some r => (Ok refStr, OState (ofs s) r)
       | None => (Err (RemoteFailed refStr), s)
       end).

(** ** Unpacking *)

Definition ensureParentDir (name : gostring) : FsM unit := MkdirAll umask (Dir name) 493.

(** The loop over the entries of an opaque directory. *)
Fixpoint remove_entries (target : gostring) (names : list gostring) : FsM unit :=
  match names with
  | [] => st_ret tt
  | n :: names' => ignoring (RemoveAll (path_join [target; n])) ;; remove_entries target names'
  end.

(** [os.FileMode(hdr.Mode)]: of a Go [FileMode] only the low nine bits are the
    Unix ones; its set-user-id, set-group-id and sticky bits are elsewhere, so
    those of the header do not reach the system call. *)
Definition FileMode (mode : N) : N := N.land mode 511.

(** One round of the loop of [extractLayer], then the loop. *)
Definition extract_entry (destDir : gostring) (e : Header * gostring) : FsM unit :=
  let '(hdr, data) := e in
  let entryName := hName hdr in
  let base := Base entryName in
  let dir := Dir entryName in
  if str_eqb base ".wh..wh..opq" then
    let target := path_join [destDir; dir] in
    λ s, match ReadDir s target with
         | Ok names => remove_entries target names s
         | _ => (Ok tt, s)
         end
  else if HasPrefix base ".wh." then
    ignoring (RemoveAll (path_join [destDir; dir; TrimPrefix base ".wh."]))
  else
    let target := path_join [destDir; entryName] in
    match hType hdr with
    | TypeDir => MkdirAll umask target (FileMode (hMode hdr))
    | TypeReg => ensureParentDir target ;; write_new umask target data (FileMode (hMode hdr))
    | TypeSymlink =>
        ensureParentDir target ;; ignoring (Remove target) ;; Symlink (hLinkname hdr) target
    | TypeLink =>
        ensureParentDir target ;; ignoring (Remove target) ;;
        Link (path_join [destDir; hLinkname hdr]) target
    | _ => st_ret tt
    end.

Fixpoint extract_entries (entries : tar) (destDir : gostring) : FsM unit :=
  match entries with
  | [] => st_ret tt
  | e :: entries' => extract_entry destDir e ;; extract_entries entries' destDir
  end.

(** A file operation with its error wrapped. *)
Definition unpacking (m : FsM unit) : ST fsys OciError unit := λ s,
  match m s with
  | (Ok u, s') => (Ok u, s')
  | (Err e, s') => (Err (UnpackError e), s')
  | (Panic, s') => (Panic, s')
  | (OutOfFuel, s') => (OutOfFuel, s')
  end.

(** A layer that cannot be read to its end fails after what was read of it. *)
Definition extractLayer (layer : stream) (destDir : gostring) : ST fsys OciError unit :=
  match layer with
  | None => st_err LayerFailed
  | Some (entries, ended) =>
      unpacking (extract_entries entries destDir) ;;
      if (ended : bool) then st_ret tt else st_err LayerReadFailed
  end.

Fixpoint extract_layers (layers : list stream) (destDir : gostring) : ST fsys OciError unit :=
  match layers with
  | [] => st_ret tt
  | l :: layers' => extractLayer l destDir ;; extract_layers layers' destDir
  end.

Record PullParams : Type := MkPullParams {
  ppRepository : gostring; ppTag : gostring; ppToken : gostring; ppDestDir : gostring;
  ppInsecure : bool }.

Definition PullAndUnpack (p : PullParams) : OM unit :=
  let refStr := ppRepository p ++ ":" ++ ppTag p in
  if negb (ParseReference refStr) then st_err (BadReference refStr)
  else λ s,
    match remote_Image refStr (ppToken p) (ppInsecure p) (oreg s) with
    | None => (Err (RemoteFailed refStr), s)
    | Some img =>
        (on_fs UnpackError (RemoveAll (ppDestDir p)) ;;
         on_fs UnpackError (MkdirAll umask (ppDestDir p) 493) ;;
         match img with
         | None => st_err LayersFailed
         | Some layers => λ s,
             let '(r, f) := extract_layers layers (ppDestDir p) (ofs s) in (r, OState f (oreg s))
         end) s
    end.
End oci.
