(* ===== verification/OciProps.v ===== *)
(** * What comes back from the registry

    Packing a tree and unpacking it elsewhere gives a copy: the same names,
    contents and link targets.  What is lost is stated by [copy_of]: devices
    and pipes, owners, and all permission bits but the low nine.  Names of entries lead where
    double dots lead, outside of the target too. *)

From Stdlib Require Import Ascii String Lia.
From stdpp Require Import base list gmap strings.
From S2P Require Import Prelude GoStrings GoNumbers GoSort GoPath Fs FsProps FsWalk Oci.

(** ** Trees that can be packed *)

(** Names that an image format reserves, and files tar cannot hold. *)
Definition packable (s : fsys) (root : path) : Prop :=
  ∀ rel c d, dents s !! (root ++ rel ++ [c]) = Some d →
    HasPrefix c ".wh." = false ∧ ∀ m, d ≠ DSpecial Socket m.

(** ** Copies *)

(** The permission bits that survive: the low nine, without the umask. *)
Definition new_mode (umask perm : N) : N := N.ldiff (FileMode perm) umask.

Lemma file_mode_perm umask m : file_mode umask (FileMode m) = new_mode umask m.
Proof. unfold file_mode, new_mode, FileMode. by rewrite <- N.land_assoc. Qed.

Lemma dir_mode_perm umask m : dir_mode umask (FileMode m) = new_mode umask m.
Proof. unfold dir_mode, new_mode, FileMode. by rewrite <- N.land_assoc. Qed.

(** [d1] on [s1] is what is left of [d0] on [s0] after a trip through an image. *)
Definition copy_of (umask : N) (s0 : fsys) (d0 : option dent) (s1 : fsys) (d1 : option dent)
    : Prop :=
  match d0 with
  | Some (DDir m _) => d1 = Some (DDir (new_mode umask m) 0)
  | Some (DFile i) =>
      ∃ n j, files s0 !! i = Some n ∧ d1 = Some (DFile j) ∧
             files s1 !! j = Some (Inode (idata n) (new_mode umask (imode n)) 0)
  | Some (DSym t) => d1 = Some (DSym t)
  | Some (DSpecial _ _) | None => d1 = None
  end.

Lemma copy_of_mono umask s0 d0 s1 s2 d1 :
  files s1 ⊆ files s2 → copy_of umask s0 d0 s1 d1 → copy_of umask s0 d0 s2 d1.
Proof.
  intros Hs. destruct d0 as [[]|]; simpl; try done. intros (n & j & ? & ? & ?).
  exists n, j. split_and!; [done..|]. by eapply lookup_weaken.
Qed.

(** ** One entry *)

(** What an entry that is no whiteout does at its target. *)
Definition entry_at (umask : N) (destDir : gostring) (hdr : Header) (data target : gostring)
    : FsM unit :=
  match hType hdr with
  | TypeDir => MkdirAll umask target (FileMode (hMode hdr))
  | TypeReg => ensureParentDir umask target ;; write_new umask target data (FileMode (hMode hdr))
  | TypeSymlink =>
      ensureParentDir umask target ;; ignoring (Remove target) ;; Symlink (hLinkname hdr) target
  | TypeLink =>
      ensureParentDir umask target ;; ignoring (Remove target) ;;
      Link (path_join [destDir; hLinkname hdr]) target
  | _ => st_ret tt
  end.

Lemma extract_plain umask d hdr data q c slash :
  Forall name_ok d → Forall name_ok q → name_ok c → HasPrefix c ".wh." = false →
  hName hdr = Join (q ++ [c]) "/" ++ trail slash →
  extract_entry umask (abs_path d) (hdr, data) =
    entry_at umask (abs_path d) hdr data (abs_path (d ++ q ++ [c])).
Proof.
  intros Hd Hq Hc Hw En. unfold extract_entry. rewrite En, (Base_join q c slash Hq Hc), Hw. cbv zeta.
  assert (Hopq : str_eqb c ".wh..wh..opq" = false).
  { apply str_eqb_neq. intros ->. done. }
  rewrite Hopq, join_abs; [done|done| |by destruct q].
  by apply Forall_app, conj, Forall_singleton.
Qed.

(** Whiteouts, the opaque one first. *)
Lemma extract_opaque umask d hdr data q :
  Forall name_ok d → Forall name_ok q → hName hdr = Join (q ++ [".wh..wh..opq" : gostring]) "/" →
  extract_entry umask (abs_path d) (hdr, data) =
    λ s, match ReadDir s (abs_path (d ++ q)) with
         | Ok names => remove_entries (abs_path (d ++ q)) names s
         | _ => (Ok tt, s)
         end.
Proof.
  intros Hd Hq En. assert (Hc : name_ok ".wh..wh..opq") by by split_and!.
  unfold extract_entry. rewrite En.
  pose proof (Base_join q ".wh..wh..opq" false Hq Hc) as Eb. unfold trail in Eb.
  rewrite app_nil_r in Eb. rewrite Eb. cbv zeta. rewrite str_eqb_refl.
  by rewrite join_Dir, app_nil_r.
Qed.

Lemma extract_hide umask d hdr data q n :
  Forall name_ok d → Forall name_ok q → name_ok n → n ≠ ".wh..opq" →
  hName hdr = Join (q ++ [".wh." ++ n]) "/" →
  extract_entry umask (abs_path d) (hdr, data) = ignoring (RemoveAll (abs_path (d ++ q ++ [n]))).
Proof.
  intros Hd Hq Hn Hne En.
  assert (Hc : name_ok (".wh." ++ n)).
  { split_and!; [done..|]. apply mem_false. destruct Hn as (_ & _ & _ & Hm%mem_false).
    intros [H|H]%elem_of_app; [|done]. by apply (mem_false "/" ".wh.") in H. }
  unfold extract_entry. rewrite En.
  pose proof (Base_join q _ false Hq Hc) as Eb. unfold trail in Eb.
  rewrite app_nil_r in Eb. rewrite Eb. cbv zeta.
  assert (Hopq : str_eqb (".wh." ++ n) ".wh..wh..opq" = false).
  { apply str_eqb_neq. intros E. by injection E as E. }
  assert (Hw : HasPrefix (".wh." ++ n) ".wh." = true) by (apply HasPrefix_iff; by eexists).
  rewrite Hopq. unfold TrimPrefix. rewrite Hw, drop_app_length.
  rewrite join_Dir; [done..|]. by apply Forall_singleton.
Qed.

(** ** Files of one's own *)

(** The files below [d] were made after [s1], each for one name. *)
Record own_files (d : path) (s1 s : fsys) : Prop := {
  own_new : ∀ p i, p ≠ [] → dents s !! (d ++ p) = Some (DFile i) →
    files s1 !! i = None ∧ is_Some (files s !! i);
  own_inj : ∀ p p' i, p ≠ [] → p' ≠ [] → dents s !! (d ++ p) = Some (DFile i) →
    dents s !! (d ++ p') = Some (DFile i) → p = p' }.

Lemma own_files_sub d s1 s s' :
  own_files d s1 s → files s ⊆ files s' →
  (∀ p i, p ≠ [] → dents s' !! (d ++ p) = Some (DFile i) → dents s !! (d ++ p) = Some (DFile i)) →
  own_files d s1 s'.
Proof.
  intros [Hn Hi] Hf Hd. split.
  - intros p i Hp E%Hd; [|done]. destruct (Hn p i Hp E) as [H1 [n H2]]. split; [done|].
    exists n. by eapply lookup_weaken.
  - intros p p' i Hp Hp' E%Hd E'%Hd; [|done..]. by apply (Hi p p' i).
Qed.

Lemma own_files_add d s1 s s' q x :
  own_files d s1 s → files s1 ⊆ files s → dents s' = <[d ++ q := x]> (dents s) → files s ⊆ files s' →
  (∀ i, x = DFile i → files s !! i = None ∧ is_Some (files s' !! i)) → own_files d s1 s'.
Proof.
  intros [Hn Hi] H1 Hds Hfs Hx.
  assert (Hsame : ∀ p, p ≠ q → dents s' !! (d ++ p) = dents s !! (d ++ p)).
  { intros p Hp. rewrite Hds, lookup_insert_ne; [done|]. by intros E%app_inv_head. }
  assert (Hat : ∀ i, dents s' !! (d ++ q) = Some (DFile i) → files s !! i = None ∧ is_Some (files s' !! i)).
  { intros i. rewrite Hds, lookup_insert_eq. intros [= E]. by apply Hx. }
  assert (Hfresh : ∀ p i, p ≠ [] → dents s !! (d ++ p) = Some (DFile i) → files s !! i ≠ None).
  { intros p i Hp E. destruct (Hn p i Hp E) as [_ [? ?]]. congruence. }
  split.
  - intros p i Hp E. destruct (decide (p = q)) as [->|Hne].
    + destruct (Hat i E) as [Hi1 Hi2]. split; [|done]. by eapply lookup_weaken_None.
    + rewrite Hsame in E by done. destruct (Hn p i Hp E) as [? [n ?]]. split; [done|].
      exists n. by eapply lookup_weaken.
  - intros p p' i Hp Hp' E E'.
    destruct (decide (p = q)) as [->|H2], (decide (p' = q)) as [->|H3]; [done|..].
    + rewrite Hsame in E' by done. by destruct (Hfresh p' i Hp' E'); apply Hat.
    + rewrite Hsame in E by done. by destruct (Hfresh p i Hp E); apply Hat.
    + rewrite Hsame in E, E' by done. by apply (Hi p p' i).
Qed.

Section unpack.
Context (umask : N) (s0 : fsys) (root : path) (Hwf : wf_fs s0) (Hpack : packable s0 root).
(** The target directory and the file system before unpacking. *)
Context (d : path) (s1 : fsys) (Hd : Forall name_ok d).

(** The state after the entries of [seen]: what they copy is there and nothing
    else is, and nothing outside the target has changed. *)
Record unpacked (seen : list path) (s : fsys) : Prop := {
  up_dir : real_dir s d;
  up_dirs : ∀ q, q ∈ seen → (∃ m o, dents s0 !! (root ++ q) = Some (DDir m o)) →
    real_dir s (d ++ q);
  up_copy : ∀ q, q ∈ seen → copy_of umask s0 (dents s0 !! (root ++ q)) s (dents s !! (d ++ q));
  up_rest : ∀ q, q ≠ [] → q ∉ seen → dents s !! (d ++ q) = None;
  up_outside : ∀ q, ¬ below d q → dents s !! q = dents s1 !! q;
  up_own : own_files d s1 s;
  up_files : files s1 ⊆ files s }.

Lemma unpacked_skip seen s rel :
  unpacked seen s → rel ≠ [] → rel ∉ seen →
  (∀ m o, dents s0 !! (root ++ rel) ≠ Some (DDir m o)) →
  copy_of umask s0 (dents s0 !! (root ++ rel)) s None → unpacked (seen ++ [rel]) s.
Proof.
  intros [] Hr Hn Hnd Hc. split; try done.
  - intros q [Hq| ->%list_elem_of_singleton]%elem_of_app Hdir; [by apply up_dirs0|].
    destruct Hdir as (m & o & E). by apply Hnd in E.
  - intros q [Hq| ->%list_elem_of_singleton]%elem_of_app; [by apply up_copy0|].
    by rewrite up_rest0.
  - intros q Hq Hns. apply up_rest0; [done|]. set_solver.
Qed.

Lemma unpacked_add seen s s' q c x :
  unpacked seen s → (q ++ [c]) ∉ seen → real_dir s (d ++ q) →
  dents s' = <[d ++ q ++ [c] := x]> (dents s) → files s ⊆ files s' →
  copy_of umask s0 (dents s0 !! (root ++ q ++ [c])) s' (Some x) →
  (∀ i, x = DFile i → files s !! i = None ∧ is_Some (files s' !! i)) →
  unpacked (seen ++ [q ++ [c]]) s'.
Proof.
  intros [] Hn Hq Hds Hfs Hc Hx.
  assert (Hnew : dents s !! (d ++ q ++ [c]) = None) by (apply up_rest0; [by destruct q|done]).
  assert (Hsub : dents s ⊆ dents s') by (rewrite Hds; by apply insert_subseteq).
  split.
  - by eapply real_dir_sub.
  - intros p [Hp| ->%list_elem_of_singleton]%elem_of_app Hdir.
    { eapply real_dir_sub; [done|]. by apply up_dirs0. }
    destruct Hdir as (m & o & E). rewrite E in Hc. injection Hc as ->.
    rewrite app_assoc. eapply real_dir_snoc; [by eapply real_dir_sub|].
    rewrite <- app_assoc, Hds. apply lookup_insert_eq.
  - intros p [Hp| ->%list_elem_of_singleton]%elem_of_app.
    + rewrite Hds, lookup_insert_ne by (intros E%app_inv_head; subst; done).
      eapply copy_of_mono; [done|]. by apply up_copy0.
    + by rewrite Hds, lookup_insert_eq.
  - intros p Hp Hns. rewrite Hds, lookup_insert_ne; [apply up_rest0; set_solver|].
    intros E%app_inv_head. subst. apply Hns. set_solver.
  - intros p Hp. rewrite Hds, lookup_insert_ne; [by apply up_outside0|]. intros <-. apply Hp.
    destruct q as [|y q]; [by exists c, []|]. by exists y, (q ++ [c]).
  - by eapply own_files_add.
  - by etrans.
Qed.

Lemma names_below rel : is_Some (dents s0 !! (root ++ rel)) → Forall name_ok rel.
Proof. intros H%(wf_names s0 Hwf). by apply Forall_app in H as [_ ?]. Qed.

(** Entries of packed trees are no whiteouts and land below the target. *)
Lemma entry_target q c data slash type mode link uid :
  is_Some (dents s0 !! (root ++ q ++ [c])) →
  let hdr := MkHeader (Join (q ++ [c]) "/" ++ trail slash) type mode link uid in
  extract_entry umask (abs_path d) (hdr, data) =
    entry_at umask (abs_path d) hdr data (abs_path (d ++ q ++ [c])).
Proof.
  intros Hs hdr. pose proof (names_below _ Hs) as Hn. apply Forall_app in Hn as [Hq [Hc _]%Forall_cons_1].
  destruct Hs as [x Hx]. destruct (Hpack q c x Hx) as [Hw _]. by eapply extract_plain.
Qed.

Lemma parent_ready s q c :
  real_dir s (d ++ q) → Forall name_ok q → name_ok c →
  ensureParentDir umask (abs_path (d ++ q ++ [c])) s = (Ok tt, s).
Proof.
  intros Hr Hq Hc. unfold ensureParentDir. rewrite app_assoc, Dir_abs; [|by apply Forall_app|done].
  apply MkdirAll_there; [by apply Forall_app|done].
Qed.

Lemma new_child s q c seen :
  unpacked seen s → real_dir s (d ++ q) → Forall name_ok q → name_ok c → (q ++ [c]) ∉ seen →
  dents s !! ((d ++ q) ++ [c]) = None ∧
  ∀ f, resolve s f (abs_path (d ++ q ++ [c])) = Ok (d ++ q ++ [c]).
Proof.
  intros Hu Hr Hq Hc Hn.
  assert (E : dents s !! ((d ++ q) ++ [c]) = None).
  { rewrite <- app_assoc. apply (up_rest _ _ Hu); [by destruct q|done]. }
  split; [done|]. intros f. rewrite app_assoc.
  apply resolve_child; [by apply Forall_app|done|done|right; congruence].
Qed.

(** One entry. *)
Lemma extract_step seen s q c x e :
  unpacked seen s → (q ++ [c]) ∉ seen → real_dir s (d ++ q) →
  dents s0 !! (root ++ q ++ [c]) = Some x → header_of s0 (q ++ [c]) x = Ok e →
  ∃ s', extract_entry umask (abs_path d) e s = (Ok tt, s') ∧ unpacked (seen ++ [q ++ [c]]) s'.
Proof.
  intros Hu Hn Hr Hx He.
  assert (Hs : is_Some (dents s0 !! (root ++ q ++ [c]))) by (rewrite Hx; eauto).
  pose proof (names_below _ Hs) as Hok. apply Forall_app in Hok as [Hq [Hc _]%Forall_cons_1].
  destruct (new_child s q c seen Hu Hr Hq Hc Hn) as [Hnone Hres].
  assert (Hne : d ++ q ++ [c] ≠ []) by by destruct d, q.
  destruct x as [m o|i|t|k m]; simpl in He.
  - injection He as <-. rewrite (entry_target q c [] true) by done.
    unfold entry_at. cbn [hType hMode hLinkname].
    rewrite app_assoc. rewrite MkdirAll_new by (try apply Forall_app; done).
    eexists. split; [reflexivity|]. eapply (unpacked_add _ s _ q c (DDir _ _)); try done.
    + cbn [dents set_dents]. by rewrite <- app_assoc.
    + rewrite Hx. cbn [copy_of]. by rewrite dir_mode_perm.
  - destruct (files s0 !! i) as [n|] eqn:Ei; [|done]. injection He as <-.
    rewrite <- (app_nil_r (Join (q ++ [c]) "/")). rewrite (entry_target q c _ false) by done.
    unfold entry_at. cbn [hType hMode hLinkname].
    unfold st_bind. rewrite parent_ready by done. unfold write_new, lift_fs. rewrite Hres.
    cbn [res_bind]. rewrite app_assoc, Hnone, <- app_assoc.
    destruct (d ++ q ++ [c]) as [|y l] eqn:Ey; [done|]. rewrite <- Ey.
    eexists. split; [reflexivity|].
    eapply (unpacked_add _ s _ q c (DFile _)); try done.
    + cbn [files]. apply insert_subseteq. apply not_elem_of_dom, is_fresh.
    + rewrite Hx. cbn [copy_of]. exists n, (fresh (dom (files s))). cbn [files].
      split_and!; [done..|]. by rewrite lookup_insert_eq, file_mode_perm.
    + cbn [files]. intros j [= <-]. rewrite lookup_insert_eq. split; [|by eexists].
      apply not_elem_of_dom, is_fresh.
  - injection He as <-.
    rewrite <- (app_nil_r (Join (q ++ [c]) "/")). rewrite (entry_target q c _ false) by done.
    unfold entry_at. cbn [hType hMode hLinkname].
    unfold st_bind. rewrite parent_ready by done. unfold ignoring, Remove, Symlink, lift_fs.
    rewrite Hres. cbn [res_bind]. rewrite app_assoc, Hnone, <- app_assoc, Hres. cbn [res_bind].
    rewrite insert_new_none; [|done|by rewrite app_assoc].
    eexists. split; [reflexivity|].
    eapply (unpacked_add _ s _ q c (DSym t)); try done. by rewrite Hx.
  - exists s. split.
    + destruct (Hpack q c _ Hx) as [_ Hsock].
      destruct k; simpl in He; try (by destruct (Hsock m)); injection He as <-;
        rewrite <- (app_nil_r (Join (q ++ [c]) "/")); by rewrite (entry_target q c _ false).
    + apply unpacked_skip; [done|by destruct q|done|..]; rewrite Hx; done.
Qed.
End unpack.

Section roundtrip.
Context (umask : N) (s0 : fsys) (root : path) (Hwf : wf_fs s0) (Hpack : packable s0 root).

(** Packing a tree without sockets succeeds. *)
Lemma pack_ok rels :
  (∀ rel, rel ∈ rels → ∃ q c, rel = q ++ [c] ∧ is_Some (dents s0 !! (root ++ rel))) →
  ∃ t, pack s0 root rels = (t, Ok tt).
Proof.
  induction rels as [|rel rels IH]; intros Hin; [by exists []|]. cbn [pack].
  destruct IH as [t Ht]. { intros r Hr. apply Hin. by right. }
  destruct (Hin rel) as (q & c & -> & x & Hx); [by left|]. rewrite Hx, Ht.
  destruct (Hpack q c x Hx) as [_ Hs]. destruct x as [m o|i|t'|k m]; cbn [header_of].
  - by eexists.
  - destruct (wf_inode s0 Hwf _ _ Hx) as [n ->]. by eexists.
  - by eexists.
  - destruct k; try (by eexists). by destruct (Hs m).
Qed.

Lemma extract_list d s1 rels t seen s :
  Forall name_ok d → unpacked umask s0 root d s1 seen s → parents_first seen rels →
  NoDup (seen ++ rels) →
  (∀ rel, rel ∈ rels → is_Some (dents s0 !! (root ++ rel))) →
  pack s0 root rels = (t, Ok tt) →
  ∃ s', extract_entries umask t (abs_path d) s = (Ok tt, s') ∧
        unpacked umask s0 root d s1 (seen ++ rels) s'.
Proof.
  intros Hd. revert t seen s. induction rels as [|rel rels IH]; intros t seen s Hu Hpf Hnd Hin Hp.
  { simpl in Hp. injection Hp as <-. exists s. by rewrite app_nil_r. }
  cbn [pack] in Hp. destruct (dents s0 !! (root ++ rel)) as [x|] eqn:Hx; [|done].
  destruct (header_of s0 rel x) as [e| | |] eqn:He; try done.
  destruct (pack s0 root rels) as [t' r] eqn:Ht. injection Hp as <- ->.
  destruct Hpf as [(q & c & -> & Hq) Hpf].
  assert (Hn : (q ++ [c]) ∉ seen).
  { apply NoDup_app in Hnd as (_ & Hnd & _). intros Hs. apply (Hnd _ Hs). by left. }
  assert (Hr : real_dir s (d ++ q)).
  { destruct Hq as [->|Hq]; [rewrite app_nil_r; apply Hu|].
    destruct (wf_parent s0 Hwf (root ++ q) c) as [E|E].
    - rewrite <- app_assoc, Hx. eauto.
    - destruct q; [rewrite app_nil_r; apply Hu|by destruct root].
    - by apply (up_dirs _ _ _ _ _ _ _ Hu). }
  destruct (extract_step umask s0 root Hwf Hpack d s1 Hd seen s q c x e Hu Hn Hr Hx He)
    as (s' & Hrun & Hu').
  cbn [extract_entries]. unfold st_bind. rewrite Hrun.
  destruct (IH t' (seen ++ [q ++ [c]]) s') as (s'' & Hrun' & Hu''); try done.
  - by rewrite <- app_assoc.
  - intros rel' Hrel. apply Hin. by right.
  - exists s''. split; [done|]. by rewrite <- app_assoc in Hu''.
Qed.

(** All that is below the root, in the order of the walk. *)
Lemma pack_dir_ok :
  Forall name_ok root → real_dir s0 root →
  ∃ t, pack_dir s0 (abs_path root) = (t, Ok tt) ∧
       pack s0 root (walk (depth_bound s0) s0 root []) = (t, Ok tt).
Proof.
  intros Hn Hr. destruct (pack_ok (walk (depth_bound s0) s0 root [])) as [t Ht].
  { intros rel [Hne Hs]%(walk_all s0 root Hwf). destruct rel as [|c q _] using rev_ind; [done|]. eauto. }
  exists t. split; [|done]. unfold pack_dir. rewrite resolve_dir by done.
  destruct root as [|c p] eqn:Er; [done|]. destruct (Hr (c :: p)) as (m & o & ->); done.
Qed.
End roundtrip.

(** Emptying a directory that may or may not exist, and making it anew. *)
Lemma fresh_dir umask s p c :
  Forall name_ok p → name_ok c → real_dir s p →
  ∃ s1, (RemoveAll (abs_path (p ++ [c])) ;; MkdirAll umask (abs_path (p ++ [c])) 493) s =
          (Ok tt, s1) ∧
    real_dir s1 (p ++ [c]) ∧ (∀ q, q ≠ [] → dents s1 !! ((p ++ [c]) ++ q) = None) ∧
    (∀ q, q ≠ p ++ [c] → ¬ below (p ++ [c]) q → dents s1 !! q = dents s !! q) ∧
    files s1 = files s.
Proof.
  intros Hp Hc Hr. set (d := p ++ [c]). set (s' := prune d s).
  assert (Hout : ∀ q, q ≠ d → ¬ below d q → dents s' !! q = dents s !! q).
  { intros q H1 H2. unfold s', prune, set_dents. cbn [dents].
    destruct (dents s !! q) as [x|] eqn:E.
    - apply map_lookup_filter_Some. done.
    - apply map_lookup_filter_None. by left. }
  assert (Hin : ∀ q, dents s' !! (d ++ q) = None).
  { intros q. unfold s', prune, set_dents. cbn [dents]. apply map_lookup_filter_None. right.
    intros x _ [H1 H2]. cbn [fst] in *. destruct q as [|y q].
    - apply H1. by rewrite app_nil_r.
    - apply H2. by exists y, q. }
  assert (Hr' : real_dir s' p).
  { eapply real_dir_mono; [exact Hr|]. intros q [r Hq]. apply Hout.
    - intros E. subst q. unfold d in Hq. apply (f_equal length) in Hq.
      rewrite !length_app in Hq. simpl in Hq. lia.
    - intros (y & r' & ->). unfold d in Hq. apply (f_equal length) in Hq.
      rewrite !length_app in Hq. simpl in Hq. lia. }
  eexists. split.
  - unfold st_bind, RemoveAll, lift_fs. unfold d. rewrite resolve_child by (try done; by left).
    assert (Em : ∀ A (x y : A), match p ++ [c] with [] => x | _ => y end = y) by by destruct p.
    rewrite Em. apply MkdirAll_new; [done..|].
    specialize (Hin []). rewrite app_nil_r in Hin. exact Hin.
  - cbn [set_dents dents files]. fold d. split_and!.
    + unfold d. eapply (real_dir_snoc _ p c (dir_mode umask 493) 0).
      * eapply real_dir_mono; [exact Hr'|]. intros q [r Hq]. cbn [dents].
        apply lookup_insert_ne. intros E. subst q. apply (f_equal length) in Hq.
        rewrite !length_app in Hq. simpl in Hq. lia.
      * cbn [dents]. apply lookup_insert_eq.
    + intros q Hq. rewrite lookup_insert_ne; [apply Hin|]. intros E.
      apply (f_equal length) in E. rewrite length_app in E. destruct q; [done|simpl in E; lia].
    + intros q H1 H2. rewrite lookup_insert_ne by done. by apply Hout.
    + done.
Qed.

(** ** Pushing *)

(** A file next to the tree does not disturb it. *)
Section beside.
Context (s : fsys) (root w : path) (c : gostring) (i : nat) (n : inode).
Context (Hwf : wf_fs s) (Hpack : packable s root).
Context (Hw : Forall name_ok w) (Hc : name_ok c) (Hwd : real_dir s w).
Context (Hnone : dents s !! (w ++ [c]) = None) (Hi : files s !! i = None).
Context (Hout : ¬ root `prefix_of` w ++ [c]).

Definition with_file : fsys := Fs (<[w ++ [c] := DFile i]> (dents s)) (<[i := n]> (files s)).

Lemma with_file_other q : q ≠ w ++ [c] → dents with_file !! q = dents s !! q.
Proof. intros H. apply lookup_insert_ne. done. Qed.

Lemma with_file_below rel : dents with_file !! (root ++ rel) = dents s !! (root ++ rel).
Proof. apply with_file_other. intros E. apply Hout. by exists rel. Qed.

Lemma with_file_inode j m : files s !! j = Some m → files with_file !! j = Some m.
Proof. intros E. cbn [files with_file]. rewrite lookup_insert_ne; congruence. Qed.

Lemma with_file_dirs p : real_dir s p → real_dir with_file p.
Proof. apply real_dir_sub. cbn [dents with_file]. by apply insert_subseteq. Qed.

Lemma with_file_wf : wf_fs with_file.
Proof.
  apply (wf_add s _ w c (DFile i)); try done; cbn [files with_file]; [by apply insert_subseteq|].
  intros j [= <-]. rewrite lookup_insert_eq. eauto.
Qed.

Lemma with_file_packable : packable with_file root.
Proof. intros rel c' d. rewrite with_file_below. apply Hpack. Qed.

(** A copy of the tree there is a copy of the tree. *)
Lemma with_file_copy umask rel s' d :
  copy_of umask with_file (dents with_file !! (root ++ rel)) s' d →
  copy_of umask s (dents s !! (root ++ rel)) s' d.
Proof.
  rewrite with_file_below. destruct (dents s !! (root ++ rel)) as [[]|] eqn:E; cbn [copy_of]; try done.
  destruct (wf_inode s Hwf _ _ E) as [m Hm]. intros (n' & j & Hn & Hd & Hj).
  rewrite (with_file_inode _ _ Hm) in Hn. injection Hn as <-. eauto.
Qed.
End beside.

Section push.
Context `{TarGz, Registry} (umask : N).

Definition layer_name : gostring := "layer.tar.gz".

Lemma layer_name_ok : name_ok layer_name.
Proof. by split_and!. Qed.

Definition ref_of (p : BuildParams) : gostring := bpRepository p ++ ":" ++ bpTag p.

(** The layer of a directory, written to a new file next to it. *)
Lemma tarball_written s reg root w t :
  Forall name_ok w → real_dir s w → dents s !! (w ++ [layer_name]) = None →
  let i := fresh (dom (files s)) in
  let sA := with_file s w layer_name i (Inode [] (file_mode umask 438) 0) in
  pack_dir sA (abs_path root) = (t, Ok tt) →
  createLayerTarball umask (abs_path root) (abs_path (w ++ [layer_name])) (OState s reg) =
    (Ok tt, OState (with_file s w layer_name i (Inode (gz t) (file_mode umask 438) 0)) reg).
Proof.
  intros Hnw Hw Hnone i sA Ht. pose proof layer_name_ok as Hln.
  unfold createLayerTarball, st_bind at 1, on_fs at 1. cbn [ofs oreg].
  rewrite write_new_child by done. cbv zeta. fold i. fold (with_file s w layer_name i (Inode [] (file_mode umask 438) 0)).
  fold sA. cbn [ofs oreg]. rewrite Ht. unfold st_bind, on_fs. cbn [ofs oreg].
  rewrite (write_over_child umask sA w layer_name i (Inode [] (file_mode umask 438) 0)).
  - cbn [imode iowner st_lift]. unfold sA, with_file. cbn [dents files]. by rewrite insert_insert_eq.
  - done.
  - done.
  - by apply with_file_dirs.
  - apply lookup_insert_eq.
  - apply lookup_insert_eq.
Qed.

(** The part of [BuildAndPush] before the registry: one layer that unpacks to a
    copy of the tree, and no trace of the temporary file. *)
Lemma push_layer p st root w :
  bpRootfsDir p = abs_path root → bpWorkDir p = abs_path w →
  Forall name_ok root → Forall name_ok w → wf_fs (ofs st) → packable (ofs st) root →
  real_dir (ofs st) root → real_dir (ofs st) w → dents (ofs st) !! (w ++ [layer_name]) = None →
  ¬ root `prefix_of` w ++ [layer_name] → ParseReference (ref_of p) = true →
  ∃ t sA f1, pack_dir sA (abs_path root) = (t, Ok tt) ∧
    sA = with_file (ofs st) w layer_name (fresh (dom (files (ofs st))))
           (Inode [] (file_mode umask 438) 0) ∧
    dents f1 = dents (ofs st) ∧ files (ofs st) ⊆ files f1 ∧
    BuildAndPush umask p st =
      match remote_Write (ref_of p) (bpToken p) (bpInsecure p) [t] (oreg st) with
      | Some r => (Ok (ref_of p), OState f1 r)
      | None => (Err (RemoteFailed (ref_of p)), OState f1 (oreg st))
      end.
Proof.
  intros Hroot Hwork Hnr Hnw Hwf Hp Hr Hw Hnone Hout Href. destruct st as [s reg]. cbn [ofs oreg] in *.
  set (i := fresh (dom (files s))).
  set (sA := with_file s w layer_name i (Inode [] (file_mode umask 438) 0)).
  assert (Hi : files s !! i = None) by apply not_elem_of_dom, is_fresh.
  pose proof layer_name_ok as Hln.
  destruct (pack_dir_ok sA root) as (t & Ht & _); try done.
  { by apply with_file_wf. }
  { by apply with_file_packable. }
  { by apply with_file_dirs. }
  set (sB := with_file s w layer_name i (Inode (gz t) (file_mode umask 438) 0)).
  assert (HwB : real_dir sB w) by by apply with_file_dirs.
  assert (HlB : dents sB !! (w ++ [layer_name]) = Some (DFile i)) by apply lookup_insert_eq.
  exists t, sA, (set_dents (delete (w ++ [layer_name]) (dents sB)) sB). split_and!; [done..| | |].
  - by apply delete_insert_id.
  - by apply insert_subseteq.
  - unfold BuildAndPush. rewrite Hwork, Hroot. fold (ref_of p).
    replace (path_join [abs_path w; "layer.tar.gz"]) with (abs_path (w ++ [layer_name]))
      by (symmetry; apply (join_abs w [layer_name] false); [done|by apply Forall_singleton|done]).
    unfold st_bind at 1. rewrite (tarball_written s reg root w t) by done. fold i sB.
    unfold removing, st_bind, buildImageFromLayer. cbn [ofs oreg].
    rewrite (lookup_at_child sB true w layer_name (DFile i)) by done.
    assert (Ei : files sB !! i = Some (Inode (gz t) (file_mode umask 438) 0)) by apply lookup_insert_eq.
    rewrite Ei. cbn [mbind option_bind idata]. rewrite ungz_gz, Href. cbn [negb ofs oreg].
    unfold ignoring.
    destruct (remote_Write (ref_of p) _ _ _ reg); cbn [ofs oreg];
      by rewrite (Remove_child sB w layer_name (DFile i)).
Qed.
End push.

(** ** Pulling *)

Section pull.
Context `{TarGz, Registry} (umask : N).

(** An image that was unpacked was read to its end. *)
Lemma layers_whole layers d f f' :
  extract_layers umask layers d f = (Ok tt, f') → ∃ ts, layers = map whole_layer ts.
Proof.
  revert f. induction layers as [|l layers IH]; intros f; [by exists []|]. cbn [extract_layers].
  unfold st_bind at 1. destruct l as [[t ended]|]; cbn [extractLayer]; [|done].
  destruct ended.
  - destruct ((_ : ST fsys OciError unit) f) as [[u|e| |] f1]; try done. intros [ts ->]%IH.
    by exists (t :: ts).
  - unfold st_bind, unpacking. by destruct (extract_entries umask t d f) as [[]].
Qed.

Lemma pulled_whole p o o' :
  PullAndUnpack umask p o = (Ok tt, o') →
  ∃ ts, remote_Image (ppRepository p ++ ":" ++ ppTag p) (ppToken p) (ppInsecure p) (oreg o) =
          Some (whole ts).
Proof.
  unfold PullAndUnpack. destruct (ParseReference _); cbn [negb]; [|done].
  destruct (remote_Image _ _ _ _) as [img|]; [|done].
  intros (u & o1 & _ & (u1 & o2 & _ & E)%st_bind_Ok)%st_bind_Ok.
  destruct img as [layers|]; [|done].
  destruct (extract_layers umask layers (ppDestDir p) (ofs o2)) as [r f] eqn:El. injection E as -> _.
  apply layers_whole in El as [ts ->]. by exists ts.
Qed.

(** Unpacking the layer of a packed tree into an emptied directory. *)
Lemma pull_layer s0 root t p f2 reg dp dc :
  wf_fs s0 → packable s0 root → Forall name_ok root → real_dir s0 root →
  pack_dir s0 (abs_path root) = (t, Ok tt) →
  ppDestDir p = abs_path (dp ++ [dc]) → Forall name_ok dp → name_ok dc → real_dir f2 dp →
  ParseReference (ppRepository p ++ ":" ++ ppTag p) = true →
  remote_Image (ppRepository p ++ ":" ++ ppTag p) (ppToken p) (ppInsecure p) reg = Some (whole [t]) →
  ∃ st, PullAndUnpack umask p (OState f2 reg) = (Ok tt, st) ∧
    (∀ rel, rel ≠ [] → copy_of umask s0 (dents s0 !! (root ++ rel)) (ofs st)
                         (dents (ofs st) !! ((dp ++ [dc]) ++ rel))) ∧
    (∀ q, q ≠ dp ++ [dc] → ¬ below (dp ++ [dc]) q → dents (ofs st) !! q = dents f2 !! q) ∧
    own_files (dp ++ [dc]) f2 (ofs st) ∧ real_dir (ofs st) (dp ++ [dc]) ∧ files f2 ⊆ files (ofs st).
Proof.
  intros Hwf Hpk Hnr Hr Ht Hdest Hdp Hdc Hdir Href Himg.
  destruct (fresh_dir umask f2 dp dc Hdp Hdc Hdir) as (s1 & Hmk & Hr1 & Hempty & Hout & Hfiles).
  set (d := dp ++ [dc]) in *.
  assert (Hd : Forall name_ok d) by by apply Forall_app, conj, Forall_singleton.
  destruct (pack_dir_ok s0 root Hwf Hpk Hnr Hr) as (t' & Ht' & Hwalk).
  rewrite Ht in Ht'. injection Ht' as <-.
  assert (Hu : unpacked umask s0 root d s1 [] s1).
  { split; try done; [by intros q ?%not_elem_of_nil..| |].
    - intros q Hq _. by apply Hempty.
    - split; [intros q i Hq|intros q q' i Hq Hq']; by rewrite Hempty. }
  destruct (extract_list umask s0 root Hwf Hpk d s1 (walk (depth_bound s0) s0 root []) t [] s1 Hd Hu)
    as (s2 & Hrun & Hu2); try done.
  { by apply walk_parents_first; left. }
  { apply walk_NoDup. }
  { intros rel [_ ?]%(walk_all s0 root Hwf). done. }
  exists (OState s2 reg). split.
  - unfold PullAndUnpack. rewrite Href. cbn [negb oreg]. rewrite Himg, Hdest.
    unfold st_bind in Hmk. unfold st_bind, on_fs. cbn [ofs oreg].
    destruct (RemoveAll (abs_path d) f2) as [[[]|?| |] sx]; try done. cbn [ofs oreg].
    rewrite Hmk. cbn [whole map whole_layer ofs oreg extract_layers extractLayer]. unfold st_bind, unpacking.
    by rewrite Hrun.
  - cbn [ofs]. cbn [app] in Hu2. split_and!.
    + intros rel Hrel. destruct (decide (is_Some (dents s0 !! (root ++ rel)))) as [Hs|Hs].
      * apply (up_copy _ _ _ _ _ _ _ Hu2). by apply walk_all.
      * rewrite (up_rest _ _ _ _ _ _ _ Hu2) by (try done; rewrite walk_all; naive_solver).
        apply eq_None_not_Some in Hs. by rewrite Hs.
    + intros q H1 H2. rewrite (up_outside _ _ _ _ _ _ _ Hu2) by done. by apply Hout.
    + destruct (up_own _ _ _ _ _ _ _ Hu2) as [Hn Hi]. split; [|done]. by rewrite <- Hfiles.
    + apply Hu2.
    + rewrite <- Hfiles. apply Hu2.
Qed.

(** C3.  The image pushed from a directory without reserved names and sockets
    unpacks, anywhere and whatever was there before, to a copy of that
    directory: the same paths, contents and link targets, without owners,
    devices, pipes and the set-user-id, set-group-id and sticky bits.  Every
    pull of it that succeeds does, and it succeeds if the layer can be read to
    its end.  The push leaves no temporary file and the pull touches no entry
    outside its target and no content. *)
Theorem image_roundtrip p st root w :
  bpRootfsDir p = abs_path root → bpWorkDir p = abs_path w →
  Forall name_ok root → Forall name_ok w → wf_fs (ofs st) → packable (ofs st) root →
  real_dir (ofs st) root → real_dir (ofs st) w → dents (ofs st) !! (w ++ [layer_name]) = None →
  ¬ root `prefix_of` w ++ [layer_name] → ParseReference (ref_of p) = true →
  ∃ t f1, dents f1 = dents (ofs st) ∧
    BuildAndPush umask p st =
      match remote_Write (ref_of p) (bpToken p) (bpInsecure p) [t] (oreg st) with
      | Some r => (Ok (ref_of p), OState f1 r)
      | None => (Err (RemoteFailed (ref_of p)), OState f1 (oreg st))
      end ∧
    ∀ reg img pp f2 dp dc,
      remote_Write (ref_of p) (bpToken p) (bpInsecure p) [t] (oreg st) = Some reg →
      ppRepository pp ++ ":" ++ ppTag pp = ref_of p →
      remote_Image (ref_of p) (ppToken pp) (ppInsecure pp) reg = Some img →
      ppDestDir pp = abs_path (dp ++ [dc]) → Forall name_ok dp → name_ok dc → real_dir f2 dp →
      ((∃ layers, img = whole layers) → fst (PullAndUnpack umask pp (OState f2 reg)) = Ok tt) ∧
      ∀ st', PullAndUnpack umask pp (OState f2 reg) = (Ok tt, st') →
        (∀ rel, rel ≠ [] → copy_of umask (ofs st) (dents (ofs st) !! (root ++ rel)) (ofs st')
                             (dents (ofs st') !! ((dp ++ [dc]) ++ rel))) ∧
        (∀ q, q ≠ dp ++ [dc] → ¬ below (dp ++ [dc]) q → dents (ofs st') !! q = dents f2 !! q) ∧
        files f2 ⊆ files (ofs st').
Proof.
  intros Hroot Hwork Hnr Hnw Hwf Hpk Hr Hw Hnone Hout Href.
  destruct (push_layer umask p st root w) as (t & sA & f1 & Ht & HsA & Hd & _ & Hrun); try done.
  exists t, f1. split_and!; [done..|]. intros reg img pp f2 dp dc Hwrite Hsame Himg Hdest Hdp Hdc Hdir.
  assert (Hi : files (ofs st) !! fresh (dom (files (ofs st))) = None)
    by apply not_elem_of_dom, is_fresh.
  assert (Hpulled : ∀ layers, img = whole layers → ∃ st',
    PullAndUnpack umask pp (OState f2 reg) = (Ok tt, st') ∧
    (∀ rel, rel ≠ [] → copy_of umask (ofs st) (dents (ofs st) !! (root ++ rel)) (ofs st')
                         (dents (ofs st') !! ((dp ++ [dc]) ++ rel))) ∧
    (∀ q, q ≠ dp ++ [dc] → ¬ below (dp ++ [dc]) q → dents (ofs st') !! q = dents f2 !! q) ∧
    files f2 ⊆ files (ofs st')).
  { intros layers ->. pose proof (remote_last _ _ _ _ _ _ _ _ _ Hwrite Himg) as ->.
    destruct (pull_layer sA root t pp f2 reg dp dc)
      as (st' & Hpull & Hcopy & Hother & _ & _ & Hfiles); subst sA; try done.
    - by apply with_file_wf.
    - by apply with_file_packable.
    - by apply with_file_dirs.
    - by rewrite Hsame.
    - by rewrite Hsame.
    - exists st'. split_and!; [done| |done|done]. intros rel Hrel. eapply with_file_copy; eauto. }
  split.
  - intros [layers E]. destruct (Hpulled layers E) as (st' & -> & _). done.
  - intros st' Hpull. destruct (pulled_whole _ _ _ Hpull) as [ts Hts]. cbn [oreg] in Hts.
    rewrite Hsame, Himg in Hts. injection Hts as Hts. destruct (Hpulled ts Hts) as (st2 & E & H3).
    rewrite Hpull in E. injection E as <-. exact H3.
Qed.
End pull.

(** ** A registry and a tree *)

#[export] Instance Typeflag_eq_dec : EqDecision Typeflag.
Proof. solve_decision. Defined.
#[export] Instance Header_eq_dec : EqDecision Header.
Proof. solve_decision. Defined.

Definition flag_code (t : Typeflag) : nat :=
  match t with
  | TypeReg => 0 | TypeDir => 1 | TypeSymlink => 2 | TypeLink => 3 | TypeChar => 4
  | TypeBlock => 5 | TypeFifo => 6
  end.

Definition flag_of (n : nat) : Typeflag :=
  match n with
  | 0 => TypeReg | 1 => TypeDir | 2 => TypeSymlink | 3 => TypeLink | 4 => TypeChar
  | 5 => TypeBlock | _ => TypeFifo
  end.

#[export] Instance Header_countable : Countable Header.
Proof.
  apply (inj_countable'
    (λ h, (hName h, flag_code (hType h), hMode h, hLinkname h, hUid h))
    (λ x, let '(n, t, m, l, u) := x in MkHeader n (flag_of t) m l u)).
  by intros [n [] m l u].
Defined.

(** Numbers as text, for an archive format that can be read back. *)
Fixpoint pos_text (p : positive) : gostring :=
  match p with
  | xH => []
  | xO p' => "0"%char :: pos_text p'
  | xI p' => "1"%char :: pos_text p'
  end.

Fixpoint text_pos (s : gostring) : positive :=
  match s with
  | [] => xH
  | c :: s' => if Ascii.eqb c "0" then xO (text_pos s') else xI (text_pos s')
  end.

Lemma text_pos_text p : text_pos (pos_text p) = p.
Proof. induction p; simpl; congruence. Qed.

Lemma sample_ungz (t : tar) : decode (text_pos (pos_text (encode t))) = Some t.
Proof. by rewrite text_pos_text, decode_encode. Qed.

#[local] Instance sample_targz : TarGz := {
  gz := λ t, pos_text (encode t);
  ungz := λ s, decode (text_pos s);
  ungz_gz := sample_ungz }.

Lemma sample_last (ref : gostring) (img img' : list tar) (r r' : gmap gostring (list tar)) :
  Some (<[ref := img]> r) = Some r' → whole <$> (r' !! ref) = Some (whole img') → img' = img.
Proof.
  intros [= <-]. rewrite lookup_insert_eq. cbn [fmap option_fmap option_map]. intros E.
  injection E as E. symmetry. revert img' E.
  induction img as [|x img IH]; intros [|y img'] E; try done. injection E as -> E. f_equal. by apply IH.
Qed.

#[local] Instance sample_registry : Registry := {
  registry := gmap gostring (list tar);
  ParseReference := λ _, true;
  remote_Write := λ ref _ _ img r, Some (<[ref := img]> r);
  remote_Image := λ ref _ _ r, whole <$> r !! ref;
  remote_last := λ ref _ _ _ _ img img' r r', sample_last ref img img' r r' }.

(** /r holds a set-user-id program, a link, a device and a sticky directory. *)
Definition sample_list : list (path * dent) :=
  [(["r"], DDir 493 0); (["r"; "su"], DFile 1); (["r"; "sh"], DSym "su");
   (["r"; "null"], DSpecial CharDevice 438); (["r"; "tmp"], DDir 1023 0);
   (["r"; "tmp"; "x"], DFile 2); (["w"], DDir 493 0)].

Definition sample_fs : fsys :=
  Fs (list_to_map sample_list)
     {[ 1 := Inode "elf" 2541 0; 2 := Inode "note" 420 1000 ]}.

Lemma sample_lookup q x : dents sample_fs !! q = Some x → (q, x) ∈ sample_list.
Proof. apply elem_of_list_to_map_2. Qed.

Lemma sample_names q x : (q, x) ∈ sample_list → Forall name_ok q.
Proof.
  assert (H : Forall (λ e : path * dent, Forall name_ok e.1) sample_list).
  { repeat (constructor; cbn [fst]); try done. }
  rewrite Forall_forall in H. intros Hq. by apply (H (q, x)).
Qed.

Lemma sample_wf : wf_fs sample_fs.
Proof.
  split.
  - intros p c [x Hx]. apply sample_lookup in Hx.
    assert (H : Forall (λ e : path * dent, removelast e.1 = [] ∨
      ∃ m o, dents sample_fs !! removelast e.1 = Some (DDir m o)) sample_list).
    { repeat (apply Forall_cons; split;
              [(left; reflexivity) || (right; eexists _, _; vm_compute; reflexivity)|]).
      by apply Forall_nil. }
    rewrite Forall_forall in H. specialize (H _ Hx). cbn [fst] in H.
    by rewrite removelast_last in H.
  - intros q [x Hx]. apply sample_lookup in Hx. by eapply sample_names.
  - intros q i Hx. apply sample_lookup in Hx.
    assert (H : Forall (λ e : path * dent, ∀ i, e.2 = DFile i → is_Some (files sample_fs !! i))
                  sample_list).
    { repeat (apply Forall_cons; split; [intros ? [= <-]; by eexists || done|]).
      by apply Forall_nil. }
    rewrite Forall_forall in H. by apply (H (q, DFile i)).
  - reflexivity.
Qed.

Lemma sample_packable : packable sample_fs ["r"].
Proof.
  intros rel c x Hx.
  assert (H : Forall (λ e : path * dent, HasPrefix (List.last e.1 []) ".wh." = false ∧
                        ∀ m, e.2 ≠ DSpecial Socket m) sample_list).
  { repeat (apply Forall_cons; split; [by split|]). by apply Forall_nil. }
  rewrite Forall_forall in H. apply sample_lookup in Hx. specialize (H _ Hx). cbn [fst snd] in H.
  rewrite app_assoc, last_last in H. done.
Qed.

Lemma sample_real p : p = ["r"] ∨ p = ["w"] → real_dir sample_fs p.
Proof.
  intros Hp q Hq [r Hr]. destruct q as [|x [|y q]]; [done| |].
  - destruct Hp as [-> | ->]; injection Hr as <- _; eexists _, _; vm_compute; reflexivity.
  - by destruct Hp as [-> | ->].
Qed.

Definition sample_push : BuildParams := MkBuildParams "/r" "ghcr.io/a/b" "latest" "t" "/w" false.
Definition sample_pull : PullParams := MkPullParams "ghcr.io/a/b" "latest" "t" "/w/d" false.

(** The set-user-id program comes back as an ordinary one. *)
Lemma image_roundtrip_witness :
  ∃ reg st j, PullAndUnpack 18 sample_pull (OState sample_fs reg) = (Ok tt, st) ∧
    dents (ofs st) !! ["w"; "d"; "su"] = Some (DFile j) ∧
    files (ofs st) !! j = Some (Inode "elf" 493 0) ∧
    dents (ofs st) !! ["w"; "d"; "null"] = None.
Proof.
  destruct (image_roundtrip 18 sample_push (OState sample_fs ∅) ["r"] ["w"])
    as (t & f1 & _ & _ & Hpull);
    [reflexivity|reflexivity|by repeat constructor|by repeat constructor|exact sample_wf
    |exact sample_packable|apply sample_real; by left|apply sample_real; by right
    |vm_compute; reflexivity|intros [? ?]; discriminate|reflexivity|].
  set (reg := <[ref_of sample_push := [t]]> ∅ : gmap gostring (list tar)).
  destruct (Hpull reg (whole [t]) sample_pull sample_fs ["w"] "d") as [Hok Hall];
    [reflexivity|reflexivity|exact (f_equal (fmap whole) (lookup_insert_eq _ _ _))|reflexivity
    |by repeat constructor|by split_and!|apply sample_real; by right|].
  destruct (PullAndUnpack 18 sample_pull (@OState sample_registry sample_fs reg)) as [r st] eqn:Hrun.
  cbn [fst] in Hok. specialize (Hok (ex_intro _ [t] eq_refl)). subst r.
  destruct (Hall st eq_refl) as (Hcopy & _).
  destruct (Hcopy ["su"]) as (n & j & Hn & Hd & Hj); [done|].
  exists reg, st, j. split_and!; [exact Hrun|exact Hd| |].
  - rewrite Hj. vm_compute in Hn. injection Hn as <-. reflexivity.
  - by apply (Hcopy ["null"]).
Defined.

(** ** Limits of unpacking *)

(** Where a relative name leads from a directory, read element by element:
    empty elements and single dots stay, double dots go one level up. *)
Fixpoint follow (cur : path) (es : list gostring) : path :=
  match es with
  | [] => cur
  | e :: es' =>
      if decide (e = [] ∨ e = ".") then follow cur es'
      else if decide (e = "..") then follow (removelast cur) es'
      else follow (cur ++ [e]) es'
  end.

Definition slash_free (e : gostring) : Prop := mem "/" e = false.

Lemma split_Join_free es :
  es ≠ [] → Forall slash_free es → split_on "/" (Join es "/") = es.
Proof.
  intros Hne H. induction H as [|e es He H IH]; [done|]. destruct es as [|e' es].
  - simpl. by apply split_on_notin.
  - change (Join (e :: e' :: es) "/") with (e ++ "/"%char :: Join (e' :: es) "/").
    rewrite split_on_app by done. by rewrite IH.
Qed.

Lemma removelast_names cur : Forall name_ok cur → Forall name_ok (removelast cur).
Proof.
  intros H. destruct cur as [|x cur _] using rev_ind; [done|]. rewrite removelast_last.
  by apply Forall_app in H as [? _].
Qed.

Lemma follow_names cur es : Forall name_ok cur → Forall slash_free es → Forall name_ok (follow cur es).
Proof.
  intros Hc H. revert cur Hc. induction H as [|e es He H IH]; intros cur Hc; cbn [follow]; [done|].
  destruct (decide (e = [] ∨ e = ".")) as [|H1]; [by apply IH|].
  destruct (decide (e = "..")) as [|H2]; [by apply IH, removelast_names|].
  apply IH, Forall_app. split; [done|]. apply Forall_singleton. split_and!; tauto || done.
Qed.

(** [filepath.Clean] of a rooted path follows its elements. *)
Lemma clean_follow es cur :
  Forall name_ok cur → Forall slash_free es → clean_elems true es (rev cur) = follow cur es.
Proof.
  intros Hc H. revert cur Hc. induction H as [|e es He H IH]; intros cur Hc; cbn [clean_elems follow].
  { apply rev_involutive. }
  destruct (str_eqb_spec e []) as [->|H1]; [rewrite decide_True by auto; by apply IH|].
  destruct (str_eqb_spec e ".") as [->|H2]; [rewrite decide_True by auto; by apply IH|].
  cbn [orb]. rewrite (decide_False (P := e = [] ∨ e = ".")) by tauto.
  destruct (str_eqb_spec e "..") as [->|H3].
  - rewrite decide_True by done. destruct cur as [|x cur _] using rev_ind; [exact (IH [] Hc)|].
    rewrite rev_app_distr, removelast_last. cbn [rev app].
    apply Forall_app in Hc as [Hc [Hx _]%Forall_cons_1].
    rewrite (proj2 (str_eqb_neq x "..")) by apply Hx. by apply IH.
  - rewrite decide_False by done. specialize (IH (cur ++ [e])). rewrite rev_app_distr in IH.
    apply IH, Forall_app. split; [done|]. apply Forall_singleton. split_and!; tauto || done.
Qed.

Lemma follow_app cur es1 es2 : follow cur (es1 ++ es2) = follow (follow cur es1) es2.
Proof.
  revert cur. induction es1 as [|e es1 IH]; intros cur; cbn [app follow]; [done|].
  destruct (decide (e = [] ∨ e = ".")); [apply IH|]. destruct (decide (e = "..")); apply IH.
Qed.

Lemma follow_plain cur es : Forall name_ok es → follow cur es = cur ++ es.
Proof.
  intros H. revert cur. induction H as [|e es (H1 & H2 & H3 & _) H IH]; intros cur; cbn [follow].
  { by rewrite app_nil_r. }
  rewrite decide_False by tauto. rewrite decide_False by done. rewrite IH. by rewrite <- app_assoc.
Qed.

(** Joining any name to an absolute path. *)
Lemma join_follow d es c :
  Forall name_ok d → Forall slash_free es → name_ok c →
  path_join [abs_path d; Join (es ++ [c]) "/"] = abs_path (follow d es ++ [c]).
Proof.
  intros Hd He Hc. assert (Hf : Forall slash_free (es ++ [c])).
  { apply Forall_app. split; [done|]. apply Forall_singleton. apply Hc. }
  cbn [path_join]. change (str_eqb (abs_path d) []) with false. cbv iota.
  change (Join [abs_path d; Join (es ++ [c]) "/"] "/")
    with (abs_path d ++ "/"%char :: Join (es ++ [c]) "/").
  unfold Clean. rewrite (proj2 (HasPrefix_iff _ _)) by by eexists. cbv iota. unfold abs_path at 2.
  do 2 f_equal. rewrite split_on_cat, split_abs_path, split_Join_free by (try done; by destruct es).
  assert (Hd' : Forall slash_free ([] :: match d with [] => [[]] | _ => d end)).
  { constructor; [done|]. destruct d as [|x d]; [by repeat constructor|].
    eapply Forall_impl; [exact Hd|]. by intros y (_ & _ & _ & Hy). }
  pose proof (clean_follow (([] :: match d with [] => [[]] | _ => d end) ++ es ++ [c]) []) as Hcl.
  cbn [rev] in Hcl. rewrite Hcl; [clear Hcl|constructor|by apply Forall_app].
  rewrite follow_app. cbn [follow]. rewrite decide_True by auto.
  assert (E : follow [] match d with [] => [[]] | _ => d end = d).
  { destruct d as [|x d]; [done|]. by rewrite follow_plain. }
  rewrite E, follow_app. apply (follow_plain _ [c]). by apply Forall_singleton.
Qed.

Lemma Base_free es c : Forall slash_free es → name_ok c → Base (Join (es ++ [c]) "/") = c.
Proof.
  intros He Hc. destruct (Join_last es c) as [r Er]. unfold Base.
  assert (Hne : Join (es ++ [c]) "/" ≠ []) by (rewrite Er; destruct r; [by destruct Hc|done]).
  rewrite (proj2 (str_eqb_neq _ _)) by done. rewrite Er at 1. rewrite drop_slashes_name by done.
  destruct (rev (r ++ c)) eqn:Erev.
  { apply (f_equal (@rev ascii)) in Erev. rewrite rev_involutive, <- Er in Erev. done. }
  rewrite <- Erev, rev_involutive, <- Er, split_Join_free; [by rewrite last_snoc|by destruct es|].
  apply Forall_app. split; [done|]. apply Forall_singleton. apply Hc.
Qed.



(** An opaque marker removes what its own layer brought before it, not only
    what came from the layers below. *)
Theorem opaque_removes_own :
  ∃ s, extract_entries 18 [(MkHeader "new" TypeReg 420 [] 0, "n" : gostring);
                           (MkHeader ".wh..wh..opq" TypeReg 420 [] 0, [])] "/w" sample_fs =
         (Ok tt, s) ∧ dents s !! ["w"; "new"] = None.
Proof. eexists. split; vm_compute; reflexivity. Qed.
