(* ===== verification/Layers.v ===== *)
(** * Layered images

    An image is a stack of layers.  What it means is said by [overlay]: at each
    path the topmost layer that speaks of it decides, with what it put there or
    with a whiteout that hides what the layers below have.  [PullAndUnpack]
    replays the entries of the layers one by one on a directory; that this
    gives the overlay is shown in two steps, through trees as maps ([apply]).

    Permission bits are left out of the comparison, since a file that a layer
    replaces keeps the ones it had; hard links are left out altogether. *)

From Stdlib Require Import Ascii String Lia.
From stdpp Require Import base list gmap strings.
From S2P Require Import Prelude GoStrings GoNumbers GoSort GoPath Fs FsProps FsWalk Oci OciProps.

(** ** What an entry says *)

(** What is at a path; [NOther] is none of what a layer puts there. *)
Inductive node : Type :=
| NDir
| NFile (data : gostring)
| NSym (target : gostring)
| NOther.

(** What an entry of a layer says of the paths in the image. *)
Inductive item : Type :=
| Put (p : path) (n : node)
| Hide (p : path)
| Opaque (q : path)
| Skip.

Abbreviation tree := (gmap path node).

#[export] Instance node_eq_dec : EqDecision node.
Proof. solve_decision. Defined.

(** The node of an entry that is no whiteout. *)
Definition item_at (hdr : Header) (data : gostring) (p : path) : option item :=
  match hType hdr with
  | TypeDir => Some (Put p NDir)
  | TypeReg => Some (Put p (NFile data))
  | TypeSymlink => Some (Put p (NSym (hLinkname hdr)))
  | TypeLink => None
  | _ => Some Skip
  end.

(** The meaning of an entry whose name is a relative path in its shortest form,
    with the slash tar adds to directories.  Hard links have none here. *)
Definition item_of (e : Header * gostring) : option item :=
  let '(hdr, data) := e in
  let es := elems (hName hdr) in
  if decide (Forall name_ok es) then
    match last es with
    | None => None
    | Some c =>
        let q := removelast es in
        if HasPrefix c ".wh." then
          if decide (hName hdr = Join es "/") then
            let n := TrimPrefix c ".wh." in
            if str_eqb n ".wh..opq" then Some (Opaque q)
            else if decide (name_ok n) then Some (Hide (q ++ [n])) else None
          else None
        else if decide (hName hdr = Join es "/" ∨ hName hdr = Join es "/" ++ "/")
             then item_at hdr data es else None
    end
  else None.

Definition items_of (layer : tar) : option (list item) := mapM item_of layer.

(** ** What an image shows *)

(** What a layer puts at a path: its last entry there, or a directory where it
    has an entry further below. *)
Fixpoint put_by (l : list item) (p : path) : option node :=
  match l with
  | [] => None
  | i :: l' =>
      match put_by l' p with
      | Some n => Some n
      | None =>
          match i with
          | Put q n => if decide (q = p) then Some n else if decide (below p q) then Some NDir else None
          | _ => None
          end
      end
  end.

(** Whether an entry hides what the layers below have at a path. *)
Definition covers (p : path) (i : item) : Prop :=
  match i with
  | Hide q => q `prefix_of` p
  | Opaque q => below q p
  | _ => False
  end.

#[export] Instance covers_dec p i : Decision (covers p i).
Proof. destruct i; simpl; apply _. Defined.

(** The image with these layers, the topmost first. *)
Fixpoint overlay (layers : list (list item)) (p : path) : option node :=
  match layers with
  | [] => None
  | l :: lower =>
      match put_by l p with
      | Some n => Some n
      | None => if decide (Exists (covers p) l) then None else overlay lower p
      end
  end.

(** ** Layers that can be replayed *)

Definition dir_in (T : tree) (p : path) : Prop := p = [] ∨ T !! p = Some NDir.

(** The paths on the way to [q], itself included. *)
Fixpoint ways (cur q : path) : list path :=
  match q with
  | [] => []
  | c :: q' => (cur ++ [c]) :: ways (cur ++ [c]) q'
  end.

(** Nothing but directories on the way. *)
Definition clear (T : tree) (q : path) : Prop :=
  Forall (λ a, T !! a = None ∨ T !! a = Some NDir) (ways [] q).

#[export] Instance clear_dec T q : Decision (clear T q).
Proof. unfold clear. apply _. Defined.

(** The directories on the way made. *)
Definition add_dirs (T : tree) (q : path) : tree :=
  foldl (λ T a, <[a := NDir]> T) T (ways [] q).

(** A directory stays one, a file may replace a file, and a link anything but a
    directory. *)
Definition replaces (old : option node) (n : node) : bool :=
  match n, old with
  | NDir, (None | Some NDir) => true
  | NFile _, (None | Some (NFile _)) => true
  | NSym _, (None | Some (NFile _ | NSym _)) => true
  | _, _ => false
  end.

(** One entry on a tree; [None] where something else than a directory is in the
    way or the kinds do not fit. *)
Definition apply (T : tree) (i : item) : option tree :=
  match i with
  | Put p n =>
      if decide (p ≠ [] ∧ clear T (removelast p) ∧ replaces (T !! p) n = true)
      then Some (<[p := n]> (add_dirs T (removelast p))) else None
  | Hide p =>
      if decide (p ≠ [] ∧ clear T (removelast p))
      then Some (filter (λ e, ¬ covers e.1 i) T) else None
  | Opaque q =>
      if decide (clear T q) then Some (filter (λ e, ¬ covers e.1 i) T) else None
  | Skip => Some T
  end.

Fixpoint apply_all (T : tree) (l : list item) : option tree :=
  match l with
  | [] => Some T
  | i :: l' => match apply T i with Some T' => apply_all T' l' | None => None end
  end.

(** The layers of an image, the lowest first. *)
Fixpoint build (T : tree) (layers : list (list item)) : option tree :=
  match layers with
  | [] => Some T
  | l :: layers' => match apply_all T l with Some T' => build T' layers' | None => None end
  end.

(** No whiteout comes after an entry of its own layer that it covers. *)
Fixpoint whiteouts_first (l : list item) : Prop :=
  match l with
  | [] => True
  | i :: l' =>
      match i with Put p _ => ¬ Exists (covers p) l' | _ => True end ∧ whiteouts_first l'
  end.

#[export] Instance whiteouts_first_dec l : Decision (whiteouts_first l).
Proof. induction l as [|[] l IH]; simpl; apply _. Defined.

(** ** Replaying on trees gives the overlay *)

Lemma covers_above p r i : covers p i → covers (p ++ r) i.
Proof.
  destruct i as [| |q|]; simpl; try done.
  - intros H. by apply prefix_app_r.
  - intros (c & r' & ->). exists c, (r' ++ r). by rewrite <- app_assoc.
Qed.

Lemma ways_snoc cur q c : ways cur (q ++ [c]) = ways cur q ++ [cur ++ q ++ [c]].
Proof.
  revert cur. induction q as [|x q IH]; intros cur; [done|]. cbn [app ways]. f_equal. rewrite IH.
  by rewrite <- !app_assoc.
Qed.

Lemma prefix_of_snoc (a q : path) c : a `prefix_of` q ++ [c] ↔ a = q ++ [c] ∨ a `prefix_of` q.
Proof.
  split; [|intros [->|H]; [done|by apply prefix_app_r]]. intros [r Hr].
  destruct r as [|x r _] using rev_ind; [left; by rewrite app_nil_r in Hr|right].
  rewrite app_assoc in Hr. apply app_inj_tail in Hr as [-> _]. by eexists.
Qed.

Lemma elem_of_ways a q : a ∈ ways [] q ↔ a ≠ [] ∧ a `prefix_of` q.
Proof.
  induction q as [|c q IH] using rev_ind.
  - split; [by intros ?%not_elem_of_nil|]. intros [Ha [r Hr]]. by destruct a.
  - rewrite ways_snoc, elem_of_app, list_elem_of_singleton, IH, prefix_of_snoc. cbn [app].
    split; [intros [?| ->]; [tauto|]|tauto]. split; [by destruct q|by left].
Qed.

Lemma clear_alt T q :
  clear T q ↔ ∀ a, a ≠ [] → a `prefix_of` q → T !! a = None ∨ T !! a = Some NDir.
Proof. unfold clear. rewrite Forall_forall. setoid_rewrite elem_of_ways. naive_solver. Qed.

Lemma add_dirs_snoc T q c : add_dirs T (q ++ [c]) = <[q ++ [c] := NDir]> (add_dirs T q).
Proof. unfold add_dirs. by rewrite ways_snoc, foldl_app. Qed.

Lemma add_dirs_lookup T q a :
  add_dirs T q !! a = if decide (a ≠ [] ∧ a `prefix_of` q) then Some NDir else T !! a.
Proof.
  induction q as [|c q IH] using rev_ind.
  - rewrite decide_False; [done|]. intros [Ha [r Hr]]. by destruct a.
  - rewrite add_dirs_snoc. destruct (decide (a = q ++ [c])) as [->|Hne].
    + rewrite lookup_insert_eq, decide_True; [done|]. split; [by destruct q|done].
    + rewrite lookup_insert_ne, IH by done. apply decide_ext. rewrite prefix_of_snoc. tauto.
Qed.

Lemma below_parent (a q : path) c : below a (q ++ [c]) ↔ a `prefix_of` q.
Proof.
  split.
  - intros (x & r & E). destruct r as [|y r _] using rev_ind.
    + apply app_inj_tail in E as [-> _]. done.
    + rewrite app_comm_cons, app_assoc in E. apply app_inj_tail in E as [-> _]. by eexists.
  - intros [r ->]. destruct r as [|x r]; [exists c, []; by rewrite app_nil_r|].
    exists x, (r ++ [c]). by rewrite <- app_assoc.
Qed.

Lemma apply_lookup T i T' p :
  p ≠ [] → apply T i = Some T' →
  T' !! p = match put_by [i] p with
            | Some n => Some n
            | None => if decide (covers p i) then None else T !! p
            end.
Proof.
  intros Hp H. destruct i as [q n|q|q|]; cbn [apply] in H; cbn [put_by].
  - destruct (decide (q ≠ [] ∧ _)) as [(Hq & _)|]; [|done]. injection H as <-.
    destruct (decide (q = p)) as [->|Hne]; [apply lookup_insert_eq|].
    rewrite lookup_insert_ne, add_dirs_lookup by done.
    destruct q as [|c q _] using rev_ind; [done|]. rewrite removelast_last.
    rewrite (decide_ext (p ≠ [] ∧ p `prefix_of` q) (below p (q ++ [c]))) by (rewrite below_parent; tauto).
    destruct (decide (below p (q ++ [c]))); [done|]. by case_decide.
  - destruct (decide (q ≠ [] ∧ _)); [|done]. injection H as <-. destruct (decide (covers p _)) as [Hc|Hc].
    + apply map_lookup_filter_None. right. intros x _. cbn. tauto.
    + destruct (T !! p) eqn:E; [by apply map_lookup_filter_Some|by apply map_lookup_filter_None; left].
  - destruct (decide (clear T q)); [|done]. injection H as <-. destruct (decide (covers p _)) as [Hc|Hc].
    + apply map_lookup_filter_None. right. intros x _. cbn. tauto.
    + destruct (T !! p) eqn:E; [by apply map_lookup_filter_Some|by apply map_lookup_filter_None; left].
  - injection H as <-. by case_decide.
Qed.

(** Whiteouts only take away. *)
Lemma apply_sub T i T' : (∀ p n, i ≠ Put p n) → apply T i = Some T' → T' ⊆ T.
Proof.
  intros Hi H. destruct i as [p n|q|q|]; cbn [apply] in H; [by destruct (Hi p n)|..].
  - destruct (decide _); [|done]. injection H as <-. apply map_filter_subseteq.
  - destruct (decide _); [|done]. injection H as <-. apply map_filter_subseteq.
  - by injection H as <-.
Qed.

(** What a layer puts is hidden by none of its later whiteouts. *)
Lemma put_uncovered i l p n :
  whiteouts_first (i :: l) → put_by [i] p = Some n → ¬ Exists (covers p) l.
Proof.
  intros [Hi _] Hp Hx. destruct i as [q m| | |]; try done. cbn [put_by] in Hp. apply Hi.
  eapply Exists_impl; [exact Hx|]. intros j Hj.
  destruct (decide (q = p)) as [->|]; [done|].
  destruct (decide (below p q)) as [(x & r & ->)|]; [|done]. by apply covers_above.
Qed.

Lemma apply_all_lookup T l T' p :
  p ≠ [] → whiteouts_first l → apply_all T l = Some T' →
  T' !! p = match put_by l p with
            | Some n => Some n
            | None => if decide (Exists (covers p) l) then None else T !! p
            end.
Proof.
  intros Hp. revert T. induction l as [|i l IH]; intros T Hw H; cbn [apply_all] in H.
  { injection H as <-. cbn [put_by rev overlay]. case_decide as Hx; [by inversion Hx|done]. }
  destruct (apply T i) as [T1|] eqn:E; [|done].
  rewrite (IH T1 (proj2 Hw) H), (apply_lookup T i T1 p Hp E).
  pose proof (put_uncovered i l p) as Hun. cbn [put_by] in Hun |- *.
  destruct (put_by l p) as [n|]; [done|].
  match goal with |- context [match ?x with Some _ => _ | None => _ end] => destruct x as [n|] end.
  - rewrite decide_False; [done|]. by eapply Hun.
  - destruct (decide (Exists (covers p) l)) as [H1|H1], (decide (covers p i)) as [H2|H2],
      (decide (Exists (covers p) (i :: l))) as [H3|H3]; rewrite Exists_cons in H3; tauto.
Qed.

Lemma overlay_app l1 l2 p :
  overlay (l1 ++ l2) p =
    match overlay l1 p with
    | Some n => Some n
    | None => if decide (Exists (λ l, Exists (covers p) l) l1) then None else overlay l2 p
    end.
Proof.
  induction l1 as [|l l1 IH]; cbn [app overlay].
  { case_decide as Hx; [by inversion Hx|done]. }
  destruct (put_by l p) as [n|] eqn:Ep; [done|]. rewrite IH.
  destruct (decide (Exists (covers p) l)) as [H1|H1], (overlay l1 p) as [n|] eqn:El; try done;
    repeat case_decide; rewrite ?Exists_cons in *; cbv beta in *; tauto.
Qed.

Lemma build_lookup T layers T' p :
  p ≠ [] → Forall whiteouts_first layers → build T layers = Some T' →
  T' !! p = match overlay (rev layers) p with
            | Some n => Some n
            | None => if decide (Exists (λ l, Exists (covers p) l) (rev layers))
                      then None else T !! p
            end.
Proof.
  intros Hp Hw. revert T. induction Hw as [|l layers Hl Hw IH]; intros T H; cbn [build rev] in *.
  { injection H as <-. cbn [put_by rev overlay]. case_decide as Hx; [by inversion Hx|done]. }
  destruct (apply_all T l) as [T1|] eqn:E; [|done]. rewrite (IH T1 H), overlay_app.
  rewrite (apply_all_lookup T l T1 p Hp Hl E). destruct (overlay (rev layers) p) as [n|]; [done|].
  cbn [overlay]. rewrite (decide_ext (Exists _ (rev layers ++ [l]))
    (Exists (λ l, Exists (covers p) l) (rev layers) ∨ Exists (covers p) l))
    by (rewrite Exists_app, Exists_cons, Exists_nil; tauto).
  destruct (decide (Exists _ (rev layers))) as [H1|H1].
  { case_decide; tauto. }
  destruct (put_by l p); [done|].
  destruct (decide (Exists (covers p) l)); case_decide; tauto.
Qed.

Lemma build_overlay layers T p :
  p ≠ [] → Forall whiteouts_first layers → build ∅ layers = Some T →
  T !! p = overlay (rev layers) p.
Proof.
  intros Hp Hw Hb. rewrite (build_lookup ∅ layers T p Hp Hw Hb). rewrite lookup_empty.
  destruct (overlay (rev layers) p); [done|]. by case_decide.
Qed.

(** The entries of an image that have a meaning, by their names. *)
Inductive reads (hdr : Header) (data : gostring) : item → Prop :=
| reads_plain q c slash i :
    Forall name_ok q → name_ok c → HasPrefix c ".wh." = false →
    hName hdr = Join (q ++ [c]) "/" ++ trail slash →
    item_at hdr data (q ++ [c]) = Some i → reads hdr data i
| reads_opaque q :
    Forall name_ok q → hName hdr = Join (q ++ [".wh..wh..opq" : gostring]) "/" →
    reads hdr data (Opaque q)
| reads_hide q n :
    Forall name_ok q → name_ok n → n ≠ ".wh..opq" → hName hdr = Join (q ++ [".wh." ++ n]) "/" →
    reads hdr data (Hide (q ++ [n])).

Lemma item_of_reads hdr data i : item_of (hdr, data) = Some i → reads hdr data i.
Proof.
  unfold item_of. set (es := elems (hName hdr)). destruct (decide (Forall name_ok es)) as [Hn|]; [|done].
  destruct es as [|c q _] using rev_ind; [done|]. rewrite last_snoc, removelast_last.
  apply Forall_app in Hn as [Hq [Hc _]%Forall_cons_1]. destruct (HasPrefix c ".wh.") eqn:Hw.
  - pose proof Hw as Hw'. apply HasPrefix_iff in Hw' as [n ->].
    destruct (decide _) as [En|]; [|done]. unfold TrimPrefix. rewrite Hw, drop_app_length.
    destruct (str_eqb n ".wh..opq") eqn:Eo.
    + apply str_eqb_eq in Eo as ->. intros [= <-]. by apply reads_opaque.
    + apply str_eqb_neq in Eo. destruct (decide _); [|done]. intros [= <-]. by apply reads_hide.
  - destruct (decide _) as [En|]; [|done].
    destruct En as [En|En]; [apply (reads_plain _ _ q c false)|apply (reads_plain _ _ q c true)]; try done.
    unfold trail. by rewrite app_nil_r.
Qed.

(** ** Replaying on a directory *)

Definition node_of (f : fsys) (x : dent) : node :=
  match x with
  | DDir _ _ => NDir
  | DFile i => match files f !! i with Some n => NFile (idata n) | None => NOther end
  | DSym t => NSym t
  | DSpecial _ _ => NOther
  end.

Definition node_at (f : fsys) (p : path) : option node := node_of f <$> dents f !! p.

Lemma prefix_below (p q : path) : p `prefix_of` q ↔ q = p ∨ below p q.
Proof.
  split.
  - intros [[|c r] ->]; [left; by rewrite app_nil_r|right]. by exists c, r.
  - intros [->|(c & r & ->)]; [done|by eexists].
Qed.

Lemma below_app (d p : path) : p ≠ [] → below d (d ++ p).
Proof. destruct p as [|c r]; [done|]. by exists c, r. Qed.

Section replay.
Context (umask : N) (d : path) (Hd : Forall name_ok d) (f1 : fsys).

(** The directory holds the tree and nothing else, in files of its own, and the
    rest of the file system is as it was. *)
Record shown (T : tree) (f : fsys) : Prop := {
  sh_dir : real_dir f d;
  sh_nodes : ∀ p, p ≠ [] → node_at f (d ++ p) = T !! p;
  sh_top : T !! [] = None;
  sh_closed : ∀ p c, is_Some (T !! (p ++ [c])) → dir_in T p;
  sh_names : ∀ p, is_Some (T !! p) → Forall name_ok p;
  sh_own : own_files d f1 f;
  sh_outside : ∀ q, ¬ below d q → dents f !! q = dents f1 !! q;
  sh_files : files f1 ⊆ files f }.

Lemma shown_dir T f q : shown T f → dir_in T q → real_dir f (d ++ q).
Proof.
  intros Hs. induction q as [|c q IH] using rev_ind; intros Hq.
  { rewrite app_nil_r. apply Hs. }
  destruct Hq as [Hq|Hq]; [by destruct q|].
  assert (Hqd : dir_in T q) by (eapply sh_closed; [done|rewrite Hq; eauto]).
  pose proof (sh_nodes _ _ Hs (q ++ [c])) as Hx. rewrite Hq in Hx.
  specialize (Hx ltac:(by destruct q)). unfold node_at in Hx. apply fmap_Some in Hx as (x & Hx & Ex).
  destruct x as [m o|i| |]; simpl in Ex; try done; [|by destruct (files f !! i)].
  rewrite app_assoc in *. by eapply real_dir_snoc; [apply IH|].
Qed.

Lemma shown_entry T f p : shown T f → p ≠ [] → is_Some (dents f !! (d ++ p)) ↔ is_Some (T !! p).
Proof. intros Hs Hp. rewrite <- (sh_nodes _ _ Hs p Hp). unfold node_at. by rewrite fmap_is_Some. Qed.

(** A new entry, or one in the place of another. *)
Lemma shown_put T f f' q c x n :
  shown T f → dir_in T q → Forall name_ok q → name_ok c →
  dents f' = <[d ++ q ++ [c] := x]> (dents f) → files f ⊆ files f' → node_of f' x = n →
  (T !! (q ++ [c]) = Some NDir → n = NDir) →
  (∀ i, x = DFile i → files f !! i = None ∧ is_Some (files f' !! i)) →
  shown (<[q ++ [c] := n]> T) f'.
Proof.
  intros Hs Hq Hqn Hcn Hds Hfs Hn Hdir Hx.
  assert (Hpc : q ++ [c] ≠ []) by by destruct q.
  assert (Hsame : ∀ p, ¬ p = q ++ [c] → dents f' !! (d ++ p) = dents f !! (d ++ p)).
  { intros p Hp. rewrite Hds, lookup_insert_ne; [done|]. by intros E%app_inv_head. }
  assert (Hold : ∀ p i, p ≠ [] → dents f !! (d ++ p) = Some (DFile i) → files f' !! i = files f !! i).
  { intros p i Hp E. destruct (own_new _ _ _ (sh_own _ _ Hs) p i Hp E) as [_ [m Hm]].
    rewrite Hm. by eapply lookup_weaken. }
  assert (Hout : ∀ p, ¬ below d p → dents f' !! p = dents f !! p).
  { intros p Hp. rewrite Hds, lookup_insert_ne; [done|]. intros <-. apply Hp. by apply below_app. }
  assert (Hd' : ∀ p, dir_in T p → dir_in (<[q ++ [c] := n]> T) p).
  { intros p [->|Hp]; [by left|right]. destruct (decide (p = q ++ [c])) as [->|Hne].
    - rewrite lookup_insert_eq. f_equal. by apply Hdir.
    - by rewrite lookup_insert_ne. }
  split.
  - eapply real_dir_mono; [apply Hs|]. intros p Hp. apply Hout. intros (y & r & ->).
    apply prefix_length in Hp. rewrite length_app in Hp. simpl in Hp. lia.
  - intros p Hp. unfold node_at. destruct (decide (p = q ++ [c])) as [->|Hne].
    + rewrite Hds, !lookup_insert_eq. simpl. by rewrite Hn.
    + rewrite Hsame, lookup_insert_ne by done. rewrite <- (sh_nodes _ _ Hs p Hp). unfold node_at.
      destruct (dents f !! (d ++ p)) as [[]|] eqn:E; try done. simpl. by rewrite (Hold p ino).
  - rewrite lookup_insert_ne by done. apply Hs.
  - intros p c' Hp. destruct (decide (p ++ [c'] = q ++ [c])) as [E|Hne].
    + apply app_inj_tail in E as [-> ->]. by apply Hd'.
    + rewrite lookup_insert_ne in Hp by done. by apply Hd', (sh_closed _ _ Hs p c').
  - intros p Hp. destruct (decide (p = q ++ [c])) as [->|Hne].
    + by apply Forall_app, conj, Forall_singleton.
    + rewrite lookup_insert_ne in Hp by done. by apply (sh_names _ _ Hs).
  - eapply own_files_add; [apply Hs|apply Hs|done..].
  - intros p Hp. rewrite Hout by done. by apply Hs.
  - etrans; [apply Hs|done].
Qed.

(** A file whose content is replaced. *)
Lemma shown_write T f q c i m o data :
  shown T f → dents f !! (d ++ q ++ [c]) = Some (DFile i) →
  shown (<[q ++ [c] := NFile data]> T) (Fs (dents f) (<[i := Inode data m o]> (files f))).
Proof.
  intros Hs E. assert (Hpc : q ++ [c] ≠ []) by by destruct q.
  destruct (own_new _ _ _ (sh_own _ _ Hs) _ _ Hpc E) as [Hi [nd Hnd]].
  assert (HT : T !! (q ++ [c]) = Some (NFile (idata nd))).
  { rewrite <- (sh_nodes _ _ Hs) by done. unfold node_at. rewrite E. simpl. by rewrite Hnd. }
  assert (Hkeep : ∀ p, is_Some (<[q ++ [c] := NFile data]> T !! p) → is_Some (T !! p)).
  { intros p. destruct (decide (p = q ++ [c])) as [->|]; [rewrite HT; eauto|by rewrite lookup_insert_ne]. }
  split; cbn [dents files].
  - apply Hs.
  - intros p Hp. unfold node_at. cbn [dents]. destruct (decide (p = q ++ [c])) as [->|Hne].
    + rewrite E, lookup_insert_eq. simpl. by rewrite lookup_insert_eq.
    + rewrite lookup_insert_ne by done. rewrite <- (sh_nodes _ _ Hs p Hp). unfold node_at.
      destruct (dents f !! (d ++ p)) as [[|j| |]|] eqn:Ep; try done. simpl.
      rewrite lookup_insert_ne; [done|]. intros ->. apply Hne. by apply (own_inj _ _ _ (sh_own _ _ Hs) p (q ++ [c]) j).
  - rewrite lookup_insert_ne by done. apply Hs.
  - intros p c' Hp%Hkeep. apply (sh_closed _ _ Hs) in Hp as [->|Hp]; [by left|right].
    rewrite lookup_insert_ne; [done|]. intros <-. congruence.
  - intros p Hp%Hkeep. by apply (sh_names _ _ Hs).
  - destruct (sh_own _ _ Hs) as [Hown Hinj]. split; [|done]. intros p j Hp Ep.
    destruct (Hown p j Hp Ep) as [H1 H2]. split; [done|]. apply lookup_insert_is_Some'. by right.
  - apply (sh_outside _ _ Hs).
  - apply insert_subseteq_r; [done|apply Hs].
Qed.

(** Entries that a whiteout takes away. *)
Lemma shown_hide T T' f f' i :
  shown T f → apply T i = Some T' → (∀ p n, i ≠ Put p n) → files f' = files f →
  (∀ p, p ≠ [] → dents f' !! (d ++ p) = if decide (covers p i) then None else dents f !! (d ++ p)) →
  (∀ q, ¬ below d q → dents f' !! q = dents f !! q) → shown T' f'.
Proof.
  intros Hs Ha Hnp Hfs Hds Hout.
  assert (HT : ∀ p, p ≠ [] → T' !! p = if decide (covers p i) then None else T !! p).
  { intros p Hp. rewrite (apply_lookup T i T' p Hp Ha). cbn [put_by].
    destruct i as [p' n| | |]; try done. by destruct (Hnp p' n). }
  assert (Htop : T' !! [] = None).
  { eapply lookup_weaken_None; [apply Hs|]. by eapply apply_sub. }
  assert (Hkeep : ∀ p, is_Some (T' !! p) → is_Some (T !! p) ∧ ¬ covers p i).
  { intros p. destruct (decide (p = [])) as [->|Hp]; [rewrite Htop; by intros []|].
    rewrite HT by done. case_decide; [by intros []|done]. }
  assert (Hold : ∀ p x, p ≠ [] → dents f' !! (d ++ p) = Some x → dents f !! (d ++ p) = Some x).
  { intros p x Hp. rewrite Hds by done. by case_decide. }
  split; [|intros p Hp|done|..].
  - eapply real_dir_mono; [apply Hs|]. intros p Hp. apply Hout. intros (y & r & ->).
    apply prefix_length in Hp. rewrite length_app in Hp. simpl in Hp. lia.
  - rewrite HT by done. unfold node_at. rewrite Hds by done. case_decide; [done|].
    rewrite <- (sh_nodes _ _ Hs p Hp). unfold node_at, node_of. by rewrite Hfs.
  - intros p c [Hp Hc]%Hkeep. apply (sh_closed _ _ Hs) in Hp as [->|Hp]; [by left|].
    destruct (decide (p = [])) as [->|Hp0]; [by left|right]. rewrite HT by done.
    case_decide as H1; [|done]. by destruct Hc; apply covers_above.
  - intros p [Hp _]%Hkeep. by apply (sh_names _ _ Hs).
  - apply (own_files_sub d f1 f); [apply Hs|by rewrite Hfs|]. intros p j Hp. by apply Hold.
  - intros q Hq. rewrite Hout by done. by apply Hs.
  - rewrite Hfs. apply Hs.
Qed.

(** *** The entries one by one *)

(** Every path on the way to an entry is one. *)
Lemma shown_above T f q r : shown T f → q ≠ [] → is_Some (T !! (q ++ r)) → is_Some (T !! q).
Proof.
  intros Hs Hq. induction r as [|c r IH] using rev_ind; intros Hr; [by rewrite app_nil_r in Hr|].
  rewrite app_assoc in Hr. apply (sh_closed _ _ Hs) in Hr as [H|H]; [by destruct q|].
  apply IH. rewrite H. eauto.
Qed.

Lemma nothing_below T f a p :
  shown T f → a ≠ [] → T !! a = None → a `prefix_of` p → dents f !! (d ++ p) = None.
Proof.
  intros Hs Ha Hn [r ->]. apply eq_None_not_Some. rewrite (shown_entry T) by (done || by destruct a).
  intros H%(shown_above T f a r Hs Ha). rewrite Hn in H. by destruct H.
Qed.

(** A way is there, or something on it is missing. *)
Lemma way_found T q :
  clear T q → dir_in T q ∨ ∃ p c r, q = p ++ c :: r ∧ dir_in T p ∧ T !! (p ++ [c]) = None.
Proof.
  rewrite clear_alt. induction q as [|c q IH] using rev_ind; intros Hc; [by left; left|].
  destruct IH as [Hq|(p & x & r & -> & Hp & Hn)].
  - intros a Ha Hp. apply Hc; [done|by apply prefix_app_r].
  - destruct (Hc (q ++ [c])) as [Hn|Hn]; [by destruct q|done| |by left; right].
    right. by exists q, c, [].
  - right. exists p, x, (r ++ [c]). by rewrite <- app_assoc.
Qed.

Lemma missing_way T f p c r :
  shown T f → dir_in T p → T !! (p ++ [c]) = None → Forall name_ok (p ++ c :: r) →
  Forall name_ok ((d ++ p) ++ c :: r) ∧ real_dir f (d ++ p) ∧ dents f !! ((d ++ p) ++ [c]) = None.
Proof.
  intros Hs Hp Hn Hnames. split_and!.
  - rewrite <- app_assoc. by apply Forall_app.
  - by apply (shown_dir T).
  - rewrite <- app_assoc. apply (nothing_below T f (p ++ [c])); [done|by destruct p|done..].
Qed.

Lemma add_dirs_id T q :
  (∀ a, a ≠ [] → a `prefix_of` q → T !! a = Some NDir) → add_dirs T q = T.
Proof.
  intros H. apply map_eq. intros a. rewrite add_dirs_lookup.
  destruct (decide (a ≠ [] ∧ a `prefix_of` q)) as [[]|]; [|done]. symmetry. by apply H.
Qed.

Lemma add_dirs_dir T q : dir_in (add_dirs T q) q.
Proof. destruct q as [|c q]; [by left|right]. rewrite add_dirs_lookup, decide_True; [done|by split]. Qed.

Lemma add_dirs_child T q c : add_dirs T q !! (q ++ [c]) = T !! (q ++ [c]).
Proof.
  rewrite add_dirs_lookup, decide_False; [done|]. intros [_ Hp%prefix_length].
  rewrite length_app in Hp. simpl in Hp. lia.
Qed.

(** The directories of a way are made as far as they are missing. *)
Lemma make_way T f q perm :
  shown T f → clear T q → Forall name_ok q →
  ∃ f', MkdirAll umask (abs_path (d ++ q)) perm f = (Ok tt, f') ∧ shown (add_dirs T q) f'.
Proof.
  intros Hs. induction q as [|c q IH] using rev_ind; intros Hc Hn.
  { exists f. rewrite app_nil_r. split; [apply MkdirAll_there; [done|apply Hs]|done]. }
  pose proof Hn as [Hqn [Hcn _]%Forall_cons_1]%Forall_app. pose proof Hc as Hc'. rewrite clear_alt in Hc'.
  destruct (way_found T (q ++ [c]) Hc) as [Hdir|(p & x & r & Eq & Hp & Hx)].
  - exists f. split.
    + apply MkdirAll_there; [by apply Forall_app|by apply (shown_dir T)].
    + rewrite add_dirs_id; [done|]. intros a Ha Hpre. destruct (Hc' a Ha Hpre) as [Hnone|]; [|done].
      destruct Hdir as [Hnil|Hdir]; [by destruct q|]. destruct Hpre as [r Hr]. rewrite Hr in Hdir.
      destruct (shown_above T f a r Hs Ha) as [y Hy]; [by rewrite Hdir|congruence].
  - assert (Hcq : clear T q).
    { apply clear_alt. intros a Ha Hpre. apply Hc'; [done|by apply prefix_app_r]. }
    destruct (IH Hcq Hqn) as (f' & Hrun & Hs').
    assert (Hnone : T !! (q ++ [c]) = None).
    { apply eq_None_not_Some. rewrite Eq. change (x :: r) with ([x] ++ r). rewrite app_assoc.
      intros Hy%(shown_above T f _ r Hs); [|by destruct p]. rewrite Hx in Hy. by destruct Hy. }
    pose proof (shown_dir _ _ q Hs' (add_dirs_dir T q)) as Hrd.
    assert (Hfree : dents f' !! ((d ++ q) ++ [c]) = None).
    { rewrite <- app_assoc. apply (nothing_below _ f' (q ++ [c]) _ Hs'); [by destruct q| |done].
      by rewrite add_dirs_child. }
    eexists. split.
    + rewrite app_assoc. eapply MkdirAll_step; [by apply Forall_app|done| |exact Hrun|done|done].
      rewrite <- app_assoc, Eq, app_assoc. destruct (missing_way T f p x r) as (? & ? & ?); try done.
      { by rewrite <- Eq. }
      by apply Stat_err_missing.
    + rewrite add_dirs_snoc.
      eapply (shown_put _ f' _ q c (DDir (dir_mode umask perm) 0)); try done; [apply add_dirs_dir|].
      cbn [dents set_dents]. by rewrite <- app_assoc.
Qed.

Lemma put_file T f q c data mode :
  shown T f → dir_in T q → Forall name_ok q → name_ok c →
  replaces (T !! (q ++ [c])) (NFile data) = true →
  ∃ f', write_new umask (abs_path (d ++ q ++ [c])) data mode f = (Ok tt, f') ∧
    shown (<[q ++ [c] := NFile data]> T) f'.
Proof.
  intros Hs Hq Hqn Hcn Hr. pose proof (shown_dir T f q Hs Hq) as Hrd.
  assert (Hpc : q ++ [c] ≠ []) by by destruct q.
  pose proof (sh_nodes _ _ Hs (q ++ [c]) Hpc) as Hn. unfold node_at in Hn.
  destruct (dents f !! (d ++ q ++ [c])) as [x|] eqn:Ex; simpl in Hn; rewrite <- Hn in Hr.
  - destruct x as [m o|i|t|k m]; try done.
    destruct (own_new _ _ _ (sh_own _ _ Hs) _ _ Hpc Ex) as [_ [nd Hnd]].
    rewrite app_assoc, (write_over_child _ _ _ _ i nd);
      [|by apply Forall_app|done..|by rewrite <- app_assoc|done].
    eexists. split; [reflexivity|]. by apply shown_write.
  - rewrite app_assoc in *. rewrite write_new_child by (try apply Forall_app; done). cbv zeta.
    eexists. split; [reflexivity|].
    assert (Hi : files f !! fresh (dom (files f)) = None) by apply not_elem_of_dom, is_fresh.
    eapply (shown_put T f _ q c (DFile (fresh (dom (files f))))); cbn [dents files]; try done.
    + by rewrite <- app_assoc.
    + by apply insert_subseteq.
    + simpl. by rewrite lookup_insert_eq.
    + congruence.
    + intros i [= <-]. rewrite lookup_insert_eq. eauto.
Qed.

Lemma put_link T f q c t :
  shown T f → dir_in T q → Forall name_ok q → name_ok c →
  replaces (T !! (q ++ [c])) (NSym t) = true →
  ∃ f', (ignoring (Remove (abs_path (d ++ q ++ [c]))) ;; Symlink t (abs_path (d ++ q ++ [c]))) f =
          (Ok tt, f') ∧
    shown (<[q ++ [c] := NSym t]> T) f'.
Proof.
  intros Hs Hq Hqn Hcn Hr. pose proof (shown_dir T f q Hs Hq) as Hrd.
  assert (Hpc : q ++ [c] ≠ []) by by destruct q.
  assert (Hdq : Forall name_ok (d ++ q)) by by apply Forall_app.
  pose proof (sh_nodes _ _ Hs (q ++ [c]) Hpc) as Hn. unfold node_at in Hn.
  set (g := set_dents (delete (d ++ q ++ [c]) (dents f)) f).
  assert (Hrm : ignoring (Remove (abs_path (d ++ q ++ [c]))) f = (Ok tt, g)).
  { unfold ignoring, Remove, lift_fs. rewrite app_assoc, resolve_child by (try done; by left).
    cbn [res_bind]. rewrite <- app_assoc. unfold g.
    destruct (dents f !! (d ++ q ++ [c])) as [x|] eqn:Ex; simpl in Hn; rewrite <- Hn in Hr.
    - by destruct x as [m o|i|t'|k m].
    - rewrite delete_id by done. by destruct f. }
  unfold st_bind. rewrite Hrm. unfold Symlink, lift_fs.
  assert (Hg : real_dir g (d ++ q)).
  { eapply real_dir_mono; [exact Hrd|]. intros p Hp. unfold g. cbn [dents set_dents].
    apply lookup_delete_ne. intros <-. apply prefix_length in Hp.
    rewrite !length_app in Hp. simpl in Hp. lia. }
  rewrite app_assoc, resolve_child by (try done; by left). cbn [res_bind].
  rewrite <- app_assoc, insert_new_none;
    [|by destruct d, q|unfold g; cbn [dents set_dents]; apply lookup_delete_eq].
  eexists. split; [reflexivity|]. eapply (shown_put T f _ q c (DSym t)); try done.
  - unfold g. cbn [dents set_dents]. by rewrite insert_delete_eq.
  - intros E. by rewrite E in Hr.
Qed.

Lemma hide_step T T' f q n :
  shown T f → apply T (Hide (q ++ [n])) = Some T' → Forall name_ok q → name_ok n →
  ∃ f', ignoring (RemoveAll (abs_path (d ++ q ++ [n]))) f = (Ok tt, f') ∧ shown T' f'.
Proof.
  intros Hs Ha Hq Hn. pose proof Ha as Ha'. cbn [apply] in Ha'. rewrite removelast_last in Ha'.
  destruct (decide (_ ∧ _)) as [[_ Hclear]|]; [|done]. clear Ha'.
  unfold ignoring, RemoveAll, lift_fs.
  destruct (way_found T q Hclear) as [Hdir|(p & c & r & -> & Hp & Hnone)].
  - exists (prune (d ++ q ++ [n]) f). split.
    + rewrite app_assoc, resolve_child;
        [|by apply Forall_app|done|by apply (shown_dir T)|by left].
      rewrite <- app_assoc. by destruct (d ++ q ++ [n]) eqn:E; [destruct d, q|].
    + apply (shown_hide T T' f _ (Hide (q ++ [n]))); try done; intros p Hp; rewrite prune_lookup.
      * apply decide_ext. rewrite <- prefix_below. simpl. split; [apply prefix_app_inv|apply prefix_app].
      * rewrite decide_False; [done|]. rewrite <- prefix_below. intros [r ->]. apply Hp.
        rewrite <- app_assoc. apply below_app. by destruct q.
  - exists f. rewrite <- (app_assoc p), <- app_comm_cons in Ha |- *. split.
    + destruct (missing_way T f p c (r ++ [n])) as (? & ? & ?); try done.
      { rewrite app_comm_cons, app_assoc. by apply Forall_app, conj, Forall_singleton. }
      rewrite app_assoc, resolve_missing by (done || by destruct r). done.
    + apply (shown_hide T T' f f (Hide (p ++ c :: r ++ [n]))); try done. intros x Hx.
      case_decide as Hcov; [|done]. apply (nothing_below T f (p ++ [c])); [done|by destruct p|done|].
      etrans; [|exact Hcov]. exists (r ++ [n]). by rewrite <- app_assoc.
Qed.

(** The loop over the names in a directory. *)
Lemma remove_entries_run r ns f :
  Forall name_ok r → Forall name_ok ns → real_dir f r →
  ∃ f', remove_entries (abs_path r) ns f = (Ok tt, f') ∧ files f' = files f ∧
    ∀ p, dents f' !! p = if decide (Exists (λ n, r ++ [n] `prefix_of` p) ns)
                         then None else dents f !! p.
Proof.
  intros Hr Hns. revert f. induction Hns as [|n ns Hn Hns IH]; intros f Hrd.
  { exists f. split_and!; [done..|]. intros p. case_decide as H; [by inversion H|done]. }
  cbn [remove_entries]. unfold st_bind, ignoring, RemoveAll, lift_fs.
  rewrite join_names, resolve_child by (try done; (by apply Forall_singleton) || by left).
  assert (Em : ∀ A (x y : A), match r ++ [n] with [] => x | _ => y end = y) by by destruct r.
  rewrite Em. destruct (IH (prune (r ++ [n]) f)) as (f' & Hrun & Hfs & Hds).
  { eapply real_dir_mono; [exact Hrd|]. intros p Hp. rewrite prune_lookup, decide_False; [done|].
    rewrite <- prefix_below. intros H. pose proof (prefix_length _ _ (transitivity H Hp)) as Hl.
    rewrite length_app in Hl. simpl in Hl. lia. }
  exists f'. split_and!; [done..|]. intros p. rewrite Hds, prune_lookup.
  rewrite (decide_ext (p = r ++ [n] ∨ below (r ++ [n]) p) (r ++ [n] `prefix_of` p))
    by by rewrite prefix_below.
  repeat case_decide; rewrite ?Exists_cons in *; cbv beta in *; tauto.
Qed.

Lemma ReadDir_dir f p :
  Forall name_ok p → real_dir f p → ReadDir f (abs_path p) = Ok (child_names p f).
Proof.
  intros Hp Hr. unfold ReadDir. rewrite resolve_dir by done. cbn [res_bind].
  destruct p as [|c p]; [done|]. by destruct (Hr (c :: p)) as (m & o & ->).
Qed.

Lemma ReadDir_missing f p c r :
  Forall name_ok (p ++ c :: r) → real_dir f p → dents f !! (p ++ [c]) = None →
  ReadDir f (abs_path (p ++ c :: r)) = Err ENOENT.
Proof.
  intros Hn Hr Hc. unfold ReadDir. destruct r as [|x r]; [|by rewrite resolve_missing].
  apply Forall_app in Hn as [Hp [Hcn _]%Forall_cons_1].
  rewrite resolve_child by (try done; right; congruence). cbn [res_bind].
  destruct (p ++ [c]) eqn:E; [by destruct p|]. by rewrite Hc.
Qed.

Lemma opaque_step T T' f q :
  shown T f → apply T (Opaque q) = Some T' → Forall name_ok q →
  ∃ f', match ReadDir f (abs_path (d ++ q)) with
        | Ok names => remove_entries (abs_path (d ++ q)) names f
        | _ => (Ok tt, f)
        end = (Ok tt, f') ∧ shown T' f'.
Proof.
  intros Hs Ha Hq. pose proof Ha as Ha'. cbn [apply] in Ha'.
  destruct (decide (clear T q)) as [Hclear|]; [|done]. clear Ha'.
  assert (Hdq : Forall name_ok (d ++ q)) by by apply Forall_app.
  destruct (way_found T q Hclear) as [Hdir|(p & c & r & -> & Hp & Hnone)].
  2: { exists f. destruct (missing_way T f p c r) as (? & ? & ?); try done. split.
       - by rewrite app_assoc, ReadDir_missing.
       - apply (shown_hide T T' f f (Opaque (p ++ c :: r))); try done. intros x Hx.
         destruct (decide (covers x _)) as [(y & r' & ->)|]; [|done].
         apply (nothing_below T f (p ++ [c])); [done|by destruct p|done|].
         exists (r ++ y :: r'). by rewrite <- !app_assoc. }
  pose proof (shown_dir T f q Hs Hdir) as Hrd.
  assert (Hchild : ∀ c, c ∈ child_names (d ++ q) f ↔ is_Some (T !! (q ++ [c]))).
  { intros c. rewrite elem_of_child_names, <- app_assoc. apply (shown_entry T); [done|by destruct q]. }
  rewrite ReadDir_dir by done.
  destruct (remove_entries_run (d ++ q) (child_names (d ++ q) f) f) as (f' & Hrun & Hfs & Hds); try done.
  { apply Forall_forall. intros c Hc%Hchild. apply (sh_names _ _ Hs) in Hc.
    by apply Forall_app in Hc as [_ [? _]%Forall_cons_1]. }
  exists f'. split; [done|]. apply (shown_hide T T' f f' (Opaque q)); try done.
  - intros p Hp. rewrite Hds. destruct (dents f !! (d ++ p)) as [x|] eqn:Ex; [|by repeat case_decide].
    apply decide_ext. rewrite Exists_exists. cbn [covers]. split.
    + intros (c & _ & [r Hr]). rewrite <- !app_assoc in Hr. apply app_inv_head in Hr as ->. by exists c, r.
    + intros (c & r & ->). exists c. split; [|exists r; by rewrite <- !app_assoc].
      apply Hchild, (shown_above T f _ r Hs); [by destruct q|]. rewrite <- app_assoc.
      apply (shown_entry T f); [done|by destruct q|]. simpl. rewrite Ex. eauto.
  - intros p Hp. rewrite Hds, decide_False; [done|]. rewrite Exists_exists.
    intros (c & _ & [r ->]). apply Hp. rewrite <- !app_assoc. apply below_app. by destruct q.
Qed.

Lemma extract_item T T' f e i :
  shown T f → item_of e = Some i → apply T i = Some T' →
  ∃ f', extract_entry umask (abs_path d) e f = (Ok tt, f') ∧ shown T' f'.
Proof.
  intros Hs Hi Ha. destruct e as [hdr data]. apply item_of_reads in Hi.
  destruct Hi as [q c slash i Hq Hc Hw En Hi|q Hq En|q n Hq Hn Hne En].
  - rewrite (extract_plain umask d hdr data q c slash) by done. unfold entry_at.
    assert (Hput : ∀ n, i = Put (q ++ [c]) n →
      T' = <[q ++ [c] := n]> (add_dirs T q) ∧ clear T q ∧ replaces (T !! (q ++ [c])) n = true).
    { intros n ->. cbn [apply] in Ha. rewrite removelast_last in Ha.
      destruct (decide _) as [(_ & H1 & H2)|]; [|done]. by injection Ha as <-. }
    assert (Hparent : clear T q → ∃ f', ensureParentDir umask (abs_path (d ++ q ++ [c])) f = (Ok tt, f') ∧
      shown (add_dirs T q) f').
    { intros H. unfold ensureParentDir. rewrite app_assoc, Dir_abs by (try apply Forall_app; done).
      by apply make_way. }
    unfold item_at in Hi. destruct (hType hdr) eqn:Et; try done; injection Hi as <-;
      try (injection Ha as <-; by exists f);
      destruct (Hput _ eq_refl) as (-> & Hclear & Hrep).
    + destruct (Hparent Hclear) as (f' & Hrun & Hs'). unfold st_bind. rewrite Hrun.
      apply put_file; [done|apply add_dirs_dir|done..|by rewrite add_dirs_child].
    + rewrite <- add_dirs_snoc. apply make_way; [done| |by apply Forall_app, conj, Forall_singleton].
      rewrite clear_alt in Hclear |- *. intros a Han [->|Hp]%prefix_of_snoc; [|by apply Hclear].
      destruct (T !! (q ++ [c])) as [[]|]; try done; by auto.
    + destruct (Hparent Hclear) as (f' & Hrun & Hs'). unfold st_bind at 1. rewrite Hrun.
      apply put_link; [done|apply add_dirs_dir|done..|by rewrite add_dirs_child].
  - rewrite (extract_opaque umask d hdr data q) by done. by eapply opaque_step.
  - rewrite (extract_hide umask d hdr data q n) by done. by eapply hide_step.
Qed.

Lemma extract_items T T' f layer l :
  shown T f → items_of layer = Some l → apply_all T l = Some T' →
  ∃ f', extract_entries umask layer (abs_path d) f = (Ok tt, f') ∧ shown T' f'.
Proof.
  intros Hs Hl. apply mapM_Some in Hl. revert T f Hs.
  induction Hl as [|e i layer l Hi Hl IH]; intros T f Hs Ha; cbn [apply_all] in Ha.
  { injection Ha as <-. by exists f. }
  destruct (apply T i) as [T1|] eqn:E; [|done].
  destruct (extract_item T T1 f e i Hs Hi E) as (f' & Hrun & Hs').
  cbn [extract_entries]. unfold st_bind. rewrite Hrun. by apply IH with T1.
Qed.

Lemma extract_image T T' f layers ls :
  shown T f → mapM items_of layers = Some ls → build T ls = Some T' →
  ∃ f', extract_layers umask (map whole_layer layers) (abs_path d) f = (Ok tt, f') ∧ shown T' f'.
Proof.
  intros Hs Hl. apply mapM_Some in Hl. revert T f Hs.
  induction Hl as [|layer l layers ls Hi Hl IH]; intros T f Hs Ha; cbn [build] in Ha.
  { injection Ha as <-. by exists f. }
  destruct (apply_all T l) as [T1|] eqn:E; [|done].
  destruct (extract_items T T1 f layer l Hs Hi E) as (f' & Hrun & Hs').
  cbn [map whole_layer extract_layers extractLayer]. unfold st_bind at 1 2, unpacking. rewrite Hrun.
  by apply IH with T1.
Qed.
End replay.

(** ** Pulling a layered image *)

Section image.
Context `{TarGz, Registry} (umask : N).

(** An image whose entries have a meaning and fit the trees they are replayed on
    unpacks, whatever the target directory held, to its overlay, and changes
    nothing else. *)
Lemma pull_overlay p f reg dp dc layers ls T :
  ParseReference (ppRepository p ++ ":" ++ ppTag p) = true →
  remote_Image (ppRepository p ++ ":" ++ ppTag p) (ppToken p) (ppInsecure p) reg = Some (whole layers) →
  ppDestDir p = abs_path (dp ++ [dc]) → Forall name_ok dp → name_ok dc → real_dir f dp →
  mapM items_of layers = Some ls → Forall whiteouts_first ls → build ∅ ls = Some T →
  ∃ f', PullAndUnpack umask p (OState f reg) = (Ok tt, OState f' reg) ∧
    (∀ rel, rel ≠ [] → node_at f' ((dp ++ [dc]) ++ rel) = overlay (rev ls) rel) ∧
    (∀ q, q ≠ dp ++ [dc] → ¬ below (dp ++ [dc]) q → dents f' !! q = dents f !! q) ∧
    files f ⊆ files f'.
Proof.
  intros Href Himg Hdest Hdp Hdc Hdir Hls Hw Hb.
  destruct (fresh_dir umask f dp dc Hdp Hdc Hdir) as (s1 & Hmk & Hr1 & Hempty & Hout & Hfiles).
  set (d := dp ++ [dc]) in *.
  assert (Hd : Forall name_ok d) by by apply Forall_app, conj, Forall_singleton.
  assert (Hs : shown d s1 ∅ s1).
  { split; try done.
    - intros q Hq. unfold node_at. by rewrite Hempty, lookup_empty.
    - intros q c. rewrite lookup_empty. by intros [].
    - intros q. rewrite lookup_empty. by intros [].
    - split; [intros q i Hq|intros q q' i Hq Hq']; by rewrite Hempty. }
  destruct (extract_image umask d Hd s1 ∅ T s1 layers ls Hs Hls Hb) as (f' & Hrun & Hs').
  exists f'. split_and!.
  - unfold PullAndUnpack. rewrite Href. cbn [negb oreg]. rewrite Himg, Hdest.
    unfold st_bind in Hmk. unfold st_bind, on_fs. cbn [ofs oreg].
    destruct (RemoveAll (abs_path d) f) as [[[]|?| |] sx]; try done. cbn [ofs oreg].
    rewrite Hmk. cbn [whole ofs oreg]. by rewrite Hrun.
  - intros rel Hrel. rewrite (sh_nodes _ _ _ _ Hs' rel Hrel). by apply build_overlay.
  - intros q H1 H2. rewrite (sh_outside _ _ _ _ Hs' q H2). by apply Hout.
  - rewrite <- Hfiles. apply Hs'.
Qed.

End image.

(** *** An image of two layers *)

#[local] Existing Instance sample_targz.
#[local] Existing Instance sample_registry.

Definition entry (name : gostring) (type : Typeflag) (mode : N) (link data : gostring)
    : Header * gostring := (MkHeader name type mode link 0, data).

Definition lower_layer : tar :=
  [entry "etc/" TypeDir 493 [] []; entry "etc/a" TypeReg 420 [] "1"; entry "etc/b" TypeReg 420 [] "2";
   entry "lib" TypeSymlink 511 "usr/lib" []; entry "var/" TypeDir 493 [] [];
   entry "var/d/" TypeDir 493 [] []; entry "var/d/x" TypeReg 420 [] "x";
   entry "usr/lib/libc" TypeReg 493 [] "elf"].

Definition upper_layer : tar :=
  [entry "etc/.wh.a" TypeReg 420 [] []; entry "etc/b" TypeReg 493 [] "3";
   entry "var/.wh..wh..opq" TypeReg 420 [] []; entry "var/y" TypeReg 420 [] "y";
   entry "no/.wh.such" TypeReg 420 [] []; entry "null" TypeChar 438 [] []].

Definition two_layers : gmap gostring (list tar) := {[ "ghcr.io/a/b:latest" := [lower_layer; upper_layer] ]}.

Definition two_items : list (list item) := default [] (mapM items_of [lower_layer; upper_layer]).

Lemma map_nonempty {A} (g h : path → A) rels :
  (∀ rel, rel ≠ [] → g rel = h rel) → Forall (λ rel, rel ≠ []) rels → map g rels = map h rels.
Proof. intros E. induction 1; simpl; f_equal; auto. Qed.


(** ** Where unpacking departs from the overlay *)

(** The file at a path. *)
Definition inode_at (f : fsys) (p : path) : option inode :=
  match dents f !! p with Some (DFile i) => files f !! i | _ => None end.

(** A file that a layer replaces is written in place: it keeps the permission
    bits of the lower layer, a hard link of the lower layer to it changes with
    it, and where the lower layer has a symbolic link the file it leads to is
    overwritten, outside the target too. *)
Theorem replaced_in_place :
  (let run := extract_layers 18 (map whole_layer [[entry "a" TypeReg 420 [] "1"]; [entry "a" TypeReg 493 [] "2"]])
                "/w" sample_fs in
   fst run = Ok tt ∧ inode_at (snd run) ["w"; "a"] = Some (Inode "2" 420 0)) ∧
  (let run := extract_layers 18 (map whole_layer
                [[entry "a" TypeReg 420 [] "1"; entry "b" TypeLink 420 "a" []];
                 [entry "a" TypeReg 420 [] "2"]]) "/w" sample_fs in
   fst run = Ok tt ∧ node_at (snd run) ["w"; "b"] = Some (NFile "2")) ∧
  (let run := extract_layers 18 (map whole_layer
                [[entry "a" TypeSymlink 511 "/r/su" []]; [entry "a" TypeReg 420 [] "2"]])
                "/w" sample_fs in
   fst run = Ok tt ∧ node_at sample_fs ["r"; "su"] = Some (NFile "elf") ∧
   node_at (snd run) ["w"; "a"] = Some (NSym "/r/su") ∧
   node_at (snd run) ["r"; "su"] = Some (NFile "2")).
Proof. cbv zeta. split_and!; vm_compute; reflexivity. Qed.
