(* ===== verification/Messages.v ===== *)
(** * What an error says

    The texts of the errors of the configuration, the project and the build
    flows, as they reach the user.  The texts of the operating system's errors
    and of the other parts are arguments.  The message of a failed [build all] is
    tied to its run: to the part called last and what it returned. *)

From Stdlib Require Import Ascii String ZArith Lia.
From stdpp Require Import base list strings.
From S2P Require Import Prelude GoStrings GoNumbers GoPath GoQuote Util HkValue HkHeap HkTree HkParser.
From S2P Require Import HkParserProps Config LiveParse BuildLock Preflight Fs Host BuildFlow.

(** ** The hk package (errors.go) *)

Section texts.
Variable IsPrint : N → bool.
(** Opening or reading a file failed. *)
Variable file_error : gostring → gostring.
(** What an error of [parseValue] would say; it returns none. *)
Variable value_error : gostring.

Definition message_text (m : ParseMessage) : gostring :=
  match m with
  | UnexpectedLine line => "Nieoczekiwana linia: " ++ Quote IsPrint line
  | UnclosedHeader => "Naglowek sekcji nie jest zamkniety ']'"
  | EmptySectionName => "Nazwa sekcji nie moze byc pusta"
  | KeyOutsideSection => "Klucz zdefiniowany przed jakakolwiek sekcja"
  | MissingKey => "Brak klucza po myslnikach"
  | NestingTooDeep depth =>
      "Zbyt gleboki poziom zagniezdzenia (" ++ dec_of_nat depth ++ ") -- brak rodzica"
  | MissingKeyName => "Brak nazwy klucza przed '=>'"
  | BadValue => value_error
  | MissingArrowHead => "Oczekiwano '>' po myslnikach"
  | UnclosedInterpolation s => "Niezamknieta interpolacja w " ++ Quote IsPrint s ++ " (brak '}')"
  end.

(** [ParseError.Error] *)
Definition parse_error_text (e : ParseErrorInfo) : gostring :=
  "parse error" ++ [NL] ++ "  -> at " ++ dec_of_nat (Line e) ++ ":" ++ dec_of_nat (Column e)
  ++ [NL; NL] ++ "  " ++ message_text (Message e)
  ++ (if str_eqb (Hint e) [] then [] else [NL; NL] ++ "Hint: " ++ Hint e).

(** The conversions of a value make their own texts, [AsString] another one. *)
Definition mismatch_text (expected found : gostring) : gostring :=
  if str_eqb expected "string"
  then "hk: TypeMismatch -- nie mozna skonwertowac " ++ found ++ " na string"
  else "hk: TypeMismatch -- oczekiwano " ++ expected ++ ", otrzymano " ++ found.

Definition hk_error (e : HkError) : gostring :=
  match e with
  | ParseError info => parse_error_text info
  | TypeMismatch expected found => mismatch_text expected found
  | InvalidReference path => "hk: InvalidReference(" ++ path ++ ") -- sprawdz czy sciezka istnieje"
  | CyclicReference path => "hk: CyclicReference(" ++ path ++ ")"
  | KeyConflict key => "hk: KeyConflict(" ++ key ++ ")"
  | MissingField name => "hk: MissingField(" ++ name ++ ")"
  | OpenFailed path => "hk: nie mozna otworzyc " ++ path ++ ": " ++ file_error path
  | ReadFailed path => "hk: blad odczytu " ++ path ++ ": " ++ file_error path
  end.

(** ** The configuration, the project and the lock *)

Definition load_error (e : LoadError) : gostring :=
  match e with
  | BadFile e => "config.hk: " ++ hk_error e
  | BadInterpolation e => "config.hk: interpolacja: " ++ hk_error e
  | NoSection section key =>
      "brak wymaganej sekcji [" ++ section ++ "] w config.hk (oczekiwano klucza '" ++ key ++ "')"
  | NoKey key section => "brak wymaganego klucza '" ++ key ++ "' w sekcji [" ++ section ++ "] config.hk"
  | NotText key section e =>
      "klucz '" ++ key ++ "' w sekcji [" ++ section ++ "] musi byc tekstem: " ++ hk_error e
  | BadAccountType s =>
      "config.hk: [account] -> type musi byc 'user' lub 'organisation', otrzymano " ++ Quote IsPrint s
  | EmptyAccountName => "config.hk: [account] -> name nie moze byc puste"
  | EmptyToken => "config.hk: [auth] -> token nie moze byc puste"
  | EmptyRelease => "config.hk: [release] -> name nie moze byc puste"
  | BadProjectType s =>
      "config.hk: [project] -> type: nieznana wartosc " ++ Quote IsPrint s
      ++ " -- dozwolone: default, cybersecurity, normal, official, independent"
  | BadInstaller s =>
      "config.hk: [project] -> installer: nieznana wartosc " ++ Quote IsPrint s
      ++ " -- dozwolone: default, cybersecurity, none"
  end.

Definition project_error (e : ProjectError) : gostring :=
  match e with
  | NoConfigDir dir =>
      "katalog " ++ Quote IsPrint dir ++ " nie istnieje -- to nie jest poprawny projekt "
      ++ "live-build/hackeros-builder (oczekiwano podkatalogu 'config/')"
  | CannotReadDir dir => "nie mozna odczytac " ++ dir ++ ": " ++ file_error dir
  | CannotParseList path => "blad parsowania " ++ path ++ ": " ++ file_error path
  | CannotReadFile path => "blad odczytu " ++ path ++ ": " ++ file_error path
  end.

(** [EWOULDBLOCK] as the syscall package prints it. *)
Definition would_block : gostring := "resource temporarily unavailable".

Definition lock_error (e : LockError) : gostring :=
  match e with
  | CannotCreate workDir => "buildlock: nie mozna utworzyc " ++ workDir ++ ": " ++ file_error workDir
  | CannotOpen lockPath => "buildlock: nie mozna otworzyc " ++ lockPath ++ ": " ++ file_error lockPath
  | Busy workDir lockPath =>
      "buildlock: katalog roboczy " ++ Quote IsPrint workDir ++ " jest juz uzywany przez inny build "
      ++ "hackeros-builder (nie mozna uzyskac blokady " ++ lockPath ++ ": " ++ would_block ++ "). "
      ++ "Uzyj innego --workdir dla rownoleglych buildow, albo zaczekaj "
      ++ "na zakonczenie poprzedniego"
  end.

(** ** The build flows *)

Variable part_error : PartError → gostring.

Definition type_text (t : ProjectType) : gostring :=
  match t with
  | ProjectTypeDefault => "default"
  | ProjectTypeCybersecurity => "cybersecurity"
  | ProjectTypeNormal => "normal"
  | ProjectTypeOfficial => "official"
  | ProjectTypeIndependent => "independent"
  end.

Definition live_build_hints : gostring :=
  "Sprawdz logi powyzej. Mozliwe przyczyny:" ++ [NL]
  ++ "  - brak konfiguracji live-build (lb config nie zostal uruchomiony)" ++ [NL]
  ++ "  - blad w hooks lub package-lists" ++ [NL]
  ++ "  - brak dostepu do internetu (apt-get update zawiodlo)" ++ [NL]
  ++ "  - brak uprawnien roota (lb build wymaga sudo lub uruchomienia jako root)".

Definition flow_error (e : BuildError) : gostring :=
  match e with
  | PreflightFailed msg => "preflight: " ++ msg
  | LockFailed e => lock_error e
  | ConfigFailed path e => "wczytywanie " ++ path ++ ": " ++ load_error e
  | ProjectFailed e => "parsowanie struktury projektu: " ++ project_error e
  | RootfsFailed e => "budowa rootfs: " ++ part_error e
  | NoLiveBuild t =>
      "[project] -> type=" ++ type_text t ++ " wymaga zainstalowanego live-build na hoscie "
      ++ "(komenda 'lb' nie znaleziona w $PATH). "
      ++ "Zainstaluj live-build: apt-get install live-build"
  | LiveBuildFailed e =>
      "live-build (lb build) nie powiodl sie: " ++ part_error e ++ [NL] ++ live_build_hints
  | MkdirPushFailed e => "tworzenie katalogu roboczego push: " ++ part_error e
  | PushFailed e => "build cloud: " ++ part_error e
  | PullFailed e => "sciaganie obrazu z registry: " ++ part_error e
  | WriteHkFailed e => "aktualizacja deb-ostree.hk: " ++ part_error e
  | IsoFailed e => "budowa ISO: " ++ part_error e
  end.
End texts.

(** ** What can be read off an error *)

Fixpoint span_digits (s : gostring) : gostring * gostring :=
  match s with
  | c :: s' => if is_digit c then let '(a, b) := span_digits s' in (c :: a, b) else ([], s)
  | [] => ([], [])
  end.

Definition location_mark : gostring := "parse error" ++ [NL] ++ "  -> at ".

(** The place a syntax error names. *)
Definition told_location (msg : gostring) : option (nat * nat) :=
  if HasPrefix msg location_mark then
    let '(line, rest) := span_digits (drop (length location_mark) msg) in
    match rest with
    | c :: rest' =>
        if Ascii.eqb c ":"
        then Some (N.to_nat (dec_value 0 line), N.to_nat (dec_value 0 (fst (span_digits rest'))))
        else None
    | [] => None
    end
  else None.

Lemma span_digits_app ds c rest :
  forallb is_digit ds = true → is_digit c = false → span_digits (ds ++ c :: rest) = (ds, c :: rest).
Proof.
  induction ds as [|x ds IH]; cbn [forallb app span_digits]; intros Hd Hc; [by rewrite Hc|].
  apply andb_prop in Hd as [-> Hd]. by rewrite IH.
Qed.

Lemma dec_of_nat_value n : N.to_nat (dec_value 0 (dec_of_nat n)) = n.
Proof. unfold dec_of_nat. destruct (dec_of_N_spec (N.of_nat n)) as (_ & _ & -> & _). lia. Qed.

Lemma told_location_text IsPrint value_error e :
  told_location (parse_error_text IsPrint value_error e) = Some (Line e, Column e).
Proof.
  unfold told_location, parse_error_text. rewrite (app_assoc [NL]), (app_assoc "parse error").
  change ("parse error" ++ [NL] ++ "  -> at ") with location_mark.
  rewrite (proj2 (HasPrefix_iff _ _)) by by eexists. rewrite drop_app_length.
  destruct (dec_of_N_spec (N.of_nat (Line e))) as (Hl & _), (dec_of_N_spec (N.of_nat (Column e))) as (Hc & _).
  fold (dec_of_nat (Line e)) in Hl. fold (dec_of_nat (Column e)) in Hc.
  change (":" ++ ?x) with (":"%char :: x). cbn [app]. rewrite span_digits_app by done.
  cbn [Ascii.eqb Bool.eqb]. rewrite span_digits_app by done. cbn [fst]. by rewrite !dec_of_nat_value.
Qed.

(** ** What a failed build says *)

Section faults.
Context `{Services} (IsPrint : N → bool) (file_error : gostring → gostring) (value_error : gostring).
Context (part_error : PartError → gostring) (wd : gostring) (pid : nat) (opts : AllOptions).

Definition config_file : gostring := path_join [ao_ProjectDir opts; "config"; "config.hk"].

(** What is said of a configuration that does not load on the host [h]: the
    file and the error, and of a syntax error the place of the first line that
    does not parse. *)
Definition config_message (h : host) (msg : gostring) : Prop :=
  ∃ le, fst (Load (config_fs h) (getenv h) config_file ∅) = Err le ∧
    msg = "wczytywanie " ++ config_file ++ ": " ++ load_error IsPrint file_error value_error le ∧
    ∀ info, le = BadFile (ParseError info) →
      ∃ content lines i T text, config_fs h config_file = Some content ∧
        scan_lines content = Some lines ∧
        lines !! i = Some (SourceLine info) ∧ denotes (parse (take i lines)) T ∧
        msg = "wczytywanie " ++ config_file ++ ": config.hk: " ++ text ∧
        told_location text = Some (i + 1, Column info).

(** What can go wrong in a build started in [s]: the part called last, the host
    it left, and what is said of it. *)
Inductive fault (s : bstate) : option event → host → gostring → Prop :=
| fault_preflight report :
    CheckAll (lookPath (bhost s)) = Some report → fault s None (bhost s) ("preflight: " ++ report)
| fault_lock e w h :
    Acquire (mkdirOk (bhost s)) (openOk (bhost s)) pid (ao_WorkDir opts) (bworld s) = (Err e, w) →
    fault s None h (lock_error IsPrint file_error e)
| fault_config h msg : config_message h msg → fault s None h msg
| fault_project h e :
    Parse (host_files h) (ao_ProjectDir opts) = Err e →
    fault s None h ("parsowanie struktury projektu: " ++ project_error IsPrint file_error e)
| fault_rootfs project cfg rootfs work h h' e :
    build_rootfs project cfg rootfs work h = (Err e, h') →
    fault s (Some (EvRootfs rootfs work)) h' ("budowa rootfs: " ++ part_error e)
| fault_no_lb rootfs work h t :
    lookPath h "lb" = false →
    fault s (Some (EvRootfs rootfs work)) h
      ("[project] -> type=" ++ type_text t ++ " wymaga zainstalowanego live-build na hoscie "
       ++ "(komenda 'lb' nie znaleziona w $PATH). " ++ "Zainstaluj live-build: apt-get install live-build")
| fault_lb dir h h' e :
    live_build dir h = (Err e, h') →
    fault s (Some (EvLiveBuild dir)) h'
      ("live-build (lb build) nie powiodl sie: " ++ part_error e ++ [NL] ++ live_build_hints)
| fault_push_dir rootfs work dir h h' e :
    make_dir dir h = (Err e, h') →
    fault s (Some (EvRootfs rootfs work)) h' ("tworzenie katalogu roboczego push: " ++ part_error e)
| fault_push p h h' e :
    push_image p h = (Err e, h') → fault s (Some (EvPush p)) h' ("build cloud: " ++ part_error e)
| fault_config_again ev h msg :
    (∃ p, ev = EvPush p) ∨ (∃ dir, ev = EvLiveBuild dir) →
    config_message h msg → fault s (Some ev) h msg
| fault_pull p h h' e :
    pull_image p h = (Err e, h') →
    fault s (Some (EvPull p)) h' ("sciaganie obrazu z registry: " ++ part_error e)
| fault_hk path p h h' e :
    write_config path p h = (Err e, h') →
    fault s (Some (EvWriteHk path p)) h' ("aktualizacja deb-ostree.hk: " ++ part_error e)
| fault_iso p h h' e :
    build_iso p h = (Err e, h') → fault s (Some (EvIso p)) h' ("budowa ISO: " ++ part_error e).

Abbreviation said := (flow_error IsPrint file_error value_error part_error).

Lemma load_fails h e :
  loadAndValidateConfig (ao_ProjectDir opts) h = Err e → config_message h (said e).
Proof.
  unfold loadAndValidateConfig. fold config_file.
  destruct (Load (config_fs h) (getenv h) config_file ∅) as [r h'] eqn:El. cbn [fst].
  destruct r as [c|le| |]; cbn [map_error]; try done. intros [= <-]. exists le.
  rewrite El. split; [done|]. split; [done|]. intros info ->.
  unfold Load in El. unfold st_bind at 1, wrap at 1 in El.
  destruct (LoadFile (config_fs h) config_file ∅) as [[c|e| |] h1] eqn:Ef; try done.
  { exfalso. pose proof (Load_cases (config_fs h) (getenv h) config_file ∅) as Hc. rewrite Ef in Hc.
    destruct Hc as (r & h2 & T0 & T & _ & _ & _ & _ & Hc). unfold Load in Hc.
    unfold st_bind at 1, wrap at 1 in Hc. rewrite Ef, El in Hc. injection Hc as Hc _.
    destruct r as [u|e| |]; [|done|..]; by apply (spec_load_not_file T (ParseError info)). }
  injection El as -> <-. unfold LoadFile in Ef.
  destruct (config_fs h config_file) as [content|] eqn:Ec; [|done].
  destruct (scan_lines content) as [lines|] eqn:Es; [|done].
  apply parse_error_at in Ef as (i & T & Hi & Hline & HT).
  exists content, lines, i, T. eexists. split_and!; [done..|]. rewrite <- Hi. apply told_location_text.
Qed.

Lemma cloud_fails s cfg project h e h' evs :
  run_stages (cloud_stages wd cfg project (all_cloud opts)) h = (Err e, h', evs) →
  fault s (last evs) h' (said e).
Proof.
  unfold cloud_stages. cbn [all_cloud co_WorkDir co_ProjectDir run_stages sg_run sg_event].
  unfold doing at 1. destruct (build_rootfs _ _ _ _ h) as [[u|e0| |] h1] eqn:E1; cbn [map_error res_bind];
    try done; [|intros [= <- <- <-]; by eapply fault_rootfs].
  destruct (RequiresLiveBuild (Project_ cfg)); cbn [run_stages sg_run sg_event].
  - unfold needing. destruct (lookPath h1 "lb") eqn:Elb; [|intros [= <- <- <-]; by apply fault_no_lb].
    unfold doing. destruct (live_build _ h1) as [[u1|e1| |] h2] eqn:E2; cbn [map_error res_bind]; try done.
    intros [= <- <- <-]. by eapply fault_lb.
  - unfold doing at 1. destruct (make_dir _ h1) as [[u1|e1| |] h2] eqn:E2; cbn [map_error res_bind];
      try done; [|intros [= <- <- <-]; by eapply fault_push_dir].
    unfold doing. destruct (push_image _ h2) as [[u2|e2| |] h3] eqn:E3; cbn [map_error res_bind]; try done.
    intros [= <- <- <-]. by eapply fault_push.
Qed.

(** The last call of a first half that works. *)
Lemma cloud_last cfg project h u h' evs :
  run_stages (cloud_stages wd cfg project (all_cloud opts)) h = (Ok u, h', evs) →
  ∃ ev, last evs = Some ev ∧ ((∃ p, ev = EvPush p) ∨ ∃ dir, ev = EvLiveBuild dir).
Proof.
  unfold cloud_stages. cbn [all_cloud co_WorkDir co_ProjectDir run_stages sg_run sg_event].
  unfold doing at 1. destruct (build_rootfs _ _ _ _ h) as [[u0|e0| |] h1]; cbn [map_error res_bind]; try done.
  destruct (RequiresLiveBuild (Project_ cfg)); cbn [run_stages sg_run sg_event].
  - unfold needing. destruct (lookPath h1 "lb"); [|done].
    unfold doing. destruct (live_build _ h1) as [[u1|e1| |] h2]; cbn [map_error res_bind]; try done.
    intros [= _ _ <-]. eexists. split; [reflexivity|]. right. by eexists.
  - unfold doing at 1. destruct (make_dir _ h1) as [[u1|e1| |] h2]; cbn [map_error res_bind]; try done.
    unfold doing. destruct (push_image _ h2) as [[u2|e2| |] h3]; cbn [map_error res_bind]; try done.
    intros [= _ _ <-]. eexists. split; [reflexivity|]. left. by eexists.
Qed.

Lemma iso_fails s cfg io h e h' evs :
  run_stages (iso_stages wd cfg io) h = (Err e, h', evs) →
  evs ≠ [] ∧ fault s (last evs) h' (said e).
Proof.
  unfold iso_stages. destruct (iso_reference wd cfg io) as [repository tag].
  cbn [run_stages sg_run sg_event].
  unfold doing at 1. destruct (pull_image _ h) as [[u|e0| |] h1] eqn:E1; cbn [map_error res_bind];
    try done; [|intros [= <- <- <-]; split; [done|by eapply fault_pull]].
  unfold doing at 1. destruct (write_config _ _ h1) as [[u1|e1| |] h2] eqn:E2; cbn [map_error res_bind];
    try done; [|intros [= <- <- <-]; split; [done|by eapply fault_hk]].
  unfold doing. destruct (build_iso _ h2) as [[u2|e2| |] h3] eqn:E3; cbn [map_error res_bind]; try done.
  intros [= <- <- <-]. split; [done|by eapply fault_iso].
Qed.

(** C33.  The message of a failed [build all] tells what failed: it is the text
    for the part that was called last, with the error that part returned on the
    host it was called on, or for the check, lock, configuration, project or
    tool that stopped the build after it; when config.hk does not parse it names
    the file and carries the number of the first line that cannot be parsed. *)
Theorem error_tells s e s' :
  BuildAll wd pid opts s = (Err e, s') →
  ∃ evs, trace s' = trace s ++ evs ∧ fault s (last evs) (bhost s') (said e).
Proof.
  destruct (CheckAll (lookPath (bhost s))) as [report|] eqn:Ec.
  { rewrite (BuildAll_refused wd pid opts s report Ec). intros [= <- <-]. exists [].
    rewrite app_nil_r. split; [done|]. by apply fault_preflight. }
  rewrite (BuildAll_checked wd pid opts s Ec). unfold with_lock.
  destruct (Acquire _ _ pid (ao_WorkDir opts) (bworld s)) as [[l|le| |] w] eqn:Ea; try done.
  2:{ intros [= <- <-]. exists []. cbn [trace bhost]. rewrite app_nil_r. split; [done|].
      by eapply fault_lock. }
  set (h0 := lock_files pid (ao_WorkDir opts) true (bhost s)).
  destruct (loadAndValidateConfig (ao_ProjectDir opts) h0) as [cfg|e1| |] eqn:El;
    [destruct (Parse (host_files h0) (ao_ProjectDir opts)) as [project|e1| |] eqn:Ep|..].
  1: { rewrite (all_body_runs wd pid h0 cfg project opts w (trace s) El Ep). unfold run_all.
       destruct (run_stages (cloud_stages wd cfg project (all_cloud opts)) h0) as [[[u|e1| |] h1] evs] eqn:E1;
         try done.
       2:{ intros [= <- <-]. exists evs. split; [done|]. cbn [bhost]. by eapply cloud_fails. }
       destruct (cloud_last _ _ _ _ _ _ E1) as (ev & Hlast & Hev).
       destruct (loadAndValidateConfig (ao_ProjectDir opts) h1) as [cfg'|e1| |] eqn:El'; try done.
       2:{ cbn [res_bind]. intros [= <- <-]. exists evs. split; [done|]. cbn [bhost]. rewrite Hlast.
           apply fault_config_again; [done|by apply load_fails]. }
       destruct (run_stages (iso_stages wd cfg' _) h1) as [[[u2|e2| |] h2] evs'] eqn:E2; try done.
       intros [= <- <-]. exists (evs ++ evs'). split; [done|]. cbn [bhost].
       apply (iso_fails s) in E2 as [Hne Hf]. rewrite last_app.
       by destruct (last evs') eqn:Ele; [|apply last_None in Ele]. }
  all: unfold BuildCloud, cloud_body;
    cbn [all_cloud co_SkipPreflight co_SkipLock co_ProjectDir preflight negb];
    unfold st_bind, st_ret, asking; cbn [bhost]; rewrite El; try done.
  - rewrite Ep. cbn [map_error]. intros [= <- <-]. exists []. cbn [trace bhost]. rewrite app_nil_r.
    split; [done|]. by apply fault_project.
  - by rewrite Ep.
  - by rewrite Ep.
  - intros [= <- <-]. exists []. cbn [trace bhost]. rewrite app_nil_r. split; [done|].
    apply fault_config. by apply load_fails.
Qed.
End faults.

(** ** A build that fails at its end *)

#[local] Existing Instance BuildFlow.sample_host.

Definition sample_part_error (e : PartError) : gostring :=
  match e with HostPart (HostMsg what) => what | _ => "other" end.

Lemma error_tells_witness :
  let s' := snd (BuildAll "/" 7 sample_all sample_state) in
  ∃ evs, trace s' = [] ++ evs ∧
    fault (λ _, false) (λ p, p) [] sample_part_error 7 sample_all sample_state (last evs) (bhost s')
      "budowa ISO: no space".
Proof.
  destruct (BuildAll "/" 7 sample_all sample_state) as [r s'] eqn:E. cbn [snd].
  assert (Er : r = Err (IsoFailed (HostPart (HostMsg "no space")))).
  { change r with (fst (r, s')). rewrite <- E. vm_compute. reflexivity. }
  subst r. exact (error_tells (λ _, false) (λ p, p) [] sample_part_error "/" 7 sample_all sample_state
                    _ s' E).
Defined.
