(* ===== verification/System.v ===== *)
(** * The builder on its machine

    The parts of the builder put together: the interface the build flows are
    written against, implemented by the parts on one machine (its files,
    environment and commands) and a registry. *)

From Stdlib Require Import Ascii String ZArith Lia.
From stdpp Require Import base list gmap strings.
From S2P Require Import Prelude GoStrings GoNumbers GoPath HkBuilder Config BuildLock Preflight LiveParse.
From S2P Require Import Fs FsProps Host Plan Util Sandbox Download Toolchain HkFile Rootfs RootfsProps.
From S2P Require Import IsoBuild IsoProps Oci BuildFlow.

(** ** The machine as the flows see it *)

Section files.
Context `{External}.

Definition ok {E A : Type} (r : res E A) : bool := match r with Ok _ => true | _ => false end.

(** Reading a file; a pipe or a device counts as unreadable. *)
Definition read_text (f : fsys) (name : gostring) : option gostring :=
  match ReadFile f name with Ok data => Some data | _ => None end.

(** What the parser of the project directory sees. *)
Definition project_files (f : fsys) : LiveParse.Host :=
  MkHost
    (λ name, match Stat f name with Ok d => is_dir d | _ => false end)
    (λ name, match ReadDirEntries f name with
             | Ok es => DirEntries (map (λ e, Entry e.1 (is_dir e.2)) es)
             | Err ENOENT => DirMissing
             | _ => DirFailed
             end)
    (read_text f).

(** [os.OpenFile(name, O_CREATE|O_RDWR)]: whether it succeeds.  Opening a pipe
    for reading and writing does not wait. *)
Definition can_open (f : fsys) (name : gostring) : bool :=
  match resolve f true name with
  | Ok [] => false
  | Ok p => match dents f !! p with
            | Some (DDir _ _) | Some (DSym _) | Some (DSpecial Socket _) => false
            | _ => true
            end
  | _ => false
  end.

(** The files after [Acquire]: the directory, the lock file if it could be
    opened, and the number of the process in it if the lock was taken. *)
Definition lock_disk (pid : nat) (dir : gostring) (taken : bool) (f : fsys) : fsys :=
  let lockPath := lockPath_of dir in
  match MkdirAll umask dir 493 f with
  | (Ok _, f1) =>
      if negb (can_open f1 lockPath) then f1
      else if taken then snd (write_new umask lockPath (dec_of_nat pid ++ [NL]) 420 f1)
      else if ok (Stat f1 lockPath) then f1
      else snd (write_new umask lockPath [] 420 f1)
  | (_, f1) => f1
  end.
End files.

Section system.
Context `{External, TarGz, Registry, MapOrder} (http : gostring → response).

Record sysstate : Type := SysState { smachine : machine; sregistry : registry }.

Definition on_machine {A : Type} (m : HM A) : ST sysstate PartError A := λ s,
  let '(r, s') := m (smachine s) in (map_error HostPart r, SysState s' (sregistry s)).

Definition on_image {A : Type} (m : ST ostate OciError A) : ST sysstate PartError A := λ s,
  let '(r, o) := m (OState (mfs (smachine s)) (sregistry s)) in
  (map_error OciPart r,
   SysState (Machine (ofs o) (menv (smachine s)) (mlog (smachine s))) (oreg o)).

Definition sfiles (s : sysstate) : fsys := mfs (smachine s).

Lemma push_reference p o r o' :
  BuildAndPush umask p o = (Ok r, o') →
  r = bpRepository p ++ ":" ++ bpTag p ∧ ParseReference r = true.
Proof.
  unfold BuildAndPush. intros (u & o1 & _ & E)%st_bind_Ok. unfold removing in E.
  match type of E with (let '(_, _) := ?x in _) = _ => destruct x as [r1 o2] eqn:E1 end.
  injection E as -> _.
  apply st_bind_Ok in E1 as (img & o3 & _ & E1). cbv zeta in E1.
  destruct (ParseReference _) eqn:Eref; cbn [negb] in E1; [|done].
  destruct (remote_Write _ _ _ _ _); [|done]. by injection E1 as <- _.
Qed.

Definition system : Services.
Proof.
  refine {|
    host := sysstate;
    lookPath := λ s name, match LookPath name (smachine s) with Some _ => true | None => false end;
    config_fs := λ s, read_text (sfiles s);
    getenv := λ s k, Getenv k (smachine s);
    host_files := λ s, project_files (sfiles s);
    mkdirOk := λ s dir, ok (fst (MkdirAll umask dir 493 (sfiles s)));
    openOk := λ s name, can_open (snd (MkdirAll umask (Dir name) 493 (sfiles s))) name;
    lock_files := λ pid dir taken s,
      SysState (Machine (lock_disk pid dir taken (sfiles s)) (menv (smachine s)) (mlog (smachine s)))
        (sregistry s);
    make_dir := λ dir, on_machine (on_files (MkdirAll umask dir 493));
    build_rootfs := λ project cfg rootfsDir workDir,
      on_machine (Rootfs.Build http (Rootfs.New project cfg rootfsDir workDir));
    live_build := λ dir, on_machine (run_plain dir ["lb"; "build"]);
    push_image := λ p, on_image (BuildAndPush umask p);
    pull_image := λ p, on_image (PullAndUnpack umask p);
    write_config := λ path p, on_machine (WriteDebOstreeConfig path p);
    build_iso := λ p, on_machine (IsoBuild.Build p) |}.
  intros p s r s' E. unfold on_image in E.
  destruct (BuildAndPush umask p _) as [[r1|e| |] o] eqn:Ep; cbn [map_error] in E; try done.
  injection E as <- _. by apply push_reference in Ep as [? _].
Defined.
End system.

(** ** The commands of a whole build *)

Section commands.
Context `{External, TarGz, Registry, MapOrder} (http : gostring → response).

#[local] Instance this_system : Services := system http.

(** [plans] for an operation of the system. *)
Definition splans {X A : Type} (E E' : envmap) (op : ST sysstate X A) (p : list step) : Prop :=
  ∀ s, menv (smachine s) = E →
    ∃ cs, mlog (smachine (snd (op s))) = mlog (smachine s) ++ cs ∧
      match fst (op s) with
      | Ok _ => menv (smachine (snd (op s))) = E' ∧ runs p cs
      | _ => stops p cs
      end.

Lemma splans_machine {A : Type} E E' (m : HM A) p : plans E E' m p → splans E E' (on_machine m) p.
Proof.
  intros Hm s Hs. destruct (Hm (smachine s) Hs) as (cs & Hl & Hr). exists cs. unfold on_machine.
  destruct (m (smachine s)) as [[a|e| |] s']; cbn [fst snd map_error smachine] in *; by split.
Qed.

Lemma splans_image {A : Type} E (m : ST ostate OciError A) : splans E E (on_image m) [].
Proof.
  intros s Hs. exists []. unfold on_image. rewrite app_nil_r.
  destruct (m _) as [[a|e| |] o]; cbn [fst snd map_error smachine menv mlog];
    (split; [done|]); try apply stops_nil. split; [done|constructor].
Qed.

Lemma splans_doing {A : Type} E E' (op : ST sysstate PartError A) err p :
  splans E E' op p → splans E E' (doing op err) p.
Proof.
  intros Ho s Hs. destruct (Ho s Hs) as (cs & Hl & Hr). exists cs. unfold doing.
  destruct (op s) as [[a|e| |] s']; cbn [fst snd map_error res_bind] in *; by split.
Qed.

Lemma splans_needing E q err : splans E E (needing q err) [].
Proof.
  intros s Hs. exists []. unfold needing. cbn [fst snd]. rewrite app_nil_r. split; [done|].
  destruct (q s); [split; [done|constructor]|apply stops_nil].
Qed.

(** The plan of a list of stages. *)
Definition staged (E E' : envmap) (sts : list stage) (p : list step) : Prop :=
  ∀ s, menv (smachine s) = E →
    let '(r, s', _) := run_stages sts s in
    ∃ cs, mlog (smachine s') = mlog (smachine s) ++ cs ∧
      match r with Ok _ => menv (smachine s') = E' ∧ runs p cs | _ => stops p cs end.

Lemma staged_nil E : staged E E [] [].
Proof. intros s Hs. exists []. rewrite app_nil_r. split; [done|]. split; [done|constructor]. Qed.

Lemma staged_cons E E1 E' o run sts p q :
  splans E E1 run p → staged E1 E' sts q → staged E E' (Stage o run :: sts) (p ++ q).
Proof.
  intros Hr Hs s He. cbn [run_stages sg_run sg_event]. destruct (Hr s He) as (cs & Hl & Hc).
  destruct (run s) as [[u|e| |] s1]; cbn [fst snd] in *;
    [|exists cs; split; [done|by apply stops_app_l]..].
  destruct Hc as [He1 Hc]. specialize (Hs s1 He1).
  destruct (run_stages sts s1) as [[r s2] evs]. destruct Hs as (cs' & Hl' & Hc').
  exists (cs ++ cs'). rewrite Hl', Hl, app_assoc. split; [done|].
  destruct r; [|by apply stops_app_r..]. destruct Hc' as [? ?]. split; [done|by apply runs_app].
Qed.

(** The plan of the first half of [build all]: the root file system, and
    live-build for the projects that ask for it. *)
Definition cloud_plan (E : envmap) (cfg : Config.Config) (project : LiveParse.Project)
    (opts : AllOptions) : list step :=
  let b := Rootfs.New project cfg (path_join [ao_WorkDir opts; "rootfs"]) (ao_WorkDir opts) in
  build_plan E b
  ++ (if RequiresLiveBuild (Project_ cfg)
      then [Start (MkCmd ["lb"; "build"] (ao_ProjectDir opts) (environ (tools_env E b)) None)] else []).

(** The plan of [build all]: that and the ISO, from debootstrap on with the
    toolchain first on the search path.  [cfg'] is the configuration read the
    second time, between the halves; the ISO follows live-build too. *)
Definition all_plan (wd : gostring) (E : envmap) (cfg : Config.Config) (project : LiveParse.Project)
    (cfg' : Config.Config) (opts : AllOptions) : list step :=
  let b := Rootfs.New project cfg (path_join [ao_WorkDir opts; "rootfs"]) (ao_WorkDir opts) in
  cloud_plan E cfg project opts
  ++ iso_plan (tools_env E b) (iso_of cfg' (all_iso (cloud_result wd cfg (all_cloud opts)) opts)).

Lemma cloud_staged wd E cfg project opts :
  let b := Rootfs.New project cfg (path_join [ao_WorkDir opts; "rootfs"]) (ao_WorkDir opts) in
  let E' := tools_env E b in
  staged E E' (cloud_stages wd cfg project (all_cloud opts)) (cloud_plan E cfg project opts).
Proof.
  intros b E'. unfold cloud_plan. cbv zeta. fold b. fold E'. apply staged_cons with E'.
  { apply splans_doing, splans_machine, plans_Build. }
  cbn [all_cloud co_ProjectDir]. destruct (RequiresLiveBuild (Project_ cfg)).
  - apply (staged_cons E' E' E' _ _ _ []); [apply splans_needing|].
    apply (staged_cons E' E' E' _ _ _ [_] []); [|apply staged_nil].
    apply splans_doing, splans_machine, plans_plain.
  - apply (staged_cons E' E' E' _ _ _ [] []); [apply splans_doing, splans_machine, plans_files|].
    apply (staged_cons E' E' E' _ _ _ [] []); [apply splans_doing, splans_image|apply staged_nil].
Qed.

Lemma iso_staged wd E cfg opts : staged E E (iso_stages wd cfg opts) (iso_plan E (iso_of cfg opts)).
Proof.
  unfold iso_stages. destruct (iso_reference wd cfg opts) as [repository tag]. cbv zeta.
  apply (staged_cons E E E _ _ _ [] (iso_plan E (iso_of cfg opts)));
    [apply splans_doing, splans_image|].
  apply (staged_cons E E E _ _ _ [] (iso_plan E (iso_of cfg opts)));
    [apply splans_doing, splans_machine, plans_WriteDebOstreeConfig|].
  rewrite <- (app_nil_r (iso_plan E (iso_of cfg opts))).
  apply staged_cons with E; [apply splans_doing, splans_machine, plans_iso_Build|apply staged_nil].
Qed.

(** The commands that fit the outcome of a whole build [r]: [rc] and [h1] are
    what its first half returned and left, where the configuration is read for
    the second time. *)
Definition commands_fit (wd : gostring) (E : envmap) (cfg : Config.Config)
    (project : LiveParse.Project) (opts : AllOptions) (rc : res BuildError unit) (h1 : host)
    (r : res BuildError unit) (cs : list Cmd) : Prop :=
  match rc, loadAndValidateConfig (ao_ProjectDir opts) h1, r with
  | Ok _, Ok cfg', Ok _ => runs (all_plan wd E cfg project cfg' opts) cs
  | Ok _, Ok cfg', _ => stops (all_plan wd E cfg project cfg' opts) cs
  | _, _, Ok _ => False
  | Ok _, _, _ => runs (cloud_plan E cfg project opts) cs
  | _, _, _ => stops (cloud_plan E cfg project opts) cs
  end.

Lemma run_all_commands wd E cfg project opts s :
  menv (smachine s) = E →
  let '(rc, h1, _) := run_stages (cloud_stages wd cfg project (all_cloud opts)) s in
  let '(r, s', _) := run_all wd cfg project opts s in
  ∃ cs, mlog (smachine s') = mlog (smachine s) ++ cs ∧ commands_fit wd E cfg project opts rc h1 r cs.
Proof.
  intros He. unfold run_all, commands_fit, all_plan. cbv zeta.
  pose proof (cloud_staged wd E cfg project opts s He) as Hc.
  destruct (run_stages (H := this_system) (cloud_stages wd cfg project (all_cloud opts)) s)
    as [[r s1] evs].
  destruct Hc as (cs & Hl & Hc).
  destruct r as [u|e| |];
    [|exists cs; split; [done|]; by destruct (loadAndValidateConfig (ao_ProjectDir opts) s1)..].
  destruct Hc as [He1 Hc].
  destruct (loadAndValidateConfig (SV := this_system) (ao_ProjectDir opts) s1) as [cfg'|e| |]; cbn [res_bind];
    [|exists cs; split; done..].
  pose proof (iso_staged wd _ cfg' (all_iso (cloud_result wd cfg (all_cloud opts)) opts) s1 He1) as Hi.
  destruct (run_stages (H := this_system) (iso_stages wd cfg' _) s1) as [[r s2] evs'].
  destruct Hi as (cs' & Hl' & Hi). exists (cs ++ cs'). rewrite Hl', Hl, !app_assoc.
  split; [done|]. destruct r; [|by apply stops_app_r..]. destruct Hi. by apply runs_app.
Qed.

(** A project that does not read stops the flow before it touches anything. *)
Lemma all_body_unread wd pid opts h w t :
  (∀ cfg project, loadAndValidateConfig (ao_ProjectDir opts) h = Ok cfg →
                  Parse (host_files h) (ao_ProjectDir opts) = Ok project → False) →
  let '(r, st') := (let! r := BuildCloud wd pid (all_cloud opts) in BuildIso wd (all_iso r opts))
                     (BState w h t) in
  bhost st' = h ∧ ∀ u, r ≠ Ok u.
Proof.
  intros Hno. unfold BuildCloud, cloud_body.
  cbn [all_cloud co_SkipPreflight co_SkipLock co_ProjectDir preflight negb].
  unfold st_bind, st_ret, asking. cbn [bhost].
  destruct (loadAndValidateConfig (ao_ProjectDir opts) h) as [cfg|e| |] eqn:El; try done.
  destruct (Parse (host_files h) (ao_ProjectDir opts)) as [project|e| |] eqn:Ep; try done.
  by destruct (Hno cfg project).
Qed.

(** ** Claims *)

(** C6.  Whatever the state of the machine, the commands a [build all] runs
    are those of its plan for the configuration and the project it read and for
    the configuration it reads again on the host its first half left, in that
    order and each in its environment: all of them if it succeeds, a part if it
    fails, only those of the first half if that fails or the configuration
    cannot be read again, and none if it stopped before the project was read.
    The ISO part follows live-build too. *)
Theorem all_commands wd pid opts st :
  let h0 := lock_files pid (ao_WorkDir opts) true (bhost st) in
  let E := menv (smachine (bhost st)) in
  let '(r, st') := BuildAll wd pid opts st in
  ∃ cs, mlog (smachine (bhost st')) = mlog (smachine (bhost st)) ++ cs ∧
    (cs = [] ∧ (∀ u, r ≠ Ok u) ∨
     ∃ cfg project,
       loadAndValidateConfig (ao_ProjectDir opts) h0 = Ok cfg ∧
       Parse (host_files h0) (ao_ProjectDir opts) = Ok project ∧
       let '(rc, h1, _) := run_stages (cloud_stages wd cfg project (all_cloud opts)) h0 in
       commands_fit wd E cfg project opts rc h1 r cs).
Proof.
  intros h0 E. destruct (CheckAll (lookPath (bhost st))) as [msg|] eqn:Ec.
  { rewrite (BuildAll_refused wd pid opts st msg Ec). exists []. rewrite app_nil_r. auto. }
  rewrite (BuildAll_checked wd pid opts st Ec). unfold with_lock.
  destruct (Acquire _ _ pid (ao_WorkDir opts) (bworld st)) as [[l|e| |] w];
    [|exists []; cbn [bhost lock_files this_system system smachine mlog]; rewrite app_nil_r; auto..].
  fold h0. assert (He : menv (smachine h0) = E) by done.
  assert (Hl0 : mlog (smachine h0) = mlog (smachine (bhost st))) by done.
  destruct (loadAndValidateConfig (ao_ProjectDir opts) h0) as [cfg|e| |] eqn:El;
    [destruct (Parse (host_files h0) (ao_ProjectDir opts)) as [project|e| |] eqn:Ep|..].
  1: { rewrite (all_body_runs wd pid h0 cfg project opts w (trace st) El Ep).
       pose proof (run_all_commands wd E cfg project opts h0 He) as Hr.
       destruct (run_stages (H := this_system) (cloud_stages wd cfg project (all_cloud opts)) h0)
         as [[rc h1] evs1] eqn:Ec1.
       destruct (run_all wd cfg project opts h0) as [[r h] evs]. destruct Hr as (cs & Hl & Hr).
       cbn [bhost bworld trace]. exists cs. rewrite Hl, Hl0. split; [done|]. right.
       exists cfg, project. rewrite Ec1. split; [done|]. split; [done|exact Hr]. }
  all: pose proof (all_body_unread wd pid opts h0 w (trace st)) as Hu;
    rewrite El in Hu; try rewrite Ep in Hu;
    destruct (st_bind _ _ (BState w h0 (trace st))) as [r st']; destruct Hu as [Hb Hr]; [by intros|];
    cbn [bhost]; exists []; rewrite Hb, Hl0, app_nil_r; by auto.
Qed.
End commands.
