(* ===== verification/Shipped.v ===== *)
(** * The tree handed to the ISO builder

    A [build all] builds a root file system, pushes it, pulls it back and makes
    the ISO from what came back.  Through all of that the tree is the one that
    was built: what [isobuild.Build] is handed is its copy, as a tar archive can
    carry it, with deb-ostree.hk.  Without the graphical installer that is also
    the tree mksquashfs reads; with it, the installer is first put into it. *)

From Stdlib Require Import Ascii String ZArith Lia.
From stdpp Require Import base list gmap strings.
From S2P Require Import Prelude GoStrings GoNumbers GoPath HkTree HkParser HkParserProps HkSerialize.
From S2P Require Import HkRoundTrip HkBuilder Config BuildLock Preflight LiveParse Fs FsProps FsWalk.
From S2P Require Import Host Plan Util Sandbox Download Toolchain HkFile Rootfs RootfsProps.
From S2P Require Import IsoBuild IsoProps Oci OciProps BuildFlow System.

(** ** Stages that all worked *)

Section stages.
Context `{Services}.

Lemma run_stages_cons_Ok o run sts h u h' evs :
  run_stages (Stage o run :: sts) h = (Ok u, h', evs) →
  ∃ h1 evs', run h = (Ok tt, h1) ∧ run_stages sts h1 = (Ok u, h', evs').
Proof.
  cbn [run_stages sg_run sg_event]. destruct (run h) as [[[]|e| |] h1]; try done.
  destruct (run_stages sts h1) as [[r h2] evs'] eqn:E. intros [= -> -> _]. eauto.
Qed.

Lemma doing_Ok {A : Type} (op : ST host PartError A) err h h' :
  doing op err h = (Ok tt, h') → ∃ a, op h = (Ok a, h').
Proof. unfold doing. destruct (op h) as [[a|e| |] h1]; try done. intros [= <-]. by eexists. Qed.

Lemma stage_Ok {A : Type} o (op : ST host PartError A) err sts h u h' evs :
  run_stages (Stage o (doing op err) :: sts) h = (Ok u, h', evs) →
  ∃ a h1 evs', op h = (Ok a, h1) ∧ run_stages sts h1 = (Ok u, h', evs').
Proof. intros (h1 & evs' & [a Hr]%doing_Ok & Hs)%run_stages_cons_Ok. eauto. Qed.
End stages.

(** ** One file written next to a copy *)

Lemma copy_of_files umask s s' d0 s1 d1 :
  files s = files s' → copy_of umask s d0 s1 d1 → copy_of umask s' d0 s1 d1.
Proof. intros E. destruct d0 as [[]|]; cbn [copy_of]; by rewrite ?E. Qed.

(** Files of one's own stay as they are when another file is written. *)
Lemma write_keeps umask s0 d0 d s1 s name data perm s' p rel :
  own_files d s1 s → (∀ q i, dents s1 !! q = Some (DFile i) → is_Some (files s1 !! i)) →
  (∀ q, q ≠ d → ¬ below d q → dents s !! q = dents s1 !! q) → real_dir s d → d ≠ [] →
  write_new umask name data perm s = (Ok tt, s') → resolve s' true name = Ok p →
  rel ≠ [] → d ++ rel ≠ p →
  copy_of umask s0 d0 s (dents s !! (d ++ rel)) → copy_of umask s0 d0 s' (dents s' !! (d ++ rel)).
Proof.
  intros Hown Hino Hout Hd Hne Hw Hp Hrel Hdp. destruct (write_new_only _ _ _ _ _ _ Hw) as (p' & Hp' & Hq & Hf).
  rewrite Hp in Hp'. injection Hp' as <-. rewrite (Hq (d ++ rel)) by done.
  destruct d0 as [[]|]; cbn [copy_of]; try done. intros (n & j & Hn & Hj & Hin). exists n, j.
  split_and!; [done..|]. rewrite Hf; [done|by rewrite Hin|]. intros Ep.
  destruct (own_new _ _ _ Hown rel j Hrel Hj) as [Hnew _].
  destruct (decide (below d p)) as [(c & r & E)|Hb].
  - apply Hdp. rewrite E. f_equal. apply (own_inj _ _ _ Hown rel (c :: r) j); try done. by rewrite <- E.
  - destruct (decide (p = d)) as [->|Hpd].
    + destruct (Hd d) as (m & o & E); [done..|]. congruence.
    + rewrite Hout in Ep by done. destruct (Hino p j Ep). congruence.
Qed.

(** ** From the built tree to the registry and back *)

Definition rootfs_in (W : path) : path := W ++ ["rootfs"].
Definition push_in (W : path) : path := W ++ ["oci-push"].
Definition pulled_in (W : path) : path := W ++ ["rootfs-from-cloud"].
Definition iso_in (W : path) : path := W ++ ["iso-build"].

(** The file that names the image on the installed system. *)
Definition hk_dir : path := ["etc"; "deb-ostree"].
Definition hk_rel : path := hk_dir ++ ["deb-ostree.hk"].

(** A working directory with a tree that can be packed and has a place for
    deb-ostree.hk, no left-over of a push that was cut off, and nothing but
    directories where the push and the ISO builder work. *)
Record shippable (W : path) (s : fsys) : Prop := {
  ship_names : Forall name_ok W;
  ship_wf : wf_fs s;
  ship_root : real_dir s (rootfs_in W);
  ship_pack : packable s (rootfs_in W);
  ship_dir : is_Some (dents s !! push_in W) → ∃ m o, dents s !! push_in W = Some (DDir m o);
  ship_push : dents s !! (push_in W ++ [layer_name]) = None;
  ship_etc : ∃ m o, dents s !! (rootfs_in W ++ hk_dir) = Some (DDir m o);
  ship_hk : ∀ t, dents s !! (rootfs_in W ++ hk_rel) ≠ Some (DSym t);
  ship_iso : is_Some (dents s !! iso_in W) → ∃ m o, dents s !! iso_in W = Some (DDir m o) }.

Lemma dir_names : name_ok "rootfs" ∧ name_ok "oci-push" ∧ name_ok "rootfs-from-cloud".
Proof. by split_and!. Qed.

Lemma iso_name : name_ok "iso-build".
Proof. by split_and!. Qed.

Lemma below_snoc (p rel : path) c : below p (p ++ rel ++ [c]).
Proof. destruct rel as [|y rel]; [by exists c, []|]. by exists y, (rel ++ [c]). Qed.

Lemma hk_names : Forall name_ok hk_dir ∧ name_ok "deb-ostree.hk".
Proof. split; [|by split_and!]. by repeat (constructor; [by split_and!|]). Qed.

Lemma child_apart (W r : path) (a b : gostring) : a ≠ b → ¬ (W ++ [a]) `prefix_of` (W ++ b :: r).
Proof.
  intros Hab [r' E]. rewrite <- app_assoc in E. apply app_inv_head in E. injection E as E _. congruence.
Qed.

Lemma rootfs_apart W rel : rootfs_in W ++ rel ≠ push_in W.
Proof. intros E. apply (child_apart W [] "rootfs" "oci-push"); [done|]. by exists rel. Qed.

Lemma pulled_nonempty W : pulled_in W ≠ [].
Proof. by destruct W. Qed.

Lemma snoc_names (W : path) c : Forall name_ok W → name_ok c → Forall name_ok (W ++ [c]).
Proof. intros. by apply Forall_app, conj, Forall_singleton. Qed.

(** Making the directory of the push keeps all that. *)
Lemma push_dir_ready umask W s :
  shippable W s →
  ∃ s1, MkdirAll umask (abs_path (push_in W)) 493 s = (Ok tt, s1) ∧
    shippable W s1 ∧ real_dir s1 (push_in W) ∧ files s1 = files s ∧
    ∀ q, q ≠ push_in W → dents s1 !! q = dents s !! q.
Proof.
  intros [Hn Hwf Hr Hp Hd Hl He Hh Hi]. assert (Hc : name_ok "oci-push") by by split_and!.
  assert (HW : real_dir s W) by (eapply real_dir_prefix; [exact Hr|by eexists]).
  assert (Hpn : Forall name_ok (push_in W)) by by apply snoc_names.
  destruct (dents s !! push_in W) as [x|] eqn:E.
  - exists s. assert (Hdir : real_dir s (push_in W)).
    { destruct (Hd ltac:(eauto)) as (m & o & E'). eapply real_dir_snoc; [done|]. by rewrite <- E', <- E. }
    rewrite MkdirAll_there by done. split_and!; try done. split; try done. by rewrite E.
  - unfold push_in in *. rewrite MkdirAll_new by done. eexists. split; [reflexivity|].
    set (s1 := set_dents _ s).
    assert (Hsub : dents s ⊆ dents s1) by by apply insert_subseteq.
    assert (Hother : ∀ q, q ≠ W ++ ["oci-push"] → dents s1 !! q = dents s !! q).
    { intros q Hq. by apply lookup_insert_ne. }
    split_and!; try done.
    + split; try done.
      * by eapply (wf_add s s1 W "oci-push").
      * by eapply real_dir_sub.
      * intros rel c d. rewrite Hother; [apply Hp|apply rootfs_apart].
      * intros _. eexists _, _. apply lookup_insert_eq.
      * unfold push_in. rewrite Hother; [done|]. intros Eq. apply (f_equal length) in Eq.
        rewrite !length_app in Eq. simpl in Eq. lia.
      * rewrite Hother; [done|apply rootfs_apart].
      * intros t. rewrite Hother; [done|apply rootfs_apart].
      * rewrite Hother; [done|]. unfold iso_in. by intros [= ?]%app_inv_head.
    + eapply real_dir_snoc; [by eapply real_dir_sub|]. apply lookup_insert_eq.
Qed.

(** Where it is written: a file, or nothing yet. *)
Definition plain_entry (x : option dent) : Prop :=
  match x with Some (DSym _) | Some (DSpecial _ _) => False | _ => True end.

Lemma written_child umask s q c data perm s' :
  Forall name_ok q → name_ok c → real_dir s q → plain_entry (dents s !! (q ++ [c])) →
  write_new umask (abs_path (q ++ [c])) data perm s = (Ok tt, s') →
  resolve s' true (abs_path (q ++ [c])) = Ok (q ++ [c]) ∧
  ReadFile s' (abs_path (q ++ [c])) = Ok data.
Proof.
  intros Hq Hc Hr Hp Hw. destruct (write_new_Ok _ _ _ _ _ _ Hw) as (p & Hres & Hne & Hsub & Hsame & Hcase).
  assert (Hr' : real_dir s' q) by by eapply real_dir_sub.
  assert (Hs' : resolve s' true (abs_path (q ++ [c])) = Ok (q ++ [c])).
  { apply resolve_child; [done..|]. right. intros t E.
    destruct (decide (q ++ [c] = p)) as [<-|Hd].
    - destruct Hcase as [(i & n & E' & _)|(k & m & E' & _)]; congruence.
    - rewrite Hsame in E by done. by rewrite E in Hp. }
  split; [done|]. rewrite Hs' in Hres. injection Hres as <-.
  destruct Hcase as [(i & n & E & Hi & <- & _)|(k & m & E & _ & _ & ->)]; [|by rewrite E in Hp].
  by eapply ReadFile_child.
Qed.

Lemma pulled_hk umask W s s' :
  shippable W s → real_dir s' (pulled_in W) →
  (∀ rel, rel ≠ [] → copy_of umask s (dents s !! (rootfs_in W ++ rel)) s' (dents s' !! (pulled_in W ++ rel))) →
  real_dir s' (pulled_in W ++ hk_dir) ∧ plain_entry (dents s' !! (pulled_in W ++ hk_rel)).
Proof.
  intros Hs Hr Hcopy. split.
  - destruct (ship_etc _ _ Hs) as (m & o & He).
    destruct (wf_parent s (ship_wf _ _ Hs) (rootfs_in W ++ ["etc"]) "deb-ostree") as [E|(m' & o' & E)].
    { rewrite <- app_assoc. change (["etc"] ++ ["deb-ostree"]) with hk_dir. rewrite He. eauto. }
    { by destruct W. }
    change hk_dir with (["etc"] ++ ["deb-ostree" : gostring]). rewrite app_assoc.
    pose proof (Hcopy ["etc"] ltac:(done)) as H1. rewrite E in H1.
    pose proof (Hcopy hk_dir ltac:(done)) as H2. rewrite He in H2. cbn [copy_of] in H1, H2.
    eapply real_dir_snoc; [by eapply real_dir_snoc|]. rewrite <- app_assoc. exact H2.
  - pose proof (Hcopy hk_rel ltac:(done)) as H1. pose proof (ship_hk _ _ Hs) as H2.
    destruct (dents s !! (rootfs_in W ++ hk_rel)) as [[]|]; cbn [copy_of] in H1; try (by rewrite H1).
    + destruct H1 as (n & j & _ & E & _). by rewrite E.
    + by destruct (H2 target).
Qed.

(** ** The ISO builder's own directory *)

(** [os.MkdirAll] where nothing is there yet makes the way and nothing else. *)
Lemma MkdirAll_way umask s p c r perm :
  Forall name_ok (p ++ c :: r) → real_dir s p → (∀ q, dents s !! (p ++ c :: q) = None) →
  ∃ s1, MkdirAll umask (abs_path (p ++ c :: r)) perm s = (Ok tt, s1) ∧
    real_dir s1 (p ++ c :: r) ∧ files s1 = files s ∧
    (∀ q, ¬ q `prefix_of` p ++ c :: r → dents s1 !! q = dents s !! q) ∧
    ∀ q, ¬ (p ++ [c]) `prefix_of` q → dents s1 !! q = dents s !! q.
Proof.
  induction r as [|x r IH] using rev_ind; intros Hn Hr Hnone.
  - apply Forall_app in Hn as [Hp [Hc _]%Forall_cons_1]. rewrite MkdirAll_new by done.
    eexists. split; [done|]. split_and!; try done.
    + eapply real_dir_snoc; [|apply lookup_insert_eq]. eapply real_dir_sub; [|done].
      by apply insert_subseteq.
    + intros q Hq. apply lookup_insert_ne. by intros <-.
    + intros q Hq. apply lookup_insert_ne. by intros <-.
  - replace (p ++ c :: r ++ [x]) with ((p ++ c :: r) ++ [x]) in * by by rewrite <- app_assoc.
    pose proof Hn as [Hn' [Hx _]%Forall_cons_1]%Forall_app.
    destruct (IH Hn' Hr Hnone) as (s1 & Hmk & Hd & Hf & Hs & Ho).
    assert (Hnx : dents s1 !! ((p ++ c :: r) ++ [x]) = None).
    { rewrite Hs, <- app_assoc; [apply Hnone|]. intros [l E]. apply (f_equal length) in E.
      rewrite !length_app in E. simpl in E. lia. }
    rewrite (MkdirAll_step umask s s1 (p ++ c :: r) x perm ENOENT); try done.
    2:{ rewrite <- app_assoc in Hn |- *. cbn [app] in *. by apply Stat_err_missing. }
    eexists. split; [done|]. split_and!; try done.
    + eapply real_dir_snoc; [|apply lookup_insert_eq]. eapply real_dir_sub; [|done].
      by apply insert_subseteq.
    + intros q Hq. cbn [dents set_dents]. rewrite lookup_insert_ne by by intros <-.
      apply Hs. intros Hp. apply Hq. by apply prefix_app_r.
    + intros q Hq. cbn [dents set_dents]. rewrite lookup_insert_ne; [by apply Ho|].
      intros <-. apply Hq. exists (r ++ [x]). by rewrite <- !app_assoc.
Qed.

(** The directory of the ISO's tree is made anew; nothing changes elsewhere. *)
Lemma iso_tree_made umask W s :
  Forall name_ok W → real_dir s W →
  (∃ m o, dents s !! iso_in W = Some (DDir m o)) ∨ (∀ r, dents s !! (iso_in W ++ r) = None) →
  ∃ s1 s2, RemoveAll (abs_path (iso_in W ++ ["iso-tree"])) s = (Ok tt, s1) ∧
    MkdirAll umask (abs_path (iso_in W ++ ["iso-tree"; "live"])) 493 s1 = (Ok tt, s2) ∧
    files s2 = files s ∧ ∀ q, ¬ iso_in W `prefix_of` q → dents s2 !! q = dents s !! q.
Proof.
  intros Hn HW Hd.
  assert (Hi : Forall name_ok (iso_in W ++ ["iso-tree"; "live"])).
  { unfold iso_in. rewrite <- app_assoc. apply Forall_app, conj; [done|].
    by repeat (constructor; [by split_and!|]). }
  destruct Hd as [(m & o & E)|Hnone].
  - assert (Hr : real_dir s (iso_in W)) by by eapply real_dir_snoc.
    assert (Hout : ∀ q, ¬ (iso_in W ++ ["iso-tree"]) `prefix_of` q →
      dents (prune (iso_in W ++ ["iso-tree"]) s) !! q = dents s !! q).
    { intros q Hq. rewrite prune_lookup. apply decide_False. intros [->|(c & r & ->)]; apply Hq.
      - done.
      - by apply prefix_app_r. }
    destruct (MkdirAll_way umask (prune (iso_in W ++ ["iso-tree"]) s) (iso_in W) "iso-tree" ["live"] 493)
      as (s2 & Hmk & _ & Hf & _ & Ho); [done|..].
    + eapply real_dir_mono; [exact Hr|]. intros q Hq. apply Hout. intros [l Hl].
      apply prefix_length in Hq. apply (f_equal length) in Hl. rewrite !length_app in Hl. simpl in Hl. lia.
    + intros q. rewrite prune_lookup. apply decide_True.
      destruct q as [|c q]; [by left|right]. exists c, q. by rewrite <- app_assoc.
    + eexists _, s2. split.
      { unfold RemoveAll, lift_fs. apply Forall_app in Hi as [Hi [Ht _]%Forall_cons_1].
        rewrite resolve_child by (try done; by left).
        assert (Em : ∀ A (x y : A), match iso_in W ++ ["iso-tree"] with [] => x | _ => y end = y)
          by (intros; unfold iso_in; by destruct W).
        by rewrite Em. }
      split_and!; [done..|]. intros q Hq. rewrite Ho, Hout; [done|..]; intros [l ->]; apply Hq;
        rewrite <- app_assoc; by apply prefix_app_r.
  - unfold iso_in in *. rewrite <- !app_assoc in *. cbn [app] in *.
    destruct (MkdirAll_way umask s W "iso-build" ["iso-tree"; "live"] 493)
      as (s2 & Hmk & _ & Hf & _ & Ho); [done..| |].
    { intros q. specialize (Hnone q). by rewrite <- app_assoc in Hnone. }
    exists s, s2. split; [|done]. unfold RemoveAll, lift_fs. rewrite resolve_missing; [done|..].
    + apply Forall_app in Hi as [Hw Hi]. apply Forall_app, conj; [done|]. exact (Forall_take _ 2 _ Hi).
    + done.
    + specialize (Hnone []). by rewrite app_nil_r in Hnone.
    + done.
Qed.

(** What the stages before it leave alone, the ISO builder finds. *)
Lemma iso_place W s s' :
  shippable W s →
  (∀ q, q ≠ push_in W → q ≠ pulled_in W → ¬ below (pulled_in W) q → dents s' !! q = dents s !! q) →
  real_dir s' W ∧ ((∃ m o, dents s' !! iso_in W = Some (DDir m o)) ∨
                   (∀ r, dents s' !! (iso_in W ++ r) = None)).
Proof.
  intros Hs Hsame. assert (HW : real_dir s W) by (eapply real_dir_prefix; [apply Hs|by eexists]).
  assert (Hiso : ∀ r, dents s' !! (iso_in W ++ r) = dents s !! (iso_in W ++ r)).
  { intros r. unfold iso_in. rewrite <- app_assoc. cbn [app]. apply Hsame.
    - by intros [= ?]%app_inv_head.
    - by intros [= ?]%app_inv_head.
    - intros (c & l & E). apply (child_apart W r "rootfs-from-cloud" "iso-build"); [done|]. by exists (c :: l). }
  split.
  - eapply real_dir_mono; [exact HW|]. intros q Hq%prefix_length.
    apply Hsame; [intros ->|intros ->|intros (c & l & ->)]; revert Hq;
      unfold push_in, pulled_in; rewrite !length_app; simpl; lia.
  - pose proof (Hiso []) as H0. rewrite !app_nil_r in H0. rewrite H0.
    destruct (dents s !! iso_in W) as [x|] eqn:E.
    + left. rewrite <- E. apply (ship_iso _ _ Hs). by rewrite E.
    + right. intros r. rewrite Hiso. induction r as [|c r IH] using rev_ind; [by rewrite app_nil_r|].
      destruct (dents s !! (iso_in W ++ r ++ [c])) as [d|] eqn:Ed; [|done].
      rewrite app_assoc in Ed.
      destruct (wf_parent s (ship_wf _ _ Hs) _ _ ltac:(by eexists)) as [E'|(m & o & E')]; [|congruence].
      by destruct W.
Qed.

Section trip.
Context `{TarGz, Registry} (umask : N).

Lemma trip W s p pp reg r o1 o2 :
  shippable W s → real_dir s (push_in W) →
  bpRootfsDir p = abs_path (rootfs_in W) → bpWorkDir p = abs_path (push_in W) →
  ppRepository pp ++ ":" ++ ppTag pp = ref_of p → ppDestDir pp = abs_path (pulled_in W) →
  ParseReference (ref_of p) = true →
  BuildAndPush umask p (OState s reg) = (Ok r, o1) → PullAndUnpack umask pp o1 = (Ok tt, o2) →
  (∀ rel, rel ≠ [] → copy_of umask s (dents s !! (rootfs_in W ++ rel)) (ofs o2)
                       (dents (ofs o2) !! (pulled_in W ++ rel))) ∧
  own_files (pulled_in W) (ofs o1) (ofs o2) ∧ real_dir (ofs o2) (pulled_in W) ∧
  (∀ q, q ≠ pulled_in W → ¬ below (pulled_in W) q → dents (ofs o2) !! q = dents (ofs o1) !! q) ∧
  (∀ q i, dents (ofs o1) !! q = Some (DFile i) → is_Some (files (ofs o1) !! i)) ∧
  dents (ofs o1) = dents s.
Proof.
  intros [Hn Hwf Hr Hp Hd Hl _ _ _] Hpd Hroot Hwork Hsame Hdest Href Hpush Hpull.
  assert (HW : real_dir s W) by (eapply real_dir_prefix; [exact Hr|by eexists]).
  assert (Hrn : Forall name_ok (rootfs_in W)) by (apply snoc_names; [done|by split_and!]).
  assert (Hpn : Forall name_ok (push_in W)) by (apply snoc_names; [done|by split_and!]).
  assert (Hapart : ¬ rootfs_in W `prefix_of` push_in W ++ [layer_name]).
  { unfold rootfs_in, push_in. rewrite <- app_assoc. by apply child_apart. }
  destruct (push_layer umask p (OState s reg) (rootfs_in W) (push_in W))
    as (t & sA & f1 & Ht & HsA & Hdf & Hff & Hrun); try done. cbn [ofs oreg] in *.
  rewrite Hrun in Hpush. destruct (remote_Write _ _ _ _ _) as [reg'|] eqn:Ew; [|done].
  injection Hpush as _ <-. destruct (pulled_whole _ _ _ _ Hpull) as [img Himg]. cbn [oreg] in Himg.
  rewrite Hsame in Himg. pose proof (remote_last _ _ _ _ _ _ _ _ _ Ew Himg) as ->.
  assert (Hi : files s !! fresh (dom (files s)) = None) by apply not_elem_of_dom, is_fresh.
  pose proof layer_name_ok as Hln.
  destruct (pull_layer umask sA (rootfs_in W) t pp f1 reg' W "rootfs-from-cloud")
    as (st' & Hpull' & Hcopy & Hother & Hown & Hrd & _); subst sA; try done.
  - by apply with_file_wf.
  - by apply with_file_packable.
  - by apply with_file_dirs.
  - eapply real_dir_mono; [exact HW|]. intros q _. by rewrite Hdf.
  - by rewrite Hsame.
  - by rewrite Hsame.
  - rewrite Hpull in Hpull'. injection Hpull' as ->. cbn [ofs]. split_and!; try done.
    + intros rel Hrel. eapply with_file_copy; eauto.
    + intros q i. rewrite Hdf. intros Hq. destruct (wf_inode s Hwf _ _ Hq) as [n Hx]. exists n.
      by eapply lookup_weaken.
Qed.
End trip.

Section shipped.
Context `{External, TarGz, Registry, MapOrder} (http : gostring → response) (wd : gostring) (pid : nat).

#[local] Hint Extern 0 Services => exact (this_system http) : typeclass_instances.

Lemma on_files_Ok {A : Type} (m : FsM A) h a h' :
  on_machine (on_files m) h = (Ok a, h') → m (sfiles h) = (Ok a, sfiles h') ∧ sregistry h' = sregistry h.
Proof.
  unfold on_machine, on_files, sfiles. destruct (m _) as [[x|e| |] f]; try done.
  by intros [= <- <-].
Qed.

Lemma on_machine_Ok {A : Type} (m : HM A) h a h' :
  on_machine m h = (Ok a, h') → m (smachine h) = (Ok a, smachine h').
Proof. unfold on_machine. destruct (m _) as [[x|e| |] f]; try done. by intros [= <- <-]. Qed.

Lemma ctx_Ok {A : Type} c (m : HM A) s a s' : ctx c m s = (Ok a, s') → m s = (Ok a, s').
Proof. unfold ctx. by destruct (m s) as [[x|e| |] f]. Qed.

Lemma files_step {A : Type} (m : FsM A) s a s' f :
  on_files m s = (Ok a, s') → m (mfs s) = (Ok a, f) → s' = Machine f (menv s) (mlog s).
Proof. unfold on_files. intros E Em. rewrite Em in E. by injection E as <-. Qed.

Lemma on_image_Ok {A : Type} (m : ST ostate OciError A) h a h' :
  on_image m h = (Ok a, h') →
  m (OState (sfiles h) (sregistry h)) = (Ok a, OState (sfiles h') (sregistry h')).
Proof.
  unfold on_image, sfiles. destruct (m _) as [[x|e| |] []]; try done. by intros [= <- <-].
Qed.

(** A [build all] that worked ran its stages to the end. *)
Lemma BuildAll_Ok opts st st' :
  let h0 := lock_files pid (ao_WorkDir opts) true (bhost st) in
  BuildAll wd pid opts st = (Ok tt, st') →
  ∃ cfg project evs,
    loadAndValidateConfig (ao_ProjectDir opts) h0 = Ok cfg ∧
    Parse (host_files h0) (ao_ProjectDir opts) = Ok project ∧
    run_all wd cfg project opts h0 = (Ok tt, bhost st', evs).
Proof.
  intros h0 Hb. destruct (CheckAll (lookPath (bhost st))) as [msg|] eqn:Ec.
  { by rewrite (BuildAll_refused wd pid opts st msg Ec) in Hb. }
  rewrite (BuildAll_checked wd pid opts st Ec) in Hb. unfold with_lock in Hb.
  destruct (Acquire _ _ pid (ao_WorkDir opts) (bworld st)) as [[l|e| |] w]; try done.
  fold h0 in Hb.
  destruct (loadAndValidateConfig (ao_ProjectDir opts) h0) as [cfg|e| |] eqn:El;
    [destruct (Parse (host_files h0) (ao_ProjectDir opts)) as [project|e| |] eqn:Ep|..].
  1: { rewrite (all_body_runs wd pid h0 cfg project opts w (trace st) El Ep) in Hb.
       destruct (run_all wd cfg project opts h0) as [[r h] evs] eqn:Er.
       injection Hb as -> <-. cbn [bhost]. eauto 10. }
  all: pose proof (all_body_unread http wd pid opts h0 w (trace st)) as Hu; exfalso;
    rewrite El in Hu; try rewrite Ep in Hu;
    destruct (st_bind _ _ (BState w h0 (trace st))) as [r st2]; destruct Hu as [_ Hr]; [by intros|];
    injection Hb as -> _; by destruct (Hr tt).
Qed.

(** The stages of a [build all] of a project that needs no live-build, each with
    the host it left. *)
Lemma run_all_Ok cfg project opts h0 h evs :
  RequiresLiveBuild (Project_ cfg) = false →
  run_all wd cfg project opts h0 = (Ok tt, h, evs) →
  let p := push_of wd cfg (all_cloud opts) in
  let W := ao_WorkDir opts in
  let dir := path_join [W; "rootfs-from-cloud"] in
  ∃ cfg' h1 ha hb r h2 h3,
    build_rootfs project cfg (path_join [W; "rootfs"]) W h0 = (Ok tt, h1) ∧
    make_dir (path_join [W; "oci-push"]) h1 = (Ok tt, ha) ∧
    push_image p ha = (Ok r, hb) ∧
    pull_image (MkPullParams (bpRepository p) (bpTag p) (Token cfg') dir (ao_InsecureRegistry opts)) hb =
      (Ok tt, h2) ∧
    write_config (path_join [dir; "etc"; "deb-ostree"; "deb-ostree.hk"])
      (origin_params (bpRepository p) (bpTag p)) h2 = (Ok tt, h3) ∧
    build_iso (iso_of cfg' (all_iso (cloud_result wd cfg (all_cloud opts)) opts)) h3 = (Ok tt, h).
Proof.
  intros Hl Hr p W dir. unfold run_all in Hr.
  destruct (run_stages (cloud_stages wd cfg project (all_cloud opts)) h0) as [[[u|e| |] hb] ev1] eqn:Ec;
    try done.
  destruct (loadAndValidateConfig (ao_ProjectDir opts) hb) as [cfg'|e| |] eqn:El; try done.
  destruct (run_stages (iso_stages wd cfg' _) hb) as [[r hz] ev2] eqn:Ei. injection Hr as -> -> _.
  unfold iso_stages in Ei. rewrite (all_reference wd cfg cfg' opts Hl) in Ei. cbv zeta in Ei.
  unfold cloud_stages in Ec. rewrite Hl in Ec. cbv zeta in Ec.
  apply stage_Ok in Ec as ([] & h1 & e1 & Hrootfs & Ec).
  apply stage_Ok in Ec as ([] & ha & e2 & Hmk & Ec).
  apply stage_Ok in Ec as (r & hb' & e3 & Hpush & Ec). injection Ec as _ <- _.
  apply stage_Ok in Ei as ([] & h2 & e4 & Hpull & Ei).
  apply stage_Ok in Ei as ([] & h3 & e5 & Hhk & Ei).
  apply stage_Ok in Ei as ([] & h4 & e6 & Hiso & Ei). injection Ei as <- _.
  exists cfg', h1, ha, hb', r, h2, h3. split_and!; done.
Qed.

(** The configuration is written into the pulled tree and nothing else of it
    changes. *)
Lemma config_written s0 d s1 h h' p :
  Forall name_ok d → d ≠ [] →
  own_files d s1 (sfiles h) → (∀ q i, dents s1 !! q = Some (DFile i) → is_Some (files s1 !! i)) →
  (∀ q, q ≠ d → ¬ below d q → dents (sfiles h) !! q = dents s1 !! q) →
  real_dir (sfiles h) d → real_dir (sfiles h) (d ++ hk_dir) → plain_entry (dents (sfiles h) !! (d ++ hk_rel)) →
  write_config (abs_path (d ++ hk_rel)) p h = (Ok tt, h') →
  ReadFile (sfiles h') (abs_path (d ++ hk_rel)) = Ok (spec_serialize (debostree_tree p)) ∧
  (∀ q, ¬ below d q → dents (sfiles h') !! q = dents (sfiles h) !! q) ∧
  ∀ rel d0, rel ≠ [] → rel ≠ hk_rel →
    copy_of umask s0 d0 (sfiles h) (dents (sfiles h) !! (d ++ rel)) →
    copy_of umask s0 d0 (sfiles h') (dents (sfiles h') !! (d ++ rel)).
Proof.
  intros Hn Hne Hown Hino Hout Hd Hdir Hplain Hw. cbn [write_config this_system system] in Hw.
  rewrite WriteDebOstreeConfig_text in Hw. unfold WriteFile, on_machine, ctx, on_files in Hw.
  change (mfs (smachine h)) with (sfiles h) in Hw.
  destruct (write_new _ _ _ _ (sfiles h)) as [[[]|e| |] f] eqn:E; try discriminate Hw.
  injection Hw as <-. change (sfiles (SysState (Machine f _ _) _)) with f.
  destruct (written_child umask (sfiles h) (d ++ hk_dir) "deb-ostree.hk" (spec_serialize (debostree_tree p)) 420 f)
    as [Hres Hread].
  - apply Forall_app, conj; [exact Hn|apply hk_names].
  - apply hk_names.
  - exact Hdir.
  - rewrite <- app_assoc. exact Hplain.
  - rewrite <- app_assoc. exact E.
  - rewrite <- app_assoc in Hres, Hread. refine (conj Hread (conj _ _)).
    { intros q Hq. destruct (write_new_only _ _ _ _ _ _ E) as (q' & Hq' & Hsame & _).
      pose proof (eq_trans (eq_sym Hq') Hres) as [= ->]. apply Hsame. intros ->. apply Hq. by eexists _, _. }
    intros rel d0 Hrel Hhk Hc.
    eapply write_keeps; [exact Hown|exact Hino|exact Hout|exact Hd|exact Hne|exact E|exact Hres|exact Hrel| |exact Hc].
    by intros Eq%app_inv_head.
Qed.

(** What the stages between the built tree and the ISO do to it. *)
Lemma stages_ship opts cfg cfg' W h1 ha hb r h2 h3 :
  let p := push_of wd cfg (all_cloud opts) in
  let dir := path_join [ao_WorkDir opts; "rootfs-from-cloud"] in
  ao_WorkDir opts = abs_path W → shippable W (sfiles h1) →
  make_dir (path_join [ao_WorkDir opts; "oci-push"]) h1 = (Ok tt, ha) →
  push_image p ha = (Ok r, hb) →
  pull_image (MkPullParams (bpRepository p) (bpTag p) (Token cfg') dir (ao_InsecureRegistry opts)) hb =
    (Ok tt, h2) →
  write_config (path_join [dir; "etc"; "deb-ostree"; "deb-ostree.hk"])
    (origin_params (bpRepository p) (bpTag p)) h2 = (Ok tt, h3) →
  ReadFile (sfiles h3) (abs_path (pulled_in W ++ hk_rel)) =
    Ok (spec_serialize (debostree_tree (origin_params (bpRepository p) (bpTag p)))) ∧
  (∀ q, q ≠ push_in W → q ≠ pulled_in W → ¬ below (pulled_in W) q →
     dents (sfiles h3) !! q = dents (sfiles h1) !! q) ∧
  ∀ rel, rel ≠ [] → rel ≠ hk_rel →
    copy_of umask (sfiles h1) (dents (sfiles h1) !! (rootfs_in W ++ rel))
      (sfiles h3) (dents (sfiles h3) !! (pulled_in W ++ rel)).
Proof.
  intros p dir HW Hs Hmk Hpush Hpull Hhk. pose proof (ship_names _ _ Hs) as Hn.
  assert (Hj : ∀ c : gostring, name_ok c → path_join [ao_WorkDir opts; c] = abs_path (W ++ [c])).
  { intros c Hc. rewrite HW. apply join_names; [exact Hn|by apply Forall_singleton]. }
  destruct dir_names as (Hn1 & Hn2 & Hn3).
  apply on_files_Ok in Hmk as [Hmk Hreg]. rewrite (Hj _ Hn2) in Hmk.
  destruct (push_dir_ready umask W (sfiles h1) Hs) as (s1 & Hmk' & Hs1 & Hpd & Hf1 & Hd1).
  change (W ++ ["oci-push"]) with (push_in W) in Hmk. rewrite Hmk' in Hmk. injection Hmk as ->.
  apply on_image_Ok in Hpush. apply on_image_Ok in Hpull.
  destruct (push_reference p _ _ _ Hpush) as [-> Href].
  set (pp := MkPullParams _ _ _ _ _) in Hpull.
  destruct (trip umask W (sfiles ha) p pp _ _ _ _ Hs1 Hpd (Hj _ Hn1) (Hj _ Hn2) eq_refl (Hj _ Hn3)
              Href Hpush Hpull) as (Hcopy & Hown & Hrd & Hout & Hino & Hsame).
  cbn [ofs] in *.
  assert (Hpn : Forall name_ok (pulled_in W)) by (apply snoc_names; [exact Hn|exact Hn3]).
  assert (Hpath : path_join [dir; "etc"; "deb-ostree"; "deb-ostree.hk"] = abs_path (pulled_in W ++ hk_rel)).
  { unfold dir. rewrite (Hj _ Hn3). apply (join_names (pulled_in W) hk_rel); [exact Hpn|].
    apply Forall_app, conj; [apply hk_names|apply Forall_singleton, hk_names]. }
  rewrite Hpath in Hhk.
  destruct (pulled_hk umask W (sfiles ha) (sfiles h2) Hs1 Hrd Hcopy) as [Hdir Hplain].
  destruct (config_written (sfiles h1) (pulled_in W) (sfiles hb) h2 h3 _ Hpn (pulled_nonempty W)
              Hown Hino Hout Hrd Hdir Hplain Hhk) as (Hread & Hrest & Hkeep).
  refine (conj Hread (conj _ _)).
  { intros q Q1 Q2 Q3. by rewrite Hrest, Hout, Hsame, Hd1. } intros rel Hrel Hne. refine (Hkeep rel _ Hrel Hne _).
  specialize (Hcopy rel Hrel). rewrite Hd1 in Hcopy by apply rootfs_apart.
  exact (copy_of_files _ _ _ _ _ _ Hf1 Hcopy).
Qed.

(** Without the graphical installer, mksquashfs is the first command of the ISO
    builder and finds the tree as it was handed over. *)
Lemma squashed W p h h' :
  Forall name_ok W → real_dir (sfiles h) W →
  (∃ m o, dents (sfiles h) !! iso_in W = Some (DDir m o)) ∨
    (∀ r, dents (sfiles h) !! (iso_in W ++ r) = None) →
  iso_workDir p = abs_path (iso_in W) → iso_skipInstaller p = true →
  build_iso p h = (Ok tt, h') →
  ∃ s s', RunStreaming [] "mksquashfs" (squash_args (iso_rootfs p)
            (abs_path (iso_in W ++ ["iso-tree"; "live"; "filesystem.squashfs"]))) s = (Ok tt, s') ∧
    mlog s = mlog (smachine h) ∧ files (mfs s) = files (sfiles h) ∧
    ∀ rel, dents (mfs s) !! (pulled_in W ++ rel) = dents (sfiles h) !! (pulled_in W ++ rel).
Proof.
  intros Hn HW Hi Hwork Hskip Hb.
  assert (Hin : Forall name_ok (iso_in W)) by (apply snoc_names; [exact Hn|exact iso_name]).
  assert (Hnames : Forall name_ok (["iso-tree"; "live"; "filesystem.squashfs"] : list gostring))
    by by repeat (constructor; [by split_and!|]).
  assert (Hj : ∀ q r, Forall name_ok q → Forall name_ok r →
    path_join (abs_path (iso_in W ++ q) :: r) = abs_path (iso_in W ++ q ++ r)).
  { intros q r Hq Hr. rewrite app_assoc. apply join_names; [by apply Forall_app|done]. }
  destruct (iso_tree_made umask W (sfiles h) Hn HW Hi) as (s1 & s2 & Hrm & Hmk & Hf & Ho).
  apply on_machine_Ok in Hb. unfold IsoBuild.Build in Hb. cbv zeta in Hb.
  rewrite Hwork, <- (app_nil_r (iso_in W)), Hj in Hb; [|constructor|exact (Forall_take _ 1 _ Hnames)].
  apply st_bind_Ok in Hb as ([] & m1 & K1%ctx_Ok & Hb). rewrite Hskip in Hb. cbn [negb app] in *.
  apply st_bind_Ok in Hb as ([] & m2 & [= <-] & Hb).
  apply st_bind_Ok in Hb as ([] & m3 & K3%ctx_Ok & _).
  unfold buildSquashfs in K3. cbv zeta in K3.
  rewrite !Hj in K3 by exact (Forall_take _ 1 _ Hnames) || exact (Forall_take _ 2 _ Hnames)
    || exact (Forall_drop _ 2 _ Hnames) || exact (Forall_take _ 1 _ (Forall_drop _ 1 _ Hnames)).
  apply st_bind_Ok in K3 as ([] & m4 & K4 & K5).
  pose proof (files_step _ _ _ _ _ K1 Hrm) as ->. pose proof (files_step _ _ _ _ _ K4 Hmk) as ->.
  eexists _, m3. refine (conj K5 (conj eq_refl (conj Hf _))).
  intros rel. apply Ho. unfold pulled_in. rewrite <- app_assoc. by apply child_apart.
Qed.

(** C4.  When [build all] of a project that needs no live-build works, the tree
    handed to the ISO builder is a copy of the root file system that was built,
    as the trip through an image leaves it (directories, files with their content,
    links with their target; the permissions cut by the umask, without set-id and
    sticky bits, all of it owned by root, devices and pipes left out), at every
    path but that of deb-ostree.hk, which parses to a configuration that names the
    pushed image.  If the graphical installer is skipped, mksquashfs is the first
    command of the ISO builder and finds that very tree; otherwise the installer
    is put into it first.  This asks of the built tree that it can be packed: no
    names an image reserves, no sockets, the directory of deb-ostree.hk in it;
    and of the working directory that it has no left-over of an earlier push and
    nothing but directories under the names of the push and of the ISO builder. *)
Theorem tree_shipped opts st st' W cfg :
  let h0 := lock_files pid (ao_WorkDir opts) true (bhost st) in
  let p := push_of wd cfg (all_cloud opts) in
  ao_WorkDir opts = abs_path W → Forall name_ok W →
  BuildAll wd pid opts st = (Ok tt, st') →
  loadAndValidateConfig (ao_ProjectDir opts) h0 = Ok cfg →
  RequiresLiveBuild (Project_ cfg) = false →
  ∃ project h1 h3 iso, Parse (host_files h0) (ao_ProjectDir opts) = Ok project ∧
    build_rootfs project cfg (abs_path (rootfs_in W)) (abs_path W) h0 = (Ok tt, h1) ∧
    iso_rootfs iso = abs_path (pulled_in W) ∧ build_iso iso h3 = (Ok tt, bhost st') ∧
    (shippable W (sfiles h1) →
     (∀ rel, rel ≠ [] → rel ≠ hk_rel →
        copy_of umask (sfiles h1) (dents (sfiles h1) !! (rootfs_in W ++ rel))
          (sfiles h3) (dents (sfiles h3) !! (pulled_in W ++ rel))) ∧
     (∃ text, ReadFile (sfiles h3) (abs_path (pulled_in W ++ hk_rel)) = Ok text ∧
       denotes (ParseString text) (debostree_tree (origin_params (bpRepository p) (bpTag p)))) ∧
     (iso_skipInstaller iso = true →
      ∃ s s', RunStreaming [] "mksquashfs" (squash_args (abs_path (pulled_in W))
                (abs_path (iso_in W ++ ["iso-tree"; "live"; "filesystem.squashfs"]))) s = (Ok tt, s') ∧
        mlog s = mlog (smachine h3) ∧ files (mfs s) = files (sfiles h3) ∧
        ∀ rel, dents (mfs s) !! (pulled_in W ++ rel) = dents (sfiles h3) !! (pulled_in W ++ rel))).
Proof.
  intros h0 p HW Hn Hb Hl Hlb.
  destruct (BuildAll_Ok opts st st' Hb) as (cfg1 & project & evs & Hl1 & Hp & Hrun).
  fold h0 in Hl1, Hp, Hrun. rewrite Hl in Hl1. injection Hl1 as <-.
  destruct (run_all_Ok cfg project opts h0 _ evs Hlb Hrun)
    as (cfg' & h1 & ha & hb & r & h2 & h3 & Hroot & Hmk & Hpush & Hpull & Hhk & Hiso).
  assert (Hj : ∀ c : gostring, name_ok c → path_join [ao_WorkDir opts; c] = abs_path (W ++ [c])).
  { intros c Hc. rewrite HW. apply join_names; [done|by apply Forall_singleton]. }
  set (iso := iso_of cfg' (all_iso (cloud_result wd cfg (all_cloud opts)) opts)) in *.
  assert (Hr : iso_rootfs iso = abs_path (pulled_in W)) by apply Hj, dir_names.
  assert (Hw : iso_workDir iso = abs_path (iso_in W)) by exact (Hj "iso-build" iso_name).
  clearbody iso. exists project, h1, h3, iso.
  refine (conj Hp (conj _ (conj Hr (conj Hiso _)))).
  { rewrite Hj in Hroot by apply dir_names. rewrite HW in Hroot. exact Hroot. }
  intros Hs.
  destruct (stages_ship opts cfg cfg' W h1 ha hb r h2 h3 HW Hs Hmk Hpush Hpull Hhk) as (Hread & Hsame & Hcopy).
  refine (conj Hcopy (conj _ _)).
  - eexists. refine (conj Hread _). apply serialize_parses, debostree_printable, origin_params_ok.
  - intros Hskip. destruct (iso_place W (sfiles h1) (sfiles h3) Hs Hsame) as [HWd Hi].
    rewrite <- Hr. exact (squashed W iso h3 _ Hn HWd Hi Hw Hskip Hiso).
Qed.
End shipped.

(** ** A small machine *)

#[local] Existing Instance sample_targz.
#[local] Existing Instance sample_registry.
#[local] Existing Instance plain_order.

(** debootstrap leaves a kernel and an initrd; the other commands do nothing. *)
#[local] Instance small_external : External := {|
  umask := 18; cwd := "/p";
  exec_ext := λ _ c f,
    (Exited 0 [] [],
     if str_eqb (hd [] (argv c)) "debootstrap"
     then Fs (list_to_map [(["w"; "rootfs"; "boot"], DDir 493 0);
                           (["w"; "rootfs"; "boot"; "vmlinuz-6.1"], DFile 90);
                           (["w"; "rootfs"; "boot"; "initrd.img-6.1"], DFile 91)] ∪ dents f)
             (list_to_map [(90, Inode "kernel" 420 0); (91, Inode "initrd" 420 0)] ∪ files f)
     else f);
  glob_meta := λ _ _, []; IsPrint := λ _, false |}.

(** A machine with the tools, and one without, with the project in /p. *)
Definition machine_fs (tools : list gostring) : fsys :=
  Fs (list_to_map
        ([(["bin"], DDir 493 0); (["p"], DDir 493 0); (["p"; "config"], DDir 493 0);
          (["p"; "config"; "config.hk"], DFile 2)]
         ++ map (λ t, (["bin"; t], DFile 1)) tools))
     (list_to_map [(1, Inode "elf" 493 0); (2, Inode (Join shipped_lines [NL]) 420 0)]).

Definition all_tools : list gostring :=
  ["unshare"; "dpkg-deb"; "debootstrap"; "mksquashfs"; "grub-mkrescue"; "xorriso"].

#[local] Instance small_system : Services := system small_http.

Definition start (tools : list gostring) : bstate :=
  BState world0
    (SysState (Machine (machine_fs tools) {["PATH" := ("/bin" : gostring)]} []) ∅) [].


Definition small_all : AllOptions := MkAll "/p" "/w" "/out/x.iso" false true.

Definition small_run : res BuildError unit * bstate := BuildAll cwd 7 small_all (start all_tools).

(** *** Checking that a tree can be shipped *)

Definition pack_entry (root p : path) (d : dent) : Prop :=
  below root p → HasPrefix (List.last p []) ".wh." = false ∧
                 match d with DSpecial Socket _ => False | _ => True end.

#[local] Instance pack_entry_dec root p d : Decision (pack_entry root p d).
Proof. unfold pack_entry. destruct d as [| | |[]]; apply _. Defined.

Lemma pack_entries s root : map_Forall (pack_entry root) (dents s) → packable s root.
Proof.
  intros H rel c d Hd. destruct (H _ _ Hd) as [H1 H2]; [apply below_snoc|].
  rewrite app_assoc, last_last in H1. split; [done|]. intros m ->. done.
Qed.

(** The kind of an entry decides most of it. *)
Definition ship_entries (W : path) (s : fsys) : Prop :=
  Forall name_ok W ∧ map_Forall (wf_entry s) (dents s) ∧
  map_Forall (pack_entry (rootfs_in W)) (dents s) ∧
  kind_of (dents s !! rootfs_in W) = KDir ∧
  (dents s !! push_in W = None ∨ kind_of (dents s !! push_in W) = KDir) ∧
  dents s !! (push_in W ++ [layer_name]) = None ∧
  kind_of (dents s !! (rootfs_in W ++ hk_dir)) = KDir ∧
  kind_of (dents s !! (rootfs_in W ++ hk_rel)) = KOther ∧
  (dents s !! iso_in W = None ∨ kind_of (dents s !! iso_in W) = KDir).

#[local] Instance kind_eq_dec : EqDecision kind.
Proof. solve_decision. Defined.
#[local] Instance ship_entries_dec W s : Decision (ship_entries W s).
Proof. unfold ship_entries. apply _. Defined.

Lemma kind_dir x : kind_of x = KDir → ∃ m o, x = Some (DDir m o).
Proof. destruct x as [[]|]; try done. eauto. Qed.

Lemma ship_entries_ok W s : ship_entries W s → shippable W s.
Proof.
  intros (Hn & Hwf & Hp & Hr & Hd & Hl & He & Hh & Hi). apply wf_entries in Hwf.
  apply kind_dir in Hr as (m & o & Hr). split; try done.
  - by eapply wf_real_dir.
  - by apply pack_entries.
  - intros Hs. apply kind_dir. destruct Hd as [Hd|]; [|done]. rewrite Hd in Hs. by destruct Hs.
  - by apply kind_dir.
  - intros t E. by rewrite E in Hh.
  - intros Hs. apply kind_dir. destruct Hi as [Hi|]; [|done]. rewrite Hi in Hs. by destruct Hs.
Qed.

(** The tree the small machine builds. *)
Definition small_h0 : host := lock_files 7 (ao_WorkDir small_all) true (bhost (start all_tools)).

Definition small_cfg : res BuildError Config.Config := loadAndValidateConfig "/p" small_h0.

Definition small_built : option fsys :=
  match small_cfg, Parse (host_files small_h0) "/p" with
  | Ok cfg, Ok project =>
      match build_rootfs project cfg (abs_path (rootfs_in ["w"])) (abs_path ["w"]) small_h0 with
      | (Ok _, h1) => Some (sfiles h1)
      | _ => None
      end
  | _, _ => None
  end.

Lemma small_built_is cfg project h1 :
  small_cfg = Ok cfg → Parse (host_files small_h0) "/p" = Ok project →
  build_rootfs project cfg (abs_path (rootfs_in ["w"])) (abs_path ["w"]) small_h0 = (Ok tt, h1) →
  small_built = Some (sfiles h1).
Proof. intros Hc Hp Hb. unfold small_built. by rewrite Hc, Hp, Hb. Qed.

Lemma small_built_ok : from_option (λ f, bool_decide (ship_entries ["w"] f)) false small_built = true.
Proof. vm_compute. reflexivity. Qed.

Definition small_rel : path := ["boot"; "vmlinuz-6.1"].

Definition small_kernel (f : fsys) : option inode :=
  match dents f !! (rootfs_in ["w"] ++ small_rel) with Some (DFile i) => files f !! i | _ => None end.

Lemma small_kernel_built : small_built ≫= small_kernel = Some (Inode "kernel" 420 0).
Proof. vm_compute. reflexivity. Qed.

Lemma small_kernel_copied f f' :
  Some f ≫= small_kernel = Some (Inode "kernel" 420 0) →
  copy_of 18 f (dents f !! (rootfs_in ["w"] ++ small_rel)) f' (dents f' !! (pulled_in ["w"] ++ small_rel)) →
  ∃ j, dents f' !! (pulled_in ["w"] ++ small_rel) = Some (DFile j) ∧
       files f' !! j = Some (Inode "kernel" 420 0).
Proof.
  cbn [mbind option_bind]. unfold small_kernel.
  destruct (dents f !! (rootfs_in ["w"] ++ small_rel)) as [[|i| |]|]; try done.
  intros Hk (n & j & Hn & Hd & Hj). rewrite Hk in Hn. injection Hn as <-. by exists j.
Qed.

Lemma small_run_ok : fst small_run = Ok tt.
Proof. vm_compute. reflexivity. Qed.

Lemma pair_Ok {A B : Type} (x : A * B) a : fst x = a → x = (a, snd x).
Proof. intros <-. apply surjective_pairing. Qed.

Lemma small_run_pair : small_run = (Ok tt, snd small_run).
Proof. exact (pair_Ok small_run (Ok tt) small_run_ok). Qed.

Lemma small_cfg_ok :
  match small_cfg with Ok cfg => RequiresLiveBuild (Project_ cfg) = false | _ => False end.
Proof. vm_compute. reflexivity. Qed.

(** The kernel that was installed is in the tree handed to the ISO builder. *)
Lemma tree_shipped_witness :
  ∃ h3 iso j, build_iso iso h3 = (Ok tt, bhost (snd small_run)) ∧
    iso_rootfs iso = "/w/rootfs-from-cloud" ∧
    dents (sfiles h3) !! ["w"; "rootfs-from-cloud"; "boot"; "vmlinuz-6.1"] = Some (DFile j) ∧
    files (sfiles h3) !! j = Some (Inode "kernel" 420 0).
Proof.
  pose proof small_cfg_ok as Hc. destruct small_cfg as [cfg| | |] eqn:Ecfg; [|destruct Hc..].
  destruct (tree_shipped small_http cwd 7 small_all (start all_tools) (snd small_run) ["w"] cfg)
    as (project & h1 & h3 & iso & Hp & Hroot & Hiso & Hrun & Hship);
    [reflexivity|apply Forall_singleton; by split_and!| |exact Ecfg|exact Hc|].
  { exact small_run_pair. }
  pose proof (small_built_is cfg project h1 Ecfg Hp Hroot) as Eb.
  pose proof small_built_ok as Hok. pose proof small_kernel_built as Hk. rewrite Eb in Hok, Hk.
  apply bool_decide_eq_true_1, ship_entries_ok in Hok. destruct (Hship Hok) as [Hcopy _].
  destruct (small_kernel_copied (sfiles h1) (sfiles h3) Hk (Hcopy small_rel ltac:(discriminate) ltac:(discriminate)))
    as (j & Hd & Hj).
  exists h3, iso, j. exact (conj Hrun (conj Hiso (conj Hd Hj))).
Defined.
