(* ===== verification/Cli.v ===== *)
(** * The command line (main.go)

    The options and commands of the program, the checks it makes before a
    build, [clean], which removes the lock of a running build too, and the whole
    program on its machine. *)

From Stdlib Require Import Ascii String Lia.
From stdpp Require Import base list gmap strings.
From S2P Require Import GoQuote Util Fs FsProps Host Download Toolchain RootfsProps IsoBuild IsoProps Oci OciProps.
From S2P Require Import Prelude GoStrings GoNumbers GoPath HkTree HkSerialize HkBuilder Config BuildLock Preflight.
From S2P Require Import BuildFlow Messages System Shipped.

Definition version : gostring := "0.3.0".

Definition validSubcommands : list gostring := ["cloud"; "iso"; "all"].

Definition isValidSubcommand (s : gostring) : bool :=
  existsb (λ v, str_eqb s v) validSubcommands.

(** ** Options *)

Record Flags : Type := MkFlags {
  verboseFlag : bool; projectDir : gostring; workDir : gostring; outputISO : gostring;
  insecureRegistry : bool; skipPreflight : bool; noInstaller : bool; cleanAll : bool;
  positional : list gostring }.

Definition flags0 : Flags :=
  MkFlags false "." "./hackeros-build-work" "./output.iso" false false false false [].

(** What [fail] reports, with the values the messages quote. *)
Inductive Failure : Type :=
| MissingValue (option : gostring)
| CleanNotRoot
| WrongArguments (n : nat)
| UnknownCommand (s : gostring)
| NoConfigFile (configPath dir subcommand : gostring)
| NotRoot
| BuildFailed (e : BuildError)
| CannotRemove (path : gostring) (isdir : bool) (e : errno).

Inductive Parsed : Type :=
| Parsed_flags (f : Flags)
| Parsed_help
| Parsed_version
| Parsed_fail (e : Failure).

Inductive option_kind : Type :=
| KFlag (set : Flags → Flags)
| KValue (name : gostring) (set : gostring → Flags → Flags)
| KHelp | KVersion | KPositional.

Definition set_verbose (f : Flags) : Flags :=
  MkFlags true (projectDir f) (workDir f) (outputISO f) (insecureRegistry f)
    (skipPreflight f) (noInstaller f) (cleanAll f) (positional f).
Definition set_project (d : gostring) (f : Flags) : Flags :=
  MkFlags (verboseFlag f) d (workDir f) (outputISO f) (insecureRegistry f)
    (skipPreflight f) (noInstaller f) (cleanAll f) (positional f).
Definition set_workdir (d : gostring) (f : Flags) : Flags :=
  MkFlags (verboseFlag f) (projectDir f) d (outputISO f) (insecureRegistry f)
    (skipPreflight f) (noInstaller f) (cleanAll f) (positional f).
Definition set_output (d : gostring) (f : Flags) : Flags :=
  MkFlags (verboseFlag f) (projectDir f) (workDir f) d (insecureRegistry f)
    (skipPreflight f) (noInstaller f) (cleanAll f) (positional f).
Definition set_insecure (f : Flags) : Flags :=
  MkFlags (verboseFlag f) (projectDir f) (workDir f) (outputISO f) true
    (skipPreflight f) (noInstaller f) (cleanAll f) (positional f).
Definition set_skip (f : Flags) : Flags :=
  MkFlags (verboseFlag f) (projectDir f) (workDir f) (outputISO f) (insecureRegistry f)
    true (noInstaller f) (cleanAll f) (positional f).
Definition set_noinstaller (f : Flags) : Flags :=
  MkFlags (verboseFlag f) (projectDir f) (workDir f) (outputISO f) (insecureRegistry f)
    (skipPreflight f) true (cleanAll f) (positional f).
Definition set_all (f : Flags) : Flags :=
  MkFlags (verboseFlag f) (projectDir f) (workDir f) (outputISO f) (insecureRegistry f)
    (skipPreflight f) (noInstaller f) true (positional f).
Definition add_positional (s : gostring) (f : Flags) : Flags :=
  MkFlags (verboseFlag f) (projectDir f) (workDir f) (outputISO f) (insecureRegistry f)
    (skipPreflight f) (noInstaller f) (cleanAll f) (positional f ++ [s]).

(** The cases of the switch over one argument. *)
Definition classify (a : gostring) : option_kind :=
  if existsb (str_eqb a) ["-v"; "--verbose"] then KFlag set_verbose
  else if existsb (str_eqb a) ["-p"; "--project"] then KValue "--project" set_project
  else if existsb (str_eqb a) ["-w"; "--workdir"] then KValue "--workdir" set_workdir
  else if existsb (str_eqb a) ["-o"; "--output"] then KValue "--output" set_output
  else if str_eqb a "--insecure-registry" then KFlag set_insecure
  else if str_eqb a "--skip-preflight" then KFlag set_skip
  else if str_eqb a "--no-installer" then KFlag set_noinstaller
  else if str_eqb a "--all" then KFlag set_all
  else if existsb (str_eqb a) ["-h"; "--help"; "help"] then KHelp
  else if existsb (str_eqb a) ["-V"; "--version"] then KVersion
  else KPositional.

(** The loop over [args]. *)
Fixpoint parse_args (args : list gostring) (f : Flags) : Parsed :=
  match args with
  | [] => Parsed_flags f
  | a :: args' =>
      match classify a with
      | KFlag set => parse_args args' (set f)
      | KValue name set =>
          match args' with
          | [] => Parsed_fail (MissingValue name)
          | v :: args'' => parse_args args'' (set v f)
          end
      | KHelp => Parsed_help
      | KVersion => Parsed_version
      | KPositional => parse_args args' (add_positional a f)
      end
  end.

(** ** Commands *)

Inductive Command : Type :=
| CmdClean (absWorkDir absOutputISO : gostring) (all : bool)
| CmdCloud (opts : CloudOptions)
| CmdIso (opts : IsoOptions)
| CmdAll (opts : AllOptions).

(** What [main] decides to do: print the usage and exit, print the version,
    fail, or run a command. *)
Inductive Decision_ : Type :=
| Usage (status : nat)
| Version (text : gostring)
| Fails (e : Failure)
| Runs (c : Command).

Section main.
(** The working directory, the effective user, and the files that exist. *)
Variables (wd : gostring) (euid : nat) (exists_file : gostring → bool).

(** The options each command is called with. *)
Definition command_of (f : Flags) (subcommand : gostring) : Command :=
  let absProjectDir := Abs wd (projectDir f) in
  let absWorkDir := Abs wd (workDir f) in
  let absOutputISO := Abs wd (outputISO f) in
  if str_eqb subcommand "cloud" then
    CmdCloud (MkCloud absProjectDir absWorkDir (insecureRegistry f) (skipPreflight f) false)
  else if str_eqb subcommand "iso" then
    CmdIso (MkIsoOptions absProjectDir absWorkDir absOutputISO [] [] (insecureRegistry f)
              (skipPreflight f) (noInstaller f))
  else
    CmdAll (MkAll absProjectDir absWorkDir absOutputISO (insecureRegistry f) (noInstaller f)).

(** The checks before a build. *)
Definition build_command (f : Flags) (subcommand : gostring) : Decision_ :=
  if negb (isValidSubcommand subcommand) then Fails (UnknownCommand subcommand)
  else
    let absProjectDir := Abs wd (projectDir f) in
    let configPath := path_join [absProjectDir; "config"; "config.hk"] in
    if negb (exists_file configPath) then
      Fails (NoConfigFile configPath absProjectDir subcommand)
    else if negb (Nat.eqb euid 0) then Fails NotRoot
    else Runs (command_of f subcommand).

(** [main] after the options. *)
Definition dispatch (f : Flags) : Decision_ :=
  match positional f with
  | [] => Usage 1
  | [s] =>
      if str_eqb s "clean" then
        if negb (Nat.eqb euid 0) then Fails CleanNotRoot
        else Runs (CmdClean (Abs wd (workDir f)) (Abs wd (outputISO f)) (cleanAll f))
      else build_command f s
  | [b; s] =>
      if str_eqb b "build" then build_command f s else Fails (WrongArguments 2)
  | l => Fails (WrongArguments (length l))
  end.

Definition decide_main (args : list gostring) : Decision_ :=
  match parse_args args flags0 with
  | Parsed_flags f => dispatch f
  | Parsed_help => Usage 0
  | Parsed_version => Version ("hackeros-builder " ++ version)
  | Parsed_fail e => Fails e
  end.
End main.

(** ** Output *)

(** The format of [printUsage], where [b] sets a heading. *)
Definition usage_lines (b : gostring → gostring) : list gostring :=
  [b "hackeros-builder" ++ " " ++ version ++ " -- budowanie niemutowalnych obrazow Debiana (OCI/bootc-style)";
   "";
   b "Uzycie:";
   "  hackeros-builder [opcje] build <cloud|iso|all>";
   "  hackeros-builder [opcje] <cloud|iso|all>          (forma skrocona, bez `build`)";
   "  hackeros-builder clean                            Usun katalog roboczy (--workdir).";
   "  hackeros-builder clean --all                      Jak wyzej + usun wynikowy plik .iso (--output).";
   "";
   b "Komendy:";
   "  build cloud          Zbuduj rootfs (debootstrap + hooks + package-lists)";
   "                        i wypchnij go jako obraz OCI do registry.";
   "  build iso             Sciagnij obraz OCI z registry i zbuduj z niego";
   "                        hybrydowy obraz ISO (bootowalny BIOS+UEFI), gotowy";
   "                        do instalacji -- boot startuje PROSTO w graficzny";
   "                        instalator (Calamares), bez posredniego pulpitu live.";
   "  build all              Wykonaj 'build cloud', nastepnie 'build iso'.";
   "  clean                  Usun katalog roboczy (rootfs/oci-push/iso-build/...).";
   "  clean --all             Jak 'clean', plus usun wynikowy plik .iso.";
   "";
   b "Opcje globalne:";
   "  -v, --verbose            Wlacz logi DEBUG.";
   "  -p, --project <dir>      Katalog projektu (musi zawierac 'config/config.hk').";
   "                           Domyslnie: katalog biezacy.";
   "  -w, --workdir <dir>      Katalog roboczy na pliki tymczasowe.";
   "                           Domyslnie: ./hackeros-build-work";
   "                           UWAGA: rownolegle buildy MUSZA uzywac roznych";
   "                           --workdir -- ten sam katalog jest chroniony";
   "                           lockiem (flock) i drugi build poczeka/odmowi.";
   "  -o, --output <plik>      Sciezka wynikowego pliku .iso (tylko dla 'build iso'";
   "                           i 'build all'). Domyslnie: ./output.iso";
   "  --insecure-registry      Wylacz weryfikacje TLS przy polaczeniu z registry";
   "                           OCI. Uzyj TYLKO dla self-signed/wewnetrznych";
   "                           registry testowych -- nigdy w produkcji.";
   "  --skip-preflight         Pomin sprawdzenie dostepnosci wymaganych narzedzi";
   "                           (debootstrap, mksquashfs, grub-mkrescue, ...) na";
   "                           starcie. Przydatne w CI gdzie te sprawdzenie jest";
   "                           juz zrobione osobno.";
   "  --no-installer           (tylko 'build iso'/'build all') Nie wstrzykuj";
   "                           graficznego instalatora (Calamares) do ISO --";
   "                           wynikowy obraz to czyste live-medium bez kreatora";
   "                           instalacji.";
   "  --all                    (tylko 'clean') Usun rowniez plik wyjsciowy .iso,";
   "                           nie tylko katalog roboczy.";
   "  -h, --help               Wyswietl ta pomoc i wyjdz.";
   "  -V, --version             Wyswietl wersje i wyjdz.";
   "";
   b "Struktura projektu (identyczna jak live-build, plus config/config.hk):";
   "  config/";
   "    config.hk                      <- WYMAGANE: konto, token, wersja Debiana";
   "    package-lists/*.list.chroot";
   "    hooks/normal/*.hook.chroot";
   "    includes.chroot/...";
   "    archives/*.list.chroot";
   "    archives/*.key.chroot";
   "";
   "Wszystkie komendy 'build' wymagaja uprawnien roota (debootstrap, chroot, mount)."].

(** What [main], [fail] and [runClean] print themselves; the flows' log lines
    are not among it.  The texts of the system's errors and of those of the
    parts the flows call are arguments. *)
Section output.
Variables (isTerminal : bool) (IsPrint : N → bool).
Variables (file_error : gostring → gostring) (value_error : gostring) (part_error : PartError → gostring).
Variable system_error : gostring → errno → gostring.

Definition printUsage : gostring := text (usage_lines (Bold isTerminal)).

Definition failure_message (e : Failure) : gostring :=
  match e with
  | MissingValue option => "opcja " ++ option ++ " wymaga argumentu"
  | CleanNotRoot => "hackeros-builder clean wymaga uprawnien roota (pliki w katalogu roboczym sa wlasnoscia roota)"
  | WrongArguments n =>
      "nieprawidlowa liczba argumentow (" ++ dec_of_N (N.of_nat n)
      ++ ") -- oczekiwano 'build <cloud|iso|all>' albo skroconej formy '<cloud|iso|all>'. Zobacz --help."
  | UnknownCommand s =>
      "nieznana komenda " ++ Quote IsPrint s
      ++ " -- poprawne opcje to: cloud, iso, all (z opcjonalnym prefiksem 'build'). Zobacz --help."
  | NoConfigFile configPath dir sub =>
      "nie znaleziono " ++ configPath ++ [NL]
      ++ "  Sprawdzane w katalogu projektu: " ++ dir ++ [NL]
      ++ "  Jesli odpalasz z wnetrza katalogu 'config/', wyjdz jeden poziom wyzej:" ++ [NL]
      ++ "    cd .. && sudo hackeros-builder " ++ sub ++ [NL]
      ++ "  albo wskaz katalog projektu explicite:" ++ [NL]
      ++ "    sudo hackeros-builder " ++ sub ++ " --project /sciezka/do/projektu"
  | NotRoot => "hackeros-builder wymaga uprawnien roota (debootstrap/chroot/mount)"
  | BuildFailed e => flow_error IsPrint file_error value_error part_error e
  | CannotRemove path isdir e =>
      "nie mozna usunac " ++ (if (isdir : bool) then "katalogu roboczego " else []) ++ path
      ++ ": " ++ system_error path e
  end.

(** The line [fail] writes to the error stream. *)
Definition fail_line (e : Failure) : gostring :=
  Colorize isTerminal ColorRed "hackeros-builder:" ++ " " ++ failure_message e ++ [NL].

(** What a command that succeeds prints last. *)
Definition success_lines (c : Command) (r : CloudResult) : gostring :=
  match c with
  | CmdClean _ _ all =>
      if all
      then Colorize isTerminal ColorGreen "Wyczyszczono (--all):" ++ " katalog roboczy i plik ISO" ++ [NL]
      else Colorize isTerminal ColorGreen "Wyczyszczono."
           ++ " (uzyj 'clean --all' by usunac rowniez wynikowy plik .iso)" ++ [NL]
  | CmdCloud _ =>
      NL :: Colorize isTerminal ColorGreen "Obraz OCI wypchniety:" ++ " " ++ Repository r ++ ":" ++ RTag r ++ [NL]
      ++ "Origin refspec dla deb-ostree: " ++ Refspec r ++ [NL]
  | CmdIso opts => NL :: Colorize isTerminal ColorGreen "ISO zbudowane:" ++ " " ++ io_OutputISO opts ++ [NL]
  | CmdAll opts =>
      NL :: Colorize isTerminal ColorGreen "Build all zakonczony." ++ " ISO: " ++ ao_OutputISO opts ++ [NL]
  end.
End output.

(** ** Clean *)

(** A removal, with the failure it is reported as. *)
Definition removing_path (path : gostring) (isdir : bool) (m : FsM unit) : ST fsys Failure unit := λ f,
  let '(r, f') := m f in (map_error (CannotRemove path isdir) r, f').

Definition runClean (absWorkDir absOutputISO : gostring) (all : bool) : ST fsys Failure unit := λ f,
  ((if ok (Stat f absWorkDir) then removing_path absWorkDir true (RemoveAll absWorkDir)
    else st_ret tt) ;;
   if negb all then st_ret tt
   else λ f1,
     (if ok (Stat f1 absOutputISO) then removing_path absOutputISO false (Remove absOutputISO)
      else st_ret tt) f1) f.

(** ** Running a command *)

(** The exit status of a run. *)
Definition exit_status {E A : Type} (r : res E A) : nat :=
  match r with Ok _ => 0 | Err _ => 1 | _ => 2 end.

(** Names that are gone from the disk no longer lead to a file that is locked. *)
Definition forget (f : fsys) (w : world) : world :=
  World (filter (λ e, ok (Lstat f e.1) = true) (inodes w)) (contents w) (locks w) (opened w).

Section run.
Context `{External, TarGz, Registry, MapOrder} (http : gostring → response) (pid : nat).

#[local] Instance program_system : Services := system http.

Definition run_flow {A : Type} (m : ST bstate BuildError A) (s : bstate) : nat * bstate :=
  let '(r, s') := m s in (exit_status r, s').

Definition run_command (c : Command) (s : bstate) : nat * bstate :=
  match c with
  | CmdClean dir iso all =>
      let '(r, f) := runClean dir iso all (sfiles (bhost s)) in
      let m := smachine (bhost s) in
      (exit_status r,
       BState (forget f (bworld s)) (SysState (Machine f (menv m) (mlog m)) (sregistry (bhost s)))
         (trace s))
  | CmdCloud opts => run_flow (BuildCloud cwd pid opts) s
  | CmdIso opts => run_flow (BuildIso cwd opts) s
  | CmdAll opts => run_flow (BuildAll cwd pid opts) s
  end.

Definition main (euid : nat) (args : list gostring) (s : bstate) : nat * bstate :=
  match decide_main cwd euid (λ p, ok (Stat (sfiles (bhost s)) p)) args with
  | Usage status => (status, s)
  | Version _ => (0, s)
  | Fails _ => (1, s)
  | Runs c => run_command c s
  end.
End run.

(** ** The options *)

Definition no_exit (p : Parsed) : option Flags :=
  match p with Parsed_flags f => Some f | _ => None end.

(** Arguments that leave no option waiting for its value can be split off. *)
Lemma parse_args_app pre post f f' :
  parse_args pre f = Parsed_flags f' → parse_args (pre ++ post) f = parse_args post f'.
Proof.
  remember (length pre) as n eqn:En. revert pre f En.
  induction n as [n IH] using lt_wf_ind. intros [|a pre] f ->; cbn [app parse_args].
  { by intros [= ->]. }
  destruct (classify a); try done.
  - apply (IH (length pre)); [simpl; lia|done].
  - destruct pre as [|v pre]; [done|]. cbn [app]. apply (IH (length pre)); [simpl; lia|done].
  - apply (IH (length pre)); [simpl; lia|done].
Qed.

Definition with_positional (l : list gostring) (f : Flags) : Flags :=
  MkFlags (verboseFlag f) (projectDir f) (workDir f) (outputISO f) (insecureRegistry f)
    (skipPreflight f) (noInstaller f) (cleanAll f) l.

(** Options do not look at the positional arguments collected so far. *)
Lemma parse_args_positional args l f :
  parse_args args (with_positional (l ++ positional f) f) =
    match parse_args args f with
    | Parsed_flags f' => Parsed_flags (with_positional (l ++ positional f') f')
    | r => r
    end.
Proof.
  remember (length args) as n eqn:En. revert args f En.
  induction n as [n IH] using lt_wf_ind. intros [|a args] f ->; cbn [parse_args]; [done|].
  assert (Hval : ∀ v g set, set = set_project ∨ set = set_workdir ∨ set = set_output →
     set v (with_positional (l ++ positional g) g) =
       with_positional (l ++ positional (set v g)) (set v g)).
  { intros v g set Hset. destruct g. by destruct Hset as [-> | [-> | ->]]. }
  unfold classify.
  repeat match goal with |- context [if ?b then _ else _] => destruct b end;
    try done; try (rewrite <- (IH (length args)); [by destruct f|simpl; lia|done]).
  - destruct args as [|v args]; [done|].
    rewrite Hval by tauto. apply (IH (length args)); [simpl; lia|done].
  - destruct args as [|v args]; [done|].
    rewrite Hval by tauto. apply (IH (length args)); [simpl; lia|done].
  - destruct args as [|v args]; [done|].
    rewrite Hval by tauto. apply (IH (length args)); [simpl; lia|done].
  - rewrite <- (IH (length args)); [|simpl; lia|done]. f_equal.
    unfold add_positional, with_positional. cbn. by rewrite app_assoc.
Qed.

(** ** Clean *)

(** What a successful [clean] removes. *)
Definition removed (W I : path) (all : bool) (q : path) : Prop :=
  q = W ∨ below W q ∨ all = true ∧ q = I.

#[export] Instance removed_dec W I all q : Decision (removed W I all q).
Proof. unfold removed. apply _. Defined.

(** The tree without that. *)
Definition cleaned (W I : path) (all : bool) (f f' : fsys) : Prop :=
  files f' = files f ∧
  ∀ q, dents f' !! q =
    if decide (removed W I all q) then None else dents f !! q.

Lemma Stat_child f p c :
  Forall name_ok p → name_ok c → real_dir f p → (∀ t, dents f !! (p ++ [c]) ≠ Some (DSym t)) →
  Stat f (abs_path (p ++ [c])) =
    match dents f !! (p ++ [c]) with Some d => Ok d | None => Err ENOENT end.
Proof.
  intros Hp Hc Hr Hs. unfold Stat, lookup_at. rewrite resolve_child by (try done; by right).
  cbn [res_bind]. by destruct p.
Qed.

(** Nothing is found where the entry was removed, whatever else was. *)
Lemma Stat_gone f f' p c :
  Forall name_ok p → name_ok c → real_dir f p → (∀ t, dents f !! (p ++ [c]) ≠ Some (DSym t)) →
  dents f' ⊆ dents f → dents f' !! (p ++ [c]) = None →
  ok (Stat f' (abs_path (p ++ [c]))) = false.
Proof.
  intros Hp Hc Hr Hs Hsub Hn. destruct (Stat f' _) as [d| | |] eqn:E; try done.
  apply (lookup_shrunk f) in E as (q & Hq & H); [|done].
  rewrite resolve_child in Hq by (try done; by right). injection Hq as <-.
  destruct H as [[H _]|[_ H]]; [by destruct p|congruence].
Qed.

Lemma cleaned_subset W I all f f' : cleaned W I all f f' → dents f' ⊆ dents f.
Proof.
  intros [_ Hd]. apply map_subseteq_spec. intros q d. rewrite Hd. intros E. case_decide; [discriminate E|exact E].
Qed.

Section cleaning.
Context (f : fsys) (wp : path) (wc : gostring) (ip : path) (ic : gostring).
Context (Hwf : wf_fs f) (Hwp : Forall name_ok wp) (Hwc : name_ok wc).
Context (Hip : Forall name_ok ip) (Hic : name_ok ic).
Context (Rw : real_dir f wp) (Ri : real_dir f ip).
Context (Sw : ∀ t, dents f !! (wp ++ [wc]) ≠ Some (DSym t)).
Context (Si : ∀ t, dents f !! (ip ++ [ic]) ≠ Some (DSym t)).

(** Nothing lies below a path that is not there. *)
Lemma absent_below p q : dents f !! p = None → p ≠ [] → below p q → dents f !! q = None.
Proof.
  intros Hn Hne (c & r & ->). revert c. induction r as [|x r IH] using rev_ind; intros c.
  - apply eq_None_not_Some. intros [->|(m & o & E)]%(wf_parent f Hwf); [done|congruence].
  - apply eq_None_not_Some. intros Hx. specialize (IH c).
    change (p ++ c :: r ++ [x]) with (p ++ (c :: r) ++ [x]) in Hx. rewrite app_assoc in Hx.
    apply (wf_parent f Hwf) in Hx as [Hx|(m & o & E)]; [by destruct p|congruence].
Qed.

Lemma clean_workdir f1 :
  (if ok (Stat f (abs_path (wp ++ [wc])))
   then removing_path (abs_path (wp ++ [wc])) true (RemoveAll (abs_path (wp ++ [wc])))
   else st_ret tt) f = (Ok tt, f1) →
  cleaned (wp ++ [wc]) (ip ++ [ic]) false f f1.
Proof.
  rewrite Stat_child by done. destruct (dents f !! (wp ++ [wc])) as [d|] eqn:Ed; cbn [ok].
  - unfold removing_path, RemoveAll, lift_fs. rewrite resolve_child by (try done; by left).
    destruct (wp ++ [wc]) as [|c p] eqn:Ep; [by destruct wp|]. cbn [map_error]. intros [= <-].
    split; [done|]. intros q. rewrite prune_lookup. apply decide_ext. unfold removed. naive_solver.
  - intros [= <-]. split; [done|]. intros q. case_decide as Hq; [|done].
    destruct Hq as [->|[Hq|[? _]]]; [done| |done]. eapply absent_below; [done| |done]. by destruct wp.
Qed.

(** What is kept keeps the directories above it. *)
Lemma above_kept f1 :
  (∀ q, dents f1 !! q =
     if decide (removed (wp ++ [wc]) (ip ++ [ic]) false q) then None else dents f !! q) →
  is_Some (dents f1 !! (ip ++ [ic])) → real_dir f1 ip.
Proof.
  intros Hd Hi q Hq [r Hr]. destruct (Ri q Hq) as (m & o & E); [by exists r|]. exists m, o.
  rewrite Hd. case_decide as Hw; [exfalso|exact E].
  rewrite Hd in Hi. case_decide as Hw'; [by destruct Hi|]. apply Hw'. right; left. subst ip.
  destruct Hw as [->|[(c & r' & ->)|[? _]]]; [| |done].
  - destruct r as [|x r]; [exists ic, []|exists x, (r ++ [ic])]; by rewrite <- ?app_assoc, ?app_nil_r.
  - exists c, (r' ++ r ++ [ic]). by rewrite <- !app_assoc.
Qed.

Lemma runClean_cleaned all f' :
  runClean (abs_path (wp ++ [wc])) (abs_path (ip ++ [ic])) all f = (Ok tt, f') →
  cleaned (wp ++ [wc]) (ip ++ [ic]) all f f'.
Proof.
  unfold runClean. intros (u & f1 & H1 & H2)%st_bind_Ok. destruct u.
  apply clean_workdir in H1. destruct all; cbn [negb] in H2; [|by injection H2 as <-].
  pose proof (cleaned_subset _ _ _ _ _ H1) as Hsub. destruct H1 as [Hf Hd].
  destruct (dents f1 !! (ip ++ [ic])) as [d|] eqn:Ei.
  - assert (Ri1 : real_dir f1 ip) by (apply (above_kept f1); [done|by rewrite Ei]).
    assert (Hs : ∀ t, dents f1 !! (ip ++ [ic]) ≠ Some (DSym t)).
    { intros t E. apply (Si t). by eapply lookup_weaken. }
    rewrite Stat_child, Ei in H2 by done. cbn [ok] in H2.
    unfold removing_path, Remove, lift_fs in H2.
    rewrite resolve_child in H2 by (try done; by left). cbn [res_bind] in H2. rewrite Ei in H2.
    destruct (is_dir d && _); cbn [map_error] in H2; [done|]. injection H2 as <-.
    split; [done|]. intros q. cbn [dents set_dents].
    destruct (decide (q = ip ++ [ic])) as [->|Hq].
    + rewrite lookup_delete_eq, decide_True; [done|]. right; right. done.
    + rewrite lookup_delete_ne, Hd by done. apply decide_ext. unfold removed. naive_solver.
  - rewrite (Stat_gone f) in H2 by done. injection H2 as <-. split; [done|]. intros q.
    destruct (decide (q = ip ++ [ic])) as [->|].
    + rewrite Ei, decide_True; [done|]. right; right. done.
    + rewrite Hd. apply decide_ext. unfold removed. naive_solver.
Qed.
End cleaning.

(** ** Claims *)

(** C36.  A successful [clean] removes exactly the working directory with
    everything below it, and with --all also the ISO file, leaves every other
    entry and every file's content alone, and running it again succeeds and
    changes nothing. *)
Theorem clean_removes f wp wc ip ic all f' :
  let W := wp ++ [wc] in
  let I := ip ++ [ic] in
  wf_fs f → Forall name_ok W → Forall name_ok I → real_dir f wp → real_dir f ip →
  (∀ t, dents f !! W ≠ Some (DSym t)) → (∀ t, dents f !! I ≠ Some (DSym t)) →
  runClean (abs_path W) (abs_path I) all f = (Ok tt, f') →
  cleaned W I all f f' ∧ runClean (abs_path W) (abs_path I) all f' = (Ok tt, f').
Proof.
  intros W I Hwf [Hwp [Hwc _]%Forall_cons_1]%Forall_app [Hip [Hic _]%Forall_cons_1]%Forall_app
    Rw Ri Sw Si Hrun.
  pose proof (runClean_cleaned f wp wc ip ic Hwf Hwp Hwc Hip Hic Rw Ri Sw Si all f' Hrun) as Hc.
  split; [done|]. pose proof (cleaned_subset _ _ _ _ _ Hc) as Hsub. destruct Hc as [_ Hd].
  unfold runClean, st_bind, W, I in *.
  rewrite (Stat_gone f f' wp wc) by (try done; rewrite Hd, decide_True; unfold removed; auto).
  cbn [st_ret]. destruct all; cbn [negb]; [|done].
  by rewrite (Stat_gone f f' ip ic) by (try done; rewrite Hd, decide_True; unfold removed; auto).
Qed.

Definition work_fs : fsys :=
  Fs (list_to_map
        [(["w"], DDir 493 0); (["w"; "rootfs"], DDir 493 0); (["w"; ".hackeros-builder.lock"], DFile 1);
         (["w2"], DDir 493 0); (["w2"; "keep"], DFile 2); (["out.iso"], DFile 3)])
     (list_to_map [(1, Inode "7" 420 0); (2, Inode "k" 420 0); (3, Inode "iso" 420 0)]).

Lemma real_dir_root f : real_dir f [].
Proof. intros q Hq [r Hr]. by destruct q. Qed.

Lemma clean_removes_witness :
  ∃ f', runClean "/w" "/out.iso" true f' = (Ok tt, f') ∧
    dents f' !! ["w2"; "keep"] = Some (DFile 2) ∧ dents f' !! ["w"; "rootfs"] = None.
Proof.
  destruct (runClean "/w" "/out.iso" true work_fs) as [r f'] eqn:E.
  assert (Er : r = Ok tt) by (apply (f_equal fst) in E; vm_compute in E; by rewrite <- E).
  subst r. exists f'.
  destruct (clean_removes work_fs [] "w" [] "out.iso" true f') as [[_ Hd] Hagain].
  - apply wf_entries, (bool_decide_unpack _). vm_compute. exact I.
  - by repeat constructor.
  - by repeat constructor.
  - apply real_dir_root.
  - apply real_dir_root.
  - intros t. vm_compute. discriminate.
  - intros t. vm_compute. discriminate.
  - exact E.
  - split; [exact Hagain|]. rewrite !Hd. split; vm_compute; reflexivity.
Defined.

Lemma classify_valid c : isValidSubcommand c = true → classify c = KPositional.
Proof.
  unfold isValidSubcommand. cbn [existsb validSubcommands].
  intros [E|[E|[E|E]%orb_prop]%orb_prop]%orb_prop; try done; apply str_eqb_eq in E; by subst.
Qed.

(** The word [build] is optional before a command: with options anywhere
    around it, [build c] and [c] lead to the same decision. *)
Theorem build_prefix_optional wd euid ex pre post c f :
  isValidSubcommand c = true →
  parse_args pre flags0 = Parsed_flags f → positional f = [] →
  (∀ g, parse_args post f = Parsed_flags g → positional g = []) →
  decide_main wd euid ex (pre ++ "build" :: c :: post) = decide_main wd euid ex (pre ++ c :: post).
Proof.
  intros Hc Hpre Hf Hpost. unfold decide_main.
  rewrite !(parse_args_app pre _ flags0 f) by done.
  cbn [parse_args]. rewrite (classify_valid c Hc). cbn [classify existsb str_eqb].
  assert (E : classify "build" = KPositional) by reflexivity. rewrite E.
  assert (E2 : add_positional c (add_positional "build" f) =
                 with_positional (["build"; c] ++ positional f) f).
  { unfold add_positional, with_positional. cbn. by rewrite Hf. }
  assert (E1 : add_positional c f = with_positional ([c] ++ positional f) f).
  { unfold add_positional, with_positional. cbn. by rewrite Hf. }
  rewrite E2, E1, !parse_args_positional.
  destruct (parse_args post f) as [g| | |]; try done. rewrite (Hpost g) by done.
  unfold dispatch. cbn [positional with_positional app].
  replace (str_eqb c "clean") with false; [done|]. symmetry. apply str_eqb_neq. by intros ->.
Qed.

Lemma build_prefix_optional_witness :
  decide_main "/p" 0 (λ _, true) ["-w"; "/w"; "build"; "cloud"; "--skip-preflight"] =
    Runs (CmdCloud (MkCloud "/p" "/w" false true false)).
Proof.
  refine (eq_trans (build_prefix_optional "/p" 0 (λ _, true) ["-w"; "/w"] ["--skip-preflight"]
                      "cloud" (set_workdir "/w" flags0) eq_refl eq_refl eq_refl _) _).
  - intros g [= <-]. reflexivity.
  - vm_compute. reflexivity.
Defined.

Lemma dispatch_runs wd euid ex f c :
  dispatch wd euid ex f = Runs c →
  euid = 0 ∧
  (positional f = ["clean"] ∨
   ex (path_join [Abs wd (projectDir f); "config"; "config.hk"]) = true ∧
   ∃ sub, isValidSubcommand sub = true ∧ c = command_of wd f sub ∧
          (positional f = [sub] ∨ positional f = ["build"; sub])).
Proof.
  assert (Hb : ∀ sub, build_command wd euid ex f sub = Runs c →
    euid = 0 ∧ ex (path_join [Abs wd (projectDir f); "config"; "config.hk"]) = true ∧
    isValidSubcommand sub = true ∧ c = command_of wd f sub).
  { intros sub. unfold build_command. destruct (isValidSubcommand sub), (ex _),
      (Nat.eqb_spec euid 0); cbn [negb]; try done. intros [= <-]. by split_and!. }
  unfold dispatch. destruct (positional f) as [|b [|s [|? ?]]]; try done.
  - destruct (str_eqb_spec b "clean") as [->|Hne].
    + destruct (Nat.eqb_spec euid 0); cbn [negb]; [|done]. auto.
    + intros (? & ? & ? & ?)%Hb. split; [done|right]. split; [done|]. exists b. auto.
  - destruct (str_eqb_spec b "build") as [->|]; [|done].
    intros (? & ? & ? & ?)%Hb. split; [done|right]. split; [done|]. exists s. auto.
Qed.

Lemma forget_ok f w : host_ok w → host_ok (forget f w).
Proof.
  intros (Hin & Hlk & Hop). unfold forget, host_ok. cbn [inodes contents locks opened].
  split_and!; [|done..]. intros p i [Hp _]%map_lookup_filter_Some. eauto.
Qed.

(** What [clean] leaves of a working directory: nothing of its name or of its
    lock file, and the way free to make both again. *)
Lemma clean_frees `{External} f wp wc iso m o :
  let dir := abs_path (wp ++ [wc]) in
  wf_fs f → Forall name_ok (wp ++ [wc]) → dents f !! (wp ++ [wc]) = Some (DDir m o) →
  ∃ f', runClean dir iso false f = (Ok tt, f') ∧
    ok (Lstat f' (lockPath_of dir)) = false ∧ ok (fst (MkdirAll umask dir 493 f')) = true ∧
    can_open (snd (MkdirAll umask (Dir (lockPath_of dir)) 493 f')) (lockPath_of dir) = true.
Proof.
  intros dir Hwf HW Hd. pose proof HW as [Hwp [Hwc _]%Forall_cons_1]%Forall_app.
  assert (RW : real_dir f (wp ++ [wc])) by by eapply wf_real_dir.
  assert (Rw : real_dir f wp) by (eapply real_dir_prefix; [exact RW|by exists [wc]]).
  assert (Sw : ∀ t, dents f !! (wp ++ [wc]) ≠ Some (DSym t)) by congruence.
  assert (Hlock : name_ok lockFileName) by done.
  assert (Hpath : lockPath_of dir = abs_path ((wp ++ [wc]) ++ [lockFileName])).
  { unfold lockPath_of. apply join_names; [done|]. by constructor. }
  set (f' := prune (wp ++ [wc]) f).
  assert (Hrun : runClean dir iso false f = (Ok tt, f')).
  { unfold runClean, st_bind, dir. rewrite Stat_child, Hd by done. cbn [ok].
    unfold removing_path, RemoveAll, lift_fs. rewrite resolve_child by (try done; by left).
    unfold f'. by destruct (wp ++ [wc]) as [|c p] eqn:Ep; [destruct wp|]. }
  exists f'. split; [exact Hrun|].
  assert (Hkept : ∀ q, dents f' !! q =
    if decide (q = wp ++ [wc] ∨ below (wp ++ [wc]) q) then None else dents f !! q)
    by (intros q; apply prune_lookup).
  assert (Hsub : dents f' ⊆ dents f).
  { apply map_subseteq_spec. intros q d. rewrite Hkept. intros E. case_decide; [discriminate E|exact E]. }
  assert (Rw' : real_dir f' wp).
  { apply (real_dir_mono f); [done|]. intros q [r Hq]. rewrite Hkept, decide_False; [done|].
    intros [E|(c & r' & E)]; rewrite E in Hq; apply (f_equal length) in Hq;
      rewrite !length_app in Hq; simpl in Hq; lia. }
  assert (Hgone : dents f' !! (wp ++ [wc]) = None) by (rewrite Hkept, decide_True; [done|by left]).
  assert (Hgone' : dents f' !! ((wp ++ [wc]) ++ [lockFileName]) = None).
  { rewrite Hkept, decide_True; [done|]. right. by exists lockFileName, []. }
  assert (Hmk := MkdirAll_new umask f' wp wc 493 Hwp Hwc Rw' Hgone).
  split_and!.
  - rewrite Hpath. destruct (Lstat f' _) as [d| | |] eqn:E; try done. exfalso.
    apply (lookup_shrunk f) in E as (q & Hq & Hcase); [|done].
    rewrite resolve_child in Hq by (try done; by left). injection Hq as <-.
    destruct Hcase as [[E _]|[_ E]]; [by destruct wp|congruence].
  - unfold dir. by rewrite Hmk.
  - rewrite Hpath, Dir_abs by done. rewrite Hmk. cbn [snd]. unfold can_open.
    set (f1 := set_dents _ f').
    assert (Hnone : dents f1 !! ((wp ++ [wc]) ++ [lockFileName]) = None).
    { unfold f1. cbn [dents set_dents]. rewrite lookup_insert_ne; [done|].
      intros E. apply (f_equal length) in E. rewrite !length_app in E. simpl in E. lia. }
    rewrite resolve_child; [by rewrite Hnone; destruct wp|done|done| |right; congruence].
    apply (real_dir_snoc f1 wp wc (dir_mode umask 493) 0).
    + apply (real_dir_sub f'); [|done]. unfold f1. cbn [dents set_dents]. by apply insert_subseteq.
    + unfold f1. cbn [dents set_dents]. by rewrite lookup_insert_eq.
Qed.

Section program.
Context `{External, TarGz, Registry, MapOrder} (http : gostring → response) (pid : nat).
#[local] Instance program : Services := system http.

(** C35.  The program changes nothing on the machine unless it runs as root with
    a well-formed command line that asks either to clean or to build, with one
    of the three commands, a project whose config/config.hk exists. *)
Theorem main_guarded euid args s :
  snd (main http pid euid args s) ≠ s →
  euid = 0 ∧ ∃ f, parse_args args flags0 = Parsed_flags f ∧
    (positional f = ["clean"] ∨
     ok (Stat (sfiles (bhost s)) (path_join [Abs cwd (projectDir f); "config"; "config.hk"])) = true ∧
     ∃ sub, isValidSubcommand sub = true ∧
            (positional f = [sub] ∨ positional f = ["build"; sub])).
Proof.
  unfold main, decide_main. destruct (parse_args args flags0) as [f| | |] eqn:Ep; try done.
  destruct (dispatch cwd euid _ f) as [| | |c] eqn:Ed; try done. intros _.
  apply dispatch_runs in Ed as (-> & Hd). split; [done|]. exists f. split; [done|].
  destruct Hd as [?|(Hex & sub & Hs & _ & Hpos)]; [by left|right].
  split; [done|]. by exists sub.
Qed.

(** C39.  A clean breaks the exclusion of builds: run while a process
    holds the lock of the working directory, so that every other attempt to
    acquire it is refused as busy, it succeeds all the same, and afterwards
    every other process acquires the directory although the first one has not
    let go of its lock. *)
Theorem clean_breaks_exclusion wp wc iso s m o i fd q :
  let W := wp ++ [wc] in
  let dir := abs_path W in
  wf_fs (sfiles (bhost s)) → Forall name_ok W → dents (sfiles (bhost s)) !! W = Some (DDir m o) →
  host_ok (bworld s) → inodes (bworld s) !! lockPath_of dir = Some i → locks (bworld s) !! i = Some fd →
  fst (Acquire (λ _, true) (λ _, true) q dir (bworld s)) = Err (Busy dir (lockPath_of dir)) ∧
  let '(status, s') := run_command http pid (CmdClean dir iso false) s in
  status = 0 ∧
  ∃ l w', Acquire (mkdirOk (bhost s')) (openOk (bhost s')) q dir (bworld s') = (Ok l, w') ∧
    lock_path l = lockPath_of dir ∧ file l ≠ Some fd ∧ locks w' !! i = Some fd.
Proof.
  intros W dir Hwf HW Hd Hw Hi Hl.
  split; [by rewrite (Acquire_busy _ _ q dir (bworld s) i fd)|].
  destruct (clean_frees _ wp wc iso m o Hwf HW Hd) as (f' & Hrun & Hgone & Hmk & Hopen).
  unfold run_command. match goal with |- context [runClean ?a ?b ?c ?d] =>
    replace (runClean a b c d) with (Ok (E := Failure) tt, f') by (symmetry; exact Hrun) end.
  cbn [exit_status]. split; [done|]. cbn [bhost bworld]. set (w' := forget f' (bworld s)).
  assert (Hw' : host_ok w') by by apply forget_ok.
  assert (Hn : inodes w' !! lockPath_of dir = None).
  { apply eq_None_not_Some. intros [j Hj]. apply map_lookup_filter_Some in Hj as [_ Hj].
    cbn [fst] in Hj. change (ok (Lstat f' (lockPath_of dir)) = false) in Hgone.
    rewrite Hgone in Hj. discriminate Hj. }
  match goal with |- context [Acquire ?mk ?op q dir _] =>
    destruct (Acquire_free mk op q dir w' Hw' Hmk Hopen Hn) as (l & w2 & E) end.
  exists l, w2. split; [exact E|].
  destruct (Acquire_ok _ _ q dir w' l w2 Hw' E) as (fd' & i' & -> & Hfd & _ & Hi' & Hlk & _).
  cbn [lock_path file]. change (opened w') with (opened (bworld s)) in Hfd.
  change (locks w') with (locks (bworld s)) in Hi', Hlk. split; [done|]. split.
  - intros [= ->]. destruct Hw as (_ & Hop & _). apply Hop in Hl. congruence.
  - rewrite Hlk, lookup_insert_ne; [done|]. congruence.
Qed.

(** When a tool is missing, [build all] stops before doing anything,
    whatever the options: --skip-preflight, which [build cloud] and [build iso]
    honour, has no effect on it. *)
Theorem all_always_checks f msg (s : bstate) :
  CheckAll (lookPath (bhost s)) = Some msg →
  run_command http pid (command_of cwd f "all") s = (1, s) ∧
  command_of cwd (set_skip f) "all" = command_of cwd f "all" ∧
  (∃ o, command_of cwd (set_skip f) "cloud" = CmdCloud o ∧ co_SkipPreflight o = true) ∧
  ∃ o, command_of cwd (set_skip f) "iso" = CmdIso o ∧ io_SkipPreflight o = true.
Proof.
  intros Hc. split_and!; [|done|by eexists|by eexists].
  assert (E : command_of cwd f "all" =
    CmdAll (MkAll (Abs cwd (projectDir f)) (Abs cwd (workDir f)) (Abs cwd (outputISO f))
              (insecureRegistry f) (noInstaller f))) by reflexivity.
  rewrite E. unfold run_command, run_flow. by rewrite (BuildAll_refused _ _ _ s msg Hc).
Qed.
End program.

(** ** A small machine *)

#[local] Existing Instance sample_targz.
#[local] Existing Instance sample_registry.
#[local] Existing Instance plain_order.
#[local] Existing Instance small_external.
#[local] Existing Instance small_system.

Definition all_args : list gostring := ["build"; "all"; "-w"; "/w"; "-o"; "/out/x.iso"; "--no-installer"].

Definition whole_run : nat * bstate := main small_http 7 0 all_args (start all_tools).

Definition file_after (name : gostring) : res errno gostring :=
  ReadFile (sfiles (bhost (snd whole_run))) name.

(** A whole [build all], from config.hk to the ISO: it succeeds, releases the
    lock, and the kernel debootstrap installed has come through the registry
    onto the ISO, in a system whose origin is the pushed image. *)
Example whole_run_succeeds :
  fst whole_run = 0 ∧
  locks (bworld (snd whole_run)) = ∅ ∧
  file_after "/w/.hackeros-builder.lock" = Ok ("7" ++ [NL]) ∧
  file_after "/w/iso-build/iso-tree/live/vmlinuz" = Ok ("kernel" : gostring) ∧
  file_after "/w/rootfs-from-cloud/usr/bin/deb-ostree" = Ok ("deb-ostree elf" : gostring) ∧
  file_after "/w/rootfs-from-cloud/etc/deb-ostree/deb-ostree.hk" =
    Ok (spec_serialize (debostree_tree (origin_params "ghcr.io/michal/moj-projekt" "latest"))).
Proof. do 5 (refine (conj _ _); [vm_compute; reflexivity|]). vm_compute. reflexivity. Qed.

Definition missing_report : gostring := default [] (CheckAll (λ _, false)).

Example bare_machine : CheckAll (lookPath (bhost (start []))) = Some missing_report.
Proof. vm_compute. reflexivity. Qed.

Lemma all_always_checks_witness :
  run_command small_http 1 (command_of cwd (set_skip flags0) "all") (start []) = (1, start []).
Proof.
  exact (proj1 (all_always_checks small_http 1 (set_skip flags0) missing_report (start []) bare_machine)).
Defined.

Lemma main_guarded_witness :
  0 = 0 ∧ ∃ f, parse_args ["clean"; "-w"; "/bin"] flags0 = Parsed_flags f.
Proof.
  destruct (main_guarded small_http 1 0 ["clean"; "-w"; "/bin"] (start [])) as (? & f & ? & _).
  - intros E. apply (f_equal (λ s : @bstate small_system, ok (Stat (sfiles (bhost s)) "/bin"))) in E.
    vm_compute in E. discriminate E.
  - split; [assumption|]. exists f. assumption.
Defined.

(** A build of process 1 in /w. *)
Definition building : BuildLock.system := acquired 1 "/w" system0.

Definition busy_state : bstate :=
  BState (BuildLock.host building) (SysState (Machine work_fs ∅ []) ∅) [].

Lemma clean_breaks_exclusion_witness :
  ∃ s' l w' fd, snd (run_command small_http 2 (CmdClean "/w" "/out.iso" false) busy_state) = s' ∧
    Acquire (mkdirOk (bhost s')) (openOk (bhost s')) 3 "/w" (bworld s') = (Ok l, w') ∧
    held building !! 1 = Some (MkLock (Some fd) "/w/.hackeros-builder.lock") ∧
    lock_path l = "/w/.hackeros-builder.lock" ∧ file l ≠ Some fd.
Proof.
  destruct (clean_breaks_exclusion small_http 2 [] "w" "/out.iso" busy_state 493 0 0 0 3) as [_ Hc].
  - apply wf_entries, (bool_decide_unpack _). vm_compute. exact I.
  - by repeat constructor.
  - vm_compute. reflexivity.
  - refine (proj2 (proj2 (reachable_inv yes yes building _))).
    apply rtc_once, (step_acquire yes yes world0 ∅ 1 "/w"); vm_compute; reflexivity.
  - vm_compute. reflexivity.
  - vm_compute. reflexivity.
  - destruct (run_command small_http 2 (CmdClean (abs_path ([] ++ ["w"])) "/out.iso" false) busy_state)
      as [st s'] eqn:E. destruct Hc as (_ & l & w' & Ha & Hp & Hf & _). exists s', l, w', 0.
    split; [exact (f_equal snd E)|]. split; [exact Ha|]. split; [vm_compute; reflexivity|].
    split; [exact Hp|exact Hf].
Defined.

(** ** The usage text *)

(** The options a line of the usage text introduces: its words that start with a
    dash, if it starts with one at the second column. *)
Definition listed_options (line : gostring) : list gostring :=
  if HasPrefix line "  -"
  then List.filter (λ w : gostring, HasPrefix w "-" && negb (str_eqb w "--"))
         (Fields (map (λ c, if Ascii.eqb c "," then " "%char else c) line))
  else [].

Definition usage_options : list gostring := concat (map listed_options (usage_lines id)).

Definition positional_kind (k : option_kind) : bool :=
  match k with KPositional => true | _ => false end.

(** The usage text lists exactly the options [main] knows, the word help apart. *)
Lemma usage_lists_options a :
  positional_kind (classify a) = false ↔ a ∈ usage_options ∨ a = "help".
Proof.
  assert (E : usage_options = ["-v"; "--verbose"; "-p"; "--project"; "-w"; "--workdir"; "-o";
    "--output"; "--insecure-registry"; "--skip-preflight"; "--no-installer"; "--all"; "-h";
    "--help"; "-V"; "--version"]) by (vm_compute; reflexivity).
  rewrite E. split.
  - unfold classify. cbn [existsb].
    repeat match goal with |- context [str_eqb a ?w] =>
      destruct (str_eqb_spec a w) as [->|];
        [intros _; apply (bool_decide_unpack _); vm_compute; exact I|cbn [orb]] end. done.
  - intros [Ha | ->]; [|done].
    repeat (apply elem_of_cons in Ha as [-> | Ha]; [vm_compute; reflexivity|]).
    by apply not_elem_of_nil in Ha.
Qed.
